(** * python-colorspace: a shallow embedding of [colorlib.py] and [palettes.py]

    The development follows the layout of the Python sources:

    - [NumPy]      the few numpy/Python primitives the code relies on, over
                   IEEE binary64 numbers (Rocq's primitive [float]);
    - [colorlib]   the pairwise transformation functions of class [colorlib];
    - [colorobject] the color objects, their constructors, [to], [colors],
                   the other methods, and [compare_colors];
    - [palettes]   the constructor of the diverging HCL palette of
                   [palettes.py]; the text validation of
                   [choose_palette.py] ([Slider]);
    - [Store]      numpy arrays as mutable objects, for the functions that
                   write into their argument;
    - the notions used to state the properties, and the properties, with
      the facts about binary64 rounding ([FloatFacts]) that the hue and
      the hex encoding need.

    Floating-point values are Rocq's primitive binary64 floats, so every
    definition computes exactly what numpy computes for [+], [-], [*], [/],
    [sqrt] and the comparisons.  The transcendental functions of the C math
    library ([np.power], [np.arctan2], [np.cos], [np.sin]) have no counterpart
    in Rocq: they are the fields of the class [Libm], and every definition that
    needs them takes an instance. *)

From Stdlib Require Import ZArith List String Ascii Bool Lia.
From Stdlib Require Import Floats.
Import ListNotations.

Set Warnings "-inexact-float".

#[local] Open Scope string_scope.
#[local] Open Scope list_scope.
#[local] Open Scope float_scope.

(* ================================================================== *)
(** * Exceptions and results *)
(* ================================================================== *)

(** The exceptions the modelled code raises.  The three [Exception(...)]
    messages of [colorobject] are told apart by a constructor each. *)
Inductive exn : Type :=
| ValueError (msg : string)
| TypeError (msg : string)
| OverflowError
| IndexError
| KeyError (key : string)
| UnboundLocalError (name : string)
| UnknownTransformation (from_ to : string)   (* [_check_if_allowed_] *)
| CannotConvert (from_ to : string)           (* [_cannot] *)
| AmbiguousConversion (from_ to : string)     (* [_ambiguous] *)
| NonTermination.                             (* a loop ran out of fuel *)

Inductive result (A : Type) : Type :=
| Ok (a : A)
| Raise (e : exn).

Arguments Ok {A} a.
Arguments Raise {A} e.

Definition rbind {A B : Type} (r : result A) (k : A -> result B) : result B :=
  match r with
  | Ok a => k a
  | Raise e => Raise e
  end.

Notation "x <- c1 ;; c2" := (rbind c1 (fun x => c2))
  (at level 61, c1 at next level, right associativity).
Notation "' pat <- c1 ;; c2" := (rbind c1 (fun x => match x with pat => c2 end))
  (at level 61, pat pattern, c1 at next level, right associativity).

Fixpoint mapM {A B : Type} (f : A -> result B) (l : list A) : result (list B) :=
  match l with
  | [] => Ok []
  | x :: l' => y <- f x ;; ys <- mapM f l' ;; Ok (y :: ys)
  end.

(* ================================================================== *)
(** * The numpy and Python primitives *)
(* ================================================================== *)

Module NumPy.

(** A one-dimensional [numpy.ndarray] of dtype float64. *)
Definition arr : Type := list float.

Definition zip3 {A B C : Type} (a : list A) (b : list B) (c : list C)
  : list (A * B * C) := combine (combine a b) c.

Definition map2 {A B C : Type} (f : A -> B -> C) (a : list A) (b : list B)
  : list C := map (fun p => f (fst p) (snd p)) (combine a b).

Definition map3 {A B C D : Type} (f : A -> B -> C -> D)
  (a : list A) (b : list B) (c : list C) : list D :=
  map (fun p => f (fst (fst p)) (snd (fst p)) (snd p)) (zip3 a b c).

(** [np.pi] *)
Definition pi : float := 3.141592653589793.

(** [np.nan] *)
Definition nan : float := PrimFloat.nan.

(** [np.finfo(float).eps] *)
Definition finfo_eps : float := 0x1p-52.

(** [x > y] and [x >= y] on floats, [x != y]. *)
Definition gtb (x y : float) : bool := y <? x.
Definition geb (x y : float) : bool := y <=? x.
Definition neqb (x y : float) : bool := negb (x =? y).

(** [np.maximum] / [np.minimum] on two scalars: NaN propagates. *)
Definition np_maximum (a b : float) : float :=
  if (b <=? a) || is_nan a then a else b.
Definition np_minimum (a b : float) : float :=
  if (a <=? b) || is_nan a then a else b.

(** [np.max] and [np.min] of a non-empty array (a reduction from its first
    element); numpy raises [ValueError] on an empty one. *)
Definition np_max (a : arr) : result float :=
  match a with
  | [] => Raise (ValueError "zero-size array to reduction operation maximum which has no identity")
  | x :: a' => Ok (fold_left np_maximum a' x)
  end.
Definition np_min (a : arr) : result float :=
  match a with
  | [] => Raise (ValueError "zero-size array to reduction operation minimum which has no identity")
  | x :: a' => Ok (fold_left np_minimum a' x)
  end.

(** [np.min([r, g, b])], [np.max([r, g, b])] *)
Definition min3 (r g b : float) : float := np_minimum (np_minimum r g) b.
Definition max3 (r g b : float) : float := np_maximum (np_maximum r g) b.

(** [np.fmax]: the maximum that ignores a NaN operand. *)
Definition np_fmax (a b : float) : float :=
  if is_nan a then b else if is_nan b then a else if a <? b then b else a.

(** Python's [len] of a list or array. *)
Definition len {A : Type} (l : list A) : nat := List.length l.

(** [np.repeat(x, n)] of a scalar. *)
Definition np_repeat (x : float) (n : nat) : arr := repeat x n.

(** The integer a float denotes when its fraction is dropped (towards zero),
    and its floor; [None] on NaN and the infinities. *)
Definition trunc_Z (x : float) : option Z :=
  match Prim2SF x with
  | S754_zero _ => Some 0%Z
  | S754_finite s m e => Some (cond_Zopp s (Z.shiftl (Zpos m) e))
  | _ => None
  end.
Definition floor_Z (x : float) : option Z :=
  match Prim2SF x with
  | S754_zero _ => Some 0%Z
  | S754_finite s m e => Some (Z.shiftl (cond_Zopp s (Zpos m)) e)
  | _ => None
  end.

(** An integer as a float64 (rounded to nearest when it has more than 53
    bits). *)
Definition of_Z (z : Z) : float := SF2Prim (binary_normalize prec emax z 0 false).

(** [np.floor] *)
Definition np_floor (x : float) : float :=
  match Prim2SF x with
  | S754_finite s m e =>
      if (0 <=? e)%Z then x
      else match floor_Z x with
           | Some z => if (z =? 0)%Z then (if s then (-0) else 0) else of_Z z
           | None => x
           end
  | _ => x
  end.

(** [(i % 2) == 0] for a float [i] *)
Definition mod2_is_zero (i : float) : bool :=
  match Prim2SF i with
  | S754_zero _ => true
  | S754_finite s m e => if (0 <? e)%Z then true else
      match Z.shiftl (Zpos m) e with
      | Z0 => false
      | z => Z.even z && (Z.shiftl z (- e) =? Zpos m)%Z
      end
  | _ => false
  end.

(** [np.asarray(x, dtype = int)] on one element: truncation; a NaN or an
    infinity becomes the smallest int64 (what the cast gives on x86-64). *)
Definition astype_int (x : float) : Z :=
  match trunc_Z x with
  | Some z => z
  | None => (- 2 ^ 63)%Z
  end.

(** Python's [int(x)] of a float. *)
Definition py_int (x : float) : result Z :=
  match Prim2SF x with
  | S754_nan => Raise (ValueError "cannot convert float NaN to integer")
  | S754_infinity _ => Raise OverflowError
  | _ => Ok (astype_int x)
  end.

(** A numpy array as the objects store it: float64 values, or fixed-width
    unicode strings (dtype [<Uw]); an item assigned to a unicode array is cut
    to the array's width. *)
Inductive ndarray : Type :=
| Float64 (a : arr)
| Unicode (width : nat) (a : list string).

(** Python's slice [x[i:j]] of a string. *)
Definition slice (i j : nat) (x : string) : string := substring i (j - i) x.

(** ** Characters and number formatting *)

Definition char_between (lo hi : nat) (c : ascii) : bool :=
  let n := nat_of_ascii c in Nat.leb lo n && Nat.leb n hi.

(** [[0-9]] and [[0-9A-Fa-f]] *)
Definition is_dec_digit (c : ascii) : bool := char_between 48 57 c.
Definition is_hex_digit (c : ascii) : bool :=
  char_between 48 57 c || char_between 65 70 c || char_between 97 102 c.

Definition hex_digit_value (c : ascii) : option Z :=
  let n := Z.of_nat (nat_of_ascii c) in
  if char_between 48 57 c then Some (n - 48)%Z
  else if char_between 65 70 c then Some (n - 55)%Z
  else if char_between 97 102 c then Some (n - 87)%Z
  else None.

(** [int(s, 16)] for a string of hex digits. *)
Fixpoint int16_from (acc : Z) (s : string) : result Z :=
  match s with
  | EmptyString => Ok acc
  | String c s' =>
      match hex_digit_value c with
      | Some d => int16_from (16 * acc + d)%Z s'
      | None => Raise (ValueError "invalid literal for int() with base 16")
      end
  end.
Definition int16 (s : string) : result Z :=
  match s with
  | EmptyString => Raise (ValueError "invalid literal for int() with base 16")
  | _ => int16_from 0%Z s
  end.

Definition digit_char (upper : bool) (d : N) : ascii :=
  if (d <? 10)%N then ascii_of_N (48 + d)
  else ascii_of_N ((if upper then 55 else 87) + d).

(** The digits of [n] in [base], most significant first. *)
Fixpoint digits_from (fuel : nat) (base n : N) (acc : string) : string :=
  match fuel with
  | O => acc
  | S fuel' =>
      let acc := String (digit_char true (n mod base)) acc in
      if (n / base =? 0)%N then acc else digits_from fuel' base (n / base) acc
  end.
Definition digits (base n : N) : string :=
  digits_from (S (N.to_nat (N.log2 n))) base n EmptyString.

(** [{:02X}] and [{:02d}]: the sign, then the digits padded with zeros to a
    total width of two. *)
Definition format_02 (base : N) (z : Z) : string :=
  let d := digits base (Z.abs_N z) in
  if (z <? 0)%Z then String "-" d
  else if Nat.ltb (String.length d) 2 then String "0" d else d.
Definition format_02X (z : Z) : string := format_02 16 z.
Definition format_02d (z : Z) : string := format_02 10 z.

Definition newline : ascii := ascii_of_nat 10.

(** Python's [str.upper] on ASCII text (hex colors are ASCII). *)
Definition upper_char (c : ascii) : ascii :=
  if char_between 97 122 c then ascii_of_nat (nat_of_ascii c - 32) else c.

Fixpoint upper (s : string) : string :=
  match s with
  | EmptyString => EmptyString
  | String c s' => String (upper_char c) (upper s')
  end.

End NumPy.
Import NumPy.

(** What the embedding takes from the C library: the math functions numpy
    calls, and the decimal text of a float that is not a NaN (Python's
    [str]). *)
Class Libm : Type := {
  np_power : float -> float -> float;
  np_arctan2 : float -> float -> float;
  np_cos : float -> float;
  np_sin : float -> float;
  float_repr : float -> string
}.

(** A [Libm] for the worked examples, with the leading terms of the
    functions: [x ** 1.5] as [x * sqrt x] (correctly rounded at 0, 0.5 and
    1), [arctan2 y x] as [y / x] and [sin x] as [x] (which is what the C
    library returns for a tiny [y / x] with [x > 0], and a tiny [x]). *)
Definition leading_terms : Libm := {|
  np_power := fun x y => if y =? 1.5 then x * PrimFloat.sqrt x else x;
  np_arctan2 := fun y x => y / x;
  np_cos := fun _ => 1;
  np_sin := fun x => x;
  float_repr := fun _ => "0.0"
|}.

(* ================================================================== *)
(** * Class [colorlib]: the pairwise transformations *)
(* ================================================================== *)

Module colorlib.

Section Transformations.
Context {libm : Libm}.

(** [_KAPPA], [_EPSILON] and the default white point [XN], [YN], [ZN]. *)
Definition _KAPPA : float := 24389.0 / 27.0.
Definition _EPSILON : float := 216.0 / 24389.0.
Definition XN_default : float := 95.047.
Definition YN_default : float := 100.000.
Definition ZN_default : float := 108.883.

Definition DEG2RAD (x : float) : float := pi / 180 * x.
Definition RAD2DEG (x : float) : float := 180 / pi * x.

(** Python's truth value of a float: [not x] holds for [0.0] and [-0.0]. *)
Definition truthy (x : float) : bool := negb (x =? 0).

(** A white point component as a caller may give it: [None], a float, an
    int, a list of floats or an array of floats. *)
Inductive white_arg : Type :=
| WNone
| WFloat (x : float)
| WInt (z : Z)
| WList (l : arr)
| WArray (a : arr).

(** A component as [_get_white_] returns it: a list stays a list unless it
    is repeated, everything else is an array. *)
Inductive white_seq : Type :=
| AsList (l : arr)
| AsArray (a : arr).

Definition seq_values (s : white_seq) : arr :=
  match s with AsList l => l | AsArray a => a end.

Definition is_list (s : white_seq) : bool :=
  match s with AsList _ => true | AsArray _ => false end.

(** Python's truth value of a component, for [if not XN]: [None], zero, the
    empty list and the empty array are false (the last with a deprecation
    warning, in the numpy versions up to 2.1); an array of one element has
    the truth value of the element; an array of more elements has none. *)
Definition white_truth (w : white_arg) : result bool :=
  match w with
  | WNone => Ok false
  | WFloat x => Ok (truthy x)
  | WInt z => Ok (negb (z =? 0)%Z)
  | WList l => Ok (negb (Nat.eqb (len l) 0))
  | WArray [] => Ok false
  | WArray [x] => Ok (truthy x)
  | WArray _ =>
      Raise (ValueError "The truth value of an array with more than one element is ambiguous")
  end.

(** [if not XN: XN = self.XN] and [if isinstance(XN, float): XN =
    np.asarray([XN])], once the truth value is known. *)
Definition white_default (default : float) (t : bool) (w : white_arg) : white_arg :=
  if t then match w with WFloat x => WArray [x] | _ => w end
  else WArray [default].

(** [if len(XN) == 1 and not len(XN) == n: XN = np.repeat(XN, n)] *)
Definition white_expand (n : nat) (w : white_arg) : result white_seq :=
  match w with
  | WNone => Raise (TypeError "object of type 'NoneType' has no len()")
  | WFloat _ => Raise (TypeError "object of type 'float' has no len()")
  | WInt _ => Raise (TypeError "object of type 'int' has no len()")
  | WList l =>
      Ok match l with
         | [x] => if Nat.eqb 1 n then AsList l else AsArray (np_repeat x n)
         | _ => AsList l
         end
  | WArray a =>
      Ok match a with
         | [x] => if Nat.eqb 1 n then AsArray a else AsArray (np_repeat x n)
         | _ => AsArray a
         end
  end.

(** [_get_white_].  The three truth values are taken first, then the three
    lengths, then the lengths are compared with [n].  (The test "Checking
    type" applies [np.all] to a generator, which is true whatever the
    generator yields, and never raises.) *)
Definition _get_white_ (n : nat) (XN YN ZN : white_arg)
  : result (white_seq * white_seq * white_seq) :=
  tx <- white_truth XN ;;
  ty <- white_truth YN ;;
  tz <- white_truth ZN ;;
  XN <- white_expand n (white_default XN_default tx XN) ;;
  YN <- white_expand n (white_default YN_default ty YN) ;;
  ZN <- white_expand n (white_default ZN_default tz ZN) ;;
  if forallb (fun x => Nat.eqb (len (seq_values x)) n) [XN; YN; ZN]
  then Ok (XN, YN, ZN)
  else Raise (ValueError "Inputs XN/YN/ZN have to be of the same length.").

(** [_check_input_arrays_]: all arrays have the length of the first.  On a
    mismatch the code builds its message with [kwargs.keys()[i]], which is a
    [TypeError] in Python 3, so that is the exception raised. *)
Definition _check_input_arrays_ (lengths : list nat) : result unit :=
  match lengths with
  | [] => Ok tt
  | l0 :: _ =>
      if forallb (Nat.eqb l0) lengths then Ok tt
      else Raise (TypeError "'dict_keys' object is not subscriptable")
  end.

(** A [gamma] argument: a Python float or an array. *)
Inductive gamma_arg : Type :=
| GammaFloat (g : float)
| GammaArray (g : arr).

(** The "Input check" of [gtrans], [ftrans], [sRGB_to_RGB], [RGB_to_sRGB]:
    a float becomes a one-element array, and a one-element array is repeated
    to the length of [u]. *)
Definition recycle_gamma (gamma : gamma_arg) (n : nat) : arr :=
  let g := match gamma with GammaFloat x => [x] | GammaArray a => a end in
  match g with
  | [x] => if Nat.eqb 1 n then g else np_repeat x n
  | _ => g
  end.

(** The two branches of the gamma correction, on one element. *)
Definition gtrans1 (val gamma : float) : float :=
  if gtb val 0.00304 then 1.055 * np_power val (1 / gamma) - 0.055
  else 12.92 * val.

Definition ftrans1 (val gamma : float) : float :=
  if gtb val 0.03928 then np_power ((val + 0.055) / 1.055) gamma
  else val / 12.92.

(** [gtrans] and [ftrans] as functions of the contents of [u]: the values the
    returned array holds.  (The code writes them into [u] itself; module
    [Store] below models that.) *)
Definition gtrans (u : arr) (gamma : gamma_arg) : result arr :=
  let gamma := recycle_gamma gamma (len u) in
  _ <- _check_input_arrays_ [len u; len gamma] ;;
  Ok (map2 gtrans1 u gamma).

Definition ftrans (u : arr) (gamma : gamma_arg) : result arr :=
  let gamma := recycle_gamma gamma (len u) in
  _ <- _check_input_arrays_ [len u; len gamma] ;;
  Ok (map2 ftrans1 u gamma).

Definition sRGB_to_RGB (R G B : arr) (gamma : gamma_arg) : result (arr * arr * arr) :=
  let gamma := recycle_gamma gamma (len R) in
  _ <- _check_input_arrays_ [len R; len G; len B; len gamma] ;;
  R' <- ftrans R (GammaArray gamma) ;;
  G' <- ftrans G (GammaArray gamma) ;;
  B' <- ftrans B (GammaArray gamma) ;;
  Ok (R', G', B').

Definition RGB_to_sRGB (R G B : arr) (gamma : gamma_arg) : result (arr * arr * arr) :=
  let gamma := recycle_gamma gamma (len R) in
  _ <- _check_input_arrays_ [len R; len G; len B; len gamma] ;;
  R' <- gtrans R (GammaArray gamma) ;;
  G' <- gtrans G (GammaArray gamma) ;;
  B' <- gtrans B (GammaArray gamma) ;;
  Ok (R', G', B').

(** ** CIE-XYZ <-> RGB *)

Definition RGB_to_XYZ (R G B : arr) (XN YN ZN : white_arg)
  : result (arr * arr * arr) :=
  let n := len R in
  '(XN, YN, ZN) <- _get_white_ n XN YN ZN ;;
  let YN := seq_values YN in
  _ <- _check_input_arrays_ [len R; len G; len B] ;;
  Ok (map2 (fun yn p => let '(r, g, b) := p in
              yn * (0.412453 * r + 0.357580 * g + 0.180423 * b)) YN (zip3 R G B),
      map2 (fun yn p => let '(r, g, b) := p in
              yn * (0.212671 * r + 0.715160 * g + 0.072169 * b)) YN (zip3 R G B),
      map2 (fun yn p => let '(r, g, b) := p in
              yn * (0.019334 * r + 0.119193 * g + 0.950227 * b)) YN (zip3 R G B)).

Definition XYZ_to_RGB (X Y Z : arr) (XN YN ZN : white_arg)
  : result (arr * arr * arr) :=
  let n := len X in
  '(XN, YN, ZN) <- _get_white_ n XN YN ZN ;;
  let YN := seq_values YN in
  _ <- _check_input_arrays_ [len X; len Y; len Z] ;;
  Ok (map2 (fun yn p => let '(x, y, z) := p in
              (3.240479 * x - 1.537150 * y - 0.498535 * z) / yn) YN (zip3 X Y Z),
      map2 (fun yn p => let '(x, y, z) := p in
              (-0.969256 * x + 1.875992 * y + 0.041556 * z) / yn) YN (zip3 X Y Z),
      map2 (fun yn p => let '(x, y, z) := p in
              (0.055648 * x - 0.204043 * y + 1.057311 * z) / yn) YN (zip3 X Y Z)).

(** ** CIE-XYZ <-> CIE-LAB *)

(** The loops of [LAB_to_XYZ], on one element.  The loops index the white
    point with the tuples of [np.ndenumerate], which a Python list does not
    take. *)
Definition LAB_to_XYZ_Y (val yn : float) : float :=
  if val <=? 0 then 0
  else if val <=? 8.0 then val * yn / _KAPPA
  else if val <=? 100 then yn * np_power ((val + 16) / 116) 3
  else yn.

Definition LAB_to_XYZ_fy (val yn : float) : float :=
  if val <=? _EPSILON * yn then (_KAPPA / 116) * val / yn + 16 / 116
  else np_power (val / yn) (1 / 3).

Definition LAB_to_XYZ_XZ (val wn : float) : float :=
  if np_power val 3 <=? _EPSILON then wn * (val - 16 / 116) / (_KAPPA / 116)
  else wn * np_power val 3.

Definition LAB_to_XYZ (L A B : arr) (XN YN ZN : white_arg)
  : result (arr * arr * arr) :=
  let n := len L in
  '(XN, YN, ZN) <- _get_white_ n XN YN ZN ;;
  _ <- _check_input_arrays_ [len L; len A; len B] ;;
  _ <- (if negb (Nat.eqb n 0) && (is_list XN || is_list YN || is_list ZN)
        then Raise (TypeError "list indices must be integers or slices, not tuple")
        else Ok tt) ;;
  let XN := seq_values XN in
  let YN := seq_values YN in
  let ZN := seq_values ZN in
  let Y := map2 LAB_to_XYZ_Y L YN in
  let fy := map2 LAB_to_XYZ_fy Y YN in
  let fx := map2 (fun f a => f + a / 500) fy A in
  let X := map2 LAB_to_XYZ_XZ fx XN in
  let fz := map2 (fun f b => f - b / 200) fy B in
  let Z := map2 LAB_to_XYZ_XZ fz ZN in
  Ok (X, Y, Z).

(** The support function [f] of [XYZ_to_LAB], on one element. *)
Definition XYZ_to_LAB_f (val : float) : float :=
  if gtb val _EPSILON then np_power val (1 / 3)
  else (_KAPPA / 116) * val + 16 / 116.

Definition XYZ_to_LAB_L (val : float) : float :=
  if gtb val _EPSILON then 116 * np_power val (1 / 3) - 16
  else _KAPPA * val.

Definition XYZ_to_LAB (X Y Z : arr) (XN YN ZN : white_arg)
  : result (arr * arr * arr) :=
  let n := len X in
  '(XN, YN, ZN) <- _get_white_ n XN YN ZN ;;
  let XN := seq_values XN in
  let YN := seq_values YN in
  let ZN := seq_values ZN in
  _ <- _check_input_arrays_ [len X; len Y; len Z] ;;
  let xr := map2 PrimFloat.div X XN in
  let yr := map2 PrimFloat.div Y YN in
  let zr := map2 PrimFloat.div Z ZN in
  let L := map XYZ_to_LAB_L yr in
  let xt := map XYZ_to_LAB_f xr in
  let yt := map XYZ_to_LAB_f yr in
  let zt := map XYZ_to_LAB_f zr in
  Ok (L, map2 (fun x y => 500 * (x - y)) xt yt, map2 (fun y z => 200 * (y - z)) yt zt).

(** ** Cartesian <-> polar *)

(** [while val > 360.: val -= 360.] and [while val < 0.: val += 360.]; the
    loops have no bound of their own, so the model counts their steps and
    reports [NonTermination] when [fuel] of them were not enough. *)
Fixpoint while_gt_360 (fuel : nat) (val : float) : result float :=
  match fuel with
  | O => Raise NonTermination
  | S fuel' => if gtb val 360 then while_gt_360 fuel' (val - 360) else Ok val
  end.

Fixpoint while_lt_0 (fuel : nat) (val : float) : result float :=
  match fuel with
  | O => Raise NonTermination
  | S fuel' => if val <? 0 then while_lt_0 fuel' (val + 360) else Ok val
  end.

Definition wrap_hue (fuel : nat) (val : float) : result float :=
  val <- while_gt_360 fuel val ;; while_lt_0 fuel val.

Definition LAB_to_polarLAB (fuel : nat) (L A B : arr) : result (arr * arr * arr) :=
  _ <- _check_input_arrays_ [len L; len A; len B] ;;
  H <- mapM (wrap_hue fuel) (map2 (fun b a => RAD2DEG (np_arctan2 b a)) B A) ;;
  let C := map2 (fun a b => PrimFloat.sqrt (a * a + b * b)) A B in
  Ok (L, C, H).

Definition polarLAB_to_LAB (L C H : arr) : result (arr * arr * arr) :=
  _ <- _check_input_arrays_ [len L; len C; len H] ;;
  let A := map2 (fun h c => np_cos (DEG2RAD h) * c) H C in
  let B := map2 (fun h c => np_sin (DEG2RAD h) * c) H C in
  Ok (L, A, B).

Definition LUV_to_polarLUV (fuel : nat) (L U V : arr) : result (arr * arr * arr) :=
  _ <- _check_input_arrays_ [len L; len U; len V] ;;
  let C := map2 (fun u v => PrimFloat.sqrt (u * u + v * v)) U V in
  H <- mapM (wrap_hue fuel) (map2 (fun v u => RAD2DEG (np_arctan2 v u)) V U) ;;
  Ok (L, C, H).

Definition polarLUV_to_LUV (L C H : arr) : result (arr * arr * arr) :=
  _ <- _check_input_arrays_ [len L; len C; len H] ;;
  let H := map DEG2RAD H in
  Ok (L, map2 (fun c h => c * np_cos h) C H, map2 (fun c h => c * np_sin h) C H).

(** ** sRGB <-> HSV *)

Definition gethsv (r g b : float) : float * float * float :=
  let x := min3 r g b in
  let y := max3 r g b in
  if neqb y x then
    let f := if r =? x then g - b else if g =? x then b - r else r - g in
    let i := if r =? x then 3 else if g =? x then 5 else 1 in
    (60 * (i - f / (y - x)), (y - x) / y, y)
  else (0, 0, y).

Definition sRGB_to_HSV (r g b : arr) : result (arr * arr * arr) :=
  _ <- _check_input_arrays_ [len r; len g; len b] ;;
  let hsv := map3 gethsv r g b in
  Ok (map (fun t => fst (fst t)) hsv, map (fun t => snd (fst t)) hsv, map snd hsv).

(** [getrgb] of [HSV_to_sRGB].  [h == np.nan] is never true; when [i] is
    none of 0..6 the function falls off its end (the [Exception] is built
    but not raised) and the caller's [tmp[0]] fails on [None]. *)
Definition HSV_getrgb (h s v : float) : result (float * float * float) :=
  if h =? nan then Ok (v, v, v)
  else
    let h := h / 60 in
    let i := np_floor h in
    let f := h - i in
    let f := if mod2_is_zero i then 1 - f else f in
    let m := v * (1 - s) in
    let n := v * (1 - s * f) in
    if (i =? 0) || (i =? 6) then Ok (v, n, m)
    else if i =? 1 then Ok (n, v, m)
    else if i =? 2 then Ok (m, v, n)
    else if i =? 3 then Ok (m, n, v)
    else if i =? 4 then Ok (n, m, v)
    else if i =? 5 then Ok (v, m, n)
    else Raise (TypeError "'NoneType' object is not subscriptable").

Definition HSV_to_sRGB (h s v : arr) : result (arr * arr * arr) :=
  _ <- _check_input_arrays_ [len h; len s; len v] ;;
  rgb <- mapM (fun t => let '(h, s, v) := t in HSV_getrgb h s v) (zip3 h s v) ;;
  Ok (map (fun t => fst (fst t)) rgb, map (fun t => snd (fst t)) rgb, map snd rgb).

(** ** sRGB <-> HLS *)

(** [gethls]: [s] and [h] are assigned under conditions only; reading one
    that was not assigned is an [UnboundLocalError]. *)
Definition gethls (r g b : float) : result (float * float * float) :=
  let min := min3 r g b in
  let max := max3 r g b in
  let l := (max + min) / 2 in
  if neqb max min then
    let s := if l <? 0.5 then Some ((max - min) / (max + min))
             else if geb l 0.5 then Some ((max - min) / (2 - max - min))
             else None in
    let h := None in
    let h := if r =? max then Some ((g - b) / (max - min)) else h in
    let h := if g =? max then Some (2 + (b - r) / (max - min)) else h in
    let h := if b =? max then Some (4 + (r - g) / (max - min)) else h in
    match h with
    | None => Raise (UnboundLocalError "h")
    | Some h =>
        let h := h * 60 in
        let h := if h <? 0 then h + 360 else h in
        let h := if gtb h 360 then h - 360 else h in
        match s with
        | None => Raise (UnboundLocalError "s")
        | Some s => Ok (h, l, s)
        end
    end
  else Ok (0, l, 0).

Definition sRGB_to_HLS (r g b : arr) : result (arr * arr * arr) :=
  _ <- _check_input_arrays_ [len r; len g; len b] ;;
  hls <- mapM (fun t => let '(r, g, b) := t in gethls r g b) (zip3 r g b) ;;
  Ok (map (fun t => fst (fst t)) hls, map (fun t => snd (fst t)) hls, map snd hls).

Definition qtrans (q1 q2 hue : float) : float :=
  let hue := if gtb hue 360 then hue - 360 else hue in
  let hue := if hue <? 0 then hue + 360 else hue in
  if hue <? 60 then q1 + (q2 - q1) * hue / 60
  else if hue <? 180 then q2
  else if hue <? 240 then q1 + (q2 - q1) * (240 - hue) / 60
  else q1.

Definition HLS_getrgb (h l s : float) : float * float * float :=
  let p2 := if l <=? 0.5 then l * (1 + s) else l + s - (l * s) in
  let p1 := 2 * l - p2 in
  if s =? 0 then (l, l, l)
  else (qtrans p1 p2 (h + 120), qtrans p1 p2 h, qtrans p1 p2 (h - 120)).

Definition HLS_to_sRGB (h l s : arr) : result (arr * arr * arr) :=
  _ <- _check_input_arrays_ [len h; len l; len s] ;;
  let rgb := map3 HLS_getrgb h l s in
  Ok (map (fun t => fst (fst t)) rgb, map (fun t => snd (fst t)) rgb, map snd rgb).

(** ** CIE-XYZ <-> CIE-LUV *)

Definition XYZ_to_uv1 (X Y Z : float) : float * float :=
  let t := X + Y + Z in
  let x := if neqb t 0 then X / t else 0 in
  let y := if neqb t 0 then Y / t else 0 in
  (2.0 * x / (6 * y - x + 1.5), 4.5 * y / (6 * y - x + 1.5)).

Definition XYZ_to_uv (X Y Z : arr) : result (arr * arr) :=
  _ <- _check_input_arrays_ [len X; len Y; len Z] ;;
  let uv := map3 XYZ_to_uv1 X Y Z in
  Ok (map fst uv, map snd uv).

(** [XYZ_to_uv] on a white point as [_get_white_] returns it.  Where [X]
    and [Y] are Python lists, [X + Y] is their concatenation, which an array
    [Z] of another length than 1 does not broadcast to; and [X[idx]],
    [Y[idx]] index with a tuple, which a list does not take. *)
Definition XYZ_to_uv_white (X Y Z : white_seq) : result (arr * arr) :=
  _ <- _check_input_arrays_ [len (seq_values X); len (seq_values Y); len (seq_values Z)] ;;
  if is_list X && is_list Y && negb (is_list Z)
     && negb (Nat.eqb (len (seq_values X) + len (seq_values Y)) (len (seq_values Z)))
     && negb (Nat.eqb (len (seq_values X) + len (seq_values Y)) 1)
     && negb (Nat.eqb (len (seq_values Z)) 1)
  then Raise (ValueError "operands could not be broadcast together")
  else if is_list X || is_list Y
  then Raise (TypeError "list indices must be integers or slices, not tuple")
  else XYZ_to_uv (seq_values X) (seq_values Y) (seq_values Z).

Definition XYZ_to_LUV_L (val : float) : float :=
  if gtb val _EPSILON then 116 * np_power val (1 / 3) - 16 else _KAPPA * val.

Definition XYZ_to_LUV (X Y Z : arr) (XN YN ZN : white_arg)
  : result (arr * arr * arr) :=
  let n := len X in
  '(XN, YN, ZN) <- _get_white_ n XN YN ZN ;;
  _ <- _check_input_arrays_ [len X; len Y; len Z] ;;
  '(u, v) <- XYZ_to_uv X Y Z ;;
  '(uN, vN) <- XYZ_to_uv_white XN YN ZN ;;
  let YN := seq_values YN in
  let y := map2 PrimFloat.div Y YN in
  let L := map XYZ_to_LUV_L y in
  Ok (L,
      map3 (fun l u un => 13 * l * (u - un)) L u uN,
      map3 (fun l v vn => 13 * l * (v - vn)) L v vN).

(** [fun] of [LUV_to_XYZ]: does the element need the transformation? *)
Definition LUV_needs (L U V : float) : bool :=
  if (L <=? 0) && (U =? 0) && (V =? 0) then false else true.

Definition LUV_to_XYZ (L U V : arr) (XN YN ZN : white_arg)
  : result (arr * arr * arr) :=
  let n := len L in
  '(XN, YN, ZN) <- _get_white_ n XN YN ZN ;;
  _ <- _check_input_arrays_ [len L; len U; len V] ;;
  let zeros := np_repeat 0 (len L) in
  let idx := map3 LUV_needs L U V in
  if negb (existsb (fun b => b) idx) then Ok (zeros, zeros, zeros)
  else
    let Y := map3 (fun (needed : bool) l yn =>
                     if needed
                     then yn * (if gtb l 8 then np_power ((l + 16) / 116) 3
                                else l / _KAPPA)
                     else 0) idx L (seq_values YN) in
    let eps := finfo_eps * 10 in
    let L := map (np_fmax eps) L in
    '(uN, vN) <- XYZ_to_uv_white XN YN ZN ;;
    let u := map3 (fun u l un => u / (13 * l) + un) U L uN in
    let v := map3 (fun v l vn => v / (13 * l) + vn) V L vN in
    let X := map3 (fun y u v => 9.0 * y * u / (4 * v)) Y u v in
    let Z := map3 (fun x y v => - x / 3 - 5 * y + 3 * y / v) X Y v in
    Ok (X, Y, Z).

(** ** sRGB <-> hex *)

Definition rgbfixup1 (e : float) : float :=
  if is_finite e then np_maximum 0 (np_minimum 1 e) else nan.

Definition rgbcleanup1 (e : float) : float :=
  if geb e 0 && (e <=? 1) then e else nan.

(** [applyfun] of [gethex]: one row to its hex string. *)
Definition gethex1 (r g b : float) : string :=
  let x0 := astype_int (r * 255 + 0.5) in
  let x1 := astype_int (g * 255 + 0.5) in
  let x2 := astype_int (b * 255 + 0.5) in
  String "#" (format_02X x0 ++ format_02X x1 ++ format_02X x2)%string.

Definition is_some {A : Type} (o : option A) : bool :=
  match o with Some _ => true | None => false end.

(** [np.asarray] of a list of strings and [nan]s: strings alone give a
    unicode array as wide as the longest, [nan]s alone a float array, and
    a mix a unicode array of width 32 that spells the [nan]s out. *)
Definition asarray_str_or_nan (res : list (option string)) : ndarray :=
  if forallb (fun x => negb (is_some x)) res then Float64 (map (fun _ => nan) res)
  else if forallb is_some res
  then
    let strs := map (fun x => match x with Some s => s | None => EmptyString end) res in
    Unicode (fold_right Nat.max O (map String.length strs)) strs
  else Unicode 32%nat (map (fun x => match x with Some s => s | None => "nan" end) res).

(** [sRGB_to_hex].  The channels of one color object have one length; the
    product of the three [isfinite] masks fails on arrays that cannot be
    broadcast, which the model reports for any difference in length. *)
Definition sRGB_to_hex (r g b : arr) (fixup : bool) : result ndarray :=
  let fix1 := if fixup then rgbfixup1 else rgbcleanup1 in
  let r := map fix1 r in
  let g := map fix1 g in
  let b := map fix1 b in
  if negb (Nat.eqb (len r) (len g) && Nat.eqb (len g) (len b))
  then Raise (ValueError "operands could not be broadcast together")
  else
    let res := map3 (fun r g b =>
                       if is_finite r && is_finite g && is_finite b
                       then Some (gethex1 r g b) else None) r g b in
    Ok (asarray_str_or_nan res).

(** [validhex]: [re.match("^#[0-9A-Fa-f]{6}([0-9]{2})?$$", x)]; Python's [$]
    also matches before a newline that ends the string. *)
Definition validhex (x : string) : bool :=
  match list_ascii_of_string x with
  | c0 :: h1 :: h2 :: h3 :: h4 :: h5 :: h6 :: tl =>
      Ascii.eqb c0 "#" && forallb is_hex_digit [h1; h2; h3; h4; h5; h6] &&
      match tl with
      | [] => true
      | [d1] => Ascii.eqb d1 newline
      | [d1; d2] => is_dec_digit d1 && is_dec_digit d2
      | [d1; d2; d3] => is_dec_digit d1 && is_dec_digit d2 && Ascii.eqb d3 newline
      | _ => false
      end
  | _ => false
  end.

(** [getrgb] of [hex_to_sRGB], on one valid string. *)
Definition hex_getrgb (x : string) : result (float * float * float) :=
  r <- int16 (slice 1 3 x) ;;
  g <- int16 (slice 3 5 x) ;;
  b <- int16 (slice 5 7 x) ;;
  Ok (of_Z r / 255, of_Z g / 255, of_Z b / 255).

Definition hex_to_sRGB (hex_ : list string) : result (arr * arr * arr) :=
  rgb <- mapM (fun x => if validhex x then hex_getrgb x else Ok (nan, nan, nan)) hex_ ;;
  Ok (map (fun t => fst (fst t)) rgb, map (fun t => snd (fst t)) rgb, map snd rgb).

End Transformations.
End colorlib.

(* ================================================================== *)
(** * Class [colorobject] and its ten subclasses *)
(* ================================================================== *)

Module colorobject.
Import colorlib.

(** [self.__class__]: the ten color spaces. *)
Inductive cls : Type :=
| CIEXYZ | CIELUV | CIELAB | polarLUV | polarLAB
| RGB | sRGB | HSV | HLS | hexcols.

(** [self.__class__.__name__] *)
Definition __name__ (c : cls) : string :=
  match c with
  | CIEXYZ => "CIEXYZ" | CIELUV => "CIELUV" | CIELAB => "CIELAB"
  | polarLUV => "polarLUV" | polarLAB => "polarLAB"
  | RGB => "RGB" | sRGB => "sRGB" | HSV => "HSV" | HLS => "HLS"
  | hexcols => "hexcols"
  end.

Definition ALLOWED : list string :=
  ["CIEXYZ"; "CIELUV"; "CIELAB"; "polarLUV"; "polarLAB";
   "RGB"; "sRGB"; "HCL"; "HSV"; "HLS"; "hex"].

(** The dict [self._data_]: keys in insertion order; a value is an array or
    Python's [None]. *)
Definition dict : Type := list (string * option ndarray).

Fixpoint lookup (d : dict) (key : string) : option (option ndarray) :=
  match d with
  | [] => None
  | (k, v) :: d' => if String.eqb k key then Some v else lookup d' key
  end.

(** A color object: its class, its data, the white point and [GAMMA]. *)
Record colorobject : Type := {
  __class__ : cls;
  _data_ : dict;
  WHITEX : float;
  WHITEY : float;
  WHITEZ : float;
  GAMMA : float
}.

(** [x in l] for a list of strings and [x in s] for a string [s]. *)
Definition in_list (x : string) (l : list string) : bool := existsb (String.eqb x) l.

Fixpoint in_string (x s : string) : bool :=
  prefix x s || match s with
                | EmptyString => false
                | String _ s' => in_string x s'
                end.

(** ** The constructors *)

(** An argument of a constructor: [None], a number, or a list or array of
    numbers. *)
Inductive pyarg : Type :=
| PyNone
| PyNumber (x : float)
| PyList (l : arr).

(** The loop of [_colorobject_check_input_arrays_] over [kwargs]: [res] and
    [lengths] as they grow. *)
Fixpoint check_kwargs (self : cls) (kwargs : list (string * pyarg))
  (res : dict) (lengths : list nat) : result (dict * list nat) :=
  match kwargs with
  | [] => Ok (res, lengths)
  | (key, val) :: kwargs' =>
      if String.eqb key "alpha" && match val with PyNone => true | _ => false end
      then check_kwargs self kwargs' res lengths
      else
        match val with
        | PyNone => Raise (TypeError "object of type 'NoneType' has no len()")
        | PyNumber _ | PyList _ =>
            let val := match val with PyNumber x => [x] | PyList l => l | PyNone => [] end in
            _ <- match self with
                 | RGB | sRGB =>
                     m <- np_max val ;;
                     if gtb m 1 || (m <? 0)
                     then Raise (ValueError "values have to lie within [0., 1.]")
                     else Ok tt
                 | _ => Ok tt
                 end ;;
            check_kwargs self kwargs' (res ++ [(key, Some (Float64 val))])
                         (lengths ++ [len val])
        end
  end.

Definition _colorobject_check_input_arrays_ (self : cls)
  (kwargs : list (string * pyarg)) : result dict :=
  '(res, lengths) <- check_kwargs self kwargs [] [] ;;
  match lengths with
  | [] => Ok res
  | l0 :: _ =>
      if forallb (Nat.eqb l0) lengths then Ok res
      else Raise (ValueError "Arguments of different lengths")
  end.

(** What every [__init__] does after the check: store the data and call
    [set_whitepoint(X = 95.047, Y = 100.000, Z = 108.883)]; [GAMMA] is the
    class attribute 2.4. *)
Definition new_object (c : cls) (data : dict) : colorobject :=
  {| __class__ := c; _data_ := data;
     WHITEX := 95.047; WHITEY := 100.000; WHITEZ := 108.883; GAMMA := 2.4 |}.

Definition polarLUV__init__ (H C L alpha : pyarg) : result colorobject :=
  tmp <- _colorobject_check_input_arrays_ polarLUV
           [("H", H); ("C", C); ("L", L); ("alpha", alpha)] ;;
  Ok (new_object polarLUV tmp).

Definition CIELUV__init__ (L U V alpha : pyarg) : result colorobject :=
  tmp <- _colorobject_check_input_arrays_ CIELUV
           [("L", L); ("U", U); ("V", V); ("alpha", alpha)] ;;
  Ok (new_object CIELUV tmp).

Definition CIEXYZ__init__ (X Y Z alpha : pyarg) : result colorobject :=
  tmp <- _colorobject_check_input_arrays_ CIEXYZ
           [("X", X); ("Y", Y); ("Z", Z); ("alpha", alpha)] ;;
  Ok (new_object CIEXYZ tmp).

Definition RGB__init__ (R G B alpha : pyarg) : result colorobject :=
  tmp <- _colorobject_check_input_arrays_ RGB
           [("R", R); ("G", G); ("B", B); ("alpha", alpha)] ;;
  Ok (new_object RGB tmp).

Definition sRGB__init__ (R G B alpha : pyarg) (gamma : option float)
  : result colorobject :=
  tmp <- _colorobject_check_input_arrays_ sRGB
           [("R", R); ("G", G); ("B", B); ("alpha", alpha)] ;;
  let self := new_object sRGB tmp in
  Ok match gamma with
     | Some g => {| __class__ := __class__ self; _data_ := _data_ self;
                    WHITEX := WHITEX self; WHITEY := WHITEY self;
                    WHITEZ := WHITEZ self; GAMMA := g |}
     | None => self
     end.

Definition CIELAB__init__ (L A B alpha : pyarg) : result colorobject :=
  tmp <- _colorobject_check_input_arrays_ CIELAB
           [("L", L); ("A", A); ("B", B); ("alpha", alpha)] ;;
  Ok (new_object CIELAB tmp).

Definition polarLAB__init__ (L A B alpha : pyarg) : result colorobject :=
  tmp <- _colorobject_check_input_arrays_ polarLAB
           [("L", L); ("A", A); ("B", B); ("alpha", alpha)] ;;
  Ok (new_object polarLAB tmp).

Definition HSV__init__ (H S V alpha : pyarg) : result colorobject :=
  tmp <- _colorobject_check_input_arrays_ HSV
           [("H", H); ("S", S); ("V", V); ("alpha", alpha)] ;;
  Ok (new_object HSV tmp).

(** [HLS.__init__] hands [alpha = None] to the check, whatever its own
    [alpha] argument is. *)
Definition HLS__init__ (H L S alpha : pyarg) : result colorobject :=
  tmp <- _colorobject_check_input_arrays_ HLS
           [("H", H); ("L", L); ("S", S); ("alpha", PyNone)] ;;
  Ok (new_object HLS tmp).

(** ** [get], [hasalpha] *)

(** [get(dimname)] for a string [dimname]: a copy of the stored value;
    [None] for an alpha channel that was never defined. *)
Definition get (self : colorobject) (dimname : string) : result (option ndarray) :=
  match lookup (_data_ self) dimname with
  | Some v => Ok v
  | None =>
      if String.eqb dimname "alpha" then Ok None
      else Raise (ValueError "has no dimension")
  end.

(** [self.get("alpha")], which cannot raise. *)
Definition get_alpha (self : colorobject) : option ndarray :=
  match lookup (_data_ self) "alpha" with
  | Some v => v
  | None => None
  end.

Definition hasalpha (self : colorobject) : bool :=
  match lookup (_data_ self) "alpha" with
  | None => false
  | Some None => false
  | Some (Some _) => true
  end.

(** [length()]: the longest of the stored arrays. *)
Definition length (self : colorobject) : nat :=
  fold_right Nat.max O
    (map (fun kv => match snd kv with
                    | None => O
                    | Some (Float64 a) => len a
                    | Some (Unicode _ a) => len a
                    end) (_data_ self)).

(** ** The method [to] *)

Section Methods.
Context {libm : Libm}.

(** A method that returns nothing and works on [self] in place: the
    exception it raised, if any, and [self] as the call leaves it. *)
Definition meth : Type := colorobject -> option exn * colorobject.

Definition ret : meth := fun self => (None, self).

Definition andthen (m1 m2 : meth) : meth :=
  fun self =>
    match m1 self with
    | (None, self') => m2 self'
    | (Some e, self') => (Some e, self')
    end.

Definition _check_if_allowed_ (x : string) : meth :=
  fun self =>
    if in_list x ALLOWED then (None, self)
    else (Some (UnknownTransformation (__name__ (__class__ self)) x), self).

Definition _cannot (to : string) : meth :=
  fun self => (Some (CannotConvert (__name__ (__class__ self)) to), self).

Definition _ambiguous (to : string) : meth :=
  fun self => (Some (AmbiguousConversion (__name__ (__class__ self)) to), self).

(** [for v in via: self.to(v, fixup = fixup)]; [self_to] is the method [to]
    of whatever class [self] has at that moment. *)
Fixpoint _transform_via_path_ (self_to : string -> bool -> meth)
  (via : list string) (fixup : bool) : meth :=
  match via with
  | [] => ret
  | v :: via' => andthen (self_to v fixup) (_transform_via_path_ self_to via' fixup)
  end.

(** [self._data_ = data; self.__class__ = c], once [data] was computed from
    [self]; an exception while computing it leaves [self] as it was. *)
Definition become (c : cls) (data : colorobject -> result dict) : meth :=
  fun self =>
    match data self with
    | Ok d => (None, {| __class__ := c; _data_ := d;
                        WHITEX := WHITEX self; WHITEY := WHITEY self;
                        WHITEZ := WHITEZ self; GAMMA := GAMMA self |})
    | Raise e => (Some e, self)
    end.

(** A stored value handed to a function of [colorlib] that computes with
    it: [None] and arrays of strings fail there. *)
Definition as_float64 (v : option ndarray) : result arr :=
  match v with
  | Some (Float64 a) => Ok a
  | Some (Unicode _ _) => Raise (TypeError "ufunc not supported for the input types")
  | None => Raise (TypeError "object of type 'NoneType' has no len()")
  end.

(** [f(self.get(k1), self.get(k2), self.get(k3))] *)
Definition call3 {T : Type} (self : colorobject) (k1 k2 k3 : string)
  (f : arr -> arr -> arr -> result T) : result T :=
  v1 <- get self k1 ;; v2 <- get self k2 ;; v3 <- get self k3 ;;
  a1 <- as_float64 v1 ;; a2 <- as_float64 v2 ;; a3 <- as_float64 v3 ;;
  f a1 a2 a3.

(** [{k1 : a1, k2 : a2, k3 : a3, "alpha" : self.get("alpha")}] *)
Definition dict3 (self : colorobject) (k1 k2 k3 : string) (a : arr * arr * arr) : dict :=
  let '(a1, a2, a3) := a in
  [(k1, Some (Float64 a1)); (k2, Some (Float64 a2)); (k3, Some (Float64 a3));
   ("alpha", get_alpha self)].

Definition white (self : colorobject) : white_arg * white_arg * white_arg :=
  (WFloat (WHITEX self), WFloat (WHITEY self), WFloat (WHITEZ self)).

Definition polarLUV_to (fuel : nat) (self_to : string -> bool -> meth)
  (to : string) (fixup : bool) : meth :=
  andthen (_check_if_allowed_ to) (fun self =>
  if in_list to ["HCL"; __name__ (__class__ self)] then ret self
  else if String.eqb to "CIELUV" then
    become CIELUV (fun self =>
      a <- call3 self "L" "C" "H" polarLUV_to_LUV ;;
      Ok (dict3 self "L" "U" "V" a)) self
  else if String.eqb to "CIEXYZ" then
    _transform_via_path_ self_to ["CIELUV"; to] fixup self
  else if String.eqb to "CIELAB" then
    _transform_via_path_ self_to ["CIELUV"; "CIEXYZ"; to] fixup self
  else if String.eqb to "RGB" then
    _transform_via_path_ self_to ["CIELUV"; "CIEXYZ"; to] fixup self
  else if String.eqb to "sRGB" then
    _transform_via_path_ self_to ["CIELUV"; "CIEXYZ"; to] fixup self
  else if String.eqb to "polarLAB" then
    _transform_via_path_ self_to ["CIELUV"; "CIEXYZ"; "CIELAB"; to] fixup self
  else if String.eqb to "hex" then
    _transform_via_path_ self_to ["CIELUV"; "CIEXYZ"; "sRGB"; to] fixup self
  else if in_list to ["HLS"; "HSV"] then _ambiguous to self
  else _cannot to self).

Definition CIELUV_to (fuel : nat) (self_to : string -> bool -> meth)
  (to : string) (fixup : bool) : meth :=
  andthen (_check_if_allowed_ to) (fun self =>
  if String.eqb to (__name__ (__class__ self)) then ret self
  else if String.eqb to "CIEXYZ" then
    become CIEXYZ (fun self =>
      let '(XN, YN, ZN) := white self in
      a <- call3 self "L" "U" "V" (fun L U V => LUV_to_XYZ L U V XN YN ZN) ;;
      Ok (dict3 self "X" "Y" "Z" a)) self
  else if in_list to ["HCL"; "polarLUV"] then
    become polarLUV (fun self =>
      a <- call3 self "L" "U" "V" (LUV_to_polarLUV fuel) ;;
      Ok (dict3 self "L" "C" "H" a)) self
  else if String.eqb to "CIELAB" then
    _transform_via_path_ self_to ["CIEXYZ"; to] fixup self
  else if String.eqb to "RGB" then
    _transform_via_path_ self_to ["CIEXYZ"; to] fixup self
  else if String.eqb to "sRGB" then
    _transform_via_path_ self_to ["CIEXYZ"; "RGB"; to] fixup self
  else if String.eqb to "polarLAB" then
    _transform_via_path_ self_to ["CIEXYZ"; "CIELAB"; to] fixup self
  else if String.eqb to "hex" then
    _transform_via_path_ self_to ["CIEXYZ"; "RGB"; "sRGB"; to] fixup self
  else if in_list to ["HLS"; "HSV"] then _ambiguous to self
  else _cannot to self).

Definition CIEXYZ_to (fuel : nat) (self_to : string -> bool -> meth)
  (to : string) (fixup : bool) : meth :=
  andthen (_check_if_allowed_ to) (fun self =>
  if String.eqb to (__name__ (__class__ self)) then ret self
  else if String.eqb to "CIELUV" then
    become CIELUV (fun self =>
      let '(XN, YN, ZN) := white self in
      a <- call3 self "X" "Y" "Z" (fun X Y Z => XYZ_to_LUV X Y Z XN YN ZN) ;;
      Ok (dict3 self "L" "U" "V" a)) self
  else if String.eqb to "CIELAB" then
    become CIELAB (fun self =>
      let '(XN, YN, ZN) := white self in
      a <- call3 self "X" "Y" "Z" (fun X Y Z => XYZ_to_LAB X Y Z XN YN ZN) ;;
      Ok (dict3 self "L" "A" "B" a)) self
  else if String.eqb to "RGB" then
    become RGB (fun self =>
      let '(XN, YN, ZN) := white self in
      a <- call3 self "X" "Y" "Z" (fun X Y Z => XYZ_to_RGB X Y Z XN YN ZN) ;;
      Ok (dict3 self "R" "G" "B" a)) self
  else if String.eqb to "polarLAB" then
    _transform_via_path_ self_to ["CIELAB"; to] fixup self
  else if in_list to ["HCL"; "polarLUV"] then
    _transform_via_path_ self_to ["CIELUV"; to] fixup self
  else if String.eqb to "sRGB" then
    _transform_via_path_ self_to ["RGB"; to] fixup self
  else if String.eqb to "hex" then
    _transform_via_path_ self_to ["RGB"; "sRGB"; to] fixup self
  else if in_list to ["HLS"; "HSV"] then _ambiguous to self
  else _cannot to self).

Definition RGB_to (fuel : nat) (self_to : string -> bool -> meth)
  (to : string) (fixup : bool) : meth :=
  andthen (_check_if_allowed_ to) (fun self =>
  if String.eqb to (__name__ (__class__ self)) then ret self
  else if String.eqb to "sRGB" then
    become sRGB (fun self =>
      a <- call3 self "R" "G" "B"
             (fun R G B => RGB_to_sRGB R G B (GammaFloat (GAMMA self))) ;;
      Ok (dict3 self "R" "G" "B" a)) self
  else if String.eqb to "CIEXYZ" then
    become CIEXYZ (fun self =>
      let '(XN, YN, ZN) := white self in
      a <- call3 self "R" "G" "B" (fun R G B => RGB_to_XYZ R G B XN YN ZN) ;;
      Ok (dict3 self "X" "Y" "Z" a)) self
  else if in_list to ["HLS"; "HSV"; "hex"] then
    _transform_via_path_ self_to ["sRGB"; to] fixup self
  else if in_list to ["CIELUV"; "CIELAB"] then
    _transform_via_path_ self_to ["CIEXYZ"; to] fixup self
  else if in_list to ["HCL"; "polarLUV"] then
    _transform_via_path_ self_to ["CIEXYZ"; "CIELUV"; to] fixup self
  else if String.eqb to "polarLAB" then
    _transform_via_path_ self_to ["CIEXYZ"; "CIELAB"; to] fixup self
  else if in_list to ["HLS"; "HSV"; "hex"] then
    _transform_via_path_ self_to ["sRGB"; to] fixup self
  else _cannot to self).

Definition sRGB_to (fuel : nat) (self_to : string -> bool -> meth)
  (to : string) (fixup : bool) : meth :=
  andthen (_check_if_allowed_ to) (fun self =>
  if String.eqb to (__name__ (__class__ self)) then ret self
  else if String.eqb to "RGB" then
    become RGB (fun self =>
      a <- call3 self "R" "G" "B"
             (fun R G B => sRGB_to_RGB R G B (GammaFloat (GAMMA self))) ;;
      Ok (dict3 self "R" "G" "B" a)) self
  else if String.eqb to "hex" then
    become hexcols (fun self =>
      hex_ <- call3 self "R" "G" "B" (fun R G B => sRGB_to_hex R G B fixup) ;;
      Ok [("hex_", Some hex_); ("alpha", get_alpha self)]) self
  else if String.eqb to "HLS" then
    become HLS (fun self =>
      a <- call3 self "R" "G" "B" sRGB_to_HLS ;;
      Ok (dict3 self "H" "L" "S" a)) self
  else if String.eqb to "HSV" then
    become HSV (fun self =>
      a <- call3 self "R" "G" "B" sRGB_to_HSV ;;
      Ok (dict3 self "H" "S" "V" a)) self
  else if in_list to ["CIEXYZ"] then
    _transform_via_path_ self_to ["RGB"; to] fixup self
  else if in_list to ["CIELUV"; "CIELAB"] then
    _transform_via_path_ self_to ["RGB"; "CIEXYZ"; to] fixup self
  else if in_list to ["HCL"; "polarLUV"] then
    _transform_via_path_ self_to ["RGB"; "CIEXYZ"; "CIELUV"; to] fixup self
  else if String.eqb to "polarLAB" then
    _transform_via_path_ self_to ["RGB"; "CIEXYZ"; "CIELAB"; to] fixup self
  else _cannot to self).

Definition CIELAB_to (fuel : nat) (self_to : string -> bool -> meth)
  (to : string) (fixup : bool) : meth :=
  andthen (_check_if_allowed_ to) (fun self =>
  if String.eqb to (__name__ (__class__ self)) then ret self
  else if String.eqb to "CIEXYZ" then
    become CIEXYZ (fun self =>
      let '(XN, YN, ZN) := white self in
      a <- call3 self "L" "A" "B" (fun L A B => LAB_to_XYZ L A B XN YN ZN) ;;
      Ok (dict3 self "X" "Y" "Z" a)) self
  else if String.eqb to "polarLAB" then
    become polarLAB (fun self =>
      a <- call3 self "L" "A" "B" (LAB_to_polarLAB fuel) ;;
      Ok (dict3 self "L" "A" "B" a)) self
  else if String.eqb to "CIELUV" then
    _transform_via_path_ self_to ["CIEXYZ"; to] fixup self
  else if in_list to ["HCL"; "polarLUV"] then
    _transform_via_path_ self_to ["CIEXYZ"; "CIELUV"; to] fixup self
  else if String.eqb to "RGB" then
    _transform_via_path_ self_to ["CIEXYZ"; to] fixup self
  else if String.eqb to "sRGB" then
    _transform_via_path_ self_to ["CIEXYZ"; "RGB"; to] fixup self
  else if String.eqb to "hex" then
    _transform_via_path_ self_to ["CIEXYZ"; "RGB"; "sRGB"; to] fixup self
  else if in_list to ["HLS"; "HSV"] then _ambiguous to self
  else _cannot to self).

Definition polarLAB_to (fuel : nat) (self_to : string -> bool -> meth)
  (to : string) (fixup : bool) : meth :=
  andthen (_check_if_allowed_ to) (fun self =>
  if String.eqb to (__name__ (__class__ self)) then ret self
  else if String.eqb to "CIELAB" then
    become CIELAB (fun self =>
      a <- call3 self "L" "A" "B" polarLAB_to_LAB ;;
      Ok (dict3 self "L" "A" "B" a)) self
  else if String.eqb to "CIEXYZ" then
    _transform_via_path_ self_to ["CIELAB"; to] fixup self
  else if String.eqb to "CIELUV" then
    _transform_via_path_ self_to ["CIELAB"; "CIEXYZ"; to] fixup self
  else if in_list to ["HCL"; "polarLUV"] then
    _transform_via_path_ self_to ["CIELAB"; "CIEXYZ"; "CIELUV"; to] fixup self
  else if String.eqb to "RGB" then
    _transform_via_path_ self_to ["CIELAB"; "CIEXYZ"; to] fixup self
  else if String.eqb to "sRGB" then
    _transform_via_path_ self_to ["CIELAB"; "CIEXYZ"; "RGB"; to] fixup self
  else if String.eqb to "hex" then
    _transform_via_path_ self_to ["CIELAB"; "CIEXYZ"; "RGB"; "sRGB"; to] fixup self
  else if in_list to ["HLS"; "HSV"] then _ambiguous to self
  else _cannot to self).

Definition HSV_to (fuel : nat) (self_to : string -> bool -> meth)
  (to : string) (fixup : bool) : meth :=
  andthen (_check_if_allowed_ to) (fun self =>
  if String.eqb to (__name__ (__class__ self)) then ret self
  else if String.eqb to "sRGB" then
    become sRGB (fun self =>
      a <- call3 self "H" "S" "V" HSV_to_sRGB ;;
      Ok (dict3 self "R" "G" "B" a)) self
  else if String.eqb to "RGB" then
    _transform_via_path_ self_to ["sRGB"; to] fixup self
  else if String.eqb to "hex" then
    _transform_via_path_ self_to ["sRGB"; to] fixup self
  else if String.eqb to "HLS" then
    _transform_via_path_ self_to ["sRGB"; to] fixup self
  else if in_list to ["CIEXYZ"; "CIELUV"; "CIELAB"; "polarLUV"; "HCL"; "polarLAB"]
  then _ambiguous to self
  else _cannot to self).

Definition HLS_to (fuel : nat) (self_to : string -> bool -> meth)
  (to : string) (fixup : bool) : meth :=
  andthen (_check_if_allowed_ to) (fun self =>
  if String.eqb to (__name__ (__class__ self)) then ret self
  else if String.eqb to "sRGB" then
    become sRGB (fun self =>
      a <- call3 self "H" "L" "S" HLS_to_sRGB ;;
      Ok (dict3 self "R" "G" "B" a)) self
  else if String.eqb to "RGB" then
    _transform_via_path_ self_to ["sRGB"; to] fixup self
  else if String.eqb to "hex" then
    _transform_via_path_ self_to ["sRGB"; to] fixup self
  else if String.eqb to "HSV" then
    _transform_via_path_ self_to ["sRGB"; to] fixup self
  else if in_list to ["CIEXYZ"; "CIELUV"; "CIELAB"; "polarLUV"; "HCL"; "polarLAB"]
  then _ambiguous to self
  else _cannot to self).

(** [[x[0:7] for x in self.get("hex_")]] *)
Definition hex_slices (self : colorobject) : result (list string) :=
  v <- get self "hex_" ;;
  match v with
  | Some (Unicode _ a) => Ok (map (slice 0 7) a)
  | Some (Float64 []) => Ok []
  | Some (Float64 _) => Raise IndexError
  | None => Raise (TypeError "'NoneType' object is not iterable")
  end.

Definition hexcols_to (fuel : nat) (self_to : string -> bool -> meth)
  (to : string) (fixup : bool) : meth :=
  andthen (_check_if_allowed_ to) (fun self =>
  if in_list to ["hex"; __name__ (__class__ self)] then ret self
  else if String.eqb to "sRGB" then
    become sRGB (fun self =>
      hex_ <- hex_slices self ;;
      '(R, G, B) <- hex_to_sRGB hex_ ;;
      let alpha := get_alpha self in
      let data := [("R", Some (Float64 R)); ("G", Some (Float64 G));
                   ("B", Some (Float64 B))] in
      Ok match alpha with
         | Some _ => data ++ [("alpha", alpha)]
         | None => data
         end) self
  else if String.eqb to "RGB" then
    _transform_via_path_ self_to ["sRGB"; to] fixup self
  else if in_list to ["HLS"; "HSV"] then
    _transform_via_path_ self_to ["sRGB"; to] fixup self
  else if in_list to ["CIEXYZ"] then
    _transform_via_path_ self_to ["sRGB"; "RGB"; to] fixup self
  else if in_list to ["CIELUV"; "CIELAB"] then
    _transform_via_path_ self_to ["sRGB"; "RGB"; "CIEXYZ"; to] fixup self
  else if in_list to ["HCL"; "polarLUV"] then
    _transform_via_path_ self_to ["sRGB"; "RGB"; "CIEXYZ"; "CIELUV"; to] fixup self
  else if in_string to "polarLAB" then
    _transform_via_path_ self_to ["sRGB"; "RGB"; "CIEXYZ"; "CIELAB"; to] fixup self
  else _cannot to self).

(** [self.to(to, fixup)]: the method of the class [self] has now.  [fuel]
    bounds the depth of the calls through [_transform_via_path_] and the
    steps of the hue loops; Python has no such bound, and [NonTermination]
    stands for a call that needs more. *)
Fixpoint to (fuel : nat) (target : string) (fixup : bool) (self : colorobject)
  {struct fuel} : option exn * colorobject :=
  match fuel with
  | O => (Some NonTermination, self)
  | S fuel' =>
      match __class__ self with
      | polarLUV => polarLUV_to fuel (to fuel') target fixup self
      | CIELUV => CIELUV_to fuel (to fuel') target fixup self
      | CIEXYZ => CIEXYZ_to fuel (to fuel') target fixup self
      | RGB => RGB_to fuel (to fuel') target fixup self
      | sRGB => sRGB_to fuel (to fuel') target fixup self
      | CIELAB => CIELAB_to fuel (to fuel') target fixup self
      | polarLAB => polarLAB_to fuel (to fuel') target fixup self
      | HSV => HSV_to fuel (to fuel') target fixup self
      | HLS => HLS_to fuel (to fuel') target fixup self
      | hexcols => hexcols_to fuel (to fuel') target fixup self
      end
  end.

(** ** The method [colors] *)

(** [str(x)] of an element of the hex array. *)
Definition str_float (x : float) : string :=
  if is_nan x then "nan" else float_repr x.

(** [res[i] += suffix] on a numpy array: a float array does not take a
    string; a unicode array cuts the new item to its width. *)
Definition iadd_item (res : ndarray) (i : nat) (suffix : string) : result ndarray :=
  match res with
  | Float64 _ => Raise (TypeError "ufunc 'add' did not contain a loop with matching types")
  | Unicode w a =>
      match nth_error a i with
      | None => Raise IndexError
      | Some x =>
          Ok (Unicode w (firstn i a ++ [slice 0 w (x ++ suffix)%string] ++ skipn (S i) a))
      end
  end.

(** [self._data_["alpha"][i]] *)
Definition alpha_item (self : colorobject) (i : nat) : result float :=
  match lookup (_data_ self) "alpha" with
  | None => Raise (KeyError "alpha")
  | Some None => Raise (TypeError "'NoneType' object is not subscriptable")
  | Some (Some (Unicode _ _)) => Raise (TypeError "'<' not supported between 'str' and 'float'")
  | Some (Some (Float64 a)) =>
      match nth_error a i with
      | Some x => Ok x
      | None => Raise IndexError
      end
  end.

(** The loop "Appending alpha if alpha < 1.0" over [range(0, len(res))]. *)
Fixpoint append_alpha (self : colorobject) (idx : list nat) (res : ndarray)
  : result ndarray :=
  match idx with
  | [] => Ok res
  | i :: idx' =>
      a <- alpha_item self i ;;
      res <- (if a <? 1.0
              then n <- py_int (a * 100) ;; iadd_item res i (format_02d n)
              else Ok res) ;;
      append_alpha self idx' res
  end.

Definition ndarray_len (a : ndarray) : nat :=
  match a with Float64 a => len a | Unicode _ a => len a end.

(** [[str(x) for x in colors]] after the optional [flip]. *)
Definition strings_of (rev : bool) (colors : ndarray) : list string :=
  let l := match colors with
           | Float64 a => map str_float a
           | Unicode _ a => a
           end in
  if rev then List.rev l else l.

Definition colors (fuel : nat) (self : colorobject) (fixup rev : bool)
  : result (list string) :=
  match to fuel "hex" fixup self with
  | (Some e, _) => Raise e
  | (None, x) =>
      res <- get x "hex_" ;;
      match res with
      | None => Raise (TypeError "object of type 'NoneType' has no len()")
      | Some res =>
          colors <- (if hasalpha x
                     then append_alpha self (seq 0 (ndarray_len res)) res
                     else Ok res) ;;
          Ok (strings_of rev colors)
      end
  end.

End Methods.

(** ** [dropalpha], [__getitem__], iteration, the white point *)

(** [self._data_ = d] *)
Definition with_data (self : colorobject) (d : dict) : colorobject :=
  {| __class__ := __class__ self; _data_ := d;
     WHITEX := WHITEX self; WHITEY := WHITEY self;
     WHITEZ := WHITEZ self; GAMMA := GAMMA self |}.

(** [del d[key]] *)
Fixpoint remove_key (d : dict) (key : string) : dict :=
  match d with
  | [] => []
  | (k, v) :: d' =>
      if String.eqb k key then remove_key d' key else (k, v) :: remove_key d' key
  end.

Definition del (d : dict) (key : string) : result dict :=
  match lookup d key with
  | None => Raise (KeyError key)
  | Some _ => Ok (remove_key d key)
  end.

(** [dropalpha()], which works on [self] in place. *)
Definition dropalpha (self : colorobject) : option exn * colorobject :=
  if hasalpha self
  then match del (_data_ self) "alpha" with
       | Ok d => (None, with_data self d)
       | Raise e => (Some e, self)
       end
  else (None, self).

(** A [key] of [__getitem__]: an [int], or anything else. *)
Inductive pykey : Type :=
| PyInt (z : Z)
| PyNoInt.

(** [a[newaxis, key]] for a one-dimensional array: the array of the one
    item [key], counted from the end for a negative [key]. *)
Definition item_array (a : ndarray) (key : Z) : result ndarray :=
  let n := Z.of_nat (ndarray_len a) in
  if ((key <? - n) || (n <=? key))%Z then Raise IndexError
  else
    let i := Z.to_nat (if (key <? 0)%Z then key + n else key) in
    Ok match a with
       | Float64 l => Float64 (firstn 1 (skipn i l))
       | Unicode w l => Unicode w (firstn 1 (skipn i l))
       end.

(** [self[key]]: a deep copy of [self] with every array cut down to its
    item [key]; [self] is not touched. *)
Definition __getitem__ (self : colorobject) (key : pykey) : result colorobject :=
  match key with
  | PyNoInt => Raise (TypeError "argument `key` must be integer (index)")
  | PyInt key =>
      d <- mapM (fun kv : string * option ndarray =>
                   match snd kv with
                   | None => Ok kv
                   | Some a => a' <- item_array a key ;; Ok (fst kv, Some a')
                   end) (_data_ self) ;;
      Ok (with_data self d)
  end.

(** [length()] as Python computes it: [max] of an empty list raises. *)
Definition py_length (self : colorobject) : result nat :=
  match _data_ self with
  | [] => Raise (ValueError "max() arg is an empty sequence")
  | _ => Ok (length self)
  end.

(** What a call of [__next__] does: it returns an object, raises
    [StopIteration], or raises something else. *)
Inductive next_result : Type :=
| Yield (x : colorobject)
| StopIteration
| NextRaise (e : exn).

(** [__iter__] sets [self.n = -1]; [__next__] with the counter [n] as it
    finds it, and as it leaves it. *)
Definition __iter__ : Z := (-1)%Z.

Definition __next__ (self : colorobject) (n : Z) : Z * next_result :=
  match py_length self with
  | Raise e => (n, NextRaise e)
  | Ok len =>
      if (n <? Z.of_nat len - 1)%Z
      then match __getitem__ self (PyInt (n + 1)) with
           | Ok res => ((n + 1)%Z, Yield res)
           | Raise e => ((n + 1)%Z, NextRaise e)
           end
      else (n, StopIteration)
  end.

(** [[x for x in self]]: [__iter__], then [__next__] until [StopIteration];
    [fuel] bounds the number of rounds. *)
Fixpoint next_items (fuel : nat) (self : colorobject) (n : Z) : result (list colorobject) :=
  match fuel with
  | O => Raise NonTermination
  | S fuel' =>
      match __next__ self n with
      | (n', Yield x) => xs <- next_items fuel' self n' ;; Ok (x :: xs)
      | (_, StopIteration) => Ok []
      | (_, NextRaise e) => Raise e
      end
  end.

Definition items (fuel : nat) (self : colorobject) : result (list colorobject) :=
  next_items fuel self __iter__.

(** [get_whitepoint()] *)
Definition get_whitepoint (self : colorobject) : list (string * float) :=
  [("X", WHITEX self); ("Y", WHITEY self); ("Z", WHITEZ self)].

(** The exceptions of the functions below: those of [exn], and
    [AttributeError] for an attribute no object has. *)
Inductive raised : Type :=
| Exn (e : exn)
| AttributeError (object attribute : string).

(** [set_whitepoint] with its keyword arguments in their order; the
    arguments are floats.  The message for a key that is not [X], [Y] or
    [Z] reads [self.__class__name__], which no object has. *)
Fixpoint set_whitepoint (kwargs : list (string * float)) (self : colorobject)
  : option raised * colorobject :=
  match kwargs with
  | [] => (None, self)
  | (key, arg) :: kwargs' =>
      if String.eqb key "X" then
        set_whitepoint kwargs'
          {| __class__ := __class__ self; _data_ := _data_ self;
             WHITEX := arg; WHITEY := WHITEY self;
             WHITEZ := WHITEZ self; GAMMA := GAMMA self |}
      else if String.eqb key "Y" then
        set_whitepoint kwargs'
          {| __class__ := __class__ self; _data_ := _data_ self;
             WHITEX := WHITEX self; WHITEY := arg;
             WHITEZ := WHITEZ self; GAMMA := GAMMA self |}
      else if String.eqb key "Z" then
        set_whitepoint kwargs'
          {| __class__ := __class__ self; _data_ := _data_ self;
             WHITEX := WHITEX self; WHITEY := WHITEY self;
             WHITEZ := arg; GAMMA := GAMMA self |}
      else (Some (AttributeError (__name__ (__class__ self)) "__class__name__"), self)
  end.

(** ** [compare_colors] *)

(** A result, or one of the exceptions of [raised]. *)
Inductive outcome (A : Type) : Type :=
| Returns (a : A)
| Raises (e : raised).

Arguments Returns {A} a.
Arguments Raises {A} e.

Definition obind {A B : Type} (r : outcome A) (k : A -> outcome B) : outcome B :=
  match r with
  | Returns a => k a
  | Raises e => Raises e
  end.

Definition of_result {A : Type} (r : result A) : outcome A :=
  match r with
  | Ok a => Returns a
  | Raise e => Raises (Exn e)
  end.

Fixpoint omapM {A B : Type} (f : A -> outcome B) (l : list A) : outcome (list B) :=
  match l with
  | [] => Returns []
  | x :: l' => obind (f x) (fun y => obind (omapM f l') (fun ys => Returns (y :: ys)))
  end.

(** An item of an array: a float or a string. *)
Inductive scalar : Type :=
| ItemFloat (x : float)
| ItemStr (s : string).

(** [v[0]] for a stored value [v]. *)
Definition item0 (v : option ndarray) : result scalar :=
  match v with
  | None => Raise (TypeError "'NoneType' object is not subscriptable")
  | Some (Float64 []) => Raise IndexError
  | Some (Unicode _ []) => Raise IndexError
  | Some (Float64 (x :: _)) => Ok (ItemFloat x)
  | Some (Unicode _ (s :: _)) => Ok (ItemStr s)
  end.

(** [x.upper()] for an item [x]: a float has no such method. *)
Definition item_upper (x : scalar) : outcome string :=
  match x with
  | ItemStr s => Returns (upper s)
  | ItemFloat _ => Raises (AttributeError "numpy.float64" "upper")
  end.

(** What [compare_colors] returns: one truth value with [_all], else one
    for each color. *)
Inductive compared : Type :=
| CmpAll (b : bool)
| CmpEach (l : list bool).

Definition cls_eqb (a b : cls) : bool := String.eqb (__name__ a) (__name__ b).

Section Compare.
Context {libm : Libm}.

(** The loop of [distance] over the keys of [a]: [dist] as it grows. *)
Fixpoint distance_sum (keys : list string) (a b : colorobject) (dist : float)
  : result float :=
  match keys with
  | [] => Ok dist
  | n :: keys' =>
      va <- get a n ;; xa <- item0 va ;;
      vb <- get b n ;; xb <- item0 vb ;;
      match xa, xb with
      | ItemFloat x, ItemFloat y => distance_sum keys' a b (dist + np_power (x - y) 2.0)
      | _, _ => Raise (TypeError "unsupported operand type(s) for -")
      end
  end.

Definition distance (a b : colorobject) : result float :=
  dist <- distance_sum (map fst (_data_ a)) a b 0 ;;
  Ok (PrimFloat.sqrt dist).

(** [compare_colors(a, b, exact, _all, atol)] for two color objects, two
    booleans and an [atol] that is a float or [None].  [isclose] is numpy's
    [isclose(res, 0, atol = atol)]. *)
Definition compare_colors (isclose : list float -> float -> list bool)
  (a b : colorobject) (exact _all : bool) (atol : option float) : outcome compared :=
  if negb (cls_eqb (__class__ a) (__class__ b))
  then Raises (Exn (TypeError "Input `a` and `b` not of same class."))
  else
    obind (of_result (py_length a)) (fun la =>
    obind (of_result (py_length b)) (fun lb =>
    if negb (Nat.eqb la lb)
    then Raises (Exn (ValueError "Objects do not contain the same number of colors."))
    else
      let atol := if exact then Some 1e-6 else atol in
      let distances (default : float) : outcome (list bool) :=
        let atol := match atol with
                    | Some x => if truthy x then x else default
                    | None => default
                    end in
        obind (of_result
                 (mapM (fun i => ai <- __getitem__ a (PyInt (Z.of_nat i)) ;;
                                 bi <- __getitem__ b (PyInt (Z.of_nat i)) ;;
                                 distance ai bi) (seq 0 la)))
              (fun res => Returns (isclose res atol)) in
      obind
        match __class__ a with
        | hexcols =>
            omapM (fun i =>
                     obind (of_result (ai <- __getitem__ a (PyInt (Z.of_nat i)) ;;
                                       v <- get ai "hex_" ;; item0 v)) (fun x =>
                     obind (item_upper x) (fun ua =>
                     obind (of_result (bi <- __getitem__ b (PyInt (Z.of_nat i)) ;;
                                       v <- get bi "hex_" ;; item0 v)) (fun y =>
                     obind (item_upper y) (fun ub =>
                     Returns (String.eqb ua ub))))))
                  (seq 0 la)
        | RGB | sRGB | HLS | HSV => distances 0.005
        | polarLUV | CIELUV | CIELAB | polarLAB | CIEXYZ => distances 1
        end
        (fun res => Returns (if _all then CmpAll (forallb (fun x => x) res) else CmpEach res)))).

End Compare.

End colorobject.

(* ================================================================== *)
(** * [palettes.py]: the constructor of the diverging HCL palette *)
(* ================================================================== *)

Module palettes.

(** [palettes.py] is read as Python 3, the language of [colorlib.py] (which has
    f-strings) and the reading of [colorlib._check_input_arrays_] above.
    (Its [print settings] is a statement of Python 2, which Python 3 does
    not compile; the model reads on past it.) *)

(** What [fun] of [hclpalette._checkinput_] returns: the array, or its
    element when it has one. *)
Inductive checked (A : Type) : Type :=
| Scalar (a : A)
| Array (l : list A).

Arguments Scalar {A} a.
Arguments Array {A} l.

(** [fun] of [hclpalette._checkinput_] for an argument that is not [None]:
    [value] is the flattened array of the argument (a scalar is an array of
    one element).  A short array is recycled or refused, a long one cropped. *)
Definition checkinput_fun {A : Type} (isnan : A -> bool) (length : nat)
  (recycle nansallowed : bool) (value : list A) : result (checked A) :=
  value <- (if negb (Nat.eqb length 0) && Nat.ltb (len value) length then
              if negb recycle then Raise (ValueError "wrong length of input")
              else Ok (firstn length (List.concat (repeat value length)))
            else if negb (Nat.eqb length 0) && Nat.ltb length (len value) then
              Ok (firstn length value)
            else Ok value) ;;
  if negb nansallowed && existsb isnan value
  then Raise (ValueError "contain nan values: not allowed")
  else Ok match value with
          | [x] => Scalar x
          | _ => Array value
          end.

(** [_checkinput_] with one keyword argument, as every caller has it: the
    value to return is [kwargs[kwargs.keys()[0]]], and [keys()] is a view
    that takes no index. *)
Definition _checkinput_ {A : Type} (isnan : A -> bool) (length : nat)
  (recycle nansallowed : bool) (value : list A) : result (checked A) :=
  _ <- checkinput_fun isnan length recycle nansallowed value ;;
  Raise (TypeError "'dict_keys' object is not subscriptable").

(** [x[i]] on what [_checkinput_] returns. *)
Definition item {A : Type} (x : checked A) (i : nat) : result A :=
  match x with
  | Scalar _ => Raise IndexError
  | Array l =>
      match nth_error l i with
      | Some v => Ok v
      | None => Raise IndexError
      end
  end.

(** [try: ... except Exception as e: raise ValueError(e)]; the message is
    [str(e)], the message of the exceptions [_checkinput_] raises. *)
Definition raise_ValueError {A : Type} (r : result A) : result A :=
  match r with
  | Ok a => Ok a
  | Raise e =>
      Raise (ValueError match e with
                        | ValueError msg | TypeError msg => msg
                        | _ => EmptyString
                        end)
  end.

(** [self.settings] of a [diverge_hcl] object built without a named
    palette; there is no key [p2]. *)
Record diverge_hcl : Type := {
  h1 : Z; h2 : Z; c1 : checked Z; l1 : Z; l2 : Z;
  p1 : checked float;
  fixup : bool; rev : bool;
  n : checked Z
}.

(** [diverge_hcl.__init__(n, h, c, l, power, fixup, rev = rev)] with
    [palette = None] and no keyword [settings]. *)
Definition diverge_hcl__init__ (n h c l : list Z) (power : list float)
  (fixup rev : bool) : result diverge_hcl :=
  let no := fun _ : Z => false in
  '(n, h, c, l, power) <-
    raise_ValueError
      (n <- _checkinput_ no 1 false false n ;;
       h <- _checkinput_ no 2 true false h ;;
       c <- _checkinput_ no 1 false false c ;;
       l <- _checkinput_ no 2 true false l ;;
       power <- _checkinput_ is_nan 1 true false power ;;
       Ok (n, h, c, l, power)) ;;
  h1 <- item h 0 ;; h2 <- item h 1 ;;
  l1 <- item l 0 ;; l2 <- item l 1 ;;
  Ok {| h1 := h1; h2 := h2; c1 := c; l1 := l1; l2 := l2;
        p1 := power; fixup := fixup; rev := rev; n := n |}.

End palettes.

(* ================================================================== *)
(** * [choose_palette.py]: the validation of a slider's text *)
(* ================================================================== *)

Module Slider.

(** [[1-9]] *)
Definition is_nonzero_digit (c : ascii) : bool := char_between 49 57 c.

(** [$]: the end of the string, or a newline that ends the string. *)
Definition at_end (s : list ascii) : bool :=
  match s with
  | [] => true
  | [c] => Ascii.eqb c newline
  | _ => false
  end.

(** [(0|[1-9]|[1-9][0-9]{1,2})?$] *)
Definition number_then_end (s : list ascii) : bool :=
  at_end s ||
  match s with
  | d :: s1 =>
      (is_dec_digit d && at_end s1) ||
      (is_nonzero_digit d &&
       match s1 with
       | e :: s2 =>
           is_dec_digit e &&
           (at_end s2 ||
            match s2 with
            | f :: s3 => is_dec_digit f && at_end s3
            | [] => false
            end)
       | [] => false
       end)
  | [] => false
  end.

(** [re.match("^-?(0|[1-9]|[1-9][0-9]{1,2})?$", x)] *)
Definition matches_int (x : string) : bool :=
  let s := list_ascii_of_string x in
  number_then_end s ||
  match s with
  | c :: s' => Ascii.eqb c "-" && number_then_end s'
  | [] => false
  end.

(** [re.match("^-$", x)] *)
Definition matches_minus (x : string) : bool :=
  match list_ascii_of_string x with
  | c :: s' => Ascii.eqb c "-" && at_end s'
  | [] => false
  end.

(** The sign and the digits of a text that [matches_int] let through,
    as [float] reads it: a newline at the end is dropped; without digits
    there is no number. *)
Definition int_of_text (x : string) : result (bool * Z) :=
  let s := list_ascii_of_string x in
  let s := match List.rev s with
           | c :: r => if Ascii.eqb c newline then List.rev r else s
           | [] => s
           end in
  let '(neg, ds) := match s with
                    | c :: s' => if Ascii.eqb c "-" then (true, s') else (false, s)
                    | [] => (false, s)
                    end in
  match ds with
  | [] => Raise (ValueError "could not convert string to float")
  | _ => Ok (neg, fold_left (fun acc c => (10 * acc + (Z.of_nat (nat_of_ascii c) - 48))%Z) ds 0%Z)
  end.

(** [float(x)] for such a text. *)
Definition float_of_text (x : string) : result float :=
  '(neg, n) <- int_of_text x ;;
  Ok (if neg then - of_Z n else of_Z n).

(** [isValidInt(x, from_, to)]; [from_] and [to] are the numbers
    [float(from_)] and [float(to)]. *)
Definition isValidInt (x : string) (from_ to : float) : result bool :=
  if Nat.eqb (String.length x) 0 then Ok true
  else if negb (matches_int x) then Ok false
  else if matches_minus x then Ok true
  else
    v <- float_of_text x ;;
    if (v <? from_) || gtb v to then Ok false else Ok true.

End Slider.

(* ================================================================== *)
(** * numpy arrays as mutable objects *)
(* ================================================================== *)

(** [gtrans] and [ftrans] assign to the elements of their argument [u] and
    return [u] itself.  Here an array is an address into a store, so that
    what a call does to the caller's array can be stated. *)
Module Store.
Import colorlib.

Definition store : Type := list arr.
Definition addr : Type := nat.

Definition read (s : store) (a : addr) : arr := nth a s [].

Fixpoint write (s : store) (a : addr) (v : arr) : store :=
  match s, a with
  | [], _ => []
  | _ :: s', O => v :: s'
  | x :: s', S a' => x :: write s' a' v
  end.

Section InPlace.
Context {libm : Libm}.

(** [for i, val in np.ndenumerate(u): u[i] = ...], then [return u]. *)
Definition gtrans (s : store) (u : addr) (gamma : gamma_arg) : result (store * addr) :=
  let gamma := recycle_gamma gamma (len (read s u)) in
  _ <- _check_input_arrays_ [len (read s u); len gamma] ;;
  Ok (write s u (map2 gtrans1 (read s u) gamma), u).

Definition ftrans (s : store) (u : addr) (gamma : gamma_arg) : result (store * addr) :=
  let gamma := recycle_gamma gamma (len (read s u)) in
  _ <- _check_input_arrays_ [len (read s u); len gamma] ;;
  Ok (write s u (map2 ftrans1 (read s u) gamma), u).

(** [[self.ftrans(x, gamma) for x in [R, G, B]]] *)
Definition sRGB_to_RGB (s : store) (R G B : addr) (gamma : gamma_arg)
  : result (store * (addr * addr * addr)) :=
  let gamma := recycle_gamma gamma (len (read s R)) in
  _ <- _check_input_arrays_ [len (read s R); len (read s G); len (read s B); len gamma] ;;
  '(s, R') <- ftrans s R (GammaArray gamma) ;;
  '(s, G') <- ftrans s G (GammaArray gamma) ;;
  '(s, B') <- ftrans s B (GammaArray gamma) ;;
  Ok (s, (R', G', B')).

Definition RGB_to_sRGB (s : store) (R G B : addr) (gamma : gamma_arg)
  : result (store * (addr * addr * addr)) :=
  let gamma := recycle_gamma gamma (len (read s R)) in
  _ <- _check_input_arrays_ [len (read s R); len (read s G); len (read s B); len gamma] ;;
  '(s, R') <- gtrans s R (GammaArray gamma) ;;
  '(s, G') <- gtrans s G (GammaArray gamma) ;;
  '(s, B') <- gtrans s B (GammaArray gamma) ;;
  Ok (s, (R', G', B')).

End InPlace.
End Store.

(* ================================================================== *)
(** * The notions of the statements *)
(* ================================================================== *)

Import colorlib colorobject.

(** ** Objects and classes *)

(** A color object given by its fields. *)
Definition object (c : cls) (d : dict) (wx wy wz g : float) : colorobject :=
  {| __class__ := c; _data_ := d; WHITEX := wx; WHITEY := wy; WHITEZ := wz; GAMMA := g |}.

(** The five device-independent spaces, as classes and as targets of [to]. *)
Definition device_independent : list cls := [CIEXYZ; CIELUV; CIELAB; polarLUV; polarLAB].
Definition device_independent_names : list string := map __name__ device_independent.

(** The alpha entry of a dict, as [get("alpha")] reads it. *)
Definition dict_alpha (d : dict) : option ndarray :=
  match lookup d "alpha" with Some v => v | None => None end.

(** ** White points *)

(** What [_get_white_] accepts for one component, for [n] colors: [None],
    a float, the int 0, a list of no, one or [n] elements, an array of no or
    one element.  (An array of more elements has no truth value for
    [if not XN], also when it has [n] elements.) *)
Definition white_accepted (n : nat) (w : white_arg) : bool :=
  match w with
  | WNone | WFloat _ => true
  | WInt z => (z =? 0)%Z
  | WList l => Nat.eqb (len l) 0 || Nat.eqb (len l) 1 || Nat.eqb (len l) n
  | WArray a => Nat.leb (len a) 1
  end.

(** The stages of [_get_white_] for [YN] alone. *)
Definition white_Y (n : nat) (YN : white_arg) : result white_seq :=
  ty <- white_truth YN ;;
  y <- white_expand n (white_default YN_default ty YN) ;;
  if Nat.eqb (len (seq_values y)) n then Ok y
  else Raise (ValueError "Inputs XN/YN/ZN have to be of the same length.").

(** ** Arguments of the constructors *)

(** The values a constructor checks for an argument. *)
Definition values_of (v : pyarg) : arr :=
  match v with
  | PyNone => []
  | PyNumber x => [x]
  | PyList l => l
  end.

(** An argument the range check can measure: a number or a list that is
    not empty. *)
Definition measurable (v : pyarg) : Prop := values_of v <> [].

(** The largest element of the argument, as [np.max] finds it, is above 1
    or below 0: what the range check of RGB and sRGB tests. *)
Definition max_outside_unit (v : pyarg) : Prop :=
  exists m, np_max (values_of v) = Ok m /\ gtb m 1 || (m <? 0) = true.

Definition range_checked (c : cls) : bool :=
  match c with RGB | sRGB => true | _ => false end.

(** ** Hues and angles *)

(** A hue in the closed interval from 0 to 360, and an angle in degrees
    between -360 and 360 (what [arctan2] gives lies between -180 and 180,
    up to rounding). *)
Definition hue_in_range (h : float) : bool := (0 <=? h) && (h <=? 360).
Definition angle_in_range (d : float) : bool := (-360 <=? d) && (d <=? 360).

(** An angle in radians between [-pi] and [pi], the range of [arctan2]. *)
Definition angle_within_pi (a : float) : bool := (- pi <=? a) && (a <=? pi).

(** ** Hex strings, channels and alpha *)

(** Two hex digits. *)
Definition two_hex_digits (s : string) : bool :=
  match s with
  | String c1 (String c2 EmptyString) => is_hex_digit c1 && is_hex_digit c2
  | _ => false
  end.

(** A 7-character hex color: [#] and six hex digits. *)
Definition is_hex7 (s : string) : bool :=
  validhex s && Nat.eqb (String.length s) 7.

(** Is the alpha of color [i] there and below 1.0? *)
Definition alpha_below_one (self : colorobject) (i : nat) : bool :=
  match get_alpha self with
  | Some (Float64 a) =>
      match nth_error a i with
      | Some v => v <? 1.0
      | None => false
      end
  | _ => false
  end.

(** Three arrays of [n] elements. *)
Definition lens3 (a : arr * arr * arr) (n : nat) : Prop :=
  len (fst (fst a)) = n /\ len (snd (fst a)) = n /\ len (snd a) = n.

(** The object stores float arrays of [n] elements under the three keys. *)
Definition has3 (self : colorobject) (k1 k2 k3 : string) (n : nat) : Prop :=
  exists a1 a2 a3,
    get self k1 = Ok (Some (Float64 a1)) /\ get self k2 = Ok (Some (Float64 a2)) /\
    get self k3 = Ok (Some (Float64 a3)) /\ len a1 = n /\ len a2 = n /\ len a3 = n.

(** The channels of the classes [colors] converts without a condition on
    the values: every class but hexcols (which holds strings) and HSV (whose
    conversion fails on a hue outside 0..420). *)
Definition has_channels (self : colorobject) (n : nat) : Prop :=
  match __class__ self with
  | CIEXYZ => has3 self "X" "Y" "Z" n
  | CIELUV => has3 self "L" "U" "V" n
  | CIELAB => has3 self "L" "A" "B" n
  | polarLUV => has3 self "L" "C" "H" n
  | polarLAB => has3 self "L" "A" "B" n
  | RGB => has3 self "R" "G" "B" n
  | sRGB => has3 self "R" "G" "B" n
  | HLS => has3 self "H" "L" "S" n
  | HSV => False
  | hexcols => False
  end.

(** What [to("hex")] leaves in an object that was not a hexcols object
    before: the array [sRGB_to_hex] made. *)
Definition hex_of_sRGB (fixup : bool) (x : colorobject) : Prop :=
  exists R G B hex_, sRGB_to_hex R G B fixup = Ok hex_ /\ get x "hex_" = Ok (Some hex_).

(** The hex array of [n] colors in a converted object. *)
Definition hex_array (fixup : bool) (x : colorobject) (n : nat) : Prop :=
  exists R G B hex_,
    sRGB_to_hex R G B fixup = Ok hex_ /\ len R = n /\ get x "hex_" = Ok (Some hex_).

(** The alpha channel is absent, or [n] values none of which is below 1.0. *)
Definition no_alpha_below_one (self : colorobject) (n : nat) : Prop :=
  match get_alpha self with
  | None => True
  | Some (Float64 a) => len a = n /\ Forall (fun v => (v <? 1.0) = false) a
  | Some (Unicode _ _) => False
  end.

(** An object as a constructor makes it when no alpha is given (the one of
    HLS never stores an alpha); the classes are those of [has_channels]. *)
Definition constructed_without_alpha (o : colorobject) : Prop :=
  (exists X Y Z, CIEXYZ__init__ X Y Z PyNone = Ok o)
  \/ (exists L U V, CIELUV__init__ L U V PyNone = Ok o)
  \/ (exists L A B, CIELAB__init__ L A B PyNone = Ok o)
  \/ (exists H C L, polarLUV__init__ H C L PyNone = Ok o)
  \/ (exists L A B, polarLAB__init__ L A B PyNone = Ok o)
  \/ (exists R G B, RGB__init__ R G B PyNone = Ok o)
  \/ (exists R G B gamma, sRGB__init__ R G B PyNone gamma = Ok o)
  \/ (exists H L S alpha, HLS__init__ H L S alpha = Ok o).

(** ** Targets of [to], the white point, the number of colors *)

(** The class the name of a target stands for: [HCL] is polarLUV and [hex]
    is hexcols. *)
Definition target_class (t : string) : option cls :=
  if String.eqb t "HCL" then Some polarLUV
  else if String.eqb t "hex" then Some hexcols
  else find (fun c => String.eqb t (__name__ c))
            [CIEXYZ; CIELUV; CIELAB; polarLUV; polarLAB; RGB; sRGB; HSV; HLS].

(** Two objects with the same white point and the same [GAMMA]. *)
Definition same_white_and_gamma (a b : colorobject) : Prop :=
  WHITEX a = WHITEX b /\ WHITEY a = WHITEY b /\ WHITEZ a = WHITEZ b /\ GAMMA a = GAMMA b.

(** The dict of an object of [n] colors: every array in it has [n]
    elements, and there is an array. *)
Definition n_colors (d : dict) (n : nat) : Prop :=
  Forall (fun kv => match snd kv with
                    | None => True
                    | Some a => ndarray_len a = n
                    end) d
  /\ exists k a, In (k, Some a) d.

(** ** The channels hex strings spell *)

(** A color channel a hex string can spell: [k / 255] for a byte [k]. *)
Definition byte_channel (x : float) : Prop :=
  exists k : Z, (0 <= k <= 255)%Z /\ x = of_Z k / 255.

(** The 256 characters, and the checks that are run on all of them, on all
    pairs of them and on the 256 bytes. *)
Definition all_ascii : list ascii := map ascii_of_nat (seq 0 256).

Definition hex_pair_ok (c1 c2 : ascii) : bool :=
  if is_hex_digit c1 && is_hex_digit c2
  then match int16 (String c1 (String c2 EmptyString)) with
       | Ok k => (0 <=? k)%Z && (k <=? 255)%Z &&
                 String.eqb (format_02X k)
                   (String (upper_char c1) (String (upper_char c2) EmptyString))
       | Raise _ => false
       end
  else true.

Definition byte_ok (fix1 : float -> float) (n : nat) : bool :=
  let x := fix1 (of_Z (Z.of_nat n) / 255) in
  is_finite x && (astype_int (x * 255 + 0.5) =? Z.of_nat n)%Z.

(** ** Items, keys and checks of the methods *)

(** The index a key stands for in an array of [n] items. *)
Definition index_of (n : nat) (key : Z) : nat :=
  Z.to_nat (if (key <? 0)%Z then key + Z.of_nat n else key).

Definition key_in_range (n : nat) (key : Z) : Prop :=
  (- Z.of_nat n <= key < Z.of_nat n)%Z.

(** The item [key] of a stored value. *)
Definition item_of (n : nat) (key : Z) (v : option ndarray) : option ndarray :=
  match v with
  | None => None
  | Some (Float64 l) => Some (Float64 (firstn 1 (skipn (index_of n key) l)))
  | Some (Unicode w l) => Some (Unicode w (firstn 1 (skipn (index_of n key) l)))
  end.

(** The value given for [key], if any: the last one. *)
Fixpoint given (kwargs : list (string * float)) (key : string) : option float :=
  match kwargs with
  | [] => None
  | (k, v) :: kwargs' =>
      match given kwargs' key with
      | Some v' => Some v'
      | None => if String.eqb k key then Some v else None
      end
  end.

Definition known_key (kv : string * float) : Prop :=
  fst kv = "X" \/ fst kv = "Y" \/ fst kv = "Z".

(** A channel between 0 and 1. *)
Definition in_unit (e : float) : bool := (0 <=? e) && (e <=? 1).

(** The color gets a hex string: with [fixup] its channels are finite,
    without they lie between 0 and 1. *)
Definition gets_hex (fixup : bool) (r g b : float) : bool :=
  if fixup then is_finite r && is_finite g && is_finite b
  else in_unit r && in_unit g && in_unit b.

(** The arguments the check looks at: all but an [alpha] that is [None]. *)
Definition is_checked (kv : string * pyarg) : bool :=
  negb (String.eqb (fst kv) "alpha" && match snd kv with PyNone => true | _ => false end).

(** The values pass the range check of RGB and sRGB: their maximum is not
    above 1 and not below 0. *)
Definition max_in_range (l : arr) : Prop :=
  exists m, np_max l = Ok m /\ gtb m 1 = false /\ (m <? 0) = false.

(** What the check accepts. *)
Definition accepted (c : cls) (kwargs : list (string * pyarg)) : Prop :=
  Forall (fun kv => snd kv <> PyNone) (filter is_checked kwargs)
  /\ (range_checked c = true ->
      Forall (fun kv => max_in_range (values_of (snd kv))) (filter is_checked kwargs)).

Definition stored (kwargs : list (string * pyarg)) : dict :=
  map (fun kv => (fst kv, Some (Float64 (values_of (snd kv))))) (filter is_checked kwargs).

Definition lengths_of (kwargs : list (string * pyarg)) : list nat :=
  map (fun kv => len (values_of (snd kv))) (filter is_checked kwargs).

(** The object holds float arrays under the keys. *)
Definition holds_floats (o : colorobject) (keys : list string) : Prop :=
  Forall (fun k => exists l, lookup (_data_ o) k = Some (Some (Float64 l))) keys.

(** The data of an object as a conversion leaves them when there is no
    alpha channel: three float arrays and an [alpha] entry that is [None]. *)
Definition converted (x : colorobject) : Prop :=
  exists k1 k2 k3 a1 a2 a3,
    _data_ x = [(k1, Some (Float64 a1)); (k2, Some (Float64 a2)); (k3, Some (Float64 a3));
                ("alpha", None)]
    /\ String.eqb k1 "alpha" = false /\ String.eqb k2 "alpha" = false
    /\ String.eqb k3 "alpha" = false.

(** ** The text of an integer *)

(** The text of an integer: a sign and the decimal digits. *)
Definition int_text (neg : bool) (n : nat) : string :=
  ((if neg then "-" else "") ++ digits 10 (N.of_nat n))%string.

Definition int_text_ok (neg : bool) (n : nat) : bool :=
  let t := int_text neg n in
  negb (Nat.eqb (String.length t) 0) && Slider.matches_int t
  && negb (Slider.matches_minus t)
  && match Slider.int_of_text t with
     | Ok (s, z) => Bool.eqb s neg && (z =? Z.of_nat n)%Z
     | Raise _ => false
     end.

Definition in_default_range (n : nat) : bool :=
  let v := of_Z (Z.of_nat n) in
  negb ((v <? -999) || gtb v 999) && negb ((- v <? -999) || gtb (- v) 999).

(** ** The exceptions of the routing *)

(** The three exceptions that [to] raises about the route, not about the
    values. *)
Definition routing (e : exn) : bool :=
  match e with
  | UnknownTransformation _ _ | CannotConvert _ _ | AmbiguousConversion _ _ => true
  | _ => false
  end.

(** The pairs of a class and a target for which [to] calls [_ambiguous]. *)
Definition ambiguous_pair (c : cls) (t : string) : bool :=
  match c with
  | CIEXYZ | CIELUV | CIELAB | polarLUV | polarLAB => in_list t ["HLS"; "HSV"]
  | HSV | HLS => in_list t ["CIEXYZ"; "CIELUV"; "CIELAB"; "polarLUV"; "HCL"; "polarLAB"]
  | RGB | sRGB | hexcols => false
  end.

(** What [to] can have raised, and what it then left of [self]: never the
    cannot-convert exception; the two others with the object untouched. *)
Definition raised_by_to (self : colorobject) (t : string) (e : exn) (x : colorobject)
  : Prop :=
  match e with
  | CannotConvert _ _ => False
  | UnknownTransformation a b =>
      x = self /\ a = __name__ (__class__ self) /\ b = t /\ in_list t ALLOWED = false
  | AmbiguousConversion a b =>
      x = self /\ a = __name__ (__class__ self) /\ b = t /\
      ambiguous_pair (__class__ self) t = true
  | _ => True
  end.

(** A computation that raises no exception of the routing. *)
Definition clean {A : Type} (r : result A) : Prop :=
  match r with
  | Ok _ => True
  | Raise e => routing e = false
  end.

(** The hops of a path that raise nothing of the routing: each target is
    allowed and not ambiguous for the class the hop before it has left. *)
Fixpoint path_ok (c : cls) (via : list string) : bool :=
  match via with
  | [] => true
  | v :: via' =>
      in_list v ALLOWED && negb (ambiguous_pair c v) &&
      match target_class v with
      | Some c' => path_ok c' via'
      | None => false
      end
  end.

(** ** The fix-up of [sRGB_to_hex] *)

(** The two hex digits of a finite channel after the fix-up. *)
Definition fixed_byte (x : float) : string :=
  if x <=? 0 then "00"
  else if 1 <=? x then "FF"
  else format_02X (astype_int (x * 255 + 0.5)).

(** ** Conversions without a loop over the hue *)

(** The conversions a [to] method makes itself, with a function of
    [colorlib] that needs no loop over the hue. *)
Definition direct (c : cls) (t : string) : bool :=
  match c with
  | CIEXYZ => in_list t ["CIELUV"; "CIELAB"; "RGB"]
  | CIELUV => in_list t ["CIEXYZ"]
  | CIELAB => in_list t ["CIEXYZ"]
  | polarLUV => in_list t ["CIELUV"]
  | polarLAB => in_list t ["CIELAB"]
  | RGB => in_list t ["sRGB"; "CIEXYZ"]
  | sRGB => in_list t ["RGB"]
  | HLS => in_list t ["sRGB"]
  | HSV | hexcols => false
  end.

(** A path of such conversions, from class [c]. *)
Fixpoint path_direct (c : cls) (via : list string) : bool :=
  match via with
  | [] => true
  | v :: via' =>
      direct c v &&
      match target_class v with
      | Some c' => path_direct c' via'
      | None => false
      end
  end.

(* ================================================================== *)
(** * Properties *)
(* ================================================================== *)

(** ** Routing: the ambiguous conversions *)

Lemma object_eta (self : colorobject) :
  self = object (__class__ self) (_data_ self) (WHITEX self) (WHITEY self)
                (WHITEZ self) (GAMMA self).
Proof. destruct self; reflexivity. Qed.

(** C2.  An object of one of the five device-independent classes raises the
    ambiguous-conversion exception on [to("HSV")] and [to("HLS")], and an HSV
    or HLS object raises it for each of the five device-independent targets;
    the object after the call is the object before it (class, data, white
    point).  [polarLUV(260, 80, 30).to("HSV")] is such a call: the object is
    still a polarLUV object with H = 260, C = 80, L = 30. *)
Theorem ambiguous_conversion_raises_and_keeps_object {libm : Libm} :
  Forall (fun c => Forall (fun t => forall fuel fixup d wx wy wz g,
      to (S fuel) t fixup (object c d wx wy wz g)
      = (Some (AmbiguousConversion (__name__ c) t), object c d wx wy wz g))
    ["HSV"; "HLS"]) device_independent
  /\ Forall (fun c => Forall (fun t => forall fuel fixup d wx wy wz g,
      to (S fuel) t fixup (object c d wx wy wz g)
      = (Some (AmbiguousConversion (__name__ c) t), object c d wx wy wz g))
    device_independent_names) [HSV; HLS]
  /\ exists o,
      polarLUV__init__ (PyNumber 260) (PyNumber 80) (PyNumber 30) PyNone = Ok o
      /\ __class__ o = polarLUV
      /\ _data_ o = [("H", Some (Float64 [260])); ("C", Some (Float64 [80]));
                     ("L", Some (Float64 [30]))]
      /\ forall fuel fixup,
          to (S fuel) "HSV" fixup o = (Some (AmbiguousConversion "polarLUV" "HSV"), o).
Proof.
  split; [|split].
  - repeat constructor; intros; reflexivity.
  - repeat constructor; intros; reflexivity.
  - eexists. split; [reflexivity|]. repeat split; intros; reflexivity.
Qed.

(** ** The white point in RGB <-> XYZ *)

Section WhitePoint.

(** An accepted component passes the three stages of [_get_white_]. *)
Lemma white_accepted_passes (d : float) (n : nat) (w : white_arg) :
  white_accepted n w = true ->
  exists t s, white_truth w = Ok t /\ white_expand n (white_default d t w) = Ok s
              /\ Nat.eqb (len (seq_values s)) n = true.
Proof.
  assert (Hd : exists s, white_expand n (WArray [d]) = Ok s
                         /\ Nat.eqb (len (seq_values s)) n = true).
  { cbn [white_expand]. destruct (Nat.eqb 1 n) eqn:E; eexists; (split; [reflexivity|]).
    - apply Nat.eqb_eq in E. subst n. reflexivity.
    - cbn [seq_values]. unfold len, np_repeat. rewrite repeat_length. apply Nat.eqb_refl. }
  assert (H1 : forall x, exists s, white_expand n (WArray [x]) = Ok s
                                   /\ Nat.eqb (len (seq_values s)) n = true).
  { intros x. cbn [white_expand]. destruct (Nat.eqb 1 n) eqn:E; eexists; (split; [reflexivity|]).
    - apply Nat.eqb_eq in E. subst n. reflexivity.
    - cbn [seq_values]. unfold len, np_repeat. rewrite repeat_length. apply Nat.eqb_refl. }
  destruct w as [|x|z|l|a]; cbn [white_accepted white_truth]; intros H.
  - destruct Hd as (s & Hs & Hl). exists false, s. repeat split; assumption.
  - exists (truthy x). unfold white_default. destruct (truthy x).
    + destruct (H1 x) as (s & Hs & Hl). exists s. repeat split; assumption.
    + destruct Hd as (s & Hs & Hl). exists s. repeat split; assumption.
  - rewrite H. destruct Hd as (s & Hs & Hl). exists false, s. repeat split; assumption.
  - destruct l as [|x [|y l]].
    + destruct Hd as (s & Hs & Hl). exists false, s. repeat split; assumption.
    + exists true. cbn [white_default white_expand].
      destruct (Nat.eqb 1 n) eqn:E; eexists; (split; [reflexivity|]); (split; [reflexivity|]).
      * apply Nat.eqb_eq in E. subst n. reflexivity.
      * cbn [seq_values]. unfold len, np_repeat. rewrite repeat_length. apply Nat.eqb_refl.
    + exists true, (AsList (x :: y :: l)). cbn [white_default white_expand seq_values].
      repeat split. cbn in H |- *. exact H.
  - destruct a as [|x [|y a]]; [| |discriminate H].
    + destruct Hd as (s & Hs & Hl). exists false, s. repeat split; assumption.
    + exists (truthy x). unfold white_default. destruct (truthy x).
      * destruct (H1 x) as (s & Hs & Hl). exists s. repeat split; assumption.
      * destruct Hd as (s & Hs & Hl). exists s. repeat split; assumption.
Qed.

(** A component that is not accepted fails one of the three stages. *)
Lemma white_refused_fails (d : float) (n : nat) (w : white_arg) :
  white_accepted n w = false ->
  match white_truth w with
  | Raise _ => True
  | Ok t => match white_expand n (white_default d t w) with
            | Raise _ => True
            | Ok s => Nat.eqb (len (seq_values s)) n = false
            end
  end.
Proof.
  destruct w as [|x|z|l|a]; cbn [white_accepted white_truth]; intros H; try discriminate H.
  - rewrite H. exact I.
  - destruct l as [|x [|y l]]; cbn in H; try discriminate H.
    cbn [len List.length Nat.eqb negb white_default white_expand seq_values]. exact H.
  - destruct a as [|x [|y a]]; cbn in H; try discriminate H. exact I.
Qed.

(** With [XN] and [ZN] accepted, [_get_white_] is decided by [YN]. *)
Lemma get_white_by_YN (n : nat) (XN YN ZN : white_arg) :
  white_accepted n XN = true -> white_accepted n ZN = true ->
  exists sX sZ, _get_white_ n XN YN ZN = (y <- white_Y n YN ;; Ok (sX, y, sZ)).
Proof.
  intros HX HZ.
  destruct (white_accepted_passes XN_default n XN HX) as (tx & sX & TX & EX & LX).
  destruct (white_accepted_passes ZN_default n ZN HZ) as (tz & sZ & TZ & EZ & LZ).
  exists sX, sZ. unfold _get_white_, white_Y. rewrite TX, TZ. cbn [rbind].
  destruct (white_truth YN) as [ty|e]; [|reflexivity]. cbn [rbind]. rewrite EX. cbn [rbind].
  destruct (white_expand n (white_default YN_default ty YN)) as [sY|e]; [|reflexivity].
  cbn [rbind]. rewrite EZ. cbn [rbind forallb]. rewrite LX, LZ, andb_true_r. cbn [andb].
  destruct (Nat.eqb (len (seq_values sY)) n); reflexivity.
Qed.

Lemma get_white_refuses (n : nat) (XN YN ZN : white_arg) :
  white_accepted n XN && white_accepted n ZN = false ->
  exists e, _get_white_ n XN YN ZN = Raise e.
Proof.
  intros H. unfold _get_white_.
  destruct (white_accepted n XN) eqn:HX.
  - cbn [andb] in H.
    destruct (white_accepted_passes XN_default n XN HX) as (tx & sX & TX & EX & LX).
    pose proof (white_refused_fails ZN_default n ZN H) as HZ.
    rewrite TX. cbn [rbind].
    destruct (white_truth YN) as [ty|e]; [|eexists; reflexivity]. cbn [rbind].
    destruct (white_truth ZN) as [tz|e]; [|eexists; reflexivity]. cbn [rbind].
    rewrite EX. cbn [rbind].
    destruct (white_expand n (white_default YN_default ty YN)) as [sY|e];
      [|eexists; reflexivity]. cbn [rbind].
    destruct (white_expand n (white_default ZN_default tz ZN)) as [sZ|e];
      [|eexists; reflexivity]. cbn [rbind forallb].
    rewrite HZ, !andb_false_r. eexists. reflexivity.
  - pose proof (white_refused_fails XN_default n XN HX) as HXf.
    destruct (white_truth XN) as [tx|e]; [|eexists; reflexivity]. cbn [rbind].
    destruct (white_truth YN) as [ty|e]; [|eexists; reflexivity]. cbn [rbind].
    destruct (white_truth ZN) as [tz|e]; [|eexists; reflexivity]. cbn [rbind].
    destruct (white_expand n (white_default XN_default tx XN)) as [sX|e];
      [|eexists; reflexivity]. cbn [rbind].
    destruct (white_expand n (white_default YN_default ty YN)) as [sY|e];
      [|eexists; reflexivity]. cbn [rbind].
    destruct (white_expand n (white_default ZN_default tz ZN)) as [sZ|e];
      [|eexists; reflexivity]. cbn [rbind forallb].
    rewrite HXf. eexists. reflexivity.
Qed.

Lemma RGB_to_XYZ_by_YN (R G B : arr) (XN YN ZN : white_arg) :
  white_accepted (len R) XN = true -> white_accepted (len R) ZN = true ->
  RGB_to_XYZ R G B XN YN ZN = RGB_to_XYZ R G B WNone YN WNone.
Proof.
  intros HX HZ. destruct (get_white_by_YN (len R) XN YN ZN HX HZ) as (sX & sZ & E).
  destruct (get_white_by_YN (len R) WNone YN WNone eq_refl eq_refl) as (sX' & sZ' & E').
  unfold RGB_to_XYZ. rewrite E, E'. destruct (white_Y (len R) YN); reflexivity.
Qed.

Lemma XYZ_to_RGB_by_YN (X Y Z : arr) (XN YN ZN : white_arg) :
  white_accepted (len X) XN = true -> white_accepted (len X) ZN = true ->
  XYZ_to_RGB X Y Z XN YN ZN = XYZ_to_RGB X Y Z WNone YN WNone.
Proof.
  intros HX HZ. destruct (get_white_by_YN (len X) XN YN ZN HX HZ) as (sX & sZ & E).
  destruct (get_white_by_YN (len X) WNone YN WNone eq_refl eq_refl) as (sX' & sZ' & E').
  unfold XYZ_to_RGB. rewrite E, E'. destruct (white_Y (len X) YN); reflexivity.
Qed.

End WhitePoint.




(** ** Alpha through [to] *)

Section Alpha.
Context {libm : Libm}.

Lemma hasalpha_get_alpha (self : colorobject) :
  hasalpha self = match get_alpha self with Some _ => true | None => false end.
Proof.
  unfold hasalpha, get_alpha. destruct (lookup (_data_ self) "alpha") as [[|]|]; reflexivity.
Qed.

Lemma become_alpha (c : cls) (data : colorobject -> result dict) (self : colorobject) :
  (forall d, data self = Ok d -> dict_alpha d = get_alpha self) ->
  get_alpha (snd (become c data self)) = get_alpha self.
Proof.
  intros H. unfold become. destruct (data self) as [d|e] eqn:E; [|reflexivity].
  apply (H d eq_refl).
Qed.

Lemma andthen_alpha (m1 m2 : meth) (self : colorobject) :
  get_alpha (snd (m1 self)) = get_alpha self ->
  (forall self', get_alpha (snd (m2 self')) = get_alpha self') ->
  get_alpha (snd (andthen m1 m2 self)) = get_alpha self.
Proof.
  intros H1 H2. unfold andthen. destruct (m1 self) as [[e|] self'] eqn:E; simpl in *.
  - exact H1.
  - rewrite H2. exact H1.
Qed.

Lemma path_alpha (self_to : string -> bool -> meth) (via : list string) (fixup : bool) :
  (forall v f self, get_alpha (snd (self_to v f self)) = get_alpha self) ->
  forall self, get_alpha (snd (_transform_via_path_ self_to via fixup self)) = get_alpha self.
Proof.
  intros H. induction via as [|v via IH]; intros self; simpl.
  - reflexivity.
  - apply andthen_alpha; [apply H | exact IH].
Qed.

Lemma dict3_alpha (self : colorobject) (k1 k2 k3 : string) (a : arr * arr * arr) :
  String.eqb k1 "alpha" = false -> String.eqb k2 "alpha" = false ->
  String.eqb k3 "alpha" = false ->
  dict_alpha (dict3 self k1 k2 k3 a) = get_alpha self.
Proof.
  intros H1 H2 H3. destruct a as [[a1 a2] a3]. unfold dict_alpha, dict3. simpl.
  rewrite H1, H2, H3. reflexivity.
Qed.

(** One leaf of a [to] method: return, raise, a direct hop or a path. *)
Ltac alpha_leaf H :=
  first
    [ reflexivity
    | apply path_alpha; exact H
    | apply become_alpha; intros d Hd; unfold white in Hd;
      repeat match type of Hd with
             | rbind ?r _ = Ok _ =>
                 let a := fresh "a" in
                 destruct r as [a|]; simpl in Hd; [|discriminate Hd];
                 try (destruct a as [[? ?] ?])
             end;
      injection Hd as <-;
      first [ apply dict3_alpha; reflexivity
            | unfold dict_alpha; destruct (get_alpha _) eqn:?; simpl;
              congruence ] ].

Ltac alpha_method H :=
  intros self; apply andthen_alpha;
  [ unfold _check_if_allowed_; destruct (in_list _ ALLOWED); reflexivity
  | clear self; intros self;
    repeat match goal with
           | |- context [if ?b then _ else _] => destruct b
           end; alpha_leaf H ].

Lemma class_to_alpha (fuel : nat) (self_to : string -> bool -> meth)
  (target : string) (fixup : bool) :
  (forall v f self, get_alpha (snd (self_to v f self)) = get_alpha self) ->
  (forall self, get_alpha (snd (polarLUV_to fuel self_to target fixup self)) = get_alpha self)
  /\ (forall self, get_alpha (snd (CIELUV_to fuel self_to target fixup self)) = get_alpha self)
  /\ (forall self, get_alpha (snd (CIEXYZ_to fuel self_to target fixup self)) = get_alpha self)
  /\ (forall self, get_alpha (snd (RGB_to fuel self_to target fixup self)) = get_alpha self)
  /\ (forall self, get_alpha (snd (sRGB_to fuel self_to target fixup self)) = get_alpha self)
  /\ (forall self, get_alpha (snd (CIELAB_to fuel self_to target fixup self)) = get_alpha self)
  /\ (forall self, get_alpha (snd (polarLAB_to fuel self_to target fixup self)) = get_alpha self)
  /\ (forall self, get_alpha (snd (HSV_to fuel self_to target fixup self)) = get_alpha self)
  /\ (forall self, get_alpha (snd (HLS_to fuel self_to target fixup self)) = get_alpha self)
  /\ (forall self, get_alpha (snd (hexcols_to fuel self_to target fixup self)) = get_alpha self).
Proof.
  intros H.
  repeat split.
  - unfold polarLUV_to. alpha_method H.
  - unfold CIELUV_to. alpha_method H.
  - unfold CIEXYZ_to. alpha_method H.
  - unfold RGB_to. alpha_method H.
  - unfold sRGB_to. alpha_method H.
  - unfold CIELAB_to. alpha_method H.
  - unfold polarLAB_to. alpha_method H.
  - unfold HSV_to. alpha_method H.
  - unfold HLS_to. alpha_method H.
  - unfold hexcols_to. alpha_method H.
Qed.

Lemma to_alpha (fuel : nat) :
  forall target fixup self, get_alpha (snd (to fuel target fixup self)) = get_alpha self.
Proof.
  induction fuel as [|fuel IH]; intros target fixup self.
  - reflexivity.
  - pose proof (class_to_alpha (S fuel) (to fuel) target fixup IH) as H.
    simpl. destruct (__class__ self); apply H.
Qed.

End Alpha.

(** C6.  Whatever [to(target, fixup)] does to an object (it may convert,
    return at once, or raise), the object's alpha is afterwards what it was
    before: the same vector, or still none.  The same holds after any number
    of hops of a path walked by [_transform_via_path_], so at every
    intermediate hop of a conversion. *)
Theorem alpha_is_carried_through_every_hop {libm : Libm} :
  (forall fuel target fixup self,
      get_alpha (snd (to fuel target fixup self)) = get_alpha self)
  /\ (forall fuel via fixup self,
      get_alpha (snd (_transform_via_path_ (to fuel) via fixup self)) = get_alpha self)
  /\ (forall fuel target fixup self,
      hasalpha (snd (to fuel target fixup self)) = hasalpha self).
Proof.
  repeat split; intros.
  - apply to_alpha.
  - apply path_alpha. intros. apply to_alpha.
  - rewrite !hasalpha_get_alpha, to_alpha. reflexivity.
Qed.

(** ** The constructors *)

(** C7.  [HLS.__init__] ignores its [alpha] argument: it constructs what it
    constructs for [alpha = None].  With [alpha = 0.5] the HLS object has no
    alpha channel ([hasalpha()] is false and [get("alpha")] is [None]), while
    the HSV constructor, like the other eight, stores it. *)
Theorem HLS_constructor_drops_alpha :
  (forall H L S alpha, HLS__init__ H L S alpha = HLS__init__ H L S PyNone)
  /\ (exists o,
        HLS__init__ (PyNumber 150) (PyNumber 0.1) (PyNumber 0.5) (PyNumber 0.5) = Ok o
        /\ hasalpha o = false /\ get o "alpha" = Ok None)
  /\ (exists o,
        HSV__init__ (PyNumber 150) (PyNumber 0.5) (PyNumber 0.1) (PyNumber 0.5) = Ok o
        /\ hasalpha o = true /\ get o "alpha" = Ok (Some (Float64 [0.5]))).
Proof.
  split; [|split].
  - reflexivity.
  - eexists. split; [reflexivity|]. split; reflexivity.
  - eexists. split; [reflexivity|]. split; reflexivity.
Qed.

Lemma check_kwargs_range (self : cls) (kwargs : list (string * pyarg)) :
  range_checked self = true ->
  Forall (fun kv => fst kv = "alpha" /\ snd kv = PyNone \/ measurable (snd kv)) kwargs ->
  Exists (fun kv => max_outside_unit (snd kv)) kwargs ->
  forall res lengths,
    check_kwargs self kwargs res lengths
    = Raise (ValueError "values have to lie within [0., 1.]").
Proof.
  intros Hc. induction kwargs as [|[key val] kwargs IH]; intros Hm He res lengths.
  - inversion He.
  - inversion Hm as [|? ? Hm1 Hm2]; subst. cbn [fst snd] in Hm1. cbn [check_kwargs].
    assert (Htail : ~ max_outside_unit val ->
                    Exists (fun kv => max_outside_unit (snd kv)) kwargs).
    { intros Hn. inversion He as [? ? H|? ? H]; subst; [contradiction | exact H]. }
    destruct (String.eqb key "alpha" && match val with PyNone => true | _ => false end)
      eqn:Eskip.
    + apply IH; [exact Hm2|]. apply Htail. intros (m & Hmax & _).
      apply andb_prop in Eskip as [_ Ev]. destruct val; try discriminate Ev.
      discriminate Hmax.
    + assert (Hv : measurable val).
      { destruct Hm1 as [[-> ->]|Hv]; [discriminate Eskip | exact Hv]. }
      unfold measurable in Hv.
      assert (Hmax : exists m, np_max (values_of val) = Ok m).
      { destruct (values_of val) as [|x l]; [contradiction|]. eexists. reflexivity. }
      destruct Hmax as (m & Hmax).
      assert (Hstep : forall l : arr, values_of val = l ->
                forall k : unit -> result (dict * list nat),
                  rbind (match self with
                         | RGB | sRGB =>
                             m <- np_max l ;;
                             if gtb m 1 || (m <? 0)
                             then Raise (ValueError "values have to lie within [0., 1.]")
                             else Ok tt
                         | _ => Ok tt
                         end) k
                  = if gtb m 1 || (m <? 0)
                    then Raise (ValueError "values have to lie within [0., 1.]")
                    else k tt).
      { intros l <- k. destruct self; try discriminate Hc; rewrite Hmax; cbn [rbind];
          destruct (gtb m 1 || (m <? 0)); reflexivity. }
      destruct val as [|x|l]; [exfalso; apply Hv; reflexivity| |];
        rewrite (Hstep _ eq_refl);
        (destruct (gtb m 1 || (m <? 0)) eqn:Er; [reflexivity|];
         apply IH; [exact Hm2|]; apply Htail; intros (m' & Hmax' & Hr);
         rewrite Hmax in Hmax'; injection Hmax' as <-; congruence).
Qed.

(** C3, as the code has it.  For numbers or non-empty lists, the
    constructors of RGB and sRGB raise the [ValueError] of the range check
    whenever the largest element of [R], [G], [B] or of a given [alpha], as
    [np.max] finds it, is above 1 or below 0.  The constructors of HSV and
    HLS check no range: they store any values of one length. *)
Theorem device_constructors_check_the_range_for_RGB_and_sRGB_only
  (x1 x2 x3 alpha : pyarg) :
  (measurable x1 -> measurable x2 -> measurable x3 ->
   alpha = PyNone \/ measurable alpha ->
   max_outside_unit x1 \/ max_outside_unit x2 \/ max_outside_unit x3
   \/ max_outside_unit alpha ->
   RGB__init__ x1 x2 x3 alpha = Raise (ValueError "values have to lie within [0., 1.]")
   /\ forall gamma,
       sRGB__init__ x1 x2 x3 alpha gamma
       = Raise (ValueError "values have to lie within [0., 1.]"))
  /\ (x1 <> PyNone -> x2 <> PyNone -> x3 <> PyNone ->
      len (values_of x2) = len (values_of x1) ->
      len (values_of x3) = len (values_of x1) ->
      HSV__init__ x1 x2 x3 PyNone
      = Ok (new_object HSV [("H", Some (Float64 (values_of x1)));
                            ("S", Some (Float64 (values_of x2)));
                            ("V", Some (Float64 (values_of x3)))])
      /\ HLS__init__ x1 x2 x3 alpha
         = Ok (new_object HLS [("H", Some (Float64 (values_of x1)));
                               ("L", Some (Float64 (values_of x2)));
                               ("S", Some (Float64 (values_of x3)))])).
Proof.
  split.
  - intros M1 M2 M3 Ma H.
    assert (Hm : Forall (fun kv => fst kv = "alpha" /\ snd kv = PyNone
                                   \/ measurable (snd kv))
                   [("R", x1); ("G", x2); ("B", x3); ("alpha", alpha)]).
    { apply Forall_cons; [right; exact M1|]. apply Forall_cons; [right; exact M2|].
      apply Forall_cons; [right; exact M3|]. apply Forall_cons; [|apply Forall_nil].
      destruct Ma as [->|Ma]; [left; split; reflexivity | right; exact Ma]. }
    assert (He : Exists (fun kv => max_outside_unit (snd kv))
                   [("R", x1); ("G", x2); ("B", x3); ("alpha", alpha)]).
    { destruct H as [H|[H|[H|H]]];
        [ apply Exists_cons_hd
        | apply Exists_cons_tl, Exists_cons_hd
        | apply Exists_cons_tl, Exists_cons_tl, Exists_cons_hd
        | apply Exists_cons_tl, Exists_cons_tl, Exists_cons_tl, Exists_cons_hd ];
        exact H. }
    split; [|intros gamma].
    + unfold RGB__init__, _colorobject_check_input_arrays_.
      rewrite (check_kwargs_range RGB _ eq_refl Hm He). reflexivity.
    + unfold sRGB__init__, _colorobject_check_input_arrays_.
      rewrite (check_kwargs_range sRGB _ eq_refl Hm He). reflexivity.
  - intros N1 N2 N3 L2 L3.
    unfold HSV__init__, HLS__init__, _colorobject_check_input_arrays_.
    destruct x1 as [|v1|l1]; [contradiction| |];
      (destruct x2 as [|v2|l2]; [contradiction| |]);
      (destruct x3 as [|v3|l3]; [contradiction| |]);
      cbn [check_kwargs String.eqb Ascii.eqb Bool.eqb andb rbind app values_of] in *;
      rewrite ?L2, ?L3; cbn [forallb]; rewrite ?Nat.eqb_refl; split; reflexivity.
Qed.

(** The theorem at [RGB(1.5, 0.2, 0.3)] and [sRGB(1.5, 0.2, 0.3)], and at
    [HSV(150, 150, 10)] and [HLS(150, 150, 10)]. *)
Lemma device_constructors_check_the_range_for_RGB_and_sRGB_only_witness :
  (RGB__init__ (PyNumber 1.5) (PyNumber 0.2) (PyNumber 0.3) PyNone
   = Raise (ValueError "values have to lie within [0., 1.]")
   /\ forall gamma,
       sRGB__init__ (PyNumber 1.5) (PyNumber 0.2) (PyNumber 0.3) PyNone gamma
       = Raise (ValueError "values have to lie within [0., 1.]"))
  /\ (HSV__init__ (PyNumber 150) (PyNumber 150) (PyNumber 10) PyNone
      = Ok (new_object HSV [("H", Some (Float64 [150])); ("S", Some (Float64 [150]));
                            ("V", Some (Float64 [10]))])
      /\ HLS__init__ (PyNumber 150) (PyNumber 150) (PyNumber 10) PyNone
         = Ok (new_object HLS [("H", Some (Float64 [150])); ("L", Some (Float64 [150]));
                               ("S", Some (Float64 [10]))])).
Proof.
  split.
  - apply (proj1 (device_constructors_check_the_range_for_RGB_and_sRGB_only
                    (PyNumber 1.5) (PyNumber 0.2) (PyNumber 0.3) PyNone)).
    + discriminate.
    + discriminate.
    + discriminate.
    + left. reflexivity.
    + left. exists 1.5. split; reflexivity.
  - apply (proj2 (device_constructors_check_the_range_for_RGB_and_sRGB_only
                    (PyNumber 150) (PyNumber 150) (PyNumber 10) PyNone)).
    + discriminate.
    + discriminate.
    + discriminate.
    + reflexivity.
    + reflexivity.
Defined.

(** C3 as stated fails: the HSV and HLS constructors accept any numbers.
    [HSV(150, 150, 10)] (an example of the class's docstring, with value 10)
    and [HLS(150, 0.1, 3)] (saturation 3) construct their objects; and
    [RGB(1.5, 0.2, 0.3)] raises the range check's [ValueError]. *)
Lemma HSV_HLS_accept_values_outside_unit_interval :
  HSV__init__ (PyNumber 150) (PyNumber 150) (PyNumber 10) PyNone
  = Ok (new_object HSV [("H", Some (Float64 [150])); ("S", Some (Float64 [150]));
                        ("V", Some (Float64 [10]))])
  /\ HLS__init__ (PyNumber 150) (PyNumber 0.1) (PyNumber 3) PyNone
     = Ok (new_object HLS [("H", Some (Float64 [150])); ("L", Some (Float64 [0.1]));
                           ("S", Some (Float64 [3]))])
  /\ RGB__init__ (PyNumber 1.5) (PyNumber 0.2) (PyNumber 0.3) PyNone
     = Raise (ValueError "values have to lie within [0., 1.]").
Proof. repeat split; reflexivity. Qed.

(** ** In-place gamma correction *)

(** Reading the array that was written. *)
Lemma write_read (s : Store.store) (u : Store.addr) (v : arr) :
  (u < len s)%nat -> Store.read (Store.write s u v) u = v.
Proof.
  revert u. induction s as [|x s IH]; intros [|u] H; simpl in *; try lia.
  - reflexivity.
  - apply IH. unfold len in *. lia.
Qed.

(** The array a call of [Store.gtrans] returns is its argument, and it holds
    what the pure [gtrans] computes. *)
Lemma store_gtrans_is_gtrans {libm : Libm} (s : Store.store) (u : Store.addr)
  (gamma : gamma_arg) (s' : Store.store) (r : Store.addr) :
  (u < len s)%nat ->
  Store.gtrans s u gamma = Ok (s', r) ->
  r = u /\ gtrans (Store.read s u) gamma = Ok (Store.read s' r).
Proof.
  unfold Store.gtrans, gtrans. intros Hu H.
  destruct (_check_input_arrays_ _) as [[]|e]; simpl in *; [|discriminate H].
  injection H as <- <-. split; [reflexivity|]. rewrite write_read by exact Hu. reflexivity.
Qed.

(** C8 fails on the code.  After [gtrans(u, 2.4)] with [u = [0.001]] the
    caller's array (address 0 of the store) holds [12.92 * 0.001], and after
    [ftrans(u, 2.4)] with [u = [0.01]] it holds [0.01 / 12.92]; the returned
    array is [u] itself.  [sRGB_to_RGB(x, x, x)] on one array [x = [0.02]]
    therefore applies [ftrans] to it three times and returns it three
    times. *)
Theorem gtrans_ftrans_overwrite_their_argument {libm : Libm} :
  Store.gtrans [[0.001]] 0%nat (GammaFloat 2.4) = Ok ([[12.92 * 0.001]], 0%nat)
  /\ Store.ftrans [[0.01]] 0%nat (GammaFloat 2.4) = Ok ([[0.01 / 12.92]], 0%nat)
  /\ Store.sRGB_to_RGB [[0.02]] 0%nat 0%nat 0%nat (GammaFloat 2.4)
     = Ok ([[0.02 / 12.92 / 12.92 / 12.92]], (0%nat, 0%nat, 0%nat))
  /\ sRGB_to_RGB [0.02] [0.02] [0.02] (GammaFloat 2.4)
     = Ok ([0.02 / 12.92], [0.02 / 12.92], [0.02 / 12.92])
  /\ (12.92 * 0.001 =? 0.001) = false
  /\ (0.01 / 12.92 =? 0.01) = false
  /\ (0.02 / 12.92 / 12.92 / 12.92 =? 0.02 / 12.92) = false.
Proof. repeat split; reflexivity. Qed.

(* ================================================================== *)
(** * Facts about binary64 arithmetic *)
(* ================================================================== *)

(** The lemmas below are proved from the specification of the primitive
    floats ([Prim2SF], [SFadd], [SFcompare]), in the integers. *)
Module FloatFacts.
#[local] Open Scope Z_scope.

(** Number of binary digits. *)
Lemma digits2_pos_bounds (p : positive) :
  2 ^ (Zpos (digits2_pos p) - 1) <= Zpos p < 2 ^ Zpos (digits2_pos p).
Proof.
  induction p as [p IH|p IH|]; simpl digits2_pos.
  - rewrite Pos2Z.inj_succ.
    replace (Z.succ (Zpos (digits2_pos p)) - 1) with (Z.succ (Zpos (digits2_pos p) - 1)) by lia.
    rewrite !Z.pow_succ_r by lia. rewrite (Pos2Z.inj_xI p).
    set (A := 2 ^ (Zpos (digits2_pos p) - 1)) in *. set (B := 2 ^ Zpos (digits2_pos p)) in *. clearbody A B. lia.
  - rewrite Pos2Z.inj_succ.
    replace (Z.succ (Zpos (digits2_pos p)) - 1) with (Z.succ (Zpos (digits2_pos p) - 1)) by lia.
    rewrite !Z.pow_succ_r by lia. rewrite (Pos2Z.inj_xO p).
    set (A := 2 ^ (Zpos (digits2_pos p) - 1)) in *. set (B := 2 ^ Zpos (digits2_pos p)) in *. clearbody A B. lia.
  - simpl. lia.
Qed.

Lemma digits2_pos_unique (p : positive) (d : Z) :
  2 ^ (d - 1) <= Zpos p < 2 ^ d -> 0 < d -> Zpos (digits2_pos p) = d.
Proof.
  intros [Hlo Hhi] Hd. pose proof (digits2_pos_bounds p) as [Hlo' Hhi'].
  set (D := Zpos (digits2_pos p)) in *.
  assert (HD : 0 < D) by (unfold D; lia).
  destruct (Z.lt_trichotomy D d) as [H|[H|H]]; [|exact H|].
  - exfalso. assert (2 ^ D <= 2 ^ (d - 1)) by (apply Z.pow_le_mono_r; lia). lia.
  - exfalso. assert (2 ^ d <= 2 ^ (D - 1)) by (apply Z.pow_le_mono_r; lia). lia.
Qed.

(** Right shifts with sticky bits: the mantissa is divided. *)
Lemma shr_1_m (mrs : shr_record) :
  0 <= shr_m mrs -> shr_m (shr_1 mrs) = shr_m mrs / 2 /\ 0 <= shr_m (shr_1 mrs).
Proof.
  destruct mrs as [m r s]. simpl. intros H.
  destruct m as [|p|p]; [| |lia].
  - simpl. split; [reflexivity|lia].
  - destruct p as [p|p|]; simpl shr_m.
    + split; [|lia]. rewrite (Pos2Z.inj_xI p).
      apply Z.div_unique with (r := 1); lia.
    + split; [|lia]. rewrite (Pos2Z.inj_xO p).
      apply Z.div_unique with (r := 0); lia.
    + split; [reflexivity|lia].
Qed.

Lemma pow2_xO (n : positive) : 2 ^ Zpos n~0 = 2 ^ Zpos n * 2 ^ Zpos n.
Proof. rewrite (Pos2Z.inj_xO n), <- Z.pow_add_r by lia. f_equal. lia. Qed.

Lemma pow2_xI (n : positive) : 2 ^ Zpos n~1 = 2 * (2 ^ Zpos n * 2 ^ Zpos n).
Proof.
  rewrite (Pos2Z.inj_xI n), <- Z.pow_add_r, <- Z.pow_succ_r by lia. f_equal. lia.
Qed.

Lemma iter_shr_1_m (n : positive) :
  forall mrs, 0 <= shr_m mrs ->
    shr_m (iter_pos shr_1 n mrs) = shr_m mrs / 2 ^ Zpos n
    /\ 0 <= shr_m (iter_pos shr_1 n mrs).
Proof.
  induction n as [n IH|n IH|]; intros mrs H; simpl iter_pos.
  - destruct (shr_1_m mrs H) as [E1 P1].
    destruct (IH _ P1) as [E2 P2]. destruct (IH _ P2) as [E3 P3].
    split; [|exact P3]. rewrite E3, E2, E1, pow2_xI.
    assert (0 < 2 ^ Zpos n) by (apply Z.pow_pos_nonneg; lia).
    rewrite !Z.div_div by lia. reflexivity.
  - destruct (IH _ H) as [E2 P2]. destruct (IH _ P2) as [E3 P3].
    split; [|exact P3]. rewrite E3, E2, pow2_xO.
    assert (0 < 2 ^ Zpos n) by (apply Z.pow_pos_nonneg; lia).
    rewrite !Z.div_div by lia. reflexivity.
  - destruct (shr_1_m mrs H) as [E1 P1]. split; [|exact P1]. rewrite E1. reflexivity.
Qed.

Lemma round_nearest_even_bounds (m : Z) (l : location) :
  m <= round_nearest_even m l <= m + 1.
Proof.
  destruct l as [|[| |]]; simpl; try lia. destruct (Z.even m); lia.
Qed.

Lemma fexp_eq (z : Z) : fexp prec emax z = Z.max (z - 53) (-1074).
Proof. reflexivity. Qed.

Lemma iter_xO (d p : positive) : Zpos (Pos.iter xO p d) = Zpos p * 2 ^ Zpos d.
Proof.
  induction d as [|d IH] using Pos.peano_ind.
  - simpl. lia.
  - rewrite Pos.iter_succ, (Pos2Z.inj_xO (Pos.iter xO p d)), IH, Pos2Z.inj_succ,
      Z.pow_succ_r by lia. lia.
Qed.

(** A canonical mantissa is left alone by the rounding. *)
Lemma binary_round_aux_canonical (sx : bool) (m : positive) (e : Z) :
  fexp prec emax (Zpos (digits2_pos m) + e) = e -> e <= 971 ->
  binary_round_aux prec emax sx (Zpos m) e loc_Exact = S754_finite sx m e.
Proof.
  intros Hc He. unfold binary_round_aux, shr_fexp. simpl Zdigits2.
  rewrite Hc, Z.sub_diag.
  cbn [shr shr_record_of_loc shr_m loc_of_shr_record round_nearest_even Zdigits2].
  rewrite Hc, Z.sub_diag.
  cbn [shr shr_record_of_loc shr_m].
  replace (e <=? emax - prec) with true; [reflexivity|].
  symmetry. apply Z.leb_le. change (emax - prec) with 971. exact He.
Qed.

Lemma digits2_pos_iter_xO (d p : positive) :
  Zpos (digits2_pos (Pos.iter xO p d)) = Zpos (digits2_pos p) + Zpos d.
Proof.
  apply digits2_pos_unique; [|lia].
  rewrite iter_xO. pose proof (digits2_pos_bounds p) as [Hlo Hhi].
  replace (Zpos (digits2_pos p) + Zpos d - 1) with (Zpos (digits2_pos p) - 1 + Zpos d) by lia.
  rewrite !Z.pow_add_r by lia.
  assert (0 < 2 ^ Zpos d) by (apply Z.pow_pos_nonneg; lia).
  split; [apply Z.mul_le_mono_nonneg_r; lia | apply Z.mul_lt_mono_pos_r; lia].
Qed.

(** Rounding a value below a representable bound [M * 2^E] stays at or
    below the bound: [p * 2^(E-k) < M * 2^E]. *)
Lemma binary_round_below (sx : bool) (M : positive) (E k : Z) (p : positive) :
  2 ^ 52 <= Zpos M < 2 ^ 53 -> -1074 <= E - k -> E <= 971 -> 0 <= k ->
  Zpos p < Zpos M * 2 ^ k ->
  exists m' e', binary_round prec emax sx p (E - k) = S754_finite sx m' e'
    /\ (e' < E \/ (e' = E /\ (m' <= M)%positive)).
Proof.
  intros HM Hex HE Hk Hp.
  pose proof (digits2_pos_bounds p) as [Dlo Dhi].
  set (D := Zpos (digits2_pos p)) in *.
  assert (HD0 : 0 < D) by (unfold D; lia).
  set (ex := E - k) in *.
  unfold binary_round. fold D. rewrite fexp_eq.
  destruct (Z_le_gt_dec D 53) as [HD|HD].
  - (* at most 53 digits: the mantissa is shifted left, nothing is rounded *)
    unfold shl_align.
    destruct (Z.max (D + ex - 53) (-1074) - ex) as [|d|d] eqn:Ed; [| lia |].
    + rewrite binary_round_aux_canonical; [| fold D; rewrite fexp_eq; lia | lia].
      exists p, ex. split; [reflexivity|].
      destruct (Z.eq_dec k 0) as [->|Hk0]; [right|left; unfold ex; lia].
      split; [unfold ex; lia|]. rewrite Z.pow_0_r, Z.mul_1_r in Hp. lia.
    + rewrite binary_round_aux_canonical.
      * eexists _, _. split; [reflexivity|]. left. lia.
      * rewrite digits2_pos_iter_xO. fold D. rewrite fexp_eq.
        replace (D + Zpos d + Z.max (D + ex - 53) (-1074)) with (D + ex) by lia.
        reflexivity.
      * lia.
  - (* more than 53 digits: the mantissa is shifted right and rounded *)
    assert (Hn : exists n, D - 53 = Zpos n).
    { destruct (D - 53) as [|n|n] eqn:En; try lia. exists n; reflexivity. }
    destruct Hn as [n Hn].
    assert (Hmax : Z.max (D + ex - 53) (-1074) = ex + Zpos n) by lia.
    rewrite Hmax.
    assert (Hnk : Zpos n <= k).
    { assert (2 ^ (D - 1) < 2 ^ (53 + k)).
      { rewrite (Z.pow_add_r 2 53 k) by lia.
        assert (0 < 2 ^ k) by (apply Z.pow_pos_nonneg; lia).
        assert (Zpos M * 2 ^ k < 2 ^ 53 * 2 ^ k) by (apply Z.mul_lt_mono_pos_r; lia).
        lia. }
      apply Z.pow_lt_mono_r_iff in H; lia. }
    unfold shl_align.
    replace (ex + Zpos n - ex) with (Zpos n) by lia.
    unfold binary_round_aux, shr_fexp.
    cbn [Zdigits2]. fold D. rewrite fexp_eq, Hmax.
    replace (ex + Zpos n - ex) with (Zpos n) by lia.
    cbn [shr shr_record_of_loc].
    set (mrs := iter_pos shr_1 n {| shr_m := Zpos p; shr_r := false; shr_s := false |}).
    destruct (iter_shr_1_m n {| shr_m := Zpos p; shr_r := false; shr_s := false |})
      as [Em _]; [simpl; lia|]. fold mrs in Em. cbn [shr_m] in Em.
    assert (H2n : 0 < 2 ^ Zpos n) by (apply Z.pow_pos_nonneg; lia).
    assert (Hm1 : 2 ^ 52 <= shr_m mrs < 2 ^ 53).
    { rewrite Em. replace D with (53 + Zpos n) in Dhi by lia.
      replace (D - 1) with (52 + Zpos n) in Dlo by lia.
      rewrite Z.pow_add_r in Dhi, Dlo by lia. split.
      - apply Z.div_le_lower_bound; lia.
      - apply Z.div_lt_upper_bound; lia. }
    pose proof (round_nearest_even_bounds (shr_m mrs) (loc_of_shr_record mrs)) as Hr.
    set (m2 := round_nearest_even (shr_m mrs) (loc_of_shr_record mrs)) in *.
    assert (Hm2 : n = n -> (Zpos n = k -> m2 <= Zpos M)).
    { intros _ Hnk'. assert (shr_m mrs < Zpos M); [|lia].
      rewrite Em. apply Z.div_lt_upper_bound; [lia|]. rewrite Hnk'. lia. }
    specialize (Hm2 eq_refl).
    destruct m2 as [|q|q] eqn:Eq; [lia| |lia].
    cbn [Zdigits2]. rewrite fexp_eq.
    destruct (Z_lt_ge_dec (Zpos q) (2 ^ 53)) as [Hq|Hq].
    + rewrite (digits2_pos_unique q 53) by (simpl (53 - 1); lia).
      replace (Z.max (53 + (ex + Zpos n) - 53) (-1074) - (ex + Zpos n)) with 0 by lia.
      cbn [shr shr_m shr_record_of_loc].
      replace (ex + Zpos n <=? emax - prec) with true
        by (symmetry; apply Z.leb_le; change (emax - prec) with 971; lia).
      exists q, (ex + Zpos n). split; [reflexivity|].
      destruct (Z.eq_dec (Zpos n) k) as [Hnk'|Hnk'].
      * right. split; [unfold ex; lia|]. specialize (Hm2 Hnk'). lia.
      * left. unfold ex. lia.
    + assert (Hq' : q = 9007199254740992%positive).
      { change (2 ^ 53) with 9007199254740992 in *. lia. }
      subst q.
      assert (Hnk' : Zpos n <> k).
      { intros Hnk'. specialize (Hm2 Hnk'). change (2 ^ 53) with 9007199254740992 in *. lia. }
      replace (Z.max (Zpos (digits2_pos 9007199254740992) + (ex + Zpos n) - 53) (-1074)
               - (ex + Zpos n)) with 1 by (simpl digits2_pos; lia).
      cbn [shr shr_record_of_loc iter_pos shr_1 shr_m].
      replace (ex + Zpos n + 1 <=? emax - prec) with true
        by (symmetry; apply Z.leb_le; change (emax - prec) with 971; unfold ex; lia).
      eexists _, _. split; [reflexivity|].
      destruct (Z.eq_dec (ex + Zpos n + 1) E) as [HE'|HE'].
      * right. split; [exact HE'|]. change (2 ^ 52) with 4503599627370496 in *. lia.
      * left. unfold ex in *. lia.
Qed.

(** What validity says of a finite number. *)
Lemma bounded_inv (m : positive) (e : Z) :
  bounded prec emax m e = true ->
  Zpos m < 2 ^ 53 /\ -1074 <= e <= 971.
Proof.
  unfold bounded, canonical_mantissa. intros H. apply andb_prop in H as [Hc He].
  apply Z.eqb_eq in Hc. apply Z.leb_le in He. rewrite fexp_eq in Hc.
  change (emax - prec) with 971 in He.
  pose proof (digits2_pos_bounds m) as [_ Hhi].
  assert (Zpos (digits2_pos m) <= 53) by lia.
  assert (2 ^ Zpos (digits2_pos m) <= 2 ^ 53) by (apply Z.pow_le_mono_r; lia).
  lia.
Qed.

(** A negative number no smaller than [-M * 2^E], plus [M * 2^E]. *)
Lemma SFadd_neg_below (m M : positive) (e E : Z) :
  bounded prec emax m e = true -> bounded prec emax M E = true ->
  2 ^ 52 <= Zpos M ->
  e < E \/ (e = E /\ (m <= M)%positive) ->
  SFadd prec emax (S754_finite true m e) (S754_finite false M E) = S754_zero false
  \/ exists m' e',
      SFadd prec emax (S754_finite true m e) (S754_finite false M E)
      = S754_finite false m' e'
      /\ (e' < E \/ (e' = E /\ (m' <= M)%positive)).
Proof.
  intros Hm HM HM52 Hle.
  apply bounded_inv in Hm as [Hm He]. apply bounded_inv in HM as [HM HE].
  assert (S1 : shl_align m e e = (m, e)).
  { unfold shl_align. rewrite Z.sub_diag. reflexivity. }
  unfold SFadd. rewrite Z.min_l by lia. rewrite S1. cbn [fst cond_Zopp].
  destruct (Z.eq_dec e E) as [->|Hne].
  - assert (S3 : shl_align M E E = (M, E)).
    { unfold shl_align. rewrite Z.sub_diag. reflexivity. }
    rewrite S3. cbn [fst].
    destruct (Z.opp (Zpos m) + Zpos M) as [|p|p] eqn:Es; [left; reflexivity| |lia].
    right. cbn [binary_normalize].
    assert (Hb : Zpos p < Zpos M * 2 ^ 0) by (rewrite Z.pow_0_r; lia).
    pose proof (binary_round_below false M E 0 p) as H.
    rewrite Z.sub_0_r in H. apply H; lia.
  - assert (Hd : exists d, e - E = Zneg d).
    { destruct (e - E) as [|d|d] eqn:Ed; try lia. exists d; reflexivity. }
    destruct Hd as [d Hd].
    assert (S2 : shl_align M E e = (Pos.iter xO M d, e)).
    { unfold shl_align. rewrite Hd. reflexivity. }
    rewrite S2. cbn [fst].
    assert (Hpow : 2 <= 2 ^ Zpos d).
    { change 2 with (2 ^ 1) at 1. apply Z.pow_le_mono_r; lia. }
    assert (HMd : Zpos (Pos.iter xO M d) = Zpos M * 2 ^ Zpos d) by apply iter_xO.
    assert (Hbig : 2 ^ 53 <= Zpos M * 2 ^ Zpos d).
    { change (2 ^ 53) with (2 ^ 52 * 2). apply Z.mul_le_mono_nonneg; lia. }
    destruct (Z.opp (Zpos m) + Zpos (Pos.iter xO M d)) as [|p|p] eqn:Es; [lia| |lia].
    right. cbn [binary_normalize].
    pose proof (binary_round_below false M E (Zpos d) p) as H.
    replace (E - Zpos d) with e in H by lia. apply H; lia.
Qed.

Lemma SFcompare_antisym (x y : spec_float) :
  SFcompare y x = match SFcompare x y with Some c => Some (CompOpp c) | None => None end.
Proof.
  destruct x as [sx|sx| |sx mx ex], y as [sy|sy| |sy my ey]; simpl;
    try reflexivity;
    try (destruct sx; reflexivity); try (destruct sy; reflexivity);
    try (destruct sx, sy; reflexivity).
  replace (Pos.compare_cont Eq my mx) with (CompOpp (Pos.compare_cont Eq mx my))
    by (rewrite Pos.compare_cont_antisym; reflexivity).
  destruct sx, sy; try reflexivity;
    rewrite (Z.compare_antisym ex ey); destruct (ex ?= ey); simpl; try reflexivity;
    destruct (Pos.compare_cont Eq mx my); reflexivity.
Qed.

Lemma SFcompare_None (x y : spec_float) :
  SFcompare x y = None -> x = S754_nan \/ y = S754_nan.
Proof.
  destruct x as [sx|sx| |sx mx ex], y as [sy|sy| |sy my ey]; simpl; intros H;
    try discriminate H; auto.
Qed.

Lemma digits2_pos_le_53 (q : positive) : Zpos q < 2 ^ 53 -> Zpos (digits2_pos q) <= 53.
Proof.
  intros Hq. pose proof (digits2_pos_bounds q) as [Hlo _].
  assert (H : 2 ^ (Zpos (digits2_pos q) - 1) < 2 ^ 53) by lia.
  apply Z.pow_lt_mono_r_iff in H; lia.
Qed.

Lemma shr_nonpos (mrs : shr_record) (e n : Z) : n <= 0 -> shr mrs e n = (mrs, e).
Proof. intros H. destruct n; [reflexivity| lia |reflexivity]. Qed.

(** Rounding a mantissa of at least 53 digits whose value is below a
    representable normal bound [M * 2^E]. *)
Lemma binary_round_aux_below (sx : bool) (M : positive) (E : Z) (p : positive) (ex : Z) :
  2 ^ 52 <= Zpos M < 2 ^ 53 -> -1074 <= E <= 971 -> ex <= E ->
  53 <= Zpos (digits2_pos p) ->
  Zpos p < Zpos M * 2 ^ (E - ex) ->
  binary_round_aux prec emax sx (Zpos p) ex loc_Exact = S754_zero sx \/
  exists m' e', binary_round_aux prec emax sx (Zpos p) ex loc_Exact = S754_finite sx m' e'
    /\ (e' < E \/ (e' = E /\ (m' <= M)%positive)).
Proof.
  intros HM HE Hex HD53 Hp.
  pose proof (digits2_pos_bounds p) as [Dlo Dhi].
  set (D := Zpos (digits2_pos p)) in *.
  set (t := Z.max (D + ex - 53) (-1074)).
  assert (Ht : ex <= t) by (unfold t; lia).
  assert (H2k : 0 < 2 ^ (E - ex)) by (apply Z.pow_pos_nonneg; lia).
  assert (HtE : t <= E).
  { unfold t. apply Z.max_lub; [|lia].
    destruct (Z_le_gt_dec (D + ex - 53) E) as [|Hgt]; [assumption|exfalso].
    assert (2 ^ (53 + (E - ex)) <= 2 ^ (D - 1)) by (apply Z.pow_le_mono_r; lia).
    rewrite Z.pow_add_r in H by lia.
    assert (Zpos M * 2 ^ (E - ex) < 2 ^ 53 * 2 ^ (E - ex))
      by (apply Z.mul_lt_mono_pos_r; lia).
    lia. }
  unfold binary_round_aux, shr_fexp. cbn [Zdigits2]. fold D. rewrite fexp_eq. fold t.
  assert (Hshr : exists mrs, shr (shr_record_of_loc (Zpos p) loc_Exact) ex (t - ex) = (mrs, t)
            /\ shr_m mrs = Zpos p / 2 ^ (t - ex)).
  { destruct (t - ex) as [|n|n] eqn:En; [| |lia].
    - eexists. split; [cbn [shr]; f_equal; lia|]. cbn. rewrite Z.div_1_r. reflexivity.
    - cbn [shr shr_record_of_loc]. eexists. split; [f_equal; lia|].
      destruct (iter_shr_1_m n {| shr_m := Zpos p; shr_r := false; shr_s := false |})
        as [Em _]; [simpl; lia|]. exact Em. }
  destruct Hshr as (mrs & -> & Em).
  set (n := t - ex) in *.
  assert (H2n : 0 < 2 ^ n) by (apply Z.pow_pos_nonneg; unfold n; lia).
  assert (Hq53 : shr_m mrs < 2 ^ 53).
  { rewrite Em. apply Z.div_lt_upper_bound; [lia|].
    assert (2 ^ D <= 2 ^ (n + 53)) by (apply Z.pow_le_mono_r; unfold n, t; lia).
    rewrite Z.pow_add_r in H by (unfold n; lia). lia. }
  assert (Hq0 : 0 <= shr_m mrs) by (rewrite Em; apply Z.div_pos; lia).
  pose proof (round_nearest_even_bounds (shr_m mrs) (loc_of_shr_record mrs)) as Hr.
  set (m2 := round_nearest_even (shr_m mrs) (loc_of_shr_record mrs)) in *.
  assert (Hm2 : t = E -> m2 <= Zpos M).
  { intros HtE'. assert (shr_m mrs < Zpos M); [|lia].
    rewrite Em. apply Z.div_lt_upper_bound; [lia|].
    replace n with (E - ex) by (unfold n; lia). lia. }
  destruct m2 as [|q|q] eqn:Eq; [| |lia].
  - left. cbn [Zdigits2]. rewrite fexp_eq. rewrite shr_nonpos by lia. reflexivity.
  - right. cbn [Zdigits2]. rewrite fexp_eq.
    destruct (Z_lt_ge_dec (Zpos q) (2 ^ 53)) as [Hq|Hq].
    + pose proof (digits2_pos_le_53 q Hq) as HD2.
      rewrite shr_nonpos by (unfold t in *; lia).
      cbn [shr_record_of_loc shr_m].
      replace (t <=? emax - prec) with true
        by (symmetry; apply Z.leb_le; change (emax - prec) with 971; lia).
      exists q, t. split; [reflexivity|].
      destruct (Z.eq_dec t E) as [HtE'|HtE']; [right|left; lia].
      split; [exact HtE'|]. specialize (Hm2 HtE'). lia.
    + assert (Hq' : q = 9007199254740992%positive).
      { change (2 ^ 53) with 9007199254740992 in *. lia. }
      subst q.
      assert (HtE' : t <> E).
      { intros HtE'. specialize (Hm2 HtE'). change (2 ^ 53) with 9007199254740992 in *. lia. }
      replace (Z.max (Zpos (digits2_pos 9007199254740992) + t - 53) (-1074) - t)
        with 1 by (simpl digits2_pos; unfold t in *; lia).
      cbn [shr shr_record_of_loc iter_pos shr_1 shr_m].
      replace (t + 1 <=? emax - prec) with true
        by (symmetry; apply Z.leb_le; change (emax - prec) with 971; lia).
      eexists _, _. split; [reflexivity|].
      destruct (Z.eq_dec (t + 1) E) as [HE'|HE'].
      * right. split; [exact HE'|]. change (2 ^ 52) with 4503599627370496 in *. lia.
      * left. lia.
Qed.

Lemma shl_align_fst (m : positive) (e ez : Z) :
  ez <= e -> Zpos (fst (shl_align m e ez)) = Zpos m * 2 ^ (e - ez).
Proof.
  intros H. unfold shl_align. destruct (ez - e) as [|d|d] eqn:Ed; [|lia|].
  - replace (e - ez) with 0 by lia. cbn [fst]. lia.
  - cbn [fst]. rewrite iter_xO. replace (e - ez) with (Zpos d) by lia. reflexivity.
Qed.

(** The lexicographic bound as a bound on the aligned mantissa. *)
Lemma lex_bound_aligned (m M : positive) (e E ez : Z) :
  Zpos m < 2 ^ 53 -> 2 ^ 52 <= Zpos M -> ez <= e -> ez <= E ->
  e < E \/ (e = E /\ (m <= M)%positive) ->
  Zpos m * 2 ^ (e - ez) <= Zpos M * 2 ^ (E - ez).
Proof.
  intros Hm HM He HE [Hlt | [-> Hle]].
  - replace (E - ez) with (E - e - 1 + 1 + (e - ez)) by lia.
    rewrite !Z.pow_add_r by lia.
    assert (0 < 2 ^ (e - ez)) by (apply Z.pow_pos_nonneg; lia).
    assert (0 < 2 ^ (E - e - 1)) by (apply Z.pow_pos_nonneg; lia).
    change (2 ^ 1) with 2. change (2 ^ 53) with 9007199254740992 in Hm.
    change (2 ^ 52) with 4503599627370496 in HM.
    rewrite !Z.mul_assoc. apply Z.mul_le_mono_nonneg_r; [lia|].
    assert (Zpos M * 1 <= Zpos M * 2 ^ (E - e - 1)) by (apply Z.mul_le_mono_nonneg_l; lia).
    lia.
  - apply Z.mul_le_mono_nonneg_r; [apply Z.pow_nonneg; lia|]. lia.
Qed.

#[local] Close Scope Z_scope.
#[local] Open Scope float_scope.

Lemma Prim2SF_zero : Prim2SF 0 = S754_zero false.
Proof. reflexivity. Qed.

(** [x <= y] excludes [y < x]. *)
Lemma leb_not_ltb (x y : float) : (x <=? y) = true -> (y <? x) = false.
Proof.
  rewrite leb_spec, ltb_spec. unfold SFleb, SFltb.
  rewrite (SFcompare_antisym (Prim2SF x) (Prim2SF y)).
  destruct (SFcompare (Prim2SF x) (Prim2SF y)) as [[| |]|]; simpl; congruence.
Qed.

(** The order is total on numbers: a number that is not below [c] is at
    or above it. *)
Lemma not_ltb_leb (x c z : float) :
  (z <=? x) = true -> Prim2SF c <> S754_nan -> (x <? c) = false -> (c <=? x) = true.
Proof.
  rewrite !leb_spec, ltb_spec. unfold SFleb, SFltb. intros Hz Hc.
  rewrite (SFcompare_antisym (Prim2SF x) (Prim2SF c)).
  destruct (SFcompare (Prim2SF x) (Prim2SF c)) as [[| |]|] eqn:E; simpl; try congruence.
  apply SFcompare_None in E as [E|E]; [|contradiction].
  rewrite E in Hz. destruct (Prim2SF z); discriminate Hz.
Qed.

(** Adding a positive normal constant [c] to a negative [x >= -c] gives a
    number in [[0, c]]. *)
Lemma add_wrap (c x : float) (M : positive) (E : Z) :
  Prim2SF c = S754_finite false M E -> (2 ^ 52 <= Zpos M)%Z ->
  (x <? 0) = true -> (- c <=? x) = true ->
  (x + c <=? c) = true /\ (0 <=? x + c) = true.
Proof.
  intros Hc HM. rewrite ltb_spec, !leb_spec, opp_spec, add_spec, Hc, Prim2SF_zero.
  pose proof (Prim2SF_valid x) as Vx. pose proof (Prim2SF_valid c) as Vc.
  rewrite Hc in Vc. cbn [SpecFloat.valid_binary] in Vc.
  unfold SF64add. cbn [SFopp negb].
  destruct (Prim2SF x) as [s|s| |s m e]; cbn [SpecFloat.valid_binary] in Vx;
    unfold SFltb, SFleb; cbn [SFcompare]; try discriminate;
    destruct s; try discriminate.
  intros _ Hle.
  assert (Hle' : (e < E)%Z \/ (e = E /\ (m <= M)%positive)).
  { destruct (Z.compare_spec E e) as [Heq|Hlt|Hgt]; try discriminate Hle.
    - right. split; [lia|]. unfold Pos.le. rewrite Pos.compare_cont_spec in Hle.
      simpl in Hle. rewrite (Pos.compare_antisym M m).
      destruct (M ?= m)%positive; simpl in *; try discriminate; congruence.
    - left. lia. }
  destruct (SFadd_neg_below m M e E Vx Vc HM Hle') as [-> | (m' & e' & -> & Hb)].
  - split; reflexivity.
  - split; [|reflexivity]. cbn [SFcompare].
    destruct Hb as [Hlt | [-> Hmm]].
    + apply Z.compare_lt_iff in Hlt. rewrite Hlt. reflexivity.
    + rewrite Z.compare_refl, Pos.compare_cont_spec. simpl.
      unfold Pos.le in Hmm. destruct (m' ?= M)%positive; try reflexivity. congruence.
Qed.

(** An angle at most [pi] in magnitude, times [180 / pi]: at most 360 in
    magnitude. *)
Lemma scale_to_degrees (s : bool) (m : positive) (e : Z) :
  (Zpos m < 2 ^ 53)%Z ->
  (e < -51)%Z \/ (e = (-51)%Z /\ (m <= 7074237752028440)%positive) ->
  binary_round_aux prec emax s (Zpos (8063664102031864 * m)) (-47 + e) loc_Exact
  = S754_zero s \/
  exists m' e',
    binary_round_aux prec emax s (Zpos (8063664102031864 * m)) (-47 + e) loc_Exact
    = S754_finite s m' e'
    /\ ((e' < -44)%Z \/ (e' = (-44)%Z /\ (m' <= 6333186975989760)%positive)).
Proof.
  intros Hm Hlex.
  assert (He : (e <= -51)%Z).
  { destruct Hlex as [H|[H _]]; [apply Z.lt_le_incl; exact H | rewrite H; apply Z.le_refl]. }
  pose proof (lex_bound_aligned m 7074237752028440 e (-51) e Hm
                ltac:(vm_compute; discriminate) (Z.le_refl e) He Hlex) as Hb.
  clear Hlex. rewrite Z.sub_diag, Z.mul_1_r in Hb.
  assert (H2 : (0 < 2 ^ (-51 - e))%Z) by (apply Z.pow_pos_nonneg; lia).
  apply binary_round_aux_below.
  - vm_compute. split; [discriminate|reflexivity].
  - lia.
  - lia.
  - pose proof (digits2_pos_bounds (8063664102031864 * m)) as [_ Hhi].
    assert (H : (2 ^ 52 < 2 ^ Zpos (digits2_pos (8063664102031864 * m)))%Z).
    { change (2 ^ 52)%Z with 4503599627370496%Z. lia. }
    apply Z.pow_lt_mono_r_iff in H; lia.
  - replace (-44 - (-47 + e))%Z with (54 + (-51 - e))%Z by lia.
    rewrite Z.pow_add_r by lia. change (2 ^ 54)%Z with 18014398509481984%Z.
    rewrite Pos2Z.inj_mul. nia.
Qed.

Lemma is_finite_not_nan (e : float) : is_finite e = true -> Prim2SF e <> S754_nan.
Proof.
  unfold is_finite, is_nan. rewrite eqb_spec. intros H E. rewrite E in H. discriminate H.
Qed.

Lemma leb_total (x y : float) :
  Prim2SF x <> S754_nan -> Prim2SF y <> S754_nan ->
  (x <=? y) = false -> (y <=? x) = true.
Proof.
  rewrite !leb_spec. unfold SFleb. intros Hx Hy.
  rewrite (SFcompare_antisym (Prim2SF x) (Prim2SF y)).
  destruct (SFcompare (Prim2SF x) (Prim2SF y)) as [[| |]|] eqn:E; simpl; try congruence.
  apply SFcompare_None in E as [E|E]; contradiction.
Qed.

(** [int(x * 255. + .5)] of a number between 0 and 1 is between 0 and 255. *)
Lemma hex_channel_range (r : float) :
  (0 <=? r) = true -> (r <=? 1) = true ->
  (0 <= astype_int (r * 255 + 0.5) <= 255)%Z.
Proof.
  rewrite !leb_spec. rewrite Prim2SF_zero.
  change (Prim2SF 1) with (S754_finite false 4503599627370496 (-52)).
  unfold astype_int, trunc_Z.
  pose proof (Prim2SF_valid (r * 255 + 0.5)) as V2. revert V2. rewrite add_spec.
  pose proof (Prim2SF_valid (r * 255)) as Vp. revert Vp. rewrite mul_spec.
  change (Prim2SF 255) with (S754_finite false 8972014882652160 (-45)).
  change (Prim2SF 0.5) with (S754_finite false 4503599627370496 (-53)).
  pose proof (Prim2SF_valid r) as Vr.
  destruct (Prim2SF r) as [s|s| |s m e]; unfold SFleb; cbn [SFcompare];
    intros Vp V2 H0 Hle.
  - destruct s; vm_compute; split; discriminate.
  - destruct s; discriminate.
  - discriminate.
  - destruct s; [discriminate|]. clear H0.
    cbn [SpecFloat.valid_binary] in Vr. apply bounded_inv in Vr as [Hm53 He].
    assert (Hr1 : (e <= -52 /\ Zpos m <= 2 ^ (- e))%Z).
    { destruct (Z.compare_spec e (-52)) as [->|Hlt|Hgt]; [| |discriminate Hle].
      - split; [lia|]. rewrite Pos.compare_cont_spec in Hle.
        change (2 ^ (- -52))%Z with (Zpos 4503599627370496).
        apply Pos2Z.pos_le_pos. unfold Pos.le.
        destruct (m ?= 4503599627370496)%positive;
          [discriminate | discriminate | discriminate Hle].
      - split; [lia|]. assert (2 ^ 53 <= 2 ^ (- e))%Z by (apply Z.pow_le_mono_r; lia). lia. }
    clear Hle. destruct Hr1 as [He52 Hm1].
    unfold SF64mul, SFmul in *. cbn [xorb] in *.
    assert (H2e : (0 < 2 ^ (- e))%Z) by (apply Z.pow_pos_nonneg; lia).
    destruct (binary_round_aux_below false 8972014882652161 (-45)
                (m * 8972014882652160) (e + -45)) as [Hz | (m' & e' & Hf & Hlex)].
    + vm_compute. split; [discriminate|reflexivity].
    + lia.
    + lia.
    + pose proof (digits2_pos_bounds (m * 8972014882652160)) as [_ Hhi].
      assert (H : (2 ^ 52 < 2 ^ Zpos (digits2_pos (m * 8972014882652160)))%Z).
      { change (2 ^ 52)%Z with 4503599627370496%Z. lia. }
      apply Z.pow_lt_mono_r_iff in H; lia.
    + replace (-45 - (e + -45))%Z with (- e)%Z by lia. rewrite Pos2Z.inj_mul. nia.
    + rewrite Hz. vm_compute. split; discriminate.
    + rewrite Hf in *. cbn [SpecFloat.valid_binary] in Vp.
      apply bounded_inv in Vp as [Hm' He'].
      unfold SF64add, SFadd in *. cbn [cond_Zopp] in *.
      set (ez := Z.min e' (-53)) in *.
      assert (A1 : (ez <= e')%Z) by apply Z.le_min_l.
      assert (A2 : (ez <= -53)%Z) by apply Z.le_min_r.
      rewrite (shl_align_fst m' e' ez A1),
              (shl_align_fst 4503599627370496 (-53) ez A2) in *.
      assert (A3 : (ez <= -45)%Z)
        by (apply Z.le_trans with (1 := A2); intros H; discriminate H).
      assert (Hb1 := lex_bound_aligned m' 8972014882652161 e' (-45) ez Hm'
                       ltac:(vm_compute; discriminate) A1 A3 Hlex).
      clear Hlex Hf.
      assert (H2h : (0 < 2 ^ (-53 - ez))%Z) by (apply Z.pow_pos_nonneg; lia).
      assert (Hhalf : (2 ^ (-45 - ez) = 2 ^ (-53 - ez) * 256)%Z).
      { replace (-45 - ez)%Z with (-53 - ez + 8)%Z by lia.
        rewrite Z.pow_add_r by lia. reflexivity. }
      assert (H2a : (0 < 2 ^ (e' - ez))%Z) by (apply Z.pow_pos_nonneg; lia).
      set (sum := (Zpos m' * 2 ^ (e' - ez) + 4503599627370496 * 2 ^ (-53 - ez))%Z) in *.
      assert (Hsum : (0 < sum < 9007199254740991 * 2 ^ (-45 - ez))%Z).
      { unfold sum. rewrite Hhalf in *. nia. }
      destruct sum as [|ps|ps] eqn:Es; try lia.
      unfold binary_normalize in *.
      destruct (binary_round_below false 9007199254740991 (-45) (-45 - ez) ps)
        as (m2 & e2 & Hf2 & Hlex2).
      * vm_compute. split; [discriminate|reflexivity].
      * lia.
      * lia.
      * lia.
      * lia.
      * assert (He2 : (e2 <= -45)%Z).
        { destruct Hlex2 as [H|[H _]];
            [apply Z.lt_le_incl; exact H | rewrite H; apply Z.le_refl]. }
        clear Hlex2.
        replace (-45 - (-45 - ez))%Z with ez in Hf2 by lia. rewrite Hf2 in *.
        cbn [SpecFloat.valid_binary] in V2. apply bounded_inv in V2 as [Hm2 _].
        clear Hf2.
        cbn [cond_Zopp]. rewrite Z.shiftl_div_pow2 by lia.
        assert (H2x : (2 ^ 45 <= 2 ^ (- e2))%Z) by (apply Z.pow_le_mono_r; lia).
        change (2 ^ 45)%Z with 35184372088832%Z in H2x.
        change (2 ^ 53)%Z with 9007199254740992%Z in Hm2.
        split.
        -- apply Z.div_pos; lia.
        -- assert (Zpos m2 / 2 ^ (- e2) < 256)%Z; [|lia].
           apply Z.div_lt_upper_bound; lia.
Qed.

End FloatFacts.

(* ================================================================== *)
(** * The hue of the polar spaces *)
(* ================================================================== *)

Import FloatFacts.

(** The two loops leave an angle of [[-360, 360]] in [[0, 360]], in at most
    one step. *)
Lemma wrap_hue_range (fuel : nat) (d : float) :
  angle_in_range d = true ->
  exists h, wrap_hue (S (S fuel)) d = Ok h /\ hue_in_range h = true.
Proof.
  unfold angle_in_range, hue_in_range. intros Hd.
  apply andb_true_iff in Hd as [Hlo Hhi].
  unfold wrap_hue. cbn [while_gt_360]. unfold gtb.
  rewrite (leb_not_ltb d 360 Hhi). cbn [rbind while_lt_0].
  destruct (d <? 0) eqn:Hneg.
  - assert (HM : (2 ^ 52 <= Zpos 6333186975989760)%Z) by (vm_compute; discriminate).
    destruct (add_wrap 360 d 6333186975989760 (-44) eq_refl HM Hneg Hlo) as [Hle Hge].
    rewrite (leb_not_ltb 0 (d + 360) Hge).
    exists (d + 360). rewrite Hle, Hge. split; reflexivity.
  - exists d. split; [reflexivity|].
    rewrite Hhi, andb_true_r.
    apply (not_ltb_leb d 0 (-360)); [exact Hlo | discriminate | exact Hneg].
Qed.

(** [RAD2DEG] of an angle between [-pi] and [pi] lies between -360 and 360. *)
Lemma RAD2DEG_range (a : float) :
  angle_within_pi a = true -> angle_in_range (RAD2DEG a) = true.
Proof.
  unfold angle_within_pi, angle_in_range, RAD2DEG. intros H.
  apply andb_prop in H as [Hlo Hhi]. apply andb_true_intro. revert Hlo Hhi.
  rewrite !leb_spec, mul_spec.
  change (Prim2SF (- pi)) with (S754_finite true 7074237752028440 (-51)).
  change (Prim2SF pi) with (S754_finite false 7074237752028440 (-51)).
  change (Prim2SF (180 / pi)) with (S754_finite false 8063664102031864 (-47)).
  change (Prim2SF (-360)) with (S754_finite true 6333186975989760 (-44)).
  change (Prim2SF 360) with (S754_finite false 6333186975989760 (-44)).
  pose proof (Prim2SF_valid a) as Va.
  destruct (Prim2SF a) as [s|s| |s m e]; unfold SFleb; cbn [SFcompare]; intros Hlo Hhi.
  - destruct s; split; reflexivity.
  - destruct s; discriminate.
  - discriminate.
  - cbn [SpecFloat.valid_binary] in Va. apply bounded_inv in Va as [Hm _].
    assert (Hlex : (e < -51)%Z \/ (e = (-51)%Z /\ (m <= 7074237752028440)%positive)).
    { destruct s.
      - destruct (Z.compare_spec (-51) e) as [Heq|Hlt|Hgt]; [| discriminate Hlo |].
        + right. split; [symmetry; exact Heq|]. unfold Pos.le.
          rewrite Pos.compare_cont_spec in Hlo. simpl in Hlo.
          rewrite (Pos.compare_antisym 7074237752028440 m).
          destruct (7074237752028440 ?= m)%positive; simpl in *; try discriminate; congruence.
        + left. exact Hgt.
      - destruct (Z.compare_spec e (-51)) as [Heq|Hlt|Hgt]; [| | discriminate Hhi].
        + right. split; [exact Heq|]. unfold Pos.le.
          rewrite Pos.compare_cont_spec in Hhi. simpl in Hhi.
          destruct (m ?= 7074237752028440)%positive; simpl in *; try discriminate; congruence.
        + left. exact Hlt. }
    clear Hlo Hhi. unfold SF64mul, SFmul. cbn [xorb].
    destruct (scale_to_degrees s m e Hm Hlex) as [-> | (m' & e' & -> & Hb)].
    + destruct s; split; reflexivity.
    + assert (Hc : match Z.compare e' (-44) with
                   | Lt => True
                   | Eq => (m' ?= 6333186975989760)%positive <> Gt
                   | Gt => False
                   end).
      { destruct Hb as [Hlt | [-> Hle]].
        - apply Z.compare_lt_iff in Hlt. rewrite Hlt. exact I.
        - rewrite Z.compare_refl. exact Hle. }
      clear Hb Hlex. destruct s; cbn [SFcompare]; split; try reflexivity.
      * rewrite (Z.compare_antisym e' (-44)).
        destruct (e' ?= -44)%Z; cbn [CompOpp]; try reflexivity; [|contradiction].
        rewrite Pos.compare_cont_spec. cbn [Pos.switch_Eq].
        rewrite (Pos.compare_antisym m' 6333186975989760).
        destruct (m' ?= 6333186975989760)%positive; cbn [CompOpp]; try reflexivity.
        exfalso. apply Hc. reflexivity.
      * destruct (e' ?= -44)%Z; try reflexivity; [|contradiction].
        rewrite Pos.compare_cont_spec. cbn [Pos.switch_Eq].
        destruct (m' ?= 6333186975989760)%positive; try reflexivity.
        exfalso. apply Hc. reflexivity.
Qed.

Lemma mapM_wrap_hue_range (fuel : nat) (ds : arr) :
  Forall (fun d => angle_in_range d = true) ds ->
  exists H, mapM (wrap_hue (S (S fuel))) ds = Ok H /\ len H = len ds /\
            Forall (fun h => hue_in_range h = true) H.
Proof.
  induction 1 as [|d ds Hd _ (H & HH & Hlen & Hall)].
  - exists []. repeat split. constructor.
  - destruct (wrap_hue_range fuel d Hd) as (h & Hh & Hr).
    exists (h :: H). cbn [mapM]. rewrite Hh. cbn [rbind]. rewrite HH. cbn [rbind].
    repeat split; [unfold len in *; simpl; congruence | constructor; assumption].
Qed.

Lemma check_three_equal (a b c : nat) :
  a = b -> b = c -> colorlib._check_input_arrays_ [a; b; c] = Ok tt.
Proof.
  intros -> ->. unfold colorlib._check_input_arrays_. cbn [forallb].
  rewrite Nat.eqb_refl. reflexivity.
Qed.

(** C4 (as it holds).  For arrays of one length, and an [arctan2] whose
    angles lie between [-pi] and [pi], [LUV_to_polarLUV] and
    [LAB_to_polarLAB] return, keep [L], and give one hue per color, each in
    the closed interval from 0 to 360: the upper end is included. *)
Theorem polar_hue_lies_between_0_and_360 {libm : Libm} (fuel : nat) (L U V : arr) :
  len L = len U -> len U = len V ->
  Forall (fun a => angle_within_pi a = true) (map2 np_arctan2 V U) ->
  (exists C H, LUV_to_polarLUV (S (S fuel)) L U V = Ok (L, C, H) /\
               len H = len L /\ Forall (fun h => hue_in_range h = true) H) /\
  (exists C H, LAB_to_polarLAB (S (S fuel)) L U V = Ok (L, C, H) /\
               len H = len L /\ Forall (fun h => hue_in_range h = true) H).
Proof.
  intros HLU HUV Hpi.
  assert (Hall : Forall (fun d => angle_in_range d = true)
                        (map2 (fun v u => RAD2DEG (np_arctan2 v u)) V U)).
  { unfold map2 in *. rewrite Forall_map in *.
    apply (Forall_impl _ (fun p => RAD2DEG_range _) Hpi). }
  destruct (mapM_wrap_hue_range fuel _ Hall) as (H & HH & Hlen & Hr).
  assert (Hl : len H = len L).
  { rewrite Hlen. unfold map2, len in *. rewrite length_map, length_combine. lia. }
  split.
  - exists (map2 (fun u v => PrimFloat.sqrt (u * u + v * v)) U V), H.
    unfold LUV_to_polarLUV. rewrite (check_three_equal _ _ _ HLU HUV). cbn [rbind].
    rewrite HH. cbn [rbind]. auto.
  - exists (map2 (fun a b => PrimFloat.sqrt (a * a + b * b)) U V), H.
    unfold LAB_to_polarLAB. rewrite (check_three_equal _ _ _ HLU HUV). cbn [rbind].
    rewrite HH. cbn [rbind]. auto.
Qed.

(** C4, the counterexample. A negative angle smaller than half an ulp of
    360 is rounded to 360 by [val += 360.]: for [U = 1], [V = -1e-300],
    where [arctan2] is [-1e-300], the hue returned is 360. *)
Lemma hue_360_is_returned :
  wrap_hue 2 (RAD2DEG (-1e-300)) = Ok 360 /\
  (360 <? 360) = false /\
  forall libm : Libm, np_arctan2 (-1e-300) 1 = -1e-300 ->
    LUV_to_polarLUV 2 [50] [1] [-1e-300] = Ok ([50], [1], [360]) /\
    LAB_to_polarLAB 2 [50] [1] [-1e-300] = Ok ([50], [1], [360]).
Proof.
  split; [vm_compute; reflexivity|]. split; [reflexivity|].
  intros libm Hat.
  unfold LUV_to_polarLUV, LAB_to_polarLAB, map2. cbn [combine map fst snd mapM].
  rewrite Hat. split; vm_compute; reflexivity.
Qed.

(** The theorem at [U = [1; 1]], [V = [-1e-300; -0.0]]. *)
Lemma polar_hue_lies_between_0_and_360_witness :
  (exists C H, @LUV_to_polarLUV leading_terms 2 [50; 60] [1; 1] [-1e-300; -0.0]
               = Ok ([50; 60], C, H) /\
               len H = len [50; 60] /\ Forall (fun h => hue_in_range h = true) H) /\
  (exists C H, @LAB_to_polarLAB leading_terms 2 [50; 60] [1; 1] [-1e-300; -0.0]
               = Ok ([50; 60], C, H) /\
               len H = len [50; 60] /\ Forall (fun h => hue_in_range h = true) H).
Proof.
  apply (@polar_hue_lies_between_0_and_360 leading_terms 0 [50; 60] [1; 1] [-1e-300; -0.0]).
  - reflexivity.
  - reflexivity.
  - repeat constructor.
Defined.

(* ================================================================== *)
(** * The diverging palette *)
(* ================================================================== *)


(* ================================================================== *)
(** * The method [colors] *)
(* ================================================================== *)

(** ** The hex code of a color in range *)

(** [{:02X}] of a byte is two hex digits. *)
Lemma format_02X_byte (z : Z) : (0 <= z <= 255)%Z -> two_hex_digits (format_02X z) = true.
Proof.
  intros Hz.
  assert (Hall : forallb (fun n => two_hex_digits (format_02X (Z.of_nat n))) (seq 0 256) = true)
    by (vm_compute; reflexivity).
  rewrite forallb_forall in Hall.
  rewrite <- (Z2Nat.id z) by lia. apply Hall. apply in_seq. lia.
Qed.

Lemma gethex1_is_hex7 (r g b : float) :
  (0 <=? r) = true -> (r <=? 1) = true ->
  (0 <=? g) = true -> (g <=? 1) = true ->
  (0 <=? b) = true -> (b <=? 1) = true ->
  is_hex7 (gethex1 r g b) = true.
Proof.
  intros Hr0 Hr1 Hg0 Hg1 Hb0 Hb1. unfold gethex1.
  pose proof (format_02X_byte _ (hex_channel_range r Hr0 Hr1)) as Fr.
  pose proof (format_02X_byte _ (hex_channel_range g Hg0 Hg1)) as Fg.
  pose proof (format_02X_byte _ (hex_channel_range b Hb0 Hb1)) as Fb.
  destruct (format_02X (astype_int (r * 255 + 0.5))) as [|r1 [|r2 [|]]]; try discriminate Fr.
  destruct (format_02X (astype_int (g * 255 + 0.5))) as [|g1 [|g2 [|]]]; try discriminate Fg.
  destruct (format_02X (astype_int (b * 255 + 0.5))) as [|b1 [|b2 [|]]]; try discriminate Fb.
  cbn [two_hex_digits] in *.
  apply andb_prop in Fr as [? ?]. apply andb_prop in Fg as [? ?].
  apply andb_prop in Fb as [? ?].
  unfold is_hex7, validhex. cbn [append list_ascii_of_string forallb String.length Nat.eqb].
  repeat match goal with H : is_hex_digit _ = true |- _ => rewrite H; clear H end.
  reflexivity.
Qed.

(** A color channel that is finite after [rgbfixup] or [rgbcleanup] lies
    between 0 and 1. *)
Lemma fixed_channel_range (fixup : bool) (e : float) :
  is_finite ((if fixup then rgbfixup1 else rgbcleanup1) e) = true ->
  (0 <=? (if fixup then rgbfixup1 else rgbcleanup1) e) = true /\
  ((if fixup then rgbfixup1 else rgbcleanup1) e <=? 1) = true.
Proof.
  destruct fixup.
  - unfold rgbfixup1. destruct (is_finite e) eqn:Fe; [|discriminate].
    intros _. apply is_finite_not_nan in Fe.
    unfold np_maximum, np_minimum.
    change (is_nan 1) with false. change (is_nan 0) with false. rewrite !orb_false_r.
    destruct (1 <=? e) eqn:E1.
    + split; reflexivity.
    + destruct (e <=? 0) eqn:E0.
      * split; reflexivity.
      * split; apply leb_total; try assumption; discriminate.
  - unfold rgbcleanup1, geb. destruct ((0 <=? e) && (e <=? 1)) eqn:E; [|discriminate].
    intros _. apply andb_prop in E. exact E.
Qed.

(** Assigning to item [j] leaves the other items and the length. *)
Lemma assign_item {A : Type} (l : list A) (j : nat) (x v : A) :
  nth_error l j = Some x ->
  List.length (firstn j l ++ [v] ++ skipn (S j) l) = List.length l /\
  forall i, i <> j -> nth_error (firstn j l ++ [v] ++ skipn (S j) l) i = nth_error l i.
Proof.
  intros H. apply nth_error_split in H as (l1 & l2 & -> & <-).
  rewrite firstn_app, firstn_all, Nat.sub_diag, app_nil_r.
  replace (S (List.length l1)) with (List.length l1 + 1)%nat by lia.
  rewrite skipn_app, skipn_all2 by lia.
  replace (List.length l1 + 1 - List.length l1)%nat with 1%nat by lia.
  cbn [skipn app]. split.
  - rewrite !length_app. reflexivity.
  - intros i Hi. destruct (Nat.lt_ge_cases i (List.length l1)) as [Hlt|Hge].
    + rewrite !nth_error_app1 by assumption. reflexivity.
    + rewrite !nth_error_app2 by assumption.
      destruct (i - List.length l1)%nat as [|k] eqn:Ek; [lia|]. reflexivity.
Qed.

Lemma check_all_equal (l0 : nat) (ls : list nat) :
  Forall (eq l0) ls -> _check_input_arrays_ (l0 :: ls) = Ok tt.
Proof.
  intros H. unfold _check_input_arrays_.
  replace (forallb (Nat.eqb l0) (l0 :: ls)) with true; [reflexivity|].
  symmetry. apply forallb_forall. intros x [<-|Hx]; [apply Nat.eqb_refl|].
  rewrite Forall_forall in H. rewrite (H x Hx). apply Nat.eqb_refl.
Qed.

Lemma len_map {A : Type} (f : A -> float) (l : list A) : len (map f l) = List.length l.
Proof. apply length_map. Qed.

Lemma len_map2 {A B C : Type} (f : A -> B -> C) (a : list A) (b : list B) (n : nat) :
  List.length a = n -> List.length b = n -> List.length (map2 f a b) = n.
Proof. intros Ha Hb. unfold map2. rewrite length_map, length_combine. lia. Qed.

Lemma len_map3 {A B C D : Type} (f : A -> B -> C -> D)
  (a : list A) (b : list B) (c : list C) (n : nat) :
  List.length a = n -> List.length b = n -> List.length c = n ->
  List.length (map3 f a b c) = n.
Proof.
  intros Ha Hb Hc. unfold map3, zip3. rewrite length_map, !length_combine. lia.
Qed.

Lemma len_repeat (x : float) (n : nat) : List.length (np_repeat x n) = n.
Proof. apply repeat_length. Qed.

(** The lengths of the arrays the transformations build. *)
Ltac lens :=
  unfold lens3, len in *; cbn [fst snd];
  repeat first
    [ assumption | reflexivity
    | rewrite length_map
    | apply len_map2 | apply len_map3 | apply len_repeat
    | split ].

Section ColorsMethod.
Context {libm : Libm}.

(** ** What a successful [to] leaves *)

Lemma andthen_ok (m1 m2 : meth) (self x : colorobject) :
  andthen m1 m2 self = (None, x) ->
  exists y, m1 self = (None, y) /\ m2 y = (None, x).
Proof.
  unfold andthen. destruct (m1 self) as [[e|] y]; [discriminate|].
  intros H. exists y. split; [reflexivity | exact H].
Qed.

Lemma become_ok (c : cls) (data : colorobject -> result dict) (self x : colorobject) :
  become c data self = (None, x) ->
  __class__ x = c /\ data self = Ok (_data_ x).
Proof.
  unfold become. destruct (data self) as [d|e]; [|discriminate].
  intros H. injection H as <-. split; reflexivity.
Qed.

(** The hops of a path, one after the other. *)
Ltac path_hops H :=
  cbn [_transform_via_path_] in H;
  repeat (let y := fresh "y" in let Hy := fresh "Hy" in
          apply andthen_ok in H; destruct H as (y & Hy & H));
  unfold ret in H; injection H as <-.

(** Into the [to] method of the class of [self]: past the check of the
    target, with the class known in the tests of the method. *)
Ltac enter_method H Ec :=
  cbv beta iota in H;
  first [ progress unfold polarLUV_to in H | progress unfold CIELUV_to in H
        | progress unfold CIEXYZ_to in H | progress unfold CIELAB_to in H
        | progress unfold polarLAB_to in H | progress unfold RGB_to in H
        | progress unfold sRGB_to in H | progress unfold HSV_to in H
        | progress unfold HLS_to in H | progress unfold hexcols_to in H ];
  apply andthen_ok in H; destruct H as (? & Hchk & H);
  unfold _check_if_allowed_ in Hchk; cbn in Hchk; injection Hchk as <-;
  rewrite Ec in H; cbn in H.

Lemma to_sRGB_class (fuel : nat) :
  forall fixup self x, to fuel "sRGB" fixup self = (None, x) -> __class__ x = sRGB.
Proof.
  induction fuel as [|fuel IH]; intros fixup self x H; [discriminate H|].
  cbn [to] in H.
  destruct (__class__ self) eqn:Ec; enter_method H Ec;
    first [ apply become_ok in H as [Hc _]; exact Hc
          | path_hops H; eapply IH; eassumption
          | injection H as <-; exact Ec ].
Qed.

Lemma call3_ok {T : Type} (self : colorobject) (k1 k2 k3 : string)
  (f : arr -> arr -> arr -> result T) (r : T) :
  call3 self k1 k2 k3 f = Ok r -> exists a1 a2 a3, f a1 a2 a3 = Ok r.
Proof.
  unfold call3.
  destruct (get self k1) as [v1|]; [|discriminate].
  destruct (get self k2) as [v2|]; [|discriminate].
  destruct (get self k3) as [v3|]; [|discriminate]. cbn [rbind].
  destruct (as_float64 v1) as [a1|]; [|discriminate].
  destruct (as_float64 v2) as [a2|]; [|discriminate].
  destruct (as_float64 v3) as [a3|]; [|discriminate]. cbn [rbind].
  intros H. exists a1, a2, a3. exact H.
Qed.

Lemma to_hex_of_sRGB (fuel : nat) :
  forall fixup self x,
    __class__ self <> hexcols ->
    to fuel "hex" fixup self = (None, x) -> hex_of_sRGB fixup x.
Proof.
  induction fuel as [|fuel IH]; intros fixup self x Hc H; [discriminate H|].
  cbn [to] in H.
  destruct (__class__ self) eqn:Ec; try (exfalso; apply Hc; reflexivity);
    enter_method H Ec;
    try (path_hops H;
         match goal with
         | Hs : to _ "sRGB" _ _ = (None, ?z), Hh : to _ "hex" _ ?z = (None, _) |- _ =>
             apply (IH _ _ _ ltac:(rewrite (to_sRGB_class _ _ _ _ Hs); discriminate) Hh)
         end).
  apply become_ok in H as [_ Hd].
  destruct (call3 self "R" "G" "B" (fun R G B => sRGB_to_hex R G B fixup)) as [hex_|] eqn:E;
    [|discriminate Hd].
  cbn [rbind] in Hd. injection Hd as Hd.
  apply call3_ok in E as (R & G & B & E).
  exists R, G, B, hex_. split; [exact E|]. unfold get. rewrite <- Hd. reflexivity.
Qed.

(** ** The strings of a hex array *)

(** The strings [colors] makes of a hex array: a string, or [nan]. *)
Lemma asarray_items (res : list (option string)) :
  strings_of false (asarray_str_or_nan res)
  = map (fun o => match o with Some s => s | None => "nan" end) res.
Proof.
  unfold asarray_str_or_nan.
  destruct (forallb (fun x => negb (is_some x)) res) eqn:E1.
  - cbn [strings_of]. rewrite map_map. apply map_ext_in. intros o Ho.
    rewrite forallb_forall in E1. specialize (E1 o Ho). destruct o; [discriminate E1|].
    reflexivity.
  - destruct (forallb is_some res) eqn:E2; [|reflexivity].
    cbn [strings_of]. apply map_ext_in. intros o Ho.
    rewrite forallb_forall in E2. specialize (E2 o Ho). destruct o; [reflexivity|discriminate E2].
Qed.

Lemma sRGB_to_hex_items (fixup : bool) (R G B : arr) (hex_ : ndarray) :
  sRGB_to_hex R G B fixup = Ok hex_ ->
  len (strings_of false hex_) = len R /\
  Forall (fun s => s = "nan" \/ is_hex7 s = true) (strings_of false hex_).
Proof.
  unfold sRGB_to_hex.
  set (fix1 := if fixup then rgbfixup1 else rgbcleanup1).
  destruct (negb _) eqn:El; [discriminate|]. intros H. injection H as <-.
  apply negb_false_iff, andb_prop in El as [E1 E2].
  apply Nat.eqb_eq in E1, E2. unfold len in *. rewrite !length_map in E1, E2.
  rewrite asarray_items. split.
  - unfold map3, zip3. rewrite !length_map, !length_combine, !length_map. lia.
  - apply Forall_forall. intros s Hs.
    apply in_map_iff in Hs as (o & <- & Ho).
    unfold map3 in Ho. apply in_map_iff in Ho as ([[r g] b] & <- & Hp).
    cbn [fst snd]. unfold zip3 in Hp.
    pose proof (in_combine_r _ _ _ _ Hp) as Hb.
    apply in_combine_l in Hp.
    pose proof (in_combine_r _ _ _ _ Hp) as Hg.
    apply in_combine_l in Hp.
    apply in_map_iff in Hp as (r0 & <- & _).
    apply in_map_iff in Hg as (g0 & <- & _).
    apply in_map_iff in Hb as (b0 & <- & _).
    destruct (is_finite (fix1 r0)) eqn:Fr; [|left; reflexivity].
    destruct (is_finite (fix1 g0)) eqn:Fg; [|left; reflexivity].
    destruct (is_finite (fix1 b0)) eqn:Fb; [|left; reflexivity].
    right. cbn [andb].
    destruct (fixed_channel_range fixup r0 Fr), (fixed_channel_range fixup g0 Fg),
             (fixed_channel_range fixup b0 Fb).
    apply gethex1_is_hex7; assumption.
Qed.

(** ** The loop over the alpha values *)

Lemma iadd_item_keeps (res res' : ndarray) (j : nat) (suffix : string) :
  iadd_item res j suffix = Ok res' ->
  len (strings_of false res') = len (strings_of false res) /\
  forall i, i <> j ->
    nth_error (strings_of false res') i = nth_error (strings_of false res) i.
Proof.
  unfold iadd_item. destruct res as [a|w a]; [discriminate|].
  destruct (nth_error a j) as [x|] eqn:E; [|discriminate].
  intros H. injection H as <-. cbn [strings_of]. unfold len.
  apply (assign_item a j x _ E).
Qed.

Lemma alpha_item_below_one (self : colorobject) (i : nat) (a : float) :
  alpha_item self i = Ok a -> alpha_below_one self i = (a <? 1.0).
Proof.
  unfold alpha_item, alpha_below_one, get_alpha.
  destruct (lookup (_data_ self) "alpha") as [[[al|w al]|]|]; try discriminate.
  destruct (nth_error al i); [|discriminate]. intros H. injection H as ->. reflexivity.
Qed.

(** The loop over the alpha values leaves every string whose alpha is not
    below 1.0, and the number of strings. *)
Lemma append_alpha_keeps (self : colorobject) (idx : list nat) :
  forall res res',
    append_alpha self idx res = Ok res' ->
    len (strings_of false res') = len (strings_of false res) /\
    forall i, alpha_below_one self i = false ->
      nth_error (strings_of false res') i = nth_error (strings_of false res) i.
Proof.
  induction idx as [|j idx IH]; intros res res' H.
  - injection H as <-. split; reflexivity.
  - cbn [append_alpha] in H.
    destruct (alpha_item self j) as [a|] eqn:Ea; [|discriminate]. cbn [rbind] in H.
    apply alpha_item_below_one in Ea.
    destruct (a <? 1.0) eqn:Elt.
    + destruct (py_int (a * 100)) as [n|]; [|discriminate]. cbn [rbind] in H.
      destruct (iadd_item res j (format_02d n)) as [res1|] eqn:E1; [|discriminate].
      cbn [rbind] in H. apply IH in H as [Hlen Hkeep].
      apply iadd_item_keeps in E1 as [Hlen1 Hkeep1].
      split; [congruence|]. intros i Hi. rewrite Hkeep by assumption.
      apply Hkeep1. intros ->. congruence.
    + cbn [rbind] in H. apply IH in H. exact H.
Qed.

(** ** The transformations on arrays of one length *)

Lemma len_recycle_gamma (gamma : arr) (n : nat) :
  len gamma = n -> len (recycle_gamma (GammaArray gamma) n) = n.
Proof.
  intros H. unfold recycle_gamma. destruct gamma as [|x [|y t]]; try exact H.
  cbn in H. subst n. reflexivity.
Qed.

Lemma len_recycle_float (g : float) (n : nat) : len (recycle_gamma (GammaFloat g) n) = n.
Proof.
  unfold recycle_gamma. destruct (Nat.eqb 1 n) eqn:E; [|apply len_repeat].
  apply Nat.eqb_eq in E. subst n. reflexivity.
Qed.

Lemma gtrans_total (u gamma : arr) (n : nat) :
  len u = n -> len gamma = n ->
  exists r, gtrans u (GammaArray gamma) = Ok r /\ len r = n.
Proof.
  intros Hu Hg. unfold gtrans.
  pose proof (len_recycle_gamma gamma (len u) ltac:(congruence)) as Hr.
  rewrite check_all_equal by (repeat constructor; congruence).
  eexists. split; [reflexivity|]. unfold len in *. apply len_map2; congruence.
Qed.

Lemma RGB_to_sRGB_total (R G B : arr) (g : float) (n : nat) :
  len R = n -> len G = n -> len B = n ->
  exists r, RGB_to_sRGB R G B (GammaFloat g) = Ok r /\ lens3 r n.
Proof.
  intros HR HG HB. unfold RGB_to_sRGB.
  pose proof (len_recycle_float g (len R)) as Hg.
  set (gamma := recycle_gamma (GammaFloat g) (len R)) in *.
  rewrite check_all_equal by (repeat constructor; congruence).
  cbn [rbind]. rewrite HR in Hg.
  destruct (gtrans_total R gamma n HR Hg) as (R' & -> & HR').
  destruct (gtrans_total G gamma n HG Hg) as (G' & -> & HG').
  destruct (gtrans_total B gamma n HB Hg) as (B' & -> & HB').
  eexists. split; [reflexivity|]. lens.
Qed.

(** The white point [to] passes: three floats, each replaced by the default
    when it is zero and repeated [n] times. *)
Lemma get_white_floats (n : nat) (x y z : float) :
  _get_white_ n (WFloat x) (WFloat y) (WFloat z)
  = Ok (AsArray (np_repeat (if truthy x then x else XN_default) n),
        AsArray (np_repeat (if truthy y then y else YN_default) n),
        AsArray (np_repeat (if truthy z then z else ZN_default) n)).
Proof.
  assert (H : forall d t v,
             white_expand n (white_default d t (WFloat v))
             = Ok (AsArray (np_repeat (if t then v else d) n))).
  { intros d t v. unfold white_default. destruct t; cbn [white_expand];
      (destruct (Nat.eqb 1 n) eqn:E; [apply Nat.eqb_eq in E; subst n|]; reflexivity). }
  unfold _get_white_. cbn [white_truth rbind]. rewrite !H. cbn [rbind forallb seq_values].
  unfold len. rewrite !len_repeat, Nat.eqb_refl. reflexivity.
Qed.

Lemma XYZ_to_RGB_total (X Y Z : arr) (XN YN ZN : float) (n : nat) :
  len X = n -> len Y = n -> len Z = n ->
  exists r, XYZ_to_RGB X Y Z (WFloat XN) (WFloat YN) (WFloat ZN) = Ok r /\ lens3 r n.
Proof.
  intros HX HY HZ. unfold XYZ_to_RGB. rewrite get_white_floats. cbn [rbind seq_values].
  rewrite check_all_equal by (repeat constructor; congruence).
  eexists. split; [reflexivity|].
  assert (List.length (zip3 X Y Z) = n)
    by (unfold zip3, len in *; rewrite !length_combine; lia).
  rewrite HX. lens.
Qed.

Lemma XYZ_to_uv_total (X Y Z : arr) (n : nat) :
  len X = n -> len Y = n -> len Z = n ->
  exists u v, XYZ_to_uv X Y Z = Ok (u, v) /\ len u = n /\ len v = n.
Proof.
  intros HX HY HZ. unfold XYZ_to_uv.
  rewrite check_all_equal by (repeat constructor; congruence).
  eexists _, _. split; [reflexivity|]. lens.
Qed.

(** On arrays, [XYZ_to_uv_white] is [XYZ_to_uv]. *)
Lemma uv_white_arrays (X Y Z : arr) :
  XYZ_to_uv_white (AsArray X) (AsArray Y) (AsArray Z) = XYZ_to_uv X Y Z.
Proof.
  unfold XYZ_to_uv_white, XYZ_to_uv. cbn [seq_values is_list andb orb].
  destruct (_check_input_arrays_ _) as [[]|e]; reflexivity.
Qed.

Lemma LUV_to_XYZ_total (L U V : arr) (XN YN ZN : float) (n : nat) :
  len L = n -> len U = n -> len V = n ->
  exists r, LUV_to_XYZ L U V (WFloat XN) (WFloat YN) (WFloat ZN) = Ok r /\ lens3 r n.
Proof.
  intros HL HU HV. unfold LUV_to_XYZ. rewrite get_white_floats. cbn [rbind seq_values].
  rewrite check_all_equal by (repeat constructor; congruence).
  cbn [rbind]. rewrite HL.
  destruct (negb _); [eexists; split; [reflexivity|lens]|].
  rewrite uv_white_arrays.
  destruct (XYZ_to_uv_total (np_repeat (if truthy XN then XN else XN_default) n)
              (np_repeat (if truthy YN then YN else YN_default) n)
              (np_repeat (if truthy ZN then ZN else ZN_default) n) n)
    as (uN & vN & -> & HuN & HvN);
    try apply len_repeat.
  cbn [rbind]. eexists. split; [reflexivity|]. lens.
Qed.

Lemma LAB_to_XYZ_total (L A B : arr) (XN YN ZN : float) (n : nat) :
  len L = n -> len A = n -> len B = n ->
  exists r, LAB_to_XYZ L A B (WFloat XN) (WFloat YN) (WFloat ZN) = Ok r /\ lens3 r n.
Proof.
  intros HL HA HB. unfold LAB_to_XYZ. rewrite get_white_floats. cbn [rbind seq_values].
  rewrite check_all_equal by (repeat constructor; congruence).
  cbn [rbind is_list orb andb]. rewrite andb_false_r. cbn [rbind].
  rewrite HL. eexists. split; [reflexivity|]. lens.
Qed.

Lemma polarLUV_to_LUV_total (L C H : arr) (n : nat) :
  len L = n -> len C = n -> len H = n ->
  exists r, polarLUV_to_LUV L C H = Ok r /\ lens3 r n.
Proof.
  intros HL HC HH. unfold polarLUV_to_LUV.
  rewrite check_all_equal by (repeat constructor; congruence).
  eexists. split; [reflexivity|]. lens.
Qed.

Lemma polarLAB_to_LAB_total (L C H : arr) (n : nat) :
  len L = n -> len C = n -> len H = n ->
  exists r, polarLAB_to_LAB L C H = Ok r /\ lens3 r n.
Proof.
  intros HL HC HH. unfold polarLAB_to_LAB.
  rewrite check_all_equal by (repeat constructor; congruence).
  eexists. split; [reflexivity|]. lens.
Qed.

Lemma HLS_to_sRGB_total (h l s : arr) (n : nat) :
  len h = n -> len l = n -> len s = n ->
  exists r, HLS_to_sRGB h l s = Ok r /\ lens3 r n.
Proof.
  intros Hh Hl Hs. unfold HLS_to_sRGB.
  rewrite check_all_equal by (repeat constructor; congruence).
  eexists. split; [reflexivity|]. lens.
Qed.

Lemma sRGB_to_hex_total (R G B : arr) (fixup : bool) (n : nat) :
  len R = n -> len G = n -> len B = n ->
  exists hex_, sRGB_to_hex R G B fixup = Ok hex_.
Proof.
  intros HR HG HB. unfold sRGB_to_hex. unfold len in *.
  rewrite !length_map, HR, HG, HB, Nat.eqb_refl. eexists. reflexivity.
Qed.

(** ** The hops of the paths to hex *)

Lemma to_S (fuel : nat) (target : string) (fixup : bool) (self : colorobject) :
  to (S fuel) target fixup self
  = match __class__ self with
    | polarLUV => polarLUV_to (S fuel) (to fuel) target fixup self
    | CIELUV => CIELUV_to (S fuel) (to fuel) target fixup self
    | CIEXYZ => CIEXYZ_to (S fuel) (to fuel) target fixup self
    | RGB => RGB_to (S fuel) (to fuel) target fixup self
    | sRGB => sRGB_to (S fuel) (to fuel) target fixup self
    | CIELAB => CIELAB_to (S fuel) (to fuel) target fixup self
    | polarLAB => polarLAB_to (S fuel) (to fuel) target fixup self
    | HSV => HSV_to (S fuel) (to fuel) target fixup self
    | HLS => HLS_to (S fuel) (to fuel) target fixup self
    | hexcols => hexcols_to (S fuel) (to fuel) target fixup self
    end.
Proof. reflexivity. Qed.

Lemma call3_total {T : Type} (self : colorobject) (k1 k2 k3 : string) (n : nat)
  (f : arr -> arr -> arr -> result T) (P : T -> Prop) :
  has3 self k1 k2 k3 n ->
  (forall a1 a2 a3, len a1 = n -> len a2 = n -> len a3 = n ->
                    exists r, f a1 a2 a3 = Ok r /\ P r) ->
  exists r, call3 self k1 k2 k3 f = Ok r /\ P r.
Proof.
  intros (a1 & a2 & a3 & G1 & G2 & G3 & H1 & H2 & H3) Hf.
  unfold call3. rewrite G1, G2, G3. cbn [rbind as_float64].
  apply Hf; assumption.
Qed.

(** A direct hop: the class of the target, with its three channels. *)
Lemma become_total (c : cls) (data : colorobject -> result dict) (self : colorobject)
  (k1 k2 k3 j1 j2 j3 : string) (n : nat)
  (f : arr -> arr -> arr -> result (arr * arr * arr)) :
  has3 self k1 k2 k3 n ->
  (forall a1 a2 a3, len a1 = n -> len a2 = n -> len a3 = n ->
                    exists r, f a1 a2 a3 = Ok r /\ lens3 r n) ->
  data self = (a <- call3 self k1 k2 k3 f ;; Ok (dict3 self j1 j2 j3 a)) ->
  String.eqb j1 j2 = false -> String.eqb j1 j3 = false -> String.eqb j2 j3 = false ->
  exists x, become c data self = (None, x) /\ __class__ x = c /\ has3 x j1 j2 j3 n.
Proof.
  intros Hs Hf Hd E12 E13 E23.
  destruct (call3_total self k1 k2 k3 n f _ Hs Hf) as ([[r1 r2] r3] & Hr & L1 & L2 & L3).
  unfold become. rewrite Hd, Hr. cbn [rbind]. eexists. split; [reflexivity|].
  split; [reflexivity|]. exists r1, r2, r3. unfold get, dict3. cbn [_data_ lookup fst snd] in *.
  rewrite !String.eqb_refl, E12, E13, E23. repeat split; assumption.
Qed.

(** Into the method of the class of [self], in the goal. *)
Ltac enter_goal Ec :=
  rewrite to_S, Ec;
  first [ progress unfold polarLUV_to | progress unfold CIELUV_to
        | progress unfold CIEXYZ_to | progress unfold CIELAB_to
        | progress unfold polarLAB_to | progress unfold RGB_to
        | progress unfold sRGB_to | progress unfold HLS_to ];
  unfold andthen at 1, _check_if_allowed_;
  cbn -[to become _transform_via_path_]; rewrite ?Ec;
  cbn -[to become _transform_via_path_].

Ltac direct_hop Ec Hs F Tot :=
  enter_goal Ec;
  eapply become_total with (f := F);
  [ exact Hs | intros; apply Tot; assumption | reflexivity | reflexivity .. ].

Lemma hop_RGB_sRGB (fuel : nat) (fixup : bool) (self : colorobject) (n : nat) :
  __class__ self = RGB -> has3 self "R" "G" "B" n ->
  exists x, to (S fuel) "sRGB" fixup self = (None, x) /\
            __class__ x = sRGB /\ has3 x "R" "G" "B" n.
Proof.
  intros Ec Hs.
  direct_hop Ec Hs (fun R G B => RGB_to_sRGB R G B (GammaFloat (GAMMA self)))
             RGB_to_sRGB_total.
Qed.

Lemma hop_HLS_sRGB (fuel : nat) (fixup : bool) (self : colorobject) (n : nat) :
  __class__ self = HLS -> has3 self "H" "L" "S" n ->
  exists x, to (S fuel) "sRGB" fixup self = (None, x) /\
            __class__ x = sRGB /\ has3 x "R" "G" "B" n.
Proof.
  intros Ec Hs. direct_hop Ec Hs HLS_to_sRGB HLS_to_sRGB_total.
Qed.

Lemma hop_CIEXYZ_RGB (fuel : nat) (fixup : bool) (self : colorobject) (n : nat) :
  __class__ self = CIEXYZ -> has3 self "X" "Y" "Z" n ->
  exists x, to (S fuel) "RGB" fixup self = (None, x) /\
            __class__ x = RGB /\ has3 x "R" "G" "B" n.
Proof.
  intros Ec Hs.
  direct_hop Ec Hs (fun X Y Z => XYZ_to_RGB X Y Z (WFloat (WHITEX self)) (WFloat (WHITEY self))
                                            (WFloat (WHITEZ self)))
             XYZ_to_RGB_total.
Qed.

Lemma hop_CIELUV_CIEXYZ (fuel : nat) (fixup : bool) (self : colorobject) (n : nat) :
  __class__ self = CIELUV -> has3 self "L" "U" "V" n ->
  exists x, to (S fuel) "CIEXYZ" fixup self = (None, x) /\
            __class__ x = CIEXYZ /\ has3 x "X" "Y" "Z" n.
Proof.
  intros Ec Hs.
  direct_hop Ec Hs (fun L U V => LUV_to_XYZ L U V (WFloat (WHITEX self)) (WFloat (WHITEY self))
                                            (WFloat (WHITEZ self)))
             LUV_to_XYZ_total.
Qed.

Lemma hop_CIELAB_CIEXYZ (fuel : nat) (fixup : bool) (self : colorobject) (n : nat) :
  __class__ self = CIELAB -> has3 self "L" "A" "B" n ->
  exists x, to (S fuel) "CIEXYZ" fixup self = (None, x) /\
            __class__ x = CIEXYZ /\ has3 x "X" "Y" "Z" n.
Proof.
  intros Ec Hs.
  direct_hop Ec Hs (fun L A B => LAB_to_XYZ L A B (WFloat (WHITEX self)) (WFloat (WHITEY self))
                                            (WFloat (WHITEZ self)))
             LAB_to_XYZ_total.
Qed.

Lemma hop_polarLUV_CIELUV (fuel : nat) (fixup : bool) (self : colorobject) (n : nat) :
  __class__ self = polarLUV -> has3 self "L" "C" "H" n ->
  exists x, to (S fuel) "CIELUV" fixup self = (None, x) /\
            __class__ x = CIELUV /\ has3 x "L" "U" "V" n.
Proof.
  intros Ec Hs. direct_hop Ec Hs polarLUV_to_LUV polarLUV_to_LUV_total.
Qed.

Lemma hop_polarLAB_CIELAB (fuel : nat) (fixup : bool) (self : colorobject) (n : nat) :
  __class__ self = polarLAB -> has3 self "L" "A" "B" n ->
  exists x, to (S fuel) "CIELAB" fixup self = (None, x) /\
            __class__ x = CIELAB /\ has3 x "L" "A" "B" n.
Proof.
  intros Ec Hs. direct_hop Ec Hs polarLAB_to_LAB polarLAB_to_LAB_total.
Qed.

Lemma hop_sRGB_hex (fuel : nat) (fixup : bool) (self : colorobject) (n : nat) :
  __class__ self = sRGB -> has3 self "R" "G" "B" n ->
  exists x, to (S fuel) "hex" fixup self = (None, x) /\ hex_array fixup x n.
Proof.
  intros Ec (R & G & B & G1 & G2 & G3 & H1 & H2 & H3).
  enter_goal Ec. unfold become, call3. rewrite G1, G2, G3. cbn [rbind as_float64].
  destruct (sRGB_to_hex_total R G B fixup n H1 H2 H3) as (hex_ & Hh).
  rewrite Hh. cbn [rbind]. eexists. split; [reflexivity|].
  exists R, G, B, hex_. repeat split; assumption.
Qed.

Lemma andthen_intro (m1 m2 : meth) (self y x : colorobject) :
  m1 self = (None, y) -> m2 y = (None, x) -> andthen m1 m2 self = (None, x).
Proof. intros H1 H2. unfold andthen. rewrite H1. exact H2. Qed.

(** Along a path whose hops are at hand. *)
Ltac walk :=
  cbn [_transform_via_path_];
  repeat (eapply andthen_intro; [eassumption|]); reflexivity.

Lemma hop_CIEXYZ_sRGB (fuel : nat) (fixup : bool) (self : colorobject) (n : nat) :
  __class__ self = CIEXYZ -> has3 self "X" "Y" "Z" n ->
  exists x, to (S (S fuel)) "sRGB" fixup self = (None, x) /\
            __class__ x = sRGB /\ has3 x "R" "G" "B" n.
Proof.
  intros Ec Hs.
  destruct (hop_CIEXYZ_RGB fuel fixup self n Ec Hs) as (y1 & Hy1 & E1 & S1).
  destruct (hop_RGB_sRGB fuel fixup y1 n E1 S1) as (y2 & Hy2 & E2 & S2).
  exists y2. split; [|split; assumption]. enter_goal Ec. walk.
Qed.

(** With three levels of calls, [to("hex")] converts every object that has
    its channels. *)
Lemma to_hex_total (fuel : nat) (fixup : bool) (self : colorobject) (n : nat) :
  has_channels self n ->
  exists x, to (S (S (S fuel))) "hex" fixup self = (None, x) /\ hex_array fixup x n.
Proof.
  unfold has_channels. destruct (__class__ self) eqn:Ec; intros Hs; try contradiction.
  - (* CIEXYZ *)
    destruct (hop_CIEXYZ_RGB (S fuel) fixup self n Ec Hs) as (y1 & Hy1 & E1 & S1).
    destruct (hop_RGB_sRGB (S fuel) fixup y1 n E1 S1) as (y2 & Hy2 & E2 & S2).
    destruct (hop_sRGB_hex (S fuel) fixup y2 n E2 S2) as (x & Hx & Hh).
    exists x. split; [|exact Hh]. enter_goal Ec. walk.
  - (* CIELUV *)
    destruct (hop_CIELUV_CIEXYZ (S fuel) fixup self n Ec Hs) as (y0 & Hy0 & E0 & S0).
    destruct (hop_CIEXYZ_RGB (S fuel) fixup y0 n E0 S0) as (y1 & Hy1 & E1 & S1).
    destruct (hop_RGB_sRGB (S fuel) fixup y1 n E1 S1) as (y2 & Hy2 & E2 & S2).
    destruct (hop_sRGB_hex (S fuel) fixup y2 n E2 S2) as (x & Hx & Hh).
    exists x. split; [|exact Hh]. enter_goal Ec. walk.
  - (* CIELAB *)
    destruct (hop_CIELAB_CIEXYZ (S fuel) fixup self n Ec Hs) as (y0 & Hy0 & E0 & S0).
    destruct (hop_CIEXYZ_RGB (S fuel) fixup y0 n E0 S0) as (y1 & Hy1 & E1 & S1).
    destruct (hop_RGB_sRGB (S fuel) fixup y1 n E1 S1) as (y2 & Hy2 & E2 & S2).
    destruct (hop_sRGB_hex (S fuel) fixup y2 n E2 S2) as (x & Hx & Hh).
    exists x. split; [|exact Hh]. enter_goal Ec. walk.
  - (* polarLUV *)
    destruct (hop_polarLUV_CIELUV (S fuel) fixup self n Ec Hs) as (y3 & Hy3 & E3 & S3).
    destruct (hop_CIELUV_CIEXYZ (S fuel) fixup y3 n E3 S3) as (y0 & Hy0 & E0 & S0).
    destruct (hop_CIEXYZ_sRGB fuel fixup y0 n E0 S0) as (y2 & Hy2 & E2 & S2).
    destruct (hop_sRGB_hex (S fuel) fixup y2 n E2 S2) as (x & Hx & Hh).
    exists x. split; [|exact Hh]. enter_goal Ec. walk.
  - (* polarLAB *)
    destruct (hop_polarLAB_CIELAB (S fuel) fixup self n Ec Hs) as (y3 & Hy3 & E3 & S3).
    destruct (hop_CIELAB_CIEXYZ (S fuel) fixup y3 n E3 S3) as (y0 & Hy0 & E0 & S0).
    destruct (hop_CIEXYZ_RGB (S fuel) fixup y0 n E0 S0) as (y1 & Hy1 & E1 & S1).
    destruct (hop_RGB_sRGB (S fuel) fixup y1 n E1 S1) as (y2 & Hy2 & E2 & S2).
    destruct (hop_sRGB_hex (S fuel) fixup y2 n E2 S2) as (x & Hx & Hh).
    exists x. split; [|exact Hh]. enter_goal Ec. walk.
  - (* RGB *)
    destruct (hop_RGB_sRGB (S fuel) fixup self n Ec Hs) as (y2 & Hy2 & E2 & S2).
    destruct (hop_sRGB_hex (S fuel) fixup y2 n E2 S2) as (x & Hx & Hh).
    exists x. split; [|exact Hh]. enter_goal Ec. walk.
  - (* sRGB *)
    apply (hop_sRGB_hex (S (S fuel)) fixup self n Ec Hs).
  - (* HLS *)
    destruct (hop_HLS_sRGB (S fuel) fixup self n Ec Hs) as (y2 & Hy2 & E2 & S2).
    destruct (hop_sRGB_hex (S fuel) fixup y2 n E2 S2) as (x & Hx & Hh).
    exists x. split; [|exact Hh]. enter_goal Ec. walk.
Qed.

(** ** The list [colors] returns *)

Lemma ndarray_len_strings (a : ndarray) : ndarray_len a = len (strings_of false a).
Proof. destruct a; cbn [ndarray_len strings_of]; unfold len; rewrite ?length_map; reflexivity. Qed.

Lemma append_alpha_nothing (self : colorobject) (a : arr) (res : ndarray) (idx : list nat) :
  get_alpha self = Some (Float64 a) ->
  Forall (fun v => (v <? 1.0) = false) a ->
  Forall (fun i => (i < len a)%nat) idx ->
  append_alpha self idx res = Ok res.
Proof.
  intros Ha Hall. induction 1 as [|i idx Hi _ IH]; [reflexivity|].
  cbn [append_alpha]. unfold alpha_item. unfold get_alpha in Ha.
  destruct (lookup (_data_ self) "alpha") as [v|]; [|discriminate Ha]. subst v.
  destruct (nth_error a i) as [v|] eqn:Ev.
  - cbn [rbind]. rewrite Forall_forall in Hall.
    rewrite (Hall v (nth_error_In _ _ Ev)). cbn [rbind]. exact IH.
  - apply nth_error_None in Ev. unfold len in Hi. lia.
Qed.

Lemma colors_rev (fuel : nat) (self : colorobject) (fixup : bool) (l : list string) :
  colors fuel self fixup false = Ok l -> colors fuel self fixup true = Ok (List.rev l).
Proof.
  unfold colors. destruct (to fuel "hex" fixup self) as [[e|] x]; [discriminate|].
  destruct (get x "hex_") as [[res|]|]; try discriminate. cbn [rbind].
  destruct (if hasalpha x then _ else _) as [c|]; [|discriminate]. cbn [rbind].
  intros H. injection H as <-. reflexivity.
Qed.

Lemma colors_shape (fuel : nat) (self : colorobject) (fixup : bool) (l : list string) :
  __class__ self <> hexcols ->
  colors fuel self fixup false = Ok l ->
  forall i s, nth_error l i = Some s -> alpha_below_one self i = false ->
              s = "nan" \/ is_hex7 s = true.
Proof.
  intros Hc. unfold colors.
  destruct (to fuel "hex" fixup self) as [[e|] x] eqn:Et; [discriminate|].
  apply to_hex_of_sRGB in Et as (R & G & B & hex_ & Hh & Hg); [|exact Hc].
  rewrite Hg. cbn [rbind].
  apply sRGB_to_hex_items in Hh as [_ Hall]. rewrite Forall_forall in Hall.
  destruct (hasalpha x).
  - destruct (append_alpha self _ hex_) as [c|] eqn:Ea; [|discriminate]. cbn [rbind].
    intros H. injection H as <-. intros i s Hs Hi.
    apply append_alpha_keeps in Ea as [_ Hk].
    change (nth_error (strings_of false c) i = Some s) in Hs. rewrite (Hk i Hi) in Hs.
    apply Hall. apply (nth_error_In _ _ Hs).
  - cbn [rbind]. intros H. injection H as <-. intros i s Hs _.
    apply Hall. apply (nth_error_In _ _ Hs).
Qed.

Lemma colors_total (fuel : nat) (self : colorobject) (fixup : bool) (n : nat) :
  has_channels self n -> no_alpha_below_one self n ->
  exists l, colors (S (S (S fuel))) self fixup false = Ok l /\ len l = n.
Proof.
  intros Hch Ha.
  destruct (to_hex_total fuel fixup self n Hch) as (x & Hx & R & G & B & hex_ & Hh & HR & Hg).
  pose proof (to_alpha (S (S (S fuel))) "hex" fixup self) as Hal. rewrite Hx in Hal.
  cbn [snd] in Hal.
  apply sRGB_to_hex_items in Hh as [Hlen _]. rewrite HR in Hlen.
  unfold colors. rewrite Hx, Hg. cbn [rbind].
  rewrite hasalpha_get_alpha, Hal. unfold no_alpha_below_one in Ha.
  destruct (get_alpha self) as [[a|w a]|] eqn:Eal; [| contradiction |].
  - destruct Ha as [Hn Hall].
    rewrite (append_alpha_nothing self a hex_ _ Eal Hall).
    + cbn [rbind]. eexists. split; [reflexivity | exact Hlen].
    + apply Forall_forall. intros i Hi. apply in_seq in Hi.
      rewrite ndarray_len_strings in Hi. lia.
  - cbn [rbind]. eexists. split; [reflexivity | exact Hlen].
Qed.

End ColorsMethod.

(** ** The objects the constructors make *)

(** One turn of the loop of the check, for an argument that is not the
    alpha: the argument is a number or a list, and its values are stored. *)
Lemma check_kwargs_step (c : cls) (k : string) (v : pyarg) (rest : list (string * pyarg))
  (res : dict) (lengths : list nat) (r : dict * list nat) :
  String.eqb k "alpha" = false ->
  check_kwargs c ((k, v) :: rest) res lengths = Ok r ->
  check_kwargs c rest (res ++ [(k, Some (Float64 (values_of v)))])
               (lengths ++ [len (values_of v)]) = Ok r.
Proof.
  intros E. cbn [check_kwargs]. rewrite E. cbn [andb].
  destruct v as [|x|l]; [discriminate| |];
    (match goal with |- rbind ?r _ = _ -> _ => destruct r as [[]|]; [|discriminate] end;
     cbn [rbind values_of]; intros H; exact H).
Qed.

(** What the check of a constructor returns for three arguments and no
    alpha: three arrays of one length, under the three keys. *)
Lemma check_three_channels (c : cls) (k1 k2 k3 : string) (v1 v2 v3 : pyarg) (d : dict) :
  String.eqb k1 "alpha" = false -> String.eqb k2 "alpha" = false ->
  String.eqb k3 "alpha" = false ->
  _colorobject_check_input_arrays_ c [(k1, v1); (k2, v2); (k3, v3); ("alpha", PyNone)] = Ok d ->
  exists a1 a2 a3,
    d = [(k1, Some (Float64 a1)); (k2, Some (Float64 a2)); (k3, Some (Float64 a3))]
    /\ len a2 = len a1 /\ len a3 = len a1.
Proof.
  intros E1 E2 E3. unfold _colorobject_check_input_arrays_.
  destruct (check_kwargs c _ [] []) as [[res lengths]|] eqn:Ec; [|discriminate].
  apply check_kwargs_step in Ec; [|exact E1].
  apply check_kwargs_step in Ec; [|exact E2].
  apply check_kwargs_step in Ec; [|exact E3].
  cbn in Ec. injection Ec as <- <-. cbn [rbind].
  destruct (forallb _ _) eqn:Ef; [|discriminate].
  intros H. injection H as <-.
  cbn [forallb] in Ef.
  apply andb_prop in Ef as [_ Ef]. apply andb_prop in Ef as [Ea Ef].
  apply andb_prop in Ef as [Eb _]. apply Nat.eqb_eq in Ea, Eb.
  eexists _, _, _. split; [reflexivity|]. split; congruence.
Qed.

Lemma constructed_has_channels (o : colorobject) :
  constructed_without_alpha o ->
  exists n, has_channels o n /\ no_alpha_below_one o n.
Proof.
  unfold constructed_without_alpha.
  unfold CIEXYZ__init__, CIELUV__init__, CIELAB__init__, polarLUV__init__,
         polarLAB__init__, RGB__init__, sRGB__init__, HLS__init__.
  intros [H|[H|[H|[H|[H|[H|[H|H]]]]]]];
    destruct H as (v1 & v2 & v3 & H); try destruct H as (v4 & H);
    (destruct (_colorobject_check_input_arrays_ _ _) as [d|] eqn:Ed; [|discriminate H]);
    cbn [rbind] in H; injection H as <-;
    apply check_three_channels in Ed as (a1 & a2 & a3 & -> & L2 & L3);
    try reflexivity;
    exists (len a1);
    try (destruct v4 as [g|]);
    (split; [| exact I]);
    unfold has_channels; cbn [__class__ new_object];
    eexists _, _, _; repeat split; try reflexivity; congruence.
Qed.

(* ================================================================== *)
(** * Further properties of [to]: routing *)
(* ================================================================== *)

Section Targets.
Context {libm : Libm}.

Lemma in_list_In (x : string) (l : list string) : in_list x l = true -> In x l.
Proof.
  unfold in_list. intros H. apply existsb_exists in H as (y & Hy & E).
  apply String.eqb_eq in E. subst y. exact Hy.
Qed.

Lemma check_allowed_ok (t : string) (self y : colorobject) :
  _check_if_allowed_ t self = (None, y) -> y = self /\ In t ALLOWED.
Proof.
  unfold _check_if_allowed_. destruct (in_list t ALLOWED) eqn:E; [|discriminate].
  intros H. injection H as <-. split; [reflexivity | apply in_list_In; exact E].
Qed.

End Targets.

(** The hops of a path, and the way into the [to] method of a class, past
    the check of the target and for each target in [ALLOWED]. *)
Ltac hops H :=
  cbn [_transform_via_path_] in H;
  repeat (let y := fresh "y" in let Hy := fresh "Hy" in
          apply andthen_ok in H; destruct H as (y & Hy & H));
  unfold ret in H; injection H as <-.

(** Into the method of the class of [self], for each allowed target. *)
Ltac methods_of H Ec :=
  rewrite to_S, Ec in H;
  first [ progress unfold polarLUV_to in H | progress unfold CIELUV_to in H
        | progress unfold CIEXYZ_to in H | progress unfold CIELAB_to in H
        | progress unfold polarLAB_to in H | progress unfold RGB_to in H
        | progress unfold sRGB_to in H | progress unfold HSV_to in H
        | progress unfold HLS_to in H | progress unfold hexcols_to in H ];
  apply andthen_ok in H; destruct H as (? & Hchk & H);
  apply check_allowed_ok in Hchk as [-> Hin];
  unfold ALLOWED in Hin; cbn [In] in Hin;
  repeat (destruct Hin as [<- | Hin]); try contradiction;
  rewrite ?Ec in H; cbn -[to become _transform_via_path_ call3 dict3 white hex_slices get_alpha
        hex_to_sRGB sRGB_to_hex sRGB_to_RGB RGB_to_sRGB RGB_to_XYZ XYZ_to_RGB
        XYZ_to_LUV LUV_to_XYZ XYZ_to_LAB LAB_to_XYZ LAB_to_polarLAB polarLAB_to_LAB
        LUV_to_polarLUV polarLUV_to_LUV sRGB_to_HSV HSV_to_sRGB sRGB_to_HLS
        HLS_to_sRGB] in H.

Section Routing.
Context {libm : Libm}.

Lemma to_target_class (fuel : nat) :
  forall t fixup self x,
    to fuel t fixup self = (None, x) -> target_class t = Some (__class__ x).
Proof.
  induction fuel as [|fuel IH]; intros t fixup self x H; [discriminate H|].
  destruct (__class__ self) eqn:Ec; methods_of H Ec;
    try discriminate H;
    first [ apply become_ok in H as [-> _]; reflexivity
          | unfold ret in H; injection H as <-; rewrite Ec; reflexivity
          | hops H;
            match goal with
            | Hh : to fuel ?t _ _ = (None, ?x) |- target_class ?t = Some (__class__ ?x) =>
                exact (IH _ _ _ _ Hh)
            end ].
Qed.



Lemma target_class_cases (t : string) (c : cls) :
  target_class t = Some c ->
  (t = "HCL" /\ c = polarLUV) \/ (t = "hex" /\ c = hexcols) \/
  (t = __name__ c /\ c <> hexcols).
Proof.
  unfold target_class.
  destruct (String.eqb t "HCL") eqn:E1.
  { apply String.eqb_eq in E1. intros H. injection H as <-. left. split; [exact E1|reflexivity]. }
  destruct (String.eqb t "hex") eqn:E2.
  { apply String.eqb_eq in E2. intros H. injection H as <-. right. left.
    split; [exact E2|reflexivity]. }
  intros H. right. right. apply find_some in H as [Hin E].
  apply String.eqb_eq in E. split; [exact E|].
  cbn [In] in Hin. intros ->.
  repeat (destruct Hin as [Hin|Hin]; [discriminate Hin|]). exact Hin.
Qed.

Lemma to_unknown (fuel : nat) (t : string) (fixup : bool) (self : colorobject) :
  in_list t ALLOWED = false ->
  to (S fuel) t fixup self
  = (Some (UnknownTransformation (__name__ (__class__ self)) t), self).
Proof.
  intros H. rewrite to_S.
  destruct (__class__ self) eqn:Ec;
    first [ progress unfold polarLUV_to | progress unfold CIELUV_to
          | progress unfold CIEXYZ_to | progress unfold CIELAB_to
          | progress unfold polarLAB_to | progress unfold RGB_to
          | progress unfold sRGB_to | progress unfold HSV_to
          | progress unfold HLS_to | progress unfold hexcols_to ];
    unfold andthen at 1, _check_if_allowed_; rewrite H, Ec; reflexivity.
Qed.

Lemma to_own_space (fuel : nat) (t : string) (fixup : bool) (self : colorobject) :
  target_class t = Some (__class__ self) -> to (S fuel) t fixup self = (None, self).
Proof.
  intros H. apply target_class_cases in H. rewrite to_S.
  destruct (__class__ self) eqn:Ec;
    destruct H as [[-> H]|[[-> H]|[-> H]]]; try discriminate H; try (exfalso; apply H; reflexivity);
    first [ progress unfold polarLUV_to | progress unfold CIELUV_to
          | progress unfold CIEXYZ_to | progress unfold CIELAB_to
          | progress unfold polarLAB_to | progress unfold RGB_to
          | progress unfold sRGB_to | progress unfold HSV_to
          | progress unfold HLS_to | progress unfold hexcols_to ];
    unfold andthen at 1, _check_if_allowed_;
    cbn -[to become _transform_via_path_]; rewrite ?Ec; reflexivity.
Qed.

Lemma to_twice (fuel fuel' : nat) (t : string) (fixup fixup' : bool) (self x : colorobject) :
  to fuel t fixup self = (None, x) -> to (S fuel') t fixup' x = (None, x).
Proof. intros H. apply to_own_space. apply (to_target_class fuel _ _ _ _ H). Qed.

(** *** The white point and gamma *)

Lemma same_refl (a : colorobject) : same_white_and_gamma a a.
Proof. repeat split. Qed.

Lemma become_frame (c : cls) (data : colorobject -> result dict) (self : colorobject) :
  same_white_and_gamma (snd (become c data self)) self.
Proof. unfold become. destruct (data self); cbn [snd]; repeat split. Qed.

Lemma andthen_frame (m1 m2 : meth) (self : colorobject) :
  same_white_and_gamma (snd (m1 self)) self ->
  (forall self', same_white_and_gamma (snd (m2 self')) self') ->
  same_white_and_gamma (snd (andthen m1 m2 self)) self.
Proof.
  intros H1 H2. unfold andthen. destruct (m1 self) as [[e|] self'] eqn:E; cbn [snd] in *.
  - exact H1.
  - specialize (H2 self'). unfold same_white_and_gamma in *. intuition congruence.
Qed.

Lemma path_frame (self_to : string -> bool -> meth) (via : list string) (fixup : bool) :
  (forall v f self, same_white_and_gamma (snd (self_to v f self)) self) ->
  forall self, same_white_and_gamma (snd (_transform_via_path_ self_to via fixup self)) self.
Proof.
  intros H. induction via as [|v via IH]; intros self; cbn [_transform_via_path_].
  - apply same_refl.
  - apply andthen_frame; [apply H | exact IH].
Qed.

Ltac frame_method H :=
  intros self; apply andthen_frame;
  [ unfold _check_if_allowed_; destruct (in_list _ ALLOWED); apply same_refl
  | clear self; intros self;
    repeat match goal with
           | |- context [if ?b then _ else _] => destruct b
           end;
    first [ apply same_refl | apply become_frame | apply path_frame; exact H ] ].

Lemma to_frame (fuel : nat) :
  forall t fixup self, same_white_and_gamma (snd (to fuel t fixup self)) self.
Proof.
  induction fuel as [|fuel IH]; intros t fixup self; [apply same_refl|].
  rewrite to_S. revert self.
  assert (H1 : forall self, same_white_and_gamma (snd (polarLUV_to (S fuel) (to fuel) t fixup self)) self)
    by (unfold polarLUV_to; frame_method IH).
  assert (H2 : forall self, same_white_and_gamma (snd (CIELUV_to (S fuel) (to fuel) t fixup self)) self)
    by (unfold CIELUV_to; frame_method IH).
  assert (H3 : forall self, same_white_and_gamma (snd (CIEXYZ_to (S fuel) (to fuel) t fixup self)) self)
    by (unfold CIEXYZ_to; frame_method IH).
  assert (H4 : forall self, same_white_and_gamma (snd (RGB_to (S fuel) (to fuel) t fixup self)) self)
    by (unfold RGB_to; frame_method IH).
  assert (H5 : forall self, same_white_and_gamma (snd (sRGB_to (S fuel) (to fuel) t fixup self)) self)
    by (unfold sRGB_to; frame_method IH).
  assert (H6 : forall self, same_white_and_gamma (snd (CIELAB_to (S fuel) (to fuel) t fixup self)) self)
    by (unfold CIELAB_to; frame_method IH).
  assert (H7 : forall self, same_white_and_gamma (snd (polarLAB_to (S fuel) (to fuel) t fixup self)) self)
    by (unfold polarLAB_to; frame_method IH).
  assert (H8 : forall self, same_white_and_gamma (snd (HSV_to (S fuel) (to fuel) t fixup self)) self)
    by (unfold HSV_to; frame_method IH).
  assert (H9 : forall self, same_white_and_gamma (snd (HLS_to (S fuel) (to fuel) t fixup self)) self)
    by (unfold HLS_to; frame_method IH).
  assert (H10 : forall self, same_white_and_gamma (snd (hexcols_to (S fuel) (to fuel) t fixup self)) self)
    by (unfold hexcols_to; frame_method IH).
  intros self. destruct (__class__ self); auto.
Qed.

End Routing.

(** ** The statements *)

(** X1.  When [to(t)] returns, the object has the class that [t] names
    ([HCL] names polarLUV and [hex] names hexcols), whatever class it had
    and whatever path through other spaces the conversion took. *)
Theorem successful_to_reaches_the_target_class {libm : Libm}
  (fuel : nat) (t : string) (fixup : bool) (self x : colorobject) :
  to fuel t fixup self = (None, x) -> target_class t = Some (__class__ x).
Proof. exact (to_target_class fuel t fixup self x). Qed.

(** The theorem at [RGB(0.5, 0.5, 0.5).to("hex")], which goes through sRGB. *)
Lemma successful_to_reaches_the_target_class_witness :
  target_class "hex"
  = Some (__class__ (snd (@to leading_terms 3 "hex" true
       (new_object RGB [("R", Some (Float64 [0.5])); ("G", Some (Float64 [0.5]));
                        ("B", Some (Float64 [0.5]))])))).
Proof.
  apply (@successful_to_reaches_the_target_class leading_terms 3 "hex" true
           (new_object RGB [("R", Some (Float64 [0.5])); ("G", Some (Float64 [0.5]));
                            ("B", Some (Float64 [0.5]))])).
  vm_compute. reflexivity.
Defined.

(** X2.  [to(t)] on an object that already has the class [t] names returns
    without an error and leaves the object as it is, whatever its data are.
    So converting twice is converting once: after a [to(t)] that returned,
    a second [to(t)] (with any [fixup]) changes nothing. *)
Theorem to_the_space_of_the_object_changes_nothing {libm : Libm} :
  (forall fuel t fixup self,
      target_class t = Some (__class__ self) -> to (S fuel) t fixup self = (None, self))
  /\ (forall fuel t fixup self x,
      to fuel t fixup self = (None, x) ->
      forall fuel' fixup', to (S fuel') t fixup' x = (None, x)).
Proof.
  split.
  - intros fuel t fixup self. exact (to_own_space fuel t fixup self).
  - intros fuel t fixup self x H fuel' fixup'.
    exact (to_twice fuel fuel' t fixup fixup' self x H).
Qed.

(** X3.  A target that is not in [ALLOWED] makes [to] raise the
    unknown-transformation exception, for an object of any class, and the
    object is left as it was.  The names are matched as they are written. *)
Theorem to_an_unknown_target_raises_and_keeps_object {libm : Libm}
  (fuel : nat) (t : string) (fixup : bool) (self : colorobject) :
  in_list t ALLOWED = false ->
  to (S fuel) t fixup self
  = (Some (UnknownTransformation (__name__ (__class__ self)) t), self).
Proof. exact (to_unknown fuel t fixup self). Qed.

(** The theorem at [RGB(0.5, 0.5, 0.5).to("srgb")]: the name of the sRGB
    space in lower case is not a target. *)
Lemma to_an_unknown_target_raises_and_keeps_object_witness :
  @to leading_terms 1 "srgb" true
    (new_object RGB [("R", Some (Float64 [0.5])); ("G", Some (Float64 [0.5]));
                     ("B", Some (Float64 [0.5]))])
  = (Some (UnknownTransformation "RGB" "srgb"),
     new_object RGB [("R", Some (Float64 [0.5])); ("G", Some (Float64 [0.5]));
                     ("B", Some (Float64 [0.5]))]).
Proof.
  apply (@to_an_unknown_target_raises_and_keeps_object leading_terms 0 "srgb" true
           (new_object RGB [("R", Some (Float64 [0.5])); ("G", Some (Float64 [0.5]));
                            ("B", Some (Float64 [0.5]))])).
  reflexivity.
Defined.

(** X4.  [to] never touches the white point and [GAMMA] of the object:
    they are the same after the call as before it, whether the call
    returned or raised, for every class, target and path. *)
Theorem to_keeps_white_point_and_gamma {libm : Libm}
  (fuel : nat) (t : string) (fixup : bool) (self : colorobject) :
  same_white_and_gamma (snd (to fuel t fixup self)) self.
Proof. exact (to_frame fuel t fixup self). Qed.

(* ================================================================== *)
(** * The number of colors *)
(* ================================================================== *)

Lemma mapM_length {A B : Type} (f : A -> result B) (l : list A) (r : list B) :
  mapM f l = Ok r -> List.length r = List.length l.
Proof.
  revert r. induction l as [|x l IH]; intros r H; cbn [mapM] in H.
  - injection H as <-. reflexivity.
  - destruct (f x) as [y|]; [|discriminate]. cbn [rbind] in H.
    destruct (mapM f l) as [ys|]; [|discriminate]. cbn [rbind] in H.
    injection H as <-. cbn [List.length]. rewrite (IH ys eq_refl). reflexivity.
Qed.

Lemma len_zip3 {A B C : Type} (a : list A) (b : list B) (c : list C) (n : nat) :
  List.length a = n -> List.length b = n -> List.length c = n ->
  List.length (zip3 a b c) = n.
Proof. intros. unfold zip3. rewrite !length_combine. lia. Qed.

(** What a transformation returned has the length of what it was given. *)
Ltac returned H :=
  repeat match type of H with
         | rbind ?c _ = Ok _ =>
             let E := fresh "E" in
             destruct c as [?r|] eqn:E; [|discriminate H]; cbn [rbind] in H
         | (let '(_, _) := ?p in _) = Ok _ => destruct p
         | (if ?b then _ else _) = Ok _ => destruct b
         | match ?p with (_, _) => _ end = Ok _ => destruct p
         end;
  try discriminate H; injection H as <-.

Ltac lens' :=
  unfold lens3, len in *; cbn [fst snd];
  repeat first
    [ assumption | reflexivity
    | rewrite length_map
    | apply len_map2 | apply len_map3 | apply len_repeat | apply len_zip3
    | split ].

Section Lengths.
Context {libm : Libm}.

Lemma ftrans_total (u gamma : arr) (n : nat) :
  len u = n -> len gamma = n ->
  exists r, ftrans u (GammaArray gamma) = Ok r /\ len r = n.
Proof.
  intros Hu Hg. unfold ftrans.
  pose proof (len_recycle_gamma gamma (len u) ltac:(congruence)) as Hr.
  rewrite check_all_equal by (repeat constructor; congruence).
  eexists. split; [reflexivity|]. unfold len in *. apply len_map2; congruence.
Qed.

Lemma sRGB_to_RGB_len (R G B : arr) (g : float) (r : arr * arr * arr) (n : nat) :
  sRGB_to_RGB R G B (GammaFloat g) = Ok r ->
  len R = n -> len G = n -> len B = n -> lens3 r n.
Proof.
  unfold sRGB_to_RGB. intros H HR HG HB.
  pose proof (len_recycle_float g (len R)) as Hg.
  set (gamma := recycle_gamma (GammaFloat g) (len R)) in *.
  rewrite HR in Hg.
  destruct (_check_input_arrays_ _); [|discriminate H]. cbn [rbind] in H.
  destruct (ftrans_total R gamma n HR Hg) as (R' & E1 & HR').
  destruct (ftrans_total G gamma n HG Hg) as (G' & E2 & HG').
  destruct (ftrans_total B gamma n HB Hg) as (B' & E3 & HB').
  rewrite E1, E2, E3 in H. cbn [rbind] in H. injection H as <-. lens.
Qed.

Lemma RGB_to_sRGB_len (R G B : arr) (g : float) (r : arr * arr * arr) (n : nat) :
  RGB_to_sRGB R G B (GammaFloat g) = Ok r ->
  len R = n -> len G = n -> len B = n -> lens3 r n.
Proof.
  intros H HR HG HB. destruct (RGB_to_sRGB_total R G B g n HR HG HB) as (r0 & E & L).
  congruence.
Qed.

Lemma RGB_to_XYZ_len (R G B : arr) (XN YN ZN : float) (r : arr * arr * arr) (n : nat) :
  RGB_to_XYZ R G B (WFloat XN) (WFloat YN) (WFloat ZN) = Ok r ->
  len R = n -> len G = n -> len B = n -> lens3 r n.
Proof.
  unfold RGB_to_XYZ. rewrite get_white_floats. cbn [rbind seq_values].
  intros H HR HG HB. returned H. rewrite HR. lens'.
Qed.

Lemma XYZ_to_RGB_len (X Y Z : arr) (XN YN ZN : float) (r : arr * arr * arr) (n : nat) :
  XYZ_to_RGB X Y Z (WFloat XN) (WFloat YN) (WFloat ZN) = Ok r ->
  len X = n -> len Y = n -> len Z = n -> lens3 r n.
Proof.
  intros H HX HY HZ. destruct (XYZ_to_RGB_total X Y Z XN YN ZN n HX HY HZ) as (r0 & E & L).
  congruence.
Qed.

Lemma XYZ_to_uv_len (X Y Z : arr) (u v : arr) (n : nat) :
  XYZ_to_uv X Y Z = Ok (u, v) -> len X = n -> len Y = n -> len Z = n ->
  len u = n /\ len v = n.
Proof.
  intros H HX HY HZ. destruct (XYZ_to_uv_total X Y Z n HX HY HZ) as (u0 & v0 & E & L).
  rewrite E in H. injection H as <- <-. exact L.
Qed.

Lemma XYZ_to_LUV_len (X Y Z : arr) (XN YN ZN : float) (r : arr * arr * arr) (n : nat) :
  XYZ_to_LUV X Y Z (WFloat XN) (WFloat YN) (WFloat ZN) = Ok r ->
  len X = n -> len Y = n -> len Z = n -> lens3 r n.
Proof.
  unfold XYZ_to_LUV. rewrite get_white_floats. cbn [rbind seq_values].
  intros H HX HY HZ. rewrite HX in H.
  destruct (_check_input_arrays_ _); [|discriminate H]. cbn [rbind] in H.
  destruct (XYZ_to_uv X Y Z) as [[u v]|] eqn:E1; [|discriminate H]. cbn [rbind] in H.
  rewrite uv_white_arrays in H.
  destruct (XYZ_to_uv _ _ _) as [[uN vN]|] eqn:E2 in H; [|discriminate H]. cbn [rbind] in H.
  injection H as <-.
  apply (XYZ_to_uv_len _ _ _ _ _ n) in E1 as [? ?]; try assumption.
  apply (XYZ_to_uv_len _ _ _ _ _ n) in E2 as [? ?]; try apply len_repeat.
  lens'.
Qed.

Lemma LUV_to_XYZ_len (L U V : arr) (XN YN ZN : float) (r : arr * arr * arr) (n : nat) :
  LUV_to_XYZ L U V (WFloat XN) (WFloat YN) (WFloat ZN) = Ok r ->
  len L = n -> len U = n -> len V = n -> lens3 r n.
Proof.
  intros H HX HY HZ. destruct (LUV_to_XYZ_total L U V XN YN ZN n HX HY HZ) as (r0 & E & L0).
  congruence.
Qed.

Lemma LAB_to_XYZ_len (L A B : arr) (XN YN ZN : float) (r : arr * arr * arr) (n : nat) :
  LAB_to_XYZ L A B (WFloat XN) (WFloat YN) (WFloat ZN) = Ok r ->
  len L = n -> len A = n -> len B = n -> lens3 r n.
Proof.
  intros H HX HY HZ. destruct (LAB_to_XYZ_total L A B XN YN ZN n HX HY HZ) as (r0 & E & L0).
  congruence.
Qed.

Lemma XYZ_to_LAB_len (X Y Z : arr) (XN YN ZN : float) (r : arr * arr * arr) (n : nat) :
  XYZ_to_LAB X Y Z (WFloat XN) (WFloat YN) (WFloat ZN) = Ok r ->
  len X = n -> len Y = n -> len Z = n -> lens3 r n.
Proof.
  unfold XYZ_to_LAB. rewrite get_white_floats. cbn [rbind seq_values].
  intros H HX HY HZ. rewrite HX in H. returned H. lens'.
Qed.

Lemma LAB_to_polarLAB_len (fuel : nat) (L A B : arr) (r : arr * arr * arr) (n : nat) :
  LAB_to_polarLAB fuel L A B = Ok r -> len L = n -> len A = n -> len B = n -> lens3 r n.
Proof.
  unfold LAB_to_polarLAB. intros H HL HA HB.
  destruct (_check_input_arrays_ _); [|discriminate H]. cbn [rbind] in H.
  destruct (mapM _ _) as [Hh|] eqn:E; [|discriminate H]. cbn [rbind] in H.
  injection H as <-. apply mapM_length in E. lens'. rewrite E. lens'.
Qed.

Lemma LUV_to_polarLUV_len (fuel : nat) (L U V : arr) (r : arr * arr * arr) (n : nat) :
  LUV_to_polarLUV fuel L U V = Ok r -> len L = n -> len U = n -> len V = n -> lens3 r n.
Proof.
  unfold LUV_to_polarLUV. intros H HL HA HB.
  destruct (_check_input_arrays_ _); [|discriminate H]. cbn [rbind] in H.
  destruct (mapM _ _) as [Hh|] eqn:E; [|discriminate H]. cbn [rbind] in H.
  injection H as <-. apply mapM_length in E. lens'. rewrite E. lens'.
Qed.

Lemma polarLUV_to_LUV_len (L C H : arr) (r : arr * arr * arr) (n : nat) :
  polarLUV_to_LUV L C H = Ok r -> len L = n -> len C = n -> len H = n -> lens3 r n.
Proof.
  intros E HX HY HZ. destruct (polarLUV_to_LUV_total L C H n HX HY HZ) as (r0 & E0 & L0).
  congruence.
Qed.

Lemma polarLAB_to_LAB_len (L C H : arr) (r : arr * arr * arr) (n : nat) :
  polarLAB_to_LAB L C H = Ok r -> len L = n -> len C = n -> len H = n -> lens3 r n.
Proof.
  intros E HX HY HZ. destruct (polarLAB_to_LAB_total L C H n HX HY HZ) as (r0 & E0 & L0).
  congruence.
Qed.

Lemma sRGB_to_HSV_len (r g b : arr) (res : arr * arr * arr) (n : nat) :
  sRGB_to_HSV r g b = Ok res -> len r = n -> len g = n -> len b = n -> lens3 res n.
Proof. unfold sRGB_to_HSV. intros H Hr Hg Hb. returned H. lens'. Qed.

Lemma HSV_to_sRGB_len (h s v : arr) (res : arr * arr * arr) (n : nat) :
  HSV_to_sRGB h s v = Ok res -> len h = n -> len s = n -> len v = n -> lens3 res n.
Proof.
  unfold HSV_to_sRGB. intros H Hh Hs Hv.
  destruct (_check_input_arrays_ _); [|discriminate H]. cbn [rbind] in H.
  destruct (mapM _ _) as [rgb|] eqn:E; [|discriminate H]. cbn [rbind] in H.
  injection H as <-. apply mapM_length in E.
  rewrite (len_zip3 h s v n Hh Hs Hv) in E. lens'.
Qed.

Lemma sRGB_to_HLS_len (r g b : arr) (res : arr * arr * arr) (n : nat) :
  sRGB_to_HLS r g b = Ok res -> len r = n -> len g = n -> len b = n -> lens3 res n.
Proof.
  unfold sRGB_to_HLS. intros H Hh Hs Hv.
  destruct (_check_input_arrays_ _); [|discriminate H]. cbn [rbind] in H.
  destruct (mapM _ _) as [rgb|] eqn:E; [|discriminate H]. cbn [rbind] in H.
  injection H as <-. apply mapM_length in E.
  rewrite (len_zip3 r g b n Hh Hs Hv) in E. lens'.
Qed.

Lemma HLS_to_sRGB_len (h l s : arr) (res : arr * arr * arr) (n : nat) :
  HLS_to_sRGB h l s = Ok res -> len h = n -> len l = n -> len s = n -> lens3 res n.
Proof.
  intros E HX HY HZ. destruct (HLS_to_sRGB_total h l s n HX HY HZ) as (r0 & E0 & L0).
  congruence.
Qed.

Lemma hex_to_sRGB_len (hex_ : list string) (res : arr * arr * arr) :
  hex_to_sRGB hex_ = Ok res -> lens3 res (List.length hex_).
Proof.
  unfold hex_to_sRGB. intros H.
  destruct (mapM _ _) as [rgb|] eqn:E; [|discriminate H]. cbn [rbind] in H.
  injection H as <-. apply mapM_length in E. lens'.
Qed.

End Lengths.

Create HintDb lens_db.
#[export] Hint Resolve sRGB_to_RGB_len RGB_to_sRGB_len RGB_to_XYZ_len XYZ_to_RGB_len
  XYZ_to_LUV_len LUV_to_XYZ_len LAB_to_XYZ_len XYZ_to_LAB_len LAB_to_polarLAB_len
  LUV_to_polarLUV_len polarLUV_to_LUV_len polarLAB_to_LAB_len sRGB_to_HSV_len
  HSV_to_sRGB_len sRGB_to_HLS_len HLS_to_sRGB_len : lens_db.


Section NumberOfColors.
Context {libm : Libm}.

Lemma lookup_In (d : dict) (k : string) (v : option ndarray) :
  lookup d k = Some v -> In (k, v) d.
Proof.
  induction d as [|[k' v'] d IH]; cbn [lookup]; [discriminate|].
  destruct (String.eqb k' k) eqn:E.
  - intros H. injection H as <-. apply String.eqb_eq in E as ->. left. reflexivity.
  - intros H. right. exact (IH H).
Qed.

Lemma n_colors_In (d : dict) (n : nat) (k : string) (a : ndarray) :
  n_colors d n -> In (k, Some a) d -> ndarray_len a = n.
Proof.
  intros [H _] Hin. rewrite Forall_forall in H. exact (H _ Hin).
Qed.

Lemma get_len (self : colorobject) (n : nat) (k : string) (v : option ndarray) (a : arr) :
  n_colors (_data_ self) n -> get self k = Ok v -> as_float64 v = Ok a -> len a = n.
Proof.
  intros Hn Hg Ha. unfold get in Hg.
  destruct (lookup (_data_ self) k) as [v'|] eqn:E.
  - injection Hg as ->. apply lookup_In in E.
    destruct v as [[a'|w a']|]; try discriminate Ha. injection Ha as ->.
    exact (n_colors_In _ _ _ _ Hn E).
  - destruct (String.eqb k "alpha"); [|discriminate Hg]. injection Hg as <-. discriminate Ha.
Qed.

Lemma call3_lens {T : Type} (self : colorobject) (n : nat) (k1 k2 k3 : string)
  (f : arr -> arr -> arr -> result T) (r : T) :
  n_colors (_data_ self) n ->
  call3 self k1 k2 k3 f = Ok r ->
  exists a1 a2 a3, len a1 = n /\ len a2 = n /\ len a3 = n /\ f a1 a2 a3 = Ok r.
Proof.
  intros Hn. unfold call3.
  destruct (get self k1) as [v1|] eqn:G1; [|discriminate].
  destruct (get self k2) as [v2|] eqn:G2; [|discriminate].
  destruct (get self k3) as [v3|] eqn:G3; [|discriminate]. cbn [rbind].
  destruct (as_float64 v1) as [a1|] eqn:A1; [|discriminate].
  destruct (as_float64 v2) as [a2|] eqn:A2; [|discriminate].
  destruct (as_float64 v3) as [a3|] eqn:A3; [|discriminate]. cbn [rbind].
  intros H. exists a1, a2, a3.
  repeat split;
    [ exact (get_len _ _ _ _ _ Hn G1 A1) | exact (get_len _ _ _ _ _ Hn G2 A2)
    | exact (get_len _ _ _ _ _ Hn G3 A3) | exact H ].
Qed.

Lemma get_alpha_len (self : colorobject) (n : nat) :
  n_colors (_data_ self) n ->
  match get_alpha self with None => True | Some a => ndarray_len a = n end.
Proof.
  intros Hn. unfold get_alpha.
  destruct (lookup (_data_ self) "alpha") as [[a|]|] eqn:E; try exact I.
  apply lookup_In in E. exact (n_colors_In _ _ _ _ Hn E).
Qed.

Lemma dict3_n_colors (self : colorobject) (n : nat) (k1 k2 k3 : string) (a : arr * arr * arr) :
  n_colors (_data_ self) n -> lens3 a n -> n_colors (dict3 self k1 k2 k3 a) n.
Proof.
  intros Hn. destruct a as [[a1 a2] a3]. intros (L1 & L2 & L3). cbn [fst snd] in *.
  unfold dict3. split.
  - repeat constructor; cbn [snd ndarray_len]; try assumption.
    exact (get_alpha_len self n Hn).
  - exists k1, (Float64 a1). left. reflexivity.
Qed.

Lemma path_keeps (P : colorobject -> Prop) (self_to : string -> bool -> meth) (fixup : bool) :
  (forall v self x, P self -> self_to v fixup self = (None, x) -> P x) ->
  forall via self x,
    P self -> _transform_via_path_ self_to via fixup self = (None, x) -> P x.
Proof.
  intros Hto. induction via as [|v via IH]; intros self x HP H; cbn [_transform_via_path_] in H.
  - unfold ret in H. injection H as <-. exact HP.
  - apply andthen_ok in H as (y & Hy & H). exact (IH y x (Hto v self y HP Hy) H).
Qed.

Lemma to_n_colors (fuel : nat) :
  forall t fixup self x n,
    n_colors (_data_ self) n -> to fuel t fixup self = (None, x) ->
    n_colors (_data_ x) n.
Proof.
  induction fuel as [|fuel IH]; intros t fixup self x n Hn H; [discriminate H|].
  destruct (__class__ self) eqn:Ec; methods_of H Ec; try discriminate H;
    try (unfold ret in H; injection H as <-; exact Hn);
    try (refine (path_keeps (fun o => n_colors (_data_ o) n) _ _ _ _ _ _ Hn H);
         intros; eapply IH; eassumption);
    apply become_ok in H as [_ Hd]; unfold white in Hd; cbv beta iota in Hd;
    try (match type of Hd with
         | rbind (call3 ?s ?k1 ?k2 ?k3 ?f) _ = _ =>
             destruct (call3 s k1 k2 k3 f) as [a|] eqn:E; [|discriminate Hd]
         end;
         cbn [rbind] in Hd; injection Hd as Hd; rewrite <- Hd;
         apply (call3_lens _ n) in E as (a1 & a2 & a3 & L1 & L2 & L3 & E);
         [|exact Hn]; cbv beta in E).
  all: try (apply dict3_n_colors; [exact Hn|]; eauto with lens_db).
  - (* sRGB to hex *)
    split.
    + repeat constructor; cbn [snd].
      * rewrite ndarray_len_strings.
        destruct (sRGB_to_hex_items _ _ _ _ _ E) as [-> _]. exact L1.
      * exact (get_alpha_len _ n Hn).
    + exists "hex_", a. left. reflexivity.
  - (* hex to sRGB *)
    destruct (hex_slices _) as [hex_|] eqn:E; [|discriminate Hd]. cbn [rbind] in Hd.
    destruct (hex_to_sRGB hex_) as [[[R G] B]|] eqn:E2; [|discriminate Hd]. cbn [rbind] in Hd.
    injection Hd as Hd. rewrite <- Hd.
    apply hex_to_sRGB_len in E2 as (L1 & L2 & L3). cbn [fst snd] in *.
    assert (Hh : len hex_ = n).
    { unfold hex_slices in E.
      destruct (get _ "hex_") as [v|] eqn:Eg; [|discriminate E]. cbn [rbind] in E.
      unfold get in Eg. destruct (lookup _ "hex_") as [v0|] eqn:EL; [|discriminate Eg].
      injection Eg as ->. apply lookup_In in EL.
      destruct v as [[[|? ?]|w a]|]; try discriminate E; injection E as <-;
        pose proof (n_colors_In _ _ _ _ Hn EL) as Hl; cbn [ndarray_len] in Hl;
        unfold len in *; rewrite ?length_map; exact Hl. }
    unfold len in *. rewrite Hh in *.
    pose proof (get_alpha_len _ n Hn) as Ha.
    split.
    + destruct (get_alpha _); cbn [app]; repeat constructor; cbn [snd ndarray_len];
        assumption.
    + exists "R", (Float64 R). destruct (get_alpha _); left; reflexivity.
Qed.

Lemma n_colors_length (self : colorobject) (n : nat) :
  n_colors (_data_ self) n -> length self = n.
Proof.
  intros [H (k & a & Hin)]. unfold length.
  induction (_data_ self) as [|[k' v'] d IH]; [destruct Hin|].
  inversion H as [|? ? Hv Hd]; subst. cbn [map fold_right snd] in *.
  assert (Hmax : forall d', Forall (fun kv : string * option ndarray =>
                   match snd kv with None => True | Some a => ndarray_len a = n end) d' ->
               (fold_right Nat.max O
                 (map (fun kv : string * option ndarray =>
                         match snd kv with
                         | None => O | Some (Float64 a) => len a | Some (Unicode _ a) => len a
                         end) d') <= n)%nat).
  { induction d' as [|[k1 v1] d' IH']; intros Hf; cbn [map fold_right]; [lia|].
    inversion Hf as [|? ? Hv1 Hd1]; subst. specialize (IH' Hd1). cbn [snd] in *.
    destruct v1 as [[a1|w a1]|]; cbn [ndarray_len] in Hv1; lia. }
  destruct Hin as [Heq | Hin].
  - injection Heq as -> ->. specialize (Hmax d Hd).
    destruct a as [a1|w a1]; cbn [ndarray_len] in Hv; lia.
  - specialize (IH Hd Hin).
    destruct v' as [[a1|w a1]|]; cbn [ndarray_len] in Hv; lia.
Qed.

End NumberOfColors.

(** ** The statement *)

(** X5.  A conversion keeps the number of colors: if every array of the
    object has [n] elements (and there is one), then after a [to] that
    returned every array of the object has [n] elements again, for every
    class, target and path, and [length()] is [n]. *)
Theorem to_keeps_the_number_of_colors {libm : Libm}
  (fuel : nat) (t : string) (fixup : bool) (self x : colorobject) (n : nat) :
  n_colors (_data_ self) n ->
  to fuel t fixup self = (None, x) ->
  n_colors (_data_ x) n /\ length x = n.
Proof.
  intros Hn H. pose proof (to_n_colors fuel t fixup self x n Hn H) as Hx.
  split; [exact Hx | exact (n_colors_length x n Hx)].
Qed.

(** The theorem at [HLS([0, 120], [0.5, 0.5], [1, 1]).to("hex")]: two
    colors before, two colors after. *)
Lemma to_keeps_the_number_of_colors_witness :
  n_colors (_data_ (snd (@to leading_terms 3 "hex" true
      (new_object HLS [("H", Some (Float64 [0; 120])); ("L", Some (Float64 [0.5; 0.5]));
                       ("S", Some (Float64 [1; 1]))])))) 2
  /\ length (snd (@to leading_terms 3 "hex" true
      (new_object HLS [("H", Some (Float64 [0; 120])); ("L", Some (Float64 [0.5; 0.5]));
                       ("S", Some (Float64 [1; 1]))]))) = 2%nat.
Proof.
  apply (@to_keeps_the_number_of_colors leading_terms 3 "hex" true
           (new_object HLS [("H", Some (Float64 [0; 120])); ("L", Some (Float64 [0.5; 0.5]));
                            ("S", Some (Float64 [1; 1]))])).
  - split.
    + repeat constructor.
    + exists "H", (Float64 [0; 120]). left. reflexivity.
  - vm_compute. reflexivity.
Defined.

(* ================================================================== *)
(** * Hex strings: decoding and encoding *)
(* ================================================================== *)

(** ** Bytes and pairs of hex digits, by enumeration *)

Lemma in_all_ascii (c : ascii) : In c all_ascii.
Proof.
  unfold all_ascii. rewrite <- (ascii_nat_embedding c). apply in_map.
  apply in_seq. pose proof (nat_ascii_bounded c). lia.
Qed.

Lemma hex_pair (c1 c2 : ascii) :
  is_hex_digit c1 = true -> is_hex_digit c2 = true ->
  exists k, int16 (String c1 (String c2 EmptyString)) = Ok k /\ (0 <= k <= 255)%Z /\
            format_02X k = String (upper_char c1) (String (upper_char c2) EmptyString).
Proof.
  intros H1 H2.
  assert (Hall : forallb (fun c1 => forallb (hex_pair_ok c1) all_ascii) all_ascii = true)
    by (vm_compute; reflexivity).
  rewrite forallb_forall in Hall. specialize (Hall c1 (in_all_ascii c1)).
  rewrite forallb_forall in Hall. specialize (Hall c2 (in_all_ascii c2)).
  unfold hex_pair_ok in Hall. rewrite H1, H2 in Hall. cbn [andb] in Hall.
  destruct (int16 _) as [k|]; [|discriminate Hall].
  apply andb_prop in Hall as [Hk He]. apply andb_prop in Hk as [Hk0 Hk1].
  apply String.eqb_eq in He. exists k. repeat split; [lia | lia | exact He].
Qed.

Lemma byte_round_trip (fixup : bool) (k : Z) :
  (0 <= k <= 255)%Z ->
  let x := (if fixup then rgbfixup1 else rgbcleanup1) (of_Z k / 255) in
  is_finite x = true /\ astype_int (x * 255 + 0.5) = k.
Proof.
  intros Hk.
  assert (Hall : forallb (fun n => byte_ok rgbfixup1 n && byte_ok rgbcleanup1 n)
                   (seq 0 256) = true) by (vm_compute; reflexivity).
  rewrite forallb_forall in Hall.
  specialize (Hall (Z.to_nat k) ltac:(apply in_seq; lia)).
  apply andb_prop in Hall as [H1 H2].
  unfold byte_ok in H1, H2. rewrite Z2Nat.id in H1, H2 by lia.
  destruct fixup; cbv zeta;
    [apply andb_prop in H1 as [F E] | apply andb_prop in H2 as [F E]];
    apply Z.eqb_eq in E; split; assumption.
Qed.

(** ** One hex string *)

Lemma validhex_shape (s : string) :
  validhex s = true ->
  exists h1 h2 h3 h4 h5 h6 tl,
    s = String "#" (String h1 (String h2 (String h3 (String h4 (String h5 (String h6 tl))))))
    /\ Forall (fun h => is_hex_digit h = true) [h1; h2; h3; h4; h5; h6].
Proof.
  unfold validhex.
  destruct s as [|c0 [|h1 [|h2 [|h3 [|h4 [|h5 [|h6 tl]]]]]]];
    cbn [list_ascii_of_string]; try discriminate.
  intros H. apply andb_prop in H as [H _]. apply andb_prop in H as [H0 H].
  apply Ascii.eqb_eq in H0 as ->.
  cbn [forallb] in H.
  repeat (apply andb_prop in H as [?Hd H]).
  exists h1, h2, h3, h4, h5, h6, tl. split; [reflexivity|].
  repeat constructor; assumption.
Qed.

Lemma hex_getrgb_valid (s : string) :
  validhex s = true ->
  exists kr kg kb,
    hex_getrgb s = Ok (of_Z kr / 255, of_Z kg / 255, of_Z kb / 255) /\
    (0 <= kr <= 255)%Z /\ (0 <= kg <= 255)%Z /\ (0 <= kb <= 255)%Z /\
    String "#" (format_02X kr ++ format_02X kg ++ format_02X kb) = upper (slice 0 7 s).
Proof.
  intros H. apply validhex_shape in H as (h1 & h2 & h3 & h4 & h5 & h6 & tl & -> & Hh).
  inversion Hh as [|? ? H1 Hh1]; subst. inversion Hh1 as [|? ? H2 Hh2]; subst.
  inversion Hh2 as [|? ? H3 Hh3]; subst. inversion Hh3 as [|? ? H4 Hh4]; subst.
  inversion Hh4 as [|? ? H5 Hh5]; subst. inversion Hh5 as [|? ? H6 _]; subst.
  destruct (hex_pair h1 h2 H1 H2) as (kr & Er & Hr & Fr).
  destruct (hex_pair h3 h4 H3 H4) as (kg & Eg & Hg & Fg).
  destruct (hex_pair h5 h6 H5 H6) as (kb & Eb & Hb & Fb).
  exists kr, kg, kb. unfold hex_getrgb, slice.
  assert (S13 : forall t, substring 1 (3 - 1) (String "#" (String h1 (String h2 t)))
                          = String h1 (String h2 EmptyString)).
  { intros t. cbn [substring Nat.sub]. destruct t; reflexivity. }
  assert (S35 : forall a b c t,
             substring 3 (5 - 3) (String a (String b (String c (String h3 (String h4 t)))))
             = String h3 (String h4 EmptyString)).
  { intros a b c t. cbn [substring Nat.sub]. destruct t; reflexivity. }
  assert (S57 : forall a b c d e t,
             substring 5 (7 - 5)
               (String a (String b (String c (String d (String e (String h5 (String h6 t)))))))
             = String h5 (String h6 EmptyString)).
  { intros a b c d e t. cbn [substring Nat.sub]. destruct t; reflexivity. }
  rewrite S13, S35, S57, Er, Eg, Eb. cbn [rbind].
  repeat split; try lia.
  rewrite Fr, Fg, Fb. cbn [substring Nat.sub append upper].
  replace (upper_char "#") with "#"%char by reflexivity.
  destruct tl; reflexivity.
Qed.

Lemma byte_channel_range (x : float) :
  byte_channel x -> (0 <=? x) = true /\ (x <=? 1) = true.
Proof.
  intros (k & Hk & ->).
  assert (Hall : forallb (fun n => (0 <=? of_Z (Z.of_nat n) / 255) &&
                                   (of_Z (Z.of_nat n) / 255 <=? 1)) (seq 0 256) = true)
    by (vm_compute; reflexivity).
  rewrite forallb_forall in Hall.
  specialize (Hall (Z.to_nat k) ltac:(apply in_seq; lia)).
  rewrite Z2Nat.id in Hall by lia. apply andb_prop in Hall. exact Hall.
Qed.

Section HexCodec.
Context {libm : Libm}.

Lemma hex_to_sRGB_rows (hex_ : list string) :
  exists rgb,
    mapM (fun x => if validhex x then hex_getrgb x else Ok (nan, nan, nan)) hex_ = Ok rgb /\
    Forall2 (fun s t =>
               if validhex s
               then exists kr kg kb,
                      t = (of_Z kr / 255, of_Z kg / 255, of_Z kb / 255) /\
                      (0 <= kr <= 255)%Z /\ (0 <= kg <= 255)%Z /\ (0 <= kb <= 255)%Z /\
                      String "#" (format_02X kr ++ format_02X kg ++ format_02X kb)
                      = upper (slice 0 7 s)
               else t = (nan, nan, nan)) hex_ rgb.
Proof.
  induction hex_ as [|s hex_ (rgb & E & F)].
  - exists []. split; [reflexivity | constructor].
  - cbn [mapM]. destruct (validhex s) eqn:V.
    + destruct (hex_getrgb_valid s V) as (kr & kg & kb & Eg & Hr & Hg & Hb & Hs).
      rewrite Eg, E. cbn [rbind]. eexists. split; [reflexivity|].
      constructor; [|exact F]. rewrite V. exists kr, kg, kb. repeat split; try lia. exact Hs.
    + rewrite E. cbn [rbind]. eexists. split; [reflexivity|].
      constructor; [|exact F]. rewrite V. reflexivity.
Qed.



Lemma encode_rows (fixup : bool) (hex_ : list string) (rgb : list (float * float * float)) :
  Forall (fun s => validhex s = true) hex_ ->
  Forall2 (fun s t =>
             if validhex s
             then exists kr kg kb,
                    t = (of_Z kr / 255, of_Z kg / 255, of_Z kb / 255) /\
                    (0 <= kr <= 255)%Z /\ (0 <= kg <= 255)%Z /\ (0 <= kb <= 255)%Z /\
                    String "#" (format_02X kr ++ format_02X kg ++ format_02X kb)
                    = upper (slice 0 7 s)
             else t = (nan, nan, nan)) hex_ rgb ->
  let fix1 := if fixup then rgbfixup1 else rgbcleanup1 in
  map3 (fun r g b => if is_finite r && is_finite g && is_finite b
                     then Some (gethex1 r g b) else None)
    (map fix1 (map (fun t => fst (fst t)) rgb))
    (map fix1 (map (fun t => snd (fst t)) rgb))
    (map fix1 (map snd rgb))
  = map (fun s => Some (upper (slice 0 7 s))) hex_.
Proof.
  intros Hv F. cbv zeta. induction F as [|s t hex_ rgb Hst F IH].
  - reflexivity.
  - inversion Hv as [|? ? Vs Hv']; subst. specialize (IH Hv').
    unfold map3, zip3 in *. cbn [map combine fst snd]. rewrite IH. f_equal.
    rewrite Vs in Hst. destruct Hst as (kr & kg & kb & -> & Hr & Hg & Hb & Hs).
    cbn [fst snd].
    destruct (byte_round_trip fixup kr Hr) as [Fr Er].
    destruct (byte_round_trip fixup kg Hg) as [Fg Eg].
    destruct (byte_round_trip fixup kb Hb) as [Fb Eb].
    cbv zeta in Fr, Er, Fg, Eg, Fb, Eb.
    rewrite Fr, Fg, Fb. cbn [andb]. unfold gethex1. rewrite Er, Eg, Eb, Hs. reflexivity.
Qed.

Lemma hex_round_trip (fixup : bool) (hex_ : list string) :
  Forall (fun s => validhex s = true) hex_ ->
  exists R G B h,
    hex_to_sRGB hex_ = Ok (R, G, B) /\
    sRGB_to_hex R G B fixup = Ok h /\
    strings_of false h = map (fun s => upper (slice 0 7 s)) hex_.
Proof.
  intros Hv. destruct (hex_to_sRGB_rows hex_) as (rgb & E & F).
  unfold hex_to_sRGB. rewrite E. cbn [rbind].
  do 3 eexists. exists (asarray_str_or_nan (map (fun s => Some (upper (slice 0 7 s))) hex_)).
  split; [reflexivity|]. split.
  - unfold sRGB_to_hex. unfold len. rewrite !length_map, !Nat.eqb_refl. cbn [andb negb].
    rewrite (encode_rows fixup hex_ rgb Hv F). reflexivity.
  - rewrite asarray_items, map_map. reflexivity.
Qed.

Lemma hex_to_sRGB_total (hex_ : list string) :
  exists R G B,
    hex_to_sRGB hex_ = Ok (R, G, B) /\
    forall i s, nth_error hex_ i = Some s ->
      exists r g b,
        nth_error R i = Some r /\ nth_error G i = Some g /\ nth_error B i = Some b /\
        if validhex s
        then byte_channel r /\ byte_channel g /\ byte_channel b
        else r = nan /\ g = nan /\ b = nan.
Proof.
  destruct (hex_to_sRGB_rows hex_) as (rgb & E & F).
  unfold hex_to_sRGB. rewrite E. cbn [rbind].
  do 3 eexists. split; [reflexivity|]. clear E.
  induction F as [|s0 t hex_ rgb Hst F IH]; intros i s Hi.
  - destruct i; discriminate Hi.
  - destruct i as [|i].
    + cbn [nth_error] in Hi. injection Hi as <-. cbn [map nth_error].
      do 3 eexists. repeat split. destruct (validhex s0).
      * destruct Hst as (kr & kg & kb & -> & Hr & Hg & Hb & _). cbn [fst snd].
        repeat split; eexists; (split; [|reflexivity]); assumption.
      * subst t. repeat split.
    + cbn [nth_error] in Hi. cbn [map nth_error]. exact (IH i s Hi).
Qed.

End HexCodec.

(** ** The statements *)

(** X6.  Decoding hex colors and encoding them again gives the colors back
    in upper case: for a list of strings that [hex_to_sRGB] takes as valid,
    [sRGB_to_hex] of the decoded channels (with [fixup] or without) returns
    the first seven characters of each string with the letters in upper
    case; a two-digit alpha suffix is not decoded and is lost. *)
Theorem hex_colors_survive_decoding_and_encoding {libm : Libm}
  (fixup : bool) (hex_ : list string) :
  Forall (fun s => validhex s = true) hex_ ->
  exists R G B h,
    hex_to_sRGB hex_ = Ok (R, G, B) /\
    sRGB_to_hex R G B fixup = Ok h /\
    strings_of false h = map (fun s => upper (slice 0 7 s)) hex_.
Proof. exact (hex_round_trip fixup hex_). Qed.

(** The theorem at [["#ff00aa", "#0080FF50"]]. *)
Lemma hex_colors_survive_decoding_and_encoding_witness :
  exists R G B h,
    hex_to_sRGB ["#ff00aa"; "#0080FF50"] = Ok (R, G, B) /\
    sRGB_to_hex R G B false = Ok h /\
    @strings_of leading_terms false h = ["#FF00AA"; "#0080FF"].
Proof.
  apply (@hex_colors_survive_decoding_and_encoding leading_terms false
           ["#ff00aa"; "#0080FF50"]).
  repeat constructor.
Defined.

(** X7.  [hex_to_sRGB] never raises.  It returns three arrays with one
    element for each string: NaN in all three for a string that is not a
    valid hex color, and for a valid one three values [k / 255] with [k] a
    byte; such a value lies between 0 and 1. *)
Theorem hex_to_sRGB_returns_bytes_over_255_or_nan :
  (forall hex_ : list string,
      exists R G B,
        hex_to_sRGB hex_ = Ok (R, G, B) /\
        len R = len hex_ /\ len G = len hex_ /\ len B = len hex_ /\
        forall i s, nth_error hex_ i = Some s ->
          exists r g b,
            nth_error R i = Some r /\ nth_error G i = Some g /\ nth_error B i = Some b /\
            if validhex s
            then byte_channel r /\ byte_channel g /\ byte_channel b
            else r = nan /\ g = nan /\ b = nan)
  /\ (forall x, byte_channel x -> (0 <=? x) = true /\ (x <=? 1) = true).
Proof.
  split; [|exact byte_channel_range].
  intros hex_. destruct (hex_to_sRGB_total hex_) as (R & G & B & E & H).
  exists R, G, B. split; [exact E|].
  destruct (hex_to_sRGB_len hex_ (R, G, B) E) as (L1 & L2 & L3).
  repeat split; try assumption.
Qed.

(* ================================================================== *)
(** * The methods of a color object and [compare_colors] *)
(* ================================================================== *)

(** ** [dropalpha] *)

Lemma lookup_remove_key (d : dict) (key k : string) :
  lookup (remove_key d key) k = if String.eqb key k then None else lookup d k.
Proof.
  induction d as [|[k' v] d IH]; cbn [remove_key lookup].
  - destruct (String.eqb key k); reflexivity.
  - destruct (String.eqb k' key) eqn:E.
    + apply String.eqb_eq in E. subst k'. rewrite IH.
      destruct (String.eqb key k); reflexivity.
    + cbn [lookup]. rewrite IH. destruct (String.eqb k' k) eqn:E2; [|reflexivity].
      apply String.eqb_eq in E2. subst k'. rewrite String.eqb_sym, E. reflexivity.
Qed.

Lemma dropalpha_returns (self : colorobject) :
  exists x,
    dropalpha self = (None, x) /\
    hasalpha x = false /\
    (forall k, String.eqb "alpha" k = false -> get x k = get self k) /\
    __class__ x = __class__ self /\ same_white_and_gamma x self.
Proof.
  unfold dropalpha. destruct (hasalpha self) eqn:E.
  - unfold del. unfold hasalpha in E.
    destruct (lookup (_data_ self) "alpha") as [v|] eqn:El; [|discriminate E].
    eexists. split; [reflexivity|]. repeat split.
    + unfold hasalpha, with_data. cbn [_data_]. rewrite lookup_remove_key. reflexivity.
    + intros k Hk. unfold get, with_data. cbn [_data_]. rewrite lookup_remove_key, Hk.
      reflexivity.
  - exists self. repeat split. exact E.
Qed.

Lemma dropalpha_twice (self x : colorobject) :
  dropalpha self = (None, x) -> dropalpha x = (None, x).
Proof.
  intros H. destruct (dropalpha_returns self) as (x' & E & Ha & _).
  rewrite E in H. injection H as <-. unfold dropalpha. rewrite Ha. reflexivity.
Qed.

Section DropAlpha.
Context {libm : Libm}.

Lemma has_channels_get (self x : colorobject) (n : nat) :
  __class__ x = __class__ self ->
  (forall k, String.eqb "alpha" k = false -> get x k = get self k) ->
  has_channels self n -> has_channels x n.
Proof.
  intros Hc Hg. unfold has_channels, has3. rewrite Hc.
  destruct (__class__ self); try exact (fun H => H);
    intros (a1 & a2 & a3 & G1 & G2 & G3 & L);
    exists a1, a2, a3; rewrite !Hg by reflexivity; repeat split; tauto.
Qed.

Lemma colors_after_dropalpha (fuel : nat) (self : colorobject) (fixup : bool) (n : nat) :
  has_channels self n ->
  exists x l,
    dropalpha self = (None, x) /\
    colors (S (S (S fuel))) x fixup false = Ok l /\ len l = n /\
    Forall (fun s => s = "nan" \/ is_hex7 s = true) l.
Proof.
  intros Hch. destruct (dropalpha_returns self) as (x & E & Ha & Hg & Hc & _).
  pose proof (has_channels_get self x n Hc Hg Hch) as Hx.
  assert (Hal : get_alpha x = None).
  { rewrite hasalpha_get_alpha in Ha. destruct (get_alpha x); [discriminate Ha|reflexivity]. }
  assert (Hno : no_alpha_below_one x n) by (unfold no_alpha_below_one; rewrite Hal; exact I).
  destruct (colors_total fuel x fixup n Hx Hno) as (l & Hl & Hn).
  exists x, l. repeat split; try assumption.
  apply Forall_forall. intros s Hs. apply In_nth_error in Hs as [i Hi].
  apply (colors_shape (S (S (S fuel))) x fixup l) with (i := i); try assumption.
  - intros Hh. unfold has_channels in Hx. rewrite Hh in Hx. exact Hx.
  - unfold alpha_below_one. rewrite Hal. reflexivity.
Qed.

End DropAlpha.

(** ** [__getitem__] *)

Lemma item_array_ok (a : ndarray) (n : nat) (key : Z) :
  ndarray_len a = n -> key_in_range n key ->
  exists a', item_array a key = Ok a' /\ ndarray_len a' = 1%nat /\
             a' = match a with
                  | Float64 l => Float64 (firstn 1 (skipn (index_of n key) l))
                  | Unicode w l => Unicode w (firstn 1 (skipn (index_of n key) l))
                  end.
Proof.
  intros Hn Hk. unfold item_array, key_in_range, index_of in *. rewrite Hn.
  destruct ((key <? - Z.of_nat n)%Z || (Z.of_nat n <=? key)%Z) eqn:E.
  { apply orb_prop in E as [E|E]; [apply Z.ltb_lt in E | apply Z.leb_le in E]; lia. }
  eexists. split; [reflexivity|]. split; [|reflexivity].
  assert (Hi : (Z.to_nat (if (key <? 0)%Z then key + Z.of_nat n else key) < n)%nat).
  { destruct (key <? 0)%Z eqn:E0; [apply Z.ltb_lt in E0 | apply Z.ltb_ge in E0]; lia. }
  destruct a as [l|w l]; cbn [ndarray_len] in *; unfold len in *;
    rewrite length_firstn, length_skipn; lia.
Qed.

Lemma item_array_out (a : ndarray) (n : nat) (key : Z) :
  ndarray_len a = n -> ~ key_in_range n key -> item_array a key = Raise IndexError.
Proof.
  intros Hn Hk. unfold item_array, key_in_range in *. rewrite Hn.
  destruct ((key <? - Z.of_nat n)%Z || (Z.of_nat n <=? key)%Z) eqn:E; [reflexivity|].
  apply orb_false_elim in E as [E1 E2]. apply Z.ltb_ge in E1. apply Z.leb_gt in E2. lia.
Qed.

Lemma getitem_rows (d : dict) (n : nat) (key : Z) :
  Forall (fun kv => match snd kv with
                    | None => True
                    | Some a => ndarray_len a = n
                    end) d ->
  key_in_range n key ->
  mapM (fun kv : string * option ndarray =>
          match snd kv with
          | None => Ok kv
          | Some a => a' <- item_array a key ;; Ok (fst kv, Some a')
          end) d
  = Ok (map (fun kv => (fst kv, item_of n key (snd kv))) d).
Proof.
  intros Hd Hk. induction Hd as [|[k v] d Hv Hd IH]; [reflexivity|].
  cbn [mapM map fst snd] in *. rewrite IH. destruct v as [a|].
  - destruct (item_array_ok a n key Hv Hk) as (a' & -> & _ & ->). cbn [rbind item_of].
    destruct a; reflexivity.
  - reflexivity.
Qed.

Lemma lookup_map_values (f : option ndarray -> option ndarray) (d : dict) (k : string) :
  lookup (map (fun kv => (fst kv, f (snd kv))) d) k = option_map f (lookup d k).
Proof.
  induction d as [|[k' v] d IH]; [reflexivity|]. cbn [map lookup fst snd].
  destruct (String.eqb k' k); [reflexivity | exact IH].
Qed.

Lemma getitem_in_range (self : colorobject) (n : nat) (key : Z) :
  n_colors (_data_ self) n -> key_in_range n key ->
  exists x,
    __getitem__ self (PyInt key) = Ok x /\
    n_colors (_data_ x) 1 /\
    __class__ x = __class__ self /\ same_white_and_gamma x self /\
    forall k, lookup (_data_ x) k = option_map (item_of n key) (lookup (_data_ self) k).
Proof.
  intros [Hd (k0 & a0 & Hin)] Hk. unfold __getitem__.
  rewrite (getitem_rows _ n key Hd Hk). cbn [rbind]. eexists. split; [reflexivity|].
  unfold with_data. cbn [_data_ __class__]. repeat split.
  - apply Forall_forall. intros [k v] Hkv. apply in_map_iff in Hkv as ([k' v'] & E & Hkv).
    cbn [fst snd] in E. injection E as <- <-. cbn [snd].
    rewrite Forall_forall in Hd. specialize (Hd _ Hkv). cbn [snd] in Hd.
    destruct v' as [a|]; [|exact I].
    destruct (item_array_ok a n key Hd Hk) as (a' & _ & Hl & ->).
    destruct a; exact Hl.
  - exists k0. destruct a0 as [l|w l]; eexists;
      apply (in_map (fun kv => (fst kv, item_of n key (snd kv))) _ _ Hin).
  - intros k. apply lookup_map_values.
Qed.

Lemma getitem_out_of_range (self : colorobject) (n : nat) (key : Z) :
  n_colors (_data_ self) n -> ~ key_in_range n key ->
  __getitem__ self (PyInt key) = Raise IndexError.
Proof.
  intros [Hd (k0 & a0 & Hin)] Hk. unfold __getitem__.
  induction (_data_ self) as [|[k v] d IH]; [destruct Hin|].
  inversion Hd as [|? ? Hv Hd']; subst. cbn [mapM snd fst] in *.
  destruct v as [a|].
  - rewrite (item_array_out a n key Hv Hk). reflexivity.
  - destruct Hin as [Hin|Hin]; [discriminate Hin|].
    specialize (IH Hd' Hin).
    destruct (mapM _ d) as [d1|e]; cbn [rbind] in *; [discriminate IH|exact IH].
Qed.

(** ** Iteration *)

Lemma py_length_n_colors (self : colorobject) (n : nat) :
  n_colors (_data_ self) n -> py_length self = Ok n.
Proof.
  intros Hn. unfold py_length. rewrite (n_colors_length self n Hn).
  destruct Hn as [_ (k & a & Hin)]. destruct (_data_ self); [destruct Hin|reflexivity].
Qed.

Lemma next_items_colors (self : colorobject) (n : nat) :
  n_colors (_data_ self) n ->
  forall m j fuel, (j + m = n)%nat -> (m < fuel)%nat ->
    next_items fuel self (Z.of_nat j - 1)
    = mapM (fun i => __getitem__ self (PyInt (Z.of_nat i))) (seq j m).
Proof.
  intros Hn. induction m as [|m IH]; intros j fuel Hj Hf;
    (destruct fuel as [|fuel]; [lia|]); cbn [next_items seq mapM];
    unfold __next__; rewrite (py_length_n_colors self n Hn).
  - replace (Z.of_nat j - 1 <? Z.of_nat n - 1)%Z with false
      by (symmetry; apply Z.ltb_ge; lia).
    reflexivity.
  - replace (Z.of_nat j - 1 <? Z.of_nat n - 1)%Z with true
      by (symmetry; apply Z.ltb_lt; lia).
    replace (Z.of_nat j - 1 + 1)%Z with (Z.of_nat j) by lia.
    destruct (getitem_in_range self n (Z.of_nat j) Hn) as (x & -> & _).
    { unfold key_in_range. lia. }
    cbn [rbind]. replace (Z.of_nat j) with (Z.of_nat (S j) - 1)%Z by lia.
    rewrite (IH (S j) fuel) by lia. reflexivity.
Qed.

Lemma getitems_total (self : colorobject) (n : nat) :
  n_colors (_data_ self) n ->
  forall j m, (j + m <= n)%nat ->
    exists l, mapM (fun i => __getitem__ self (PyInt (Z.of_nat i))) (seq j m) = Ok l
              /\ len l = m.
Proof.
  intros Hn j m. revert j. induction m as [|m IH]; intros j Hj; cbn [seq mapM].
  - exists []. split; reflexivity.
  - destruct (getitem_in_range self n (Z.of_nat j) Hn) as (x & -> & _).
    { unfold key_in_range. lia. }
    destruct (IH (S j) ltac:(lia)) as (l & -> & Hl). cbn [rbind].
    exists (x :: l). split; [reflexivity|]. unfold len in *. cbn [List.length]. lia.
Qed.

Lemma items_colors (self : colorobject) (n fuel : nat) :
  n_colors (_data_ self) n -> (n < fuel)%nat ->
  exists l,
    items fuel self = Ok l /\ len l = n /\
    forall i, (i < n)%nat ->
      exists x, nth_error l i = Some x /\ __getitem__ self (PyInt (Z.of_nat i)) = Ok x.
Proof.
  intros Hn Hf. unfold items, __iter__.
  change (-1)%Z with (Z.of_nat 0 - 1)%Z.
  rewrite (next_items_colors self n Hn n 0 fuel) by lia.
  destruct (getitems_total self n Hn 0 n ltac:(lia)) as (l & E & Hl).
  exists l. split; [exact E|]. split; [exact Hl|].
  assert (G : forall (idx : list nat) l,
             mapM (fun i => __getitem__ self (PyInt (Z.of_nat i))) idx = Ok l ->
             forall i k, nth_error idx i = Some k ->
               exists x, nth_error l i = Some x /\ __getitem__ self (PyInt (Z.of_nat k)) = Ok x).
  { clear. induction idx as [|k0 idx IH]; intros l E i k Hi; [destruct i; discriminate Hi|].
    cbn [mapM] in E.
    destruct (__getitem__ self (PyInt (Z.of_nat k0))) as [x0|] eqn:E0; [|discriminate E].
    cbn [rbind] in E. destruct (mapM _ idx) as [l0|] eqn:E1; [|discriminate E].
    cbn [rbind] in E. injection E as <-. destruct i as [|i]; cbn [nth_error] in *.
    - injection Hi as <-. exists x0. split; [reflexivity | exact E0].
    - exact (IH l0 eq_refl i k Hi). }
  intros i Hi. apply (G (seq 0 n) l E i i).
  rewrite nth_error_nth' with (d := O) by (rewrite length_seq; exact Hi).
  rewrite seq_nth by exact Hi. reflexivity.
Qed.

(** ** The white point *)

Lemma set_whitepoint_known (kwargs : list (string * float)) :
  Forall known_key kwargs ->
  forall self, exists x,
    set_whitepoint kwargs self = (None, x) /\
    __class__ x = __class__ self /\ _data_ x = _data_ self /\ GAMMA x = GAMMA self /\
    get_whitepoint x
    = map (fun kv => (fst kv, match given kwargs (fst kv) with
                              | Some v => v
                              | None => snd kv
                              end)) (get_whitepoint self).
Proof.
  induction 1 as [|[k v] kwargs Hk Hf IH]; intros self.
  - exists self. repeat split.
  - cbn [set_whitepoint]. unfold known_key in Hk. cbn [fst] in Hk.
    destruct Hk as [Hk|[Hk|Hk]]; subst k; cbn [String.eqb Ascii.eqb Bool.eqb];
      match goal with |- context [set_whitepoint kwargs ?s] =>
        destruct (IH s) as (x & E & Hc & Hd & Hg & Hw) end;
      exists x; (split; [exact E|]); repeat split; try assumption;
      rewrite Hw; unfold get_whitepoint; cbn [map fst snd given WHITEX WHITEY WHITEZ];
      destruct (given kwargs "X"), (given kwargs "Y"), (given kwargs "Z"); reflexivity.
Qed.

Lemma set_whitepoint_unknown (pre post : list (string * float)) (key : string) (v : float) :
  Forall known_key pre -> ~ known_key (key, v) ->
  forall self,
    set_whitepoint (pre ++ (key, v) :: post) self
    = (Some (AttributeError (__name__ (__class__ self)) "__class__name__"),
       snd (set_whitepoint pre self)).
Proof.
  intros Hpre Hkey. induction Hpre as [|[k w] pre Hk Hf IH]; intros self.
  - cbn [app set_whitepoint snd]. unfold known_key in Hkey. cbn [fst] in Hkey.
    destruct (String.eqb key "X") eqn:E1; [apply String.eqb_eq in E1; tauto|].
    destruct (String.eqb key "Y") eqn:E2; [apply String.eqb_eq in E2; tauto|].
    destruct (String.eqb key "Z") eqn:E3; [apply String.eqb_eq in E3; tauto|].
    reflexivity.
  - cbn [app set_whitepoint]. unfold known_key in Hk. cbn [fst] in Hk.
    destruct Hk as [Hk|[Hk|Hk]]; subst k; cbn [String.eqb Ascii.eqb Bool.eqb]; rewrite IH;
      reflexivity.
Qed.

(** ** The number of strings of [colors] *)

Section ColorsCount.
Context {libm : Libm}.

Lemma len_strings_of (rev : bool) (a : ndarray) :
  len (strings_of rev a) = ndarray_len a.
Proof.
  rewrite ndarray_len_strings. unfold strings_of, len.
  destruct rev; [rewrite length_rev|]; reflexivity.
Qed.

Lemma colors_count (fuel : nat) (self : colorobject) (fixup rev : bool)
  (l : list string) (n : nat) :
  n_colors (_data_ self) n -> colors fuel self fixup rev = Ok l -> len l = n.
Proof.
  intros Hn. unfold colors.
  destruct (to fuel "hex" fixup self) as [[e|] x] eqn:E; [discriminate|].
  pose proof (to_n_colors fuel "hex" fixup self x n Hn E) as Hx.
  destruct (get x "hex_") as [[res|]|] eqn:G; cbn [rbind]; try discriminate.
  assert (Hres : ndarray_len res = n).
  { unfold get in G. destruct (lookup (_data_ x) "hex_") as [v|] eqn:El; [|discriminate G].
    injection G as ->. apply lookup_In in El. exact (n_colors_In _ _ _ _ Hx El). }
  destruct (hasalpha x).
  - destruct (append_alpha self _ res) as [c|] eqn:Ea; [|discriminate].
    cbn [rbind]. intros H. injection H as <-.
    apply append_alpha_keeps in Ea as [Hl _].
    rewrite len_strings_of, ndarray_len_strings, Hl, <- ndarray_len_strings. exact Hres.
  - cbn [rbind]. intros H. injection H as <-. rewrite len_strings_of. exact Hres.
Qed.

End ColorsCount.

(** ** The items of [sRGB_to_hex] *)

Lemma in_unit_finite (e : float) : in_unit e = true -> is_finite e = true.
Proof.
  unfold in_unit, is_finite, is_nan, is_infinity. intros H. apply andb_prop in H as [H0 H1].
  rewrite leb_spec in H0, H1. rewrite !eqb_spec, abs_spec.
  change (Prim2SF infinity) with (S754_infinity false).
  rewrite Prim2SF_zero in H0.
  destruct (Prim2SF e) as [s|s| |s m e']; try discriminate H0.
  - reflexivity.
  - destruct s; [discriminate H0 | discriminate H1].
  - unfold SFeqb, SFabs. cbn [SFcompare].
    rewrite Z.compare_refl, Pos.compare_cont_refl. destruct s; reflexivity.
Qed.

Lemma fixed_finite (fixup : bool) (e : float) :
  is_finite ((if fixup then rgbfixup1 else rgbcleanup1) e)
  = if fixup then is_finite e else in_unit e.
Proof.
  destruct fixup.
  - unfold rgbfixup1. destruct (is_finite e) eqn:Fe; [|reflexivity].
    unfold np_maximum, np_minimum.
    change (is_nan 1) with false. change (is_nan 0) with false. rewrite !orb_false_r.
    destruct (1 <=? e); [reflexivity|]. destruct (e <=? 0); [reflexivity | exact Fe].
  - unfold rgbcleanup1, geb. fold (in_unit e).
    destruct (in_unit e) eqn:E; [exact (in_unit_finite e E) | reflexivity].
Qed.

Lemma nth_error_zip3 {A B C : Type} (a : list A) (b : list B) (c : list C)
  (i : nat) (x : A) (y : B) (z : C) :
  nth_error a i = Some x -> nth_error b i = Some y -> nth_error c i = Some z ->
  nth_error (zip3 a b c) i = Some (x, y, z).
Proof.
  unfold zip3. revert a b c. induction i as [|i IH]; intros [|a0 a] [|b0 b] [|c0 c];
    cbn [nth_error combine]; try discriminate.
  - intros [= ->] [= ->] [= ->]. reflexivity.
  - apply IH.
Qed.

Section HexItems.
Context {libm : Libm}.

Lemma sRGB_to_hex_item (fixup : bool) (R G B : arr) (h : ndarray) :
  sRGB_to_hex R G B fixup = Ok h ->
  len (strings_of false h) = len R /\
  forall i r g b,
    nth_error R i = Some r -> nth_error G i = Some g -> nth_error B i = Some b ->
    exists s, nth_error (strings_of false h) i = Some s /\
              if gets_hex fixup r g b then is_hex7 s = true else s = "nan".
Proof.
  intros H. split; [exact (proj1 (sRGB_to_hex_items fixup R G B h H))|].
  revert H. unfold sRGB_to_hex.
  set (fix1 := if fixup then rgbfixup1 else rgbcleanup1).
  destruct (negb _); [discriminate|]. intros H. injection H as <-.
  intros i r g b Hr Hg Hb. rewrite asarray_items. unfold map3.
  rewrite !nth_error_map.
  rewrite (nth_error_zip3 _ _ _ i (fix1 r) (fix1 g) (fix1 b))
    by (rewrite nth_error_map, ?Hr, ?Hg, ?Hb; reflexivity).
  cbn [option_map fst snd]. eexists. split; [reflexivity|].
  unfold fix1. rewrite !fixed_finite. unfold gets_hex.
  pose proof (fixed_channel_range fixup r) as Cr.
  pose proof (fixed_channel_range fixup g) as Cg.
  pose proof (fixed_channel_range fixup b) as Cb.
  rewrite fixed_finite in Cr, Cg, Cb.
  destruct fixup.
  - destruct (is_finite r && is_finite g && is_finite b) eqn:E; [|reflexivity].
    apply andb_prop in E as [E Eb]. apply andb_prop in E as [Er Eg].
    destruct (Cr Er), (Cg Eg), (Cb Eb). apply gethex1_is_hex7; assumption.
  - destruct (in_unit r && in_unit g && in_unit b) eqn:E; [|reflexivity].
    apply andb_prop in E as [E Eb]. apply andb_prop in E as [Er Eg].
    destruct (Cr Er), (Cg Eg), (Cb Eb). apply gethex1_is_hex7; assumption.
Qed.

End HexItems.

(** ** The check of the constructors *)

Lemma range_check_spec (c : cls) (val : arr) :
  (match c with
   | RGB | sRGB =>
       m <- np_max val ;;
       if gtb m 1 || (m <? 0)
       then Raise (ValueError "values have to lie within [0., 1.]")
       else Ok tt
   | _ => Ok tt
   end = Ok tt) <-> (range_checked c = true -> max_in_range val).
Proof.
  unfold max_in_range.
  destruct c; cbn [range_checked];
    try (split; [intros _ H; discriminate H | reflexivity]).
  all: destruct (np_max val) as [m|e]; cbn [rbind]; split.
  all: try (intros H; discriminate H).
  all: try (intros H; destruct (H eq_refl) as (m' & E & _); discriminate E).
  all: try (intros H _; exists m; destruct (gtb m 1), (m <? 0);
            try discriminate H; repeat split; reflexivity).
  all: intros H; destruct (H eq_refl) as (m' & E & H1 & H2); injection E as <-;
       rewrite H1, H2; reflexivity.
Qed.

Lemma check_kwargs_spec (c : cls) (kwargs : list (string * pyarg)) :
  forall res lengths r,
    check_kwargs c kwargs res lengths = Ok r <->
    accepted c kwargs /\ r = (res ++ stored kwargs, lengths ++ lengths_of kwargs).
Proof.
  unfold accepted, stored, lengths_of.
  induction kwargs as [|[key val] kwargs IH]; intros res lengths r.
  - cbn [check_kwargs filter map]. rewrite !app_nil_r. split.
    + intros H. injection H as <-. repeat split; constructor.
    + intros [_ ->]. reflexivity.
  - assert (Hf : filter is_checked ((key, val) :: kwargs)
                 = if String.eqb key "alpha" &&
                      match val with PyNone => true | _ => false end
                   then filter is_checked kwargs
                   else (key, val) :: filter is_checked kwargs).
    { cbn [filter]. unfold is_checked at 1. cbn [fst snd].
      destruct (String.eqb key "alpha" && _); reflexivity. }
    rewrite Hf. clear Hf. cbn [check_kwargs].
    destruct (String.eqb key "alpha" && match val with PyNone => true | _ => false end)
      eqn:E.
    + exact (IH res lengths r).
    + destruct val as [|x|l].
      * split; [discriminate|]. intros [[H _] _]. inversion H as [|? ? Hn _]; subst.
        exfalso. apply Hn. reflexivity.
      * pose proof (range_check_spec c [x]) as Hr.
        destruct (match c with RGB | sRGB => _ | _ => _ end) as [[]|e]; cbn [rbind].
        -- rewrite IH. cbn [map fst snd values_of]. rewrite <- !app_assoc. cbn [app].
           split.
           ++ intros [[H1 H2] ->]. repeat split.
              ** constructor; [discriminate | exact H1].
              ** intros Hc. constructor; [exact (proj1 Hr eq_refl Hc) | exact (H2 Hc)].
           ++ intros [[H1 H2] ->]. inversion H1; subst. repeat split; [assumption|].
              intros Hc. specialize (H2 Hc). inversion H2; subst. assumption.
        -- split; [discriminate|]. intros [[_ H2] _].
           assert (Hx : range_checked c = true -> max_in_range [x]).
           { intros Hc. specialize (H2 Hc). inversion H2; subst. assumption. }
           apply Hr in Hx. discriminate Hx.
      * pose proof (range_check_spec c l) as Hr.
        destruct (match c with RGB | sRGB => _ | _ => _ end) as [[]|e]; cbn [rbind].
        -- rewrite IH. cbn [map fst snd values_of]. rewrite <- !app_assoc. cbn [app].
           split.
           ++ intros [[H1 H2] ->]. repeat split.
              ** constructor; [discriminate | exact H1].
              ** intros Hc. constructor; [exact (proj1 Hr eq_refl Hc) | exact (H2 Hc)].
           ++ intros [[H1 H2] ->]. inversion H1; subst. repeat split; [assumption|].
              intros Hc. specialize (H2 Hc). inversion H2; subst. assumption.
        -- split; [discriminate|]. intros [[_ H2] _].
           assert (Hx : range_checked c = true -> max_in_range l).
           { intros Hc. specialize (H2 Hc). inversion H2; subst. assumption. }
           apply Hr in Hx. discriminate Hx.
Qed.

Lemma check_input_arrays_spec (c : cls) (kwargs : list (string * pyarg)) (d : dict) :
  _colorobject_check_input_arrays_ c kwargs = Ok d <->
  accepted c kwargs /\
  (exists n, Forall (fun l => l = n) (lengths_of kwargs)) /\
  d = stored kwargs.
Proof.
  unfold _colorobject_check_input_arrays_.
  destruct (check_kwargs c kwargs [] []) as [[res lengths]|e] eqn:E; cbn [rbind].
  - apply check_kwargs_spec in E as [Ha E]. cbn [app] in E. injection E as -> ->.
    destruct (lengths_of kwargs) as [|l0 ls] eqn:El.
    + split.
      * intros H. injection H as <-. repeat split; try apply Ha. exists O. constructor.
      * intros (_ & _ & ->). reflexivity.
    + destruct (forallb (Nat.eqb l0) (l0 :: ls)) eqn:Ef.
      * split.
        -- intros H. injection H as <-. repeat split; try apply Ha.
           exists l0.
           rewrite forallb_forall in Ef. apply Forall_forall. intros x Hx.
           symmetry. apply Nat.eqb_eq. exact (Ef x Hx).
        -- intros (_ & _ & ->). reflexivity.
      * split; [discriminate|]. intros (_ & (n & Hn) & _). exfalso.
        assert (forallb (Nat.eqb l0) (l0 :: ls) = true); [|congruence].
        apply forallb_forall. intros x Hx. rewrite Forall_forall in Hn.
        rewrite (Hn x Hx), (Hn l0 (or_introl eq_refl)). apply Nat.eqb_refl.
  - split; [discriminate|]. intros (Ha & _ & _).
    assert (H : check_kwargs c kwargs [] [] = Ok ([] ++ stored kwargs, [] ++ lengths_of kwargs))
      by (apply check_kwargs_spec; split; [exact Ha | reflexivity]).
    rewrite H in E. discriminate E.
Qed.

(** ** [compare_colors] *)

Lemma cls_eqb_refl (c : cls) : cls_eqb c c = true.
Proof. unfold cls_eqb. apply String.eqb_refl. Qed.

Lemma first_item {A : Type} (l : list A) (i : nat) (d : A) :
  (i < List.length l)%nat -> firstn 1 (skipn i l) = [nth i l d].
Proof.
  revert i. induction l as [|x l IH]; intros i Hi; cbn [List.length] in Hi; [lia|].
  destruct i as [|i]; cbn [skipn nth].
  - reflexivity.
  - apply IH. lia.
Qed.

Lemma index_of_nat (n i : nat) : index_of n (Z.of_nat i) = i.
Proof.
  unfold index_of. replace (Z.of_nat i <? 0)%Z with false by (symmetry; apply Z.ltb_ge; lia).
  apply Nat2Z.id.
Qed.

(** The item [i] of a float array and of a string array, as [self[i]]
    holds it. *)
Lemma getitem_lookup (self : colorobject) (n i : nat) :
  n_colors (_data_ self) n -> (i < n)%nat ->
  exists x,
    __getitem__ self (PyInt (Z.of_nat i)) = Ok x /\
    (forall k, lookup (_data_ self) k = None -> lookup (_data_ x) k = None) /\
    (forall k, lookup (_data_ self) k = Some None -> lookup (_data_ x) k = Some None) /\
    (forall k l, lookup (_data_ self) k = Some (Some (Float64 l)) ->
                 lookup (_data_ x) k = Some (Some (Float64 [nth i l nan]))) /\
    (forall k w l, lookup (_data_ self) k = Some (Some (Unicode w l)) ->
                   lookup (_data_ x) k = Some (Some (Unicode w [nth i l EmptyString]))) /\
    map fst (_data_ x) = map fst (_data_ self).
Proof.
  intros Hn Hi.
  destruct (getitem_in_range self n (Z.of_nat i) Hn) as (x & E & _ & _ & _ & Hl).
  { unfold key_in_range. lia. }
  exists x. split; [exact E|]. repeat split.
  - intros k Hk. rewrite Hl, Hk. reflexivity.
  - intros k Hk. rewrite Hl, Hk. reflexivity.
  - intros k l Hk. rewrite Hl, Hk. cbn [option_map item_of]. rewrite index_of_nat.
    pose proof (n_colors_In _ _ _ _ Hn (lookup_In _ _ _ Hk)) as Hlen.
    cbn [ndarray_len] in Hlen. unfold len in Hlen.
    rewrite (first_item l i nan) by lia. reflexivity.
  - intros k w l Hk. rewrite Hl, Hk. cbn [option_map item_of]. rewrite index_of_nat.
    pose proof (n_colors_In _ _ _ _ Hn (lookup_In _ _ _ Hk)) as Hlen.
    cbn [ndarray_len] in Hlen. unfold len in Hlen.
    rewrite (first_item l i EmptyString) by lia. reflexivity.
  - unfold __getitem__ in E. destruct Hn as [Hd _].
    rewrite (getitem_rows _ n (Z.of_nat i) Hd) in E by (unfold key_in_range; lia).
    cbn [rbind] in E. injection E as <-. unfold with_data. cbn [_data_].
    rewrite map_map. reflexivity.
Qed.

Lemma omapM_returns {A B : Type} (f : A -> outcome B) (g : A -> B) (l : list A) :
  (forall x, In x l -> f x = Returns (g x)) -> omapM f l = Returns (map g l).
Proof.
  induction l as [|x l IH]; intros H; [reflexivity|]. cbn [omapM map].
  rewrite (H x (or_introl eq_refl)). cbn [obind].
  rewrite IH by (intros y Hy; apply H; right; exact Hy). reflexivity.
Qed.

Section CompareFacts.
Context {libm : Libm}.

Lemma compare_hex (isclose : list float -> float -> list bool) (a b : colorobject)
  (exact _all : bool) (atol : option float) (n wa wb : nat) (la lb : list string) :
  __class__ a = hexcols -> __class__ b = hexcols ->
  n_colors (_data_ a) n -> n_colors (_data_ b) n ->
  lookup (_data_ a) "hex_" = Some (Some (Unicode wa la)) ->
  lookup (_data_ b) "hex_" = Some (Some (Unicode wb lb)) ->
  compare_colors isclose a b exact _all atol
  = Returns (let res := map (fun i => String.eqb (upper (nth i la EmptyString))
                                                 (upper (nth i lb EmptyString)))
                            (seq 0 n) in
             if _all then CmpAll (forallb (fun x => x) res) else CmpEach res).
Proof.
  intros Ca Cb Ha Hb La Lb. unfold compare_colors.
  rewrite Ca, Cb, cls_eqb_refl. cbn [negb].
  rewrite (py_length_n_colors a n Ha), (py_length_n_colors b n Hb).
  cbn [of_result obind]. rewrite Nat.eqb_refl. cbn [negb].
  rewrite (omapM_returns _ (fun i => String.eqb (upper (nth i la EmptyString))
                                                (upper (nth i lb EmptyString)))).
  - reflexivity.
  - intros i Hi. apply in_seq in Hi.
    destruct (getitem_lookup a n i Ha ltac:(lia)) as (xa & -> & _ & _ & _ & Hua & _).
    destruct (getitem_lookup b n i Hb ltac:(lia)) as (xb & -> & _ & _ & _ & Hub & _).
    cbn [rbind]. unfold get. rewrite (Hua _ _ _ La), (Hub _ _ _ Lb). reflexivity.
Qed.

Lemma distance_sum_none (a b : colorobject) (keys keys' : list string) :
  Forall (fun k => exists x, lookup (_data_ a) k = Some (Some (Float64 [x]))) keys ->
  Forall (fun k => exists x, lookup (_data_ b) k = Some (Some (Float64 [x]))) keys ->
  lookup (_data_ a) "alpha" = Some None ->
  forall dist,
    distance_sum (keys ++ "alpha" :: keys') a b dist
    = Raise (TypeError "'NoneType' object is not subscriptable").
Proof.
  intros Fa. induction Fa as [|k keys (x & Hx) Fa IH]; intros Fb Hal dist.
  - cbn [app distance_sum]. unfold get. rewrite Hal. reflexivity.
  - inversion Fb as [|? ? (y & Hy) Fb']; subst. cbn [app distance_sum].
    unfold get at 1 2. rewrite Hx, Hy. cbn [rbind item0]. exact (IH Fb' Hal _).
Qed.

Lemma compare_alpha_none (isclose : list float -> float -> list bool) (a b : colorobject)
  (exact _all : bool) (atol : option float) (n : nat) (keys keys' : list string) :
  __class__ a = __class__ b -> __class__ a <> hexcols ->
  n_colors (_data_ a) (S n) -> n_colors (_data_ b) (S n) ->
  map fst (_data_ a) = keys ++ "alpha" :: keys' ->
  holds_floats a keys -> holds_floats b keys ->
  lookup (_data_ a) "alpha" = Some None ->
  compare_colors isclose a b exact _all atol
  = Raises (Exn (TypeError "'NoneType' object is not subscriptable")).
Proof.
  intros Cab Ca Ha Hb Hk Fa Fb Hal. unfold compare_colors.
  rewrite <- Cab, cls_eqb_refl. cbn [negb].
  rewrite (py_length_n_colors a (S n) Ha), (py_length_n_colors b (S n) Hb).
  cbn [of_result obind]. rewrite Nat.eqb_refl. cbn [negb].
  assert (Hd : mapM (fun i => ai <- __getitem__ a (PyInt (Z.of_nat i)) ;;
                              bi <- __getitem__ b (PyInt (Z.of_nat i)) ;;
                              distance ai bi) (seq 0 (S n))
               = Raise (TypeError "'NoneType' object is not subscriptable")).
  { cbn [seq mapM].
    destruct (getitem_lookup a (S n) 0 Ha ltac:(lia)) as (xa & -> & _ & Hna & Hfa & _ & Hka).
    destruct (getitem_lookup b (S n) 0 Hb ltac:(lia)) as (xb & -> & _ & _ & Hfb & _ & _).
    cbn [rbind]. unfold distance. rewrite Hka, Hk.
    rewrite (distance_sum_none xa xb keys keys'); [reflexivity| | |exact (Hna _ Hal)].
    - apply Forall_forall. intros k Hin. unfold holds_floats in Fa.
      rewrite Forall_forall in Fa. destruct (Fa k Hin) as (l & Hl).
      eexists. exact (Hfa _ _ Hl).
    - apply Forall_forall. intros k Hin. unfold holds_floats in Fb.
      rewrite Forall_forall in Fb. destruct (Fb k Hin) as (l & Hl).
      eexists. exact (Hfb _ _ Hl). }
  destruct (__class__ a); try (exfalso; apply Ca; reflexivity);
    cbv zeta; rewrite Hd; reflexivity.
Qed.

End CompareFacts.

Section Converted.
Context {libm : Libm}.

Lemma path_converted (fuel : nat) (fixup : bool) (self0 : colorobject) :
  (forall t self x,
      to fuel t fixup self = (None, x) -> get_alpha self = None ->
      __class__ self <> hexcols -> __class__ x <> hexcols -> x = self \/ converted x) ->
  forall via self x,
    Forall (fun v => exists c, target_class v = Some c /\ c <> hexcols) via ->
    (self = self0 \/ converted self) -> get_alpha self = None -> __class__ self <> hexcols ->
    _transform_via_path_ (to fuel) via fixup self = (None, x) ->
    x = self0 \/ converted x.
Proof.
  intros IH. induction via as [|v via IHv]; intros self x Hv Hs Hal Hc H;
    cbn [_transform_via_path_] in H.
  - unfold ret in H. injection H as <-. exact Hs.
  - apply andthen_ok in H as (y & Hy & H).
    inversion Hv as [|? ? (c & Hcv & Hch) Hv']; subst.
    pose proof (to_target_class fuel v fixup self y Hy) as Hty. rewrite Hcv in Hty.
    injection Hty as Hty.
    assert (Hyc : __class__ y <> hexcols) by (rewrite <- Hty; exact Hch).
    pose proof (to_alpha fuel v fixup self) as Hya. rewrite Hy in Hya. cbn [snd] in Hya.
    rewrite Hal in Hya.
    apply (IHv y x Hv'); try assumption.
    destruct (IH v self y Hy Hal Hc Hyc) as [-> | Hcv']; [exact Hs | right; exact Hcv'].
Qed.

Lemma to_converted (fuel : nat) :
  forall t fixup self x,
    to fuel t fixup self = (None, x) -> get_alpha self = None ->
    __class__ self <> hexcols -> __class__ x <> hexcols -> x = self \/ converted x.
Proof.
  induction fuel as [|fuel IH]; intros t fixup self x H Hal Hc Hx; [discriminate H|].
  pose proof (to_target_class (S fuel) t fixup self x H) as Ht.
  destruct (__class__ self) eqn:Ec; try (exfalso; apply Hc; reflexivity);
    methods_of H Ec; try discriminate H;
    try (unfold ret in H; injection H as <-; left; reflexivity);
    try (exfalso; apply Hx; cbn in Ht; injection Ht as <-; reflexivity);
    try (refine (path_converted fuel fixup self (fun t' => IH t' fixup) _ self x _
                   (or_introl eq_refl) Hal ltac:(rewrite Ec; discriminate) H);
         repeat (apply Forall_cons; [eexists; split; [reflexivity | discriminate]|]);
         apply Forall_nil);
    right; apply become_ok in H as [_ Hd]; unfold white in Hd; cbv beta iota in Hd;
    match type of Hd with
    | rbind (call3 ?s ?k1 ?k2 ?k3 ?f) _ = _ =>
        destruct (call3 s k1 k2 k3 f) as [[[a1 a2] a3]|]; [|discriminate Hd]
    end;
    cbn [rbind] in Hd; injection Hd as Hd; unfold converted; rewrite <- Hd;
    unfold dict3; rewrite Hal; do 6 eexists; repeat split.
Qed.

End Converted.

(* ================================================================== *)
(** * The statements about the methods of a color object *)
(* ================================================================== *)

(** X8.  [dropalpha()] never raises and removes the alpha channel only:
    afterwards [hasalpha()] is false, every other dimension, the class, the
    white point and [GAMMA] are as before, and a second [dropalpha()]
    changes nothing.  After it, [colors()] of an object with [n] values in
    each channel (any class but hexcols and HSV) returns [n] strings, each
    a 7-character hex color or [nan], whatever the alpha values were. *)
Theorem dropalpha_removes_the_alpha_channel_only {libm : Libm} :
  (forall self, exists x,
      dropalpha self = (None, x) /\
      hasalpha x = false /\
      (forall k, String.eqb "alpha" k = false -> get x k = get self k) /\
      __class__ x = __class__ self /\ same_white_and_gamma x self /\
      dropalpha x = (None, x))
  /\ (forall fuel self fixup n,
      has_channels self n ->
      exists x l,
        dropalpha self = (None, x) /\
        colors (S (S (S fuel))) x fixup false = Ok l /\ len l = n /\
        Forall (fun s => s = "nan" \/ is_hex7 s = true) l).
Proof.
  split.
  - intros self. destruct (dropalpha_returns self) as (x & E & Ha & Hg & Hc & Hw).
    exists x. repeat split; try assumption; try apply Hw.
    exact (dropalpha_twice self x E).
  - exact colors_after_dropalpha.
Qed.

(** X9.  [self[key]] on an object whose arrays all have [n] elements: for
    [-n <= key < n] it returns an object of one color, of the same class
    and with the same white point, whose arrays hold the item [key] of the
    arrays of [self] (counted from the end for a negative [key]; a [None]
    entry stays [None]); for any other integer it raises [IndexError]. *)
Theorem getitem_gives_one_color_or_raises_IndexError
  (self : colorobject) (n : nat) (key : Z) :
  n_colors (_data_ self) n ->
  (key_in_range n key ->
   exists x,
     __getitem__ self (PyInt key) = Ok x /\
     n_colors (_data_ x) 1 /\
     __class__ x = __class__ self /\ same_white_and_gamma x self /\
     forall k, lookup (_data_ x) k = option_map (item_of n key) (lookup (_data_ self) k))
  /\ (~ key_in_range n key -> __getitem__ self (PyInt key) = Raise IndexError).
Proof.
  intros Hn. split.
  - exact (getitem_in_range self n key Hn).
  - exact (getitem_out_of_range self n key Hn).
Qed.

(** The theorem at [sRGB([0.1, 0.2], [0.3, 0.4], [0.5, 0.6])[-1]], the last
    color, and at index 2, which is out of range. *)
Lemma getitem_gives_one_color_or_raises_IndexError_witness :
  (key_in_range 2 (-1) ->
   exists x,
     __getitem__ (new_object sRGB [("R", Some (Float64 [0.1; 0.2]));
                                   ("G", Some (Float64 [0.3; 0.4]));
                                   ("B", Some (Float64 [0.5; 0.6]))]) (PyInt (-1)) = Ok x /\
     n_colors (_data_ x) 1 /\
     __class__ x = sRGB /\
     same_white_and_gamma x
       (new_object sRGB [("R", Some (Float64 [0.1; 0.2])); ("G", Some (Float64 [0.3; 0.4]));
                         ("B", Some (Float64 [0.5; 0.6]))]) /\
     forall k, lookup (_data_ x) k
               = option_map (item_of 2 (-1))
                   (lookup [("R", Some (Float64 [0.1; 0.2])); ("G", Some (Float64 [0.3; 0.4]));
                            ("B", Some (Float64 [0.5; 0.6]))] k))
  /\ (~ key_in_range 2 (-1) ->
      __getitem__ (new_object sRGB [("R", Some (Float64 [0.1; 0.2]));
                                    ("G", Some (Float64 [0.3; 0.4]));
                                    ("B", Some (Float64 [0.5; 0.6]))]) (PyInt (-1))
      = Raise IndexError).
Proof.
  apply (getitem_gives_one_color_or_raises_IndexError
           (new_object sRGB [("R", Some (Float64 [0.1; 0.2])); ("G", Some (Float64 [0.3; 0.4]));
                             ("B", Some (Float64 [0.5; 0.6]))]) 2 (-1)).
  split.
  - repeat constructor.
  - exists "R", (Float64 [0.1; 0.2]). left. reflexivity.
Defined.

(** X10.  Iterating over an object whose arrays all have [n] elements
    ([__iter__], then [__next__] until it raises [StopIteration]) yields
    [n] objects and no error: the objects [self[0]], ..., [self[n - 1]] in
    this order. *)
Theorem iteration_yields_the_colors_one_by_one
  (self : colorobject) (n fuel : nat) :
  n_colors (_data_ self) n -> (n < fuel)%nat ->
  exists l,
    items fuel self = Ok l /\ len l = n /\
    forall i, (i < n)%nat ->
      exists x, nth_error l i = Some x /\ __getitem__ self (PyInt (Z.of_nat i)) = Ok x.
Proof. exact (items_colors self n fuel). Qed.

(** The theorem at [sRGB([0.1, 0.2], [0.3, 0.4], [0.5, 0.6])]. *)
Lemma iteration_yields_the_colors_one_by_one_witness :
  exists l,
    items 3 (new_object sRGB [("R", Some (Float64 [0.1; 0.2])); ("G", Some (Float64 [0.3; 0.4]));
                              ("B", Some (Float64 [0.5; 0.6]))]) = Ok l /\ len l = 2%nat /\
    forall i, (i < 2)%nat ->
      exists x, nth_error l i = Some x /\
                __getitem__ (new_object sRGB [("R", Some (Float64 [0.1; 0.2]));
                                              ("G", Some (Float64 [0.3; 0.4]));
                                              ("B", Some (Float64 [0.5; 0.6]))])
                            (PyInt (Z.of_nat i)) = Ok x.
Proof.
  apply (iteration_yields_the_colors_one_by_one
           (new_object sRGB [("R", Some (Float64 [0.1; 0.2])); ("G", Some (Float64 [0.3; 0.4]));
                             ("B", Some (Float64 [0.5; 0.6]))]) 2 3).
  - split.
    + repeat constructor.
    + exists "R", (Float64 [0.1; 0.2]). left. reflexivity.
  - lia.
Defined.

(** X11.  [set_whitepoint] with keys among [X], [Y], [Z] returns, leaves
    class, data and [GAMMA] alone, and [get_whitepoint()] afterwards gives
    for each of [X], [Y], [Z] the value that was given, or the old one.
    With any other key it raises [AttributeError] (the message it builds
    for its [ValueError] reads an attribute that does not exist), and the
    keys before that one have been set. *)
Theorem set_whitepoint_sets_known_keys_and_fails_on_others :
  (forall kwargs self,
      Forall known_key kwargs ->
      exists x,
        set_whitepoint kwargs self = (None, x) /\
        __class__ x = __class__ self /\ _data_ x = _data_ self /\ GAMMA x = GAMMA self /\
        get_whitepoint x
        = map (fun kv => (fst kv, match given kwargs (fst kv) with
                                  | Some v => v
                                  | None => snd kv
                                  end)) (get_whitepoint self))
  /\ (forall pre post key v self,
      Forall known_key pre -> ~ known_key (key, v) ->
      set_whitepoint (pre ++ (key, v) :: post) self
      = (Some (AttributeError (__name__ (__class__ self)) "__class__name__"),
         snd (set_whitepoint pre self))).
Proof.
  split.
  - intros kwargs self H. exact (set_whitepoint_known kwargs H self).
  - intros pre post key v self Hp Hk. exact (set_whitepoint_unknown pre post key v Hp Hk self).
Qed.

(** X12.  [colors()] returns one string for each color: for an object
    whose arrays all have [n] elements (of any class, with or without
    alpha), a call of [colors] that returns gives a list of [n] strings. *)
Theorem colors_returns_one_string_for_each_color {libm : Libm}
  (fuel : nat) (self : colorobject) (fixup rev : bool) (l : list string) (n : nat) :
  n_colors (_data_ self) n -> colors fuel self fixup rev = Ok l -> len l = n.
Proof. exact (colors_count fuel self fixup rev l n). Qed.

(** The theorem at [HLS([0, 120], [0.5, 0.5], [1, 1]).colors()]. *)
Lemma colors_returns_one_string_for_each_color_witness :
  len ["#FF0000"; "#00FF00"] = 2%nat.
Proof.
  apply (@colors_returns_one_string_for_each_color leading_terms 3
           (new_object HLS [("H", Some (Float64 [0; 120])); ("L", Some (Float64 [0.5; 0.5]));
                            ("S", Some (Float64 [1; 1]))]) true false).
  - split.
    + repeat constructor.
    + exists "H", (Float64 [0; 120]). left. reflexivity.
  - vm_compute. reflexivity.
Defined.

(** X13.  The items of [sRGB_to_hex]: the result has one item for each
    color; with [fixup] the item is a 7-character hex color when the three
    channels are finite and [nan] otherwise, and without [fixup] it is a
    hex color when the three channels lie between 0 and 1 and [nan]
    otherwise. *)
Theorem sRGB_to_hex_gives_a_hex_color_or_nan_for_each_color {libm : Libm}
  (fixup : bool) (R G B : arr) (h : ndarray) :
  sRGB_to_hex R G B fixup = Ok h ->
  len (strings_of false h) = len R /\
  forall i r g b,
    nth_error R i = Some r -> nth_error G i = Some g -> nth_error B i = Some b ->
    exists s, nth_error (strings_of false h) i = Some s /\
              if gets_hex fixup r g b then is_hex7 s = true else s = "nan".
Proof. exact (sRGB_to_hex_item fixup R G B h). Qed.

(** The theorem at [sRGB_to_hex([0.5, 1.5], [0.5, 0.5], [0.5, 0.5], fixup =
    False)]: the second color is outside of the gamut. *)
Lemma sRGB_to_hex_gives_a_hex_color_or_nan_for_each_color_witness :
  len (@strings_of leading_terms false (Unicode 32 ["#808080"; "nan"])) = len [0.5; 1.5] /\
  forall i r g b,
    nth_error [0.5; 1.5] i = Some r -> nth_error [0.5; 0.5] i = Some g ->
    nth_error [0.5; 0.5] i = Some b ->
    exists s, nth_error (@strings_of leading_terms false (Unicode 32 ["#808080"; "nan"])) i
              = Some s /\
              if gets_hex false r g b then is_hex7 s = true else s = "nan".
Proof.
  apply (@sRGB_to_hex_gives_a_hex_color_or_nan_for_each_color leading_terms false
           [0.5; 1.5] [0.5; 0.5] [0.5; 0.5]).
  vm_compute. reflexivity.
Defined.

(** X14.  What the constructors check of three lists of numbers given
    without alpha: the lists must have the same length, and for RGB and
    sRGB the maximum of each list must not be above 1 and not below 0.
    Nothing else is looked at: then, and only then, the check returns, and
    what it returns are the lists as they were given (for the other seven
    classes empty lists, NaN and any values are stored; for RGB and sRGB
    values below 0 are stored when the maximum of their list is in range). *)
Theorem constructors_check_lengths_and_maxima_only
  (c : cls) (k1 k2 k3 : string) (a1 a2 a3 : arr) (d : dict) :
  String.eqb k1 "alpha" = false -> String.eqb k2 "alpha" = false ->
  String.eqb k3 "alpha" = false ->
  _colorobject_check_input_arrays_ c
    [(k1, PyList a1); (k2, PyList a2); (k3, PyList a3); ("alpha", PyNone)] = Ok d
  <-> (len a2 = len a1 /\ len a3 = len a1 /\
       (range_checked c = true -> max_in_range a1 /\ max_in_range a2 /\ max_in_range a3) /\
       d = [(k1, Some (Float64 a1)); (k2, Some (Float64 a2)); (k3, Some (Float64 a3))]).
Proof.
  intros E1 E2 E3. rewrite check_input_arrays_spec.
  unfold accepted, stored, lengths_of. cbn [filter]. unfold is_checked. cbn [fst snd].
  rewrite E1, E2, E3. cbn [andb negb String.eqb Ascii.eqb Bool.eqb map fst snd values_of].
  split.
  - intros ((_ & Hr) & (n & Hn) & ->).
    inversion Hn as [|? ? H1 Hn1]; subst. inversion Hn1 as [|? ? H2 Hn2]; subst.
    inversion Hn2 as [|? ? H3 _]; subst.
    split; [congruence|]. split; [congruence|]. split; [|reflexivity].
    intros Hc. specialize (Hr Hc). inversion Hr as [|? ? R1 Hr1]; subst.
    inversion Hr1 as [|? ? R2 Hr2]; subst. inversion Hr2 as [|? ? R3 _]; subst.
    repeat split; assumption.
  - intros (L2 & L3 & Hr & ->). split; [split|split; [|reflexivity]].
    + repeat constructor; discriminate.
    + intros Hc. destruct (Hr Hc) as (R1 & R2 & R3). repeat constructor; assumption.
    + exists (len a1). repeat constructor; assumption.
Qed.

(** The theorem at [RGB([-5, 0.5], [0, 1], [0.2, 0.2])]: the first list
    holds a value below 0 and is stored. *)
Lemma constructors_check_lengths_and_maxima_only_witness :
  _colorobject_check_input_arrays_ RGB
    [("R", PyList [-5; 0.5]); ("G", PyList [0; 1]); ("B", PyList [0.2; 0.2]);
     ("alpha", PyNone)]
  = Ok [("R", Some (Float64 [-5; 0.5])); ("G", Some (Float64 [0; 1]));
        ("B", Some (Float64 [0.2; 0.2]))]
  <-> (len [0; 1] = len [-5; 0.5] /\ len [0.2; 0.2] = len [-5; 0.5] /\
       (range_checked RGB = true ->
        max_in_range [-5; 0.5] /\ max_in_range [0; 1] /\ max_in_range [0.2; 0.2]) /\
       [("R", Some (Float64 [-5; 0.5])); ("G", Some (Float64 [0; 1]));
        ("B", Some (Float64 [0.2; 0.2]))]
       = [("R", Some (Float64 [-5; 0.5])); ("G", Some (Float64 [0; 1]));
          ("B", Some (Float64 [0.2; 0.2]))]).
Proof.
  apply (constructors_check_lengths_and_maxima_only RGB "R" "G" "B"
           [-5; 0.5] [0; 1] [0.2; 0.2]); reflexivity.
Defined.

(** ** The statements about [compare_colors] *)

(** X15.  Two hexcols objects of [n] colors each are compared as strings
    in upper case, color by color: [compare_colors] returns, and its result
    is the list of the comparisons (or, with [_all], whether all hold).
    The arguments [exact] and [atol] play no role, and an alpha suffix is
    part of the string that is compared. *)
Theorem compare_colors_compares_hex_strings_in_upper_case {libm : Libm}
  (isclose : list float -> float -> list bool) (a b : colorobject)
  (exact _all : bool) (atol : option float) (n wa wb : nat) (la lb : list string) :
  __class__ a = hexcols -> __class__ b = hexcols ->
  n_colors (_data_ a) n -> n_colors (_data_ b) n ->
  lookup (_data_ a) "hex_" = Some (Some (Unicode wa la)) ->
  lookup (_data_ b) "hex_" = Some (Some (Unicode wb lb)) ->
  compare_colors isclose a b exact _all atol
  = Returns (let res := map (fun i => String.eqb (upper (nth i la EmptyString))
                                                 (upper (nth i lb EmptyString)))
                            (seq 0 n) in
             if _all then CmpAll (forallb (fun x => x) res) else CmpEach res).
Proof. exact (compare_hex isclose a b exact _all atol n wa wb la lb). Qed.

(** The theorem at [hexcols(["#ff00ff", "#003300"])] and
    [hexcols(["#FF00FF", "#003301"])]: the first colors are equal, the
    second are not. *)
Lemma compare_colors_compares_hex_strings_in_upper_case_witness :
  @compare_colors leading_terms (fun _ _ => [])
    (new_object hexcols [("hex_", Some (Unicode 9 ["#ff00ff"; "#003300"]))])
    (new_object hexcols [("hex_", Some (Unicode 9 ["#FF00FF"; "#003301"]))])
    false false None
  = Returns (let res := map (fun i => String.eqb (upper (nth i ["#ff00ff"; "#003300"] EmptyString))
                                                 (upper (nth i ["#FF00FF"; "#003301"] EmptyString)))
                            (seq 0 2) in
             if false then CmpAll (forallb (fun x => x) res) else CmpEach res).
Proof.
  apply (@compare_colors_compares_hex_strings_in_upper_case leading_terms (fun _ _ => [])
           (new_object hexcols [("hex_", Some (Unicode 9 ["#ff00ff"; "#003300"]))])
           (new_object hexcols [("hex_", Some (Unicode 9 ["#FF00FF"; "#003301"]))])
           false false None 2 9 9).
  - reflexivity.
  - reflexivity.
  - split; [repeat constructor | exists "hex_", (Unicode 9 ["#ff00ff"; "#003300"]); left; reflexivity].
  - split; [repeat constructor | exists "hex_", (Unicode 9 ["#FF00FF"; "#003301"]); left; reflexivity].
  - reflexivity.
  - reflexivity.
Defined.

(** X16.  [compare_colors] cannot compare an object that was converted.
    A conversion between two color spaces other than hex leaves an [alpha]
    entry that is [None] in an object without alpha; with such an object
    of at least one color as its first argument, and a second argument of
    the same class and length that holds float arrays, [compare_colors]
    raises [TypeError], whatever [exact], [_all] and [atol] are.  The
    second argument may be the first. *)
Theorem compare_colors_raises_on_a_converted_object {libm : Libm}
  (isclose : list float -> float -> list bool) (fuel : nat) (t : string) (fixup : bool)
  (self a b : colorobject) (exact _all : bool) (atol : option float) (n : nat) :
  to fuel t fixup self = (None, a) ->
  get_alpha self = None ->
  __class__ self <> hexcols -> __class__ a <> hexcols -> __class__ a <> __class__ self ->
  n_colors (_data_ self) (S n) ->
  __class__ b = __class__ a -> n_colors (_data_ b) (S n) ->
  Forall (fun k => k = "alpha" \/ exists l, lookup (_data_ b) k = Some (Some (Float64 l)))
         (map fst (_data_ a)) ->
  compare_colors isclose a b exact _all atol
  = Raises (Exn (TypeError "'NoneType' object is not subscriptable")).
Proof.
  intros H Hal Hs Ha Hne Hn Hb Hnb Hk.
  pose proof (to_n_colors fuel t fixup self a (S n) Hn H) as Hna.
  destruct (to_converted fuel t fixup self a H Hal Hs Ha) as [-> | Hc];
    [exfalso; apply Hne; reflexivity|].
  destruct Hc as (k1 & k2 & k3 & a1 & a2 & a3 & Hd & E1 & E2 & E3).
  assert (L1 : lookup (_data_ a) k1 = Some (Some (Float64 a1)))
    by (rewrite Hd; cbn [lookup]; rewrite String.eqb_refl; reflexivity).
  assert (L2 : exists l, lookup (_data_ a) k2 = Some (Some (Float64 l))).
  { rewrite Hd. cbn [lookup]. destruct (String.eqb k1 k2); [eexists; reflexivity|].
    rewrite String.eqb_refl. eexists. reflexivity. }
  assert (L3 : exists l, lookup (_data_ a) k3 = Some (Some (Float64 l))).
  { rewrite Hd. cbn [lookup]. destruct (String.eqb k1 k3); [eexists; reflexivity|].
    destruct (String.eqb k2 k3); [eexists; reflexivity|].
    rewrite String.eqb_refl. eexists. reflexivity. }
  assert (La : lookup (_data_ a) "alpha" = Some None)
    by (rewrite Hd; cbn [lookup]; rewrite E1, E2, E3; reflexivity).
  apply (compare_alpha_none isclose a b exact _all atol n [k1; k2; k3] []);
    try assumption.
  - symmetry. exact Hb.
  - rewrite Hd. reflexivity.
  - repeat constructor; [eexists; exact L1 | exact L2 | exact L3].
  - rewrite Hd in Hk. cbn [map fst] in Hk.
    inversion Hk as [|? ? K1 Hk1]; subst. inversion Hk1 as [|? ? K2 Hk2]; subst.
    inversion Hk2 as [|? ? K3 _]; subst.
    repeat constructor.
    + destruct K1 as [->|K1]; [discriminate E1 | exact K1].
    + destruct K2 as [->|K2]; [discriminate E2 | exact K2].
    + destruct K3 as [->|K3]; [discriminate E3 | exact K3].
Qed.

(** The theorem at [x = RGB(0.5, 0.5, 0.5); x.to("sRGB"); compare_colors(x, x)]. *)
Lemma compare_colors_raises_on_a_converted_object_witness :
  @compare_colors leading_terms (fun _ _ => [])
    (snd (@to leading_terms 1 "sRGB" true
            (new_object RGB [("R", Some (Float64 [0.5])); ("G", Some (Float64 [0.5]));
                             ("B", Some (Float64 [0.5]))])))
    (snd (@to leading_terms 1 "sRGB" true
            (new_object RGB [("R", Some (Float64 [0.5])); ("G", Some (Float64 [0.5]));
                             ("B", Some (Float64 [0.5]))])))
    false true None
  = Raises (Exn (TypeError "'NoneType' object is not subscriptable")).
Proof.
  apply (@compare_colors_raises_on_a_converted_object leading_terms (fun _ _ => []) 1 "sRGB" true
           (new_object RGB [("R", Some (Float64 [0.5])); ("G", Some (Float64 [0.5]));
                            ("B", Some (Float64 [0.5]))]) _ _ false true None 0).
  - vm_compute. reflexivity.
  - reflexivity.
  - discriminate.
  - vm_compute. discriminate.
  - vm_compute. discriminate.
  - split; [repeat constructor | exists "R", (Float64 [0.5]); left; reflexivity].
  - reflexivity.
  - vm_compute. split; [repeat constructor | eexists; eexists; left; reflexivity].
  - vm_compute.
    repeat (apply Forall_cons; [first [left; reflexivity | right; eexists; reflexivity]|]).
    apply Forall_nil.
Defined.

(* ================================================================== *)
(** * Failing paths and greys *)
(* ================================================================== *)

(** ** A path that fails on the way *)

Lemma eqb_nan_r (x : float) : (x =? nan) = false.
Proof.
  rewrite eqb_spec. change (Prim2SF nan) with S754_nan.
  destruct (Prim2SF x) as [s|s| |s m e]; reflexivity.
Qed.

Lemma leb_nan_l (x : float) : (nan <=? x) = false.
Proof. rewrite leb_spec. change (Prim2SF nan) with S754_nan. reflexivity. Qed.

Lemma leb_nan_r (x : float) : (x <=? nan) = false.
Proof.
  rewrite leb_spec. change (Prim2SF nan) with S754_nan.
  destruct (Prim2SF x) as [s|s| |s m e]; reflexivity.
Qed.

Lemma ltb_nan_r (x : float) : (x <? nan) = false.
Proof.
  rewrite ltb_spec. change (Prim2SF nan) with S754_nan.
  destruct (Prim2SF x) as [s|s| |s m e]; reflexivity.
Qed.

Lemma gethls_nan (g b : float) : gethls nan g b = Raise (UnboundLocalError "h").
Proof.
  unfold gethls, min3, max3, np_minimum, np_maximum.
  rewrite !leb_nan_l, !leb_nan_r. change (is_nan nan) with true. cbn [orb].
  change (neqb nan nan) with true. cbv iota.
  change (nan =? nan) with false. rewrite !eqb_nan_r. reflexivity.
Qed.

Section FailingPath.
Context {libm : Libm}.

Lemma gtrans1_nan (gamma : float) : gtrans1 nan gamma = nan.
Proof. unfold gtrans1, gtb. rewrite ltb_nan_r. reflexivity. Qed.

Lemma to_HLS_with_nan (fuel : nat) (fixup : bool) (self : colorobject)
  (R G B : arr) (g0 b0 : float) :
  __class__ self = RGB ->
  get self "R" = Ok (Some (Float64 (nan :: R))) ->
  get self "G" = Ok (Some (Float64 (g0 :: G))) ->
  get self "B" = Ok (Some (Float64 (b0 :: B))) ->
  len G = len R -> len B = len R ->
  exists x,
    to (S (S fuel)) "HLS" fixup self = (Some (UnboundLocalError "h"), x) /\
    to (S fuel) "sRGB" fixup self = (None, x) /\
    __class__ x = sRGB.
Proof.
  intros Ec GR GG GB LG LB.
  assert (Hs : exists x R' G' B' g1 b1,
             to (S fuel) "sRGB" fixup self = (None, x) /\ __class__ x = sRGB /\
             _data_ x = [("R", Some (Float64 (nan :: R'))); ("G", Some (Float64 (g1 :: G')));
                         ("B", Some (Float64 (b1 :: B'))); ("alpha", get_alpha self)] /\
             len G' = len R' /\ len B' = len R').
  { rewrite to_S, Ec. unfold RGB_to. unfold andthen at 1, _check_if_allowed_.
    cbn -[to become _transform_via_path_ call3 dict3 RGB_to_sRGB]. rewrite ?Ec.
    cbn -[to become _transform_via_path_ call3 dict3 RGB_to_sRGB].
    unfold become, call3. rewrite GR, GG, GB. cbn [rbind as_float64].
    unfold RGB_to_sRGB.
    pose proof (len_recycle_float (GAMMA self) (len (nan :: R))) as Hg.
    set (gamma := recycle_gamma (GammaFloat (GAMMA self)) (len (nan :: R))) in *.
    rewrite check_all_equal
      by (repeat constructor; unfold len in *; cbn [List.length] in *; congruence).
    cbn [rbind]. unfold gtrans.
    pose proof (len_recycle_gamma gamma (len (nan :: R)) Hg) as Hr.
    assert (HrG : recycle_gamma (GammaArray gamma) (len (g0 :: G))
                  = recycle_gamma (GammaArray gamma) (len (nan :: R)))
      by (unfold len in *; cbn [List.length]; rewrite LG; reflexivity).
    assert (HrB : recycle_gamma (GammaArray gamma) (len (b0 :: B))
                  = recycle_gamma (GammaArray gamma) (len (nan :: R)))
      by (unfold len in *; cbn [List.length]; rewrite LB; reflexivity).
    rewrite HrG, HrB.
    set (gm := recycle_gamma (GammaArray gamma) (len (nan :: R))) in *.
    rewrite !check_all_equal
      by (repeat constructor; unfold len in *; cbn [List.length] in *; congruence).
    cbn [rbind].
    destruct gm as [|gm0 gm]; [discriminate Hr|].
    unfold len in *. cbn [List.length] in Hr. injection Hr as Hr.
    unfold map2. cbn [combine map fst snd dict3]. rewrite gtrans1_nan.
    do 6 eexists. split; [reflexivity|]. split; [reflexivity|]. split; [reflexivity|].
    rewrite !length_map, !length_combine. lia. }
  destruct Hs as (x & R' & G' & B' & g1 & b1 & Hx & Hc & Hd & LG' & LB').
  exists x. split; [|split; assumption].
  rewrite to_S, Ec. unfold RGB_to. unfold andthen at 1, _check_if_allowed_.
  cbn -[to become _transform_via_path_]. rewrite ?Ec.
  cbn -[to become _transform_via_path_].
  cbn [_transform_via_path_]. unfold andthen at 1. rewrite Hx.
  unfold andthen at 1. rewrite to_S, Hc. unfold sRGB_to.
  unfold andthen at 1, _check_if_allowed_.
  cbn -[to become _transform_via_path_ call3 dict3 sRGB_to_HLS]. rewrite ?Hc.
  cbn -[to become _transform_via_path_ call3 dict3 sRGB_to_HLS].
  unfold become, call3, get. rewrite Hd. cbn [lookup String.eqb Ascii.eqb Bool.eqb rbind as_float64].
  unfold sRGB_to_HLS.
  rewrite check_all_equal
    by (repeat constructor; unfold len in *; cbn [List.length] in *; congruence).
  cbn [rbind zip3 combine mapM]. rewrite gethls_nan. reflexivity.
Qed.

End FailingPath.

(** ** Multiplication by one *)

Lemma mul_pow52 (m : positive) : (m * 4503599627370496)%positive = Pos.iter xO m 52.
Proof. apply Pos2Z.inj. rewrite iter_xO, Pos2Z.inj_mul. reflexivity. Qed.

(** A canonical mantissa followed by 52 zero bits is rounded to itself. *)
Lemma binary_round_aux_shifted (sx : bool) (m : positive) (e : Z) :
  bounded prec emax m e = true ->
  binary_round_aux prec emax sx (Zpos (m * 4503599627370496)) (e + -52) loc_Exact
  = S754_finite sx m e.
Proof.
  intros Hb. unfold bounded, canonical_mantissa in Hb. apply andb_prop in Hb as [Hc He].
  apply Z.eqb_eq in Hc. apply Z.leb_le in He.
  rewrite mul_pow52. unfold binary_round_aux, shr_fexp.
  change (Zdigits2 (Zpos (Pos.iter xO m 52))) with (Zpos (digits2_pos (Pos.iter xO m 52))).
  rewrite digits2_pos_iter_xO.
  replace (Zpos (digits2_pos m) + 52 + (e + -52))%Z with (Zpos (digits2_pos m) + e)%Z by lia.
  rewrite Hc. replace (e - (e + -52))%Z with 52%Z by lia.
  cbn [shr iter_pos Pos.iter shr_1 shr_record_of_loc shr_m shr_r shr_s
       loc_of_shr_record round_nearest_even orb].
  replace (e + -52 + 52)%Z with e by lia.
  change (Zdigits2 (Zpos m)) with (Zpos (digits2_pos m)).
  rewrite Hc, Z.sub_diag. cbn [shr shr_record_of_loc shr_m].
  replace (e <=? emax - prec)%Z with true by (symmetry; apply Z.leb_le; exact He).
  reflexivity.
Qed.

Lemma mul_1_r (x : float) : x * 1 = x.
Proof.
  apply Prim2SF_inj. rewrite mul_spec.
  change (Prim2SF 1) with (S754_finite false 4503599627370496 (-52)).
  pose proof (Prim2SF_valid x) as V.
  destruct (Prim2SF x) as [s|s| |s m e];
    [destruct s; reflexivity | destruct s; reflexivity | reflexivity |].
  cbn [SpecFloat.valid_binary] in V. unfold SF64mul, SFmul.
  rewrite (binary_round_aux_shifted _ m e V). destruct s; reflexivity.
Qed.

(** ** Greys in HSV *)

Lemma gethsv_grey (v : float) : is_nan v = false -> gethsv v v v = (0, 0, v).
Proof.
  intros Hv. unfold gethsv, min3, max3, np_minimum, np_maximum.
  assert (E : (v =? v) = true) by (unfold is_nan in Hv; apply negb_false_iff in Hv; exact Hv).
  assert (L : (v <=? v) = true).
  { rewrite leb_spec. rewrite eqb_spec in E. unfold SFleb, SFeqb in *.
    destruct (SFcompare (Prim2SF v) (Prim2SF v)) as [[| |]|]; try discriminate E. reflexivity. }
  rewrite !L. cbn [orb]. rewrite L. cbn [orb]. unfold neqb. rewrite E. reflexivity.
Qed.

Lemma HSV_getrgb_grey (v : float) : HSV_getrgb 0 0 v = Ok (v, v, v).
Proof.
  unfold HSV_getrgb. change (0 =? nan) with false. cbv iota.
  change (0 / 60) with 0. change (np_floor 0) with 0. change (0 - 0) with 0.
  change (mod2_is_zero 0) with true. cbv iota zeta.
  change (1 - 0) with 1. change (0 * 1) with 0. change (1 - 0) with 1.
  change (0 =? 0) with true. cbn [orb]. rewrite mul_1_r. reflexivity.
Qed.

Lemma sRGB_to_HSV_grey (l : arr) :
  Forall (fun v => is_nan v = false) l ->
  sRGB_to_HSV l l l = Ok (map (fun _ => 0) l, map (fun _ => 0) l, l).
Proof.
  intros H. unfold sRGB_to_HSV. rewrite check_all_equal by (repeat constructor).
  cbn [rbind]. unfold map3, zip3.
  induction H as [|v l Hv H IH]; [reflexivity|].
  cbn [combine map fst snd]. rewrite (gethsv_grey v Hv). cbn [fst snd].
  injection IH as IH1 IH2 IH3. rewrite IH1, IH2, IH3. reflexivity.
Qed.

Lemma HSV_to_sRGB_grey (l : arr) :
  HSV_to_sRGB (map (fun _ => 0) l) (map (fun _ => 0) l) l = Ok (l, l, l).
Proof.
  unfold HSV_to_sRGB.
  rewrite check_all_equal by (repeat constructor; unfold len; rewrite length_map; reflexivity).
  cbn [rbind]. unfold zip3.
  assert (E : mapM (fun t : float * float * float => let '(h, s, v) := t in HSV_getrgb h s v)
                (combine (combine (map (fun _ => 0) l) (map (fun _ => 0) l)) l)
              = Ok (map (fun v => (v, v, v)) l)).
  { induction l as [|v l IH]; [reflexivity|].
    cbn [map combine mapM]. rewrite HSV_getrgb_grey, IH. reflexivity. }
  rewrite E. cbn [rbind]. rewrite !map_map. cbn [fst snd]. rewrite !map_id. reflexivity.
Qed.

(** ** The statements *)

(** X17.  [to] is not all or nothing on a path.  An RGB object whose first
    red value is NaN (the constructor accepts it) cannot be converted to
    HLS: [to("HLS")] goes through sRGB, raises [UnboundLocalError] in
    [sRGB_to_HLS], and leaves the object converted to sRGB: it is the
    object that [to("sRGB")] gives. *)
Theorem failing_path_leaves_the_object_half_converted {libm : Libm}
  (fuel : nat) (fixup : bool) (self : colorobject) (R G B : arr) (g0 b0 : float) :
  __class__ self = RGB ->
  get self "R" = Ok (Some (Float64 (nan :: R))) ->
  get self "G" = Ok (Some (Float64 (g0 :: G))) ->
  get self "B" = Ok (Some (Float64 (b0 :: B))) ->
  len G = len R -> len B = len R ->
  exists x,
    to (S (S fuel)) "HLS" fixup self = (Some (UnboundLocalError "h"), x) /\
    to (S fuel) "sRGB" fixup self = (None, x) /\
    __class__ x = sRGB.
Proof. exact (to_HLS_with_nan fuel fixup self R G B g0 b0). Qed.

(** The theorem at [RGB(nan, 0.5, 0.5).to("HLS")]. *)
Lemma failing_path_leaves_the_object_half_converted_witness :
  exists x,
    @to leading_terms 2 "HLS" true
      (new_object RGB [("R", Some (Float64 [nan])); ("G", Some (Float64 [0.5]));
                       ("B", Some (Float64 [0.5]))])
    = (Some (UnboundLocalError "h"), x) /\
    @to leading_terms 1 "sRGB" true
      (new_object RGB [("R", Some (Float64 [nan])); ("G", Some (Float64 [0.5]));
                       ("B", Some (Float64 [0.5]))]) = (None, x) /\
    __class__ x = sRGB.
Proof.
  apply (@failing_path_leaves_the_object_half_converted leading_terms 0 true
           (new_object RGB [("R", Some (Float64 [nan])); ("G", Some (Float64 [0.5]));
                            ("B", Some (Float64 [0.5]))]) [] [] [] 0.5 0.5);
    reflexivity.
Defined.

(** X20.  Greys survive the way through HSV exactly: for values [l] none
    of which is NaN, [sRGB_to_HSV(l, l, l)] has hue 0 and saturation 0
    everywhere and value [l], and [HSV_to_sRGB] of this result is
    [(l, l, l)] again, bit for bit. *)
Theorem grey_survives_HSV_exactly (l : arr) :
  Forall (fun v => is_nan v = false) l ->
  sRGB_to_HSV l l l = Ok (map (fun _ => 0) l, map (fun _ => 0) l, l)
  /\ HSV_to_sRGB (map (fun _ => 0) l) (map (fun _ => 0) l) l = Ok (l, l, l).
Proof.
  intros H. split; [exact (sRGB_to_HSV_grey l H) | exact (HSV_to_sRGB_grey l)].
Qed.

(** The theorem at the greys 0.2 and 1. *)
Lemma grey_survives_HSV_exactly_witness :
  sRGB_to_HSV [0.2; 1] [0.2; 1] [0.2; 1] = Ok ([0; 0], [0; 0], [0.2; 1])
  /\ HSV_to_sRGB [0; 0] [0; 0] [0.2; 1] = Ok ([0.2; 1], [0.2; 1], [0.2; 1]).
Proof.
  apply (grey_survives_HSV_exactly [0.2; 1]). repeat constructor.
Defined.

(* ================================================================== *)
(** * hexcols objects and the sliders *)
(* ================================================================== *)

(** ** hexcols objects: through sRGB and back *)

Lemma substring_0_twice (n : nat) (s : string) :
  substring 0 n (substring 0 n s) = substring 0 n s.
Proof.
  revert s. induction n as [|n IH]; intros s.
  - destruct s; reflexivity.
  - destruct s as [|c s]; [reflexivity|]. cbn [substring]. rewrite IH. reflexivity.
Qed.

Lemma slice_0_twice (n : nat) (s : string) : slice 0 n (slice 0 n s) = slice 0 n s.
Proof. unfold slice. rewrite Nat.sub_0_r. apply substring_0_twice. Qed.

Section HexObjects.
Context {libm : Libm}.

Lemma hexcols_to_sRGB_to_hex (fuel fuel' : nat) (fixup fixup' : bool)
  (self : colorobject) (w : nat) (a : list string) :
  __class__ self = hexcols ->
  get self "hex_" = Ok (Some (Unicode w a)) ->
  Forall (fun s => validhex (slice 0 7 s) = true) a ->
  exists x y h,
    to (S fuel) "sRGB" fixup self = (None, x) /\ __class__ x = sRGB /\
    to (S fuel') "hex" fixup' x = (None, y) /\ __class__ y = hexcols /\
    get y "hex_" = Ok (Some h) /\
    strings_of false h = map (fun s => upper (slice 0 7 s)) a /\
    get_alpha y = get_alpha self.
Proof.
  intros Ec Hg Hv.
  assert (Hv' : Forall (fun s => validhex s = true) (map (slice 0 7) a)).
  { apply Forall_forall. intros s Hs. apply in_map_iff in Hs as (s0 & <- & Hs0).
    rewrite Forall_forall in Hv. exact (Hv s0 Hs0). }
  destruct (hex_round_trip fixup' (map (slice 0 7) a) Hv') as (R & G & B & h & E1 & E2 & E3).
  rewrite map_map in E3.
  assert (E3' : strings_of false h = map (fun s => upper (slice 0 7 s)) a).
  { rewrite E3. apply map_ext. intros s. rewrite slice_0_twice. reflexivity. }
  set (data := [("R", Some (Float64 R)); ("G", Some (Float64 G)); ("B", Some (Float64 B))]).
  set (x := {| __class__ := sRGB;
               _data_ := match get_alpha self with
                         | Some _ => data ++ [("alpha", get_alpha self)]
                         | None => data
                         end;
               WHITEX := WHITEX self; WHITEY := WHITEY self;
               WHITEZ := WHITEZ self; GAMMA := GAMMA self |}).
  assert (Hx : to (S fuel) "sRGB" fixup self = (None, x)).
  { rewrite to_S, Ec. unfold hexcols_to. unfold andthen at 1, _check_if_allowed_.
    cbn -[to become _transform_via_path_ hex_slices hex_to_sRGB get_alpha]. rewrite ?Ec.
    cbn -[to become _transform_via_path_ hex_slices hex_to_sRGB get_alpha].
    unfold become, hex_slices. rewrite Hg. cbn [rbind]. rewrite E1. cbn [rbind].
    reflexivity. }
  assert (Hax : get_alpha x = get_alpha self).
  { unfold get_alpha at 1. unfold x. cbn [_data_].
    destruct (get_alpha self) as [al|] eqn:Ea; reflexivity. }
  assert (HR : get x "R" = Ok (Some (Float64 R)) /\ get x "G" = Ok (Some (Float64 G))
               /\ get x "B" = Ok (Some (Float64 B))).
  { unfold get, x. cbn [_data_]. destruct (get_alpha self); repeat split; reflexivity. }
  destruct HR as (GR & GG & GB).
  eexists x, _, h. split; [exact Hx|]. split; [reflexivity|].
  split.
  - rewrite to_S. change (__class__ x) with sRGB. cbv iota. unfold sRGB_to.
    unfold andthen at 1, _check_if_allowed_.
    cbn -[to become _transform_via_path_ call3 sRGB_to_hex get_alpha x].
    change (__class__ x) with sRGB.
    cbn -[to become _transform_via_path_ call3 sRGB_to_hex get_alpha x].
    unfold become, call3. rewrite GR, GG, GB. cbn [rbind as_float64]. rewrite E2.
    cbn [rbind]. reflexivity.
  - cbn [__class__ _data_]. repeat split; assumption.
Qed.

Lemma hexcols_colors (fuel : nat) (self : colorobject) (fixup rev : bool) (v : ndarray) :
  __class__ self = hexcols -> hasalpha self = false ->
  get self "hex_" = Ok (Some v) ->
  colors (S fuel) self fixup rev = Ok (strings_of rev v).
Proof.
  intros Ec Ha Hg. unfold colors.
  assert (Hx : to (S fuel) "hex" fixup self = (None, self)).
  { apply to_own_space. rewrite Ec. reflexivity. }
  rewrite Hx, Hg. cbn [rbind]. rewrite Ha. reflexivity.
Qed.

End HexObjects.

(** ** [isValidInt] *)

Lemma int_text_checked (neg : bool) (n : nat) :
  (n < 1000)%nat ->
  String.length (int_text neg n) <> O /\
  Slider.matches_int (int_text neg n) = true /\
  Slider.matches_minus (int_text neg n) = false /\
  Slider.int_of_text (int_text neg n) = Ok (neg, Z.of_nat n).
Proof.
  intros Hn.
  assert (Hall : forallb (fun k => int_text_ok true k && int_text_ok false k) (seq 0 1000) = true)
    by (vm_compute; reflexivity).
  rewrite forallb_forall in Hall.
  specialize (Hall n ltac:(apply in_seq; lia)).
  apply andb_prop in Hall as [Ht Hf].
  assert (H : int_text_ok neg n = true) by (destruct neg; assumption).
  clear Ht Hf. unfold int_text_ok in H.
  apply andb_prop in H as [H H4]. apply andb_prop in H as [H H3].
  apply andb_prop in H as [H1 H2].
  apply negb_true_iff in H1, H3. apply Nat.eqb_neq in H1.
  destruct (Slider.int_of_text (int_text neg n)) as [[s z]|]; [|discriminate H4].
  apply andb_prop in H4 as [Hs Hz]. apply Bool.eqb_prop in Hs. apply Z.eqb_eq in Hz.
  subst s z. repeat split; assumption.
Qed.

Lemma isValidInt_int_text (neg : bool) (n : nat) (from_ to : float) :
  (n < 1000)%nat ->
  Slider.isValidInt (int_text neg n) from_ to
  = Ok (negb (((if neg then - of_Z (Z.of_nat n) else of_Z (Z.of_nat n)) <? from_)
              || gtb (if neg then - of_Z (Z.of_nat n) else of_Z (Z.of_nat n)) to)).
Proof.
  intros Hn. destruct (int_text_checked neg n Hn) as (H1 & H2 & H3 & H4).
  unfold Slider.isValidInt, Slider.float_of_text.
  replace (Nat.eqb (String.length (int_text neg n)) 0) with false
    by (symmetry; apply Nat.eqb_neq; exact H1).
  rewrite H2, H3, H4. cbn [negb rbind].
  destruct (_ || _); reflexivity.
Qed.

Lemma isValidInt_default (neg : bool) (n : nat) :
  (n < 1000)%nat -> Slider.isValidInt (int_text neg n) (-999) 999 = Ok true.
Proof.
  intros Hn. rewrite isValidInt_int_text by exact Hn.
  assert (Hall : forallb in_default_range (seq 0 1000) = true) by (vm_compute; reflexivity).
  rewrite forallb_forall in Hall.
  specialize (Hall n ltac:(apply in_seq; lia)).
  unfold in_default_range in Hall.
  apply andb_prop in Hall as [Hp Hm]. destruct neg; [rewrite Hm | rewrite Hp]; reflexivity.
Qed.

Lemma isValidInt_rejects (x : string) (from_ to : float) :
  x <> EmptyString -> Slider.matches_int x = false -> Slider.isValidInt x from_ to = Ok false.
Proof.
  intros Hx Hm. unfold Slider.isValidInt. rewrite Hm.
  destruct x; [congruence|]. reflexivity.
Qed.

(** ** The statements *)

(** X21.  A hexcols object (no alpha) gives back the strings it stores:
    [colors()] returns them as they are, in whatever case and valid or
    not.  Through sRGB and back they are normalised: for an object whose
    strings are valid hex colors in their first seven characters,
    [to("sRGB")] and then [to("hex")] both return, and the object then
    stores the first seven characters of each string in upper case, with
    the alpha channel it had. *)
Theorem hexcols_object_through_sRGB_and_back {libm : Libm} :
  (forall fuel self fixup rev v,
      __class__ self = hexcols -> hasalpha self = false ->
      get self "hex_" = Ok (Some v) ->
      colors (S fuel) self fixup rev = Ok (strings_of rev v))
  /\ (forall fuel fuel' fixup fixup' self w a,
      __class__ self = hexcols ->
      get self "hex_" = Ok (Some (Unicode w a)) ->
      Forall (fun s => validhex (slice 0 7 s) = true) a ->
      exists x y h,
        to (S fuel) "sRGB" fixup self = (None, x) /\ __class__ x = sRGB /\
        to (S fuel') "hex" fixup' x = (None, y) /\ __class__ y = hexcols /\
        get y "hex_" = Ok (Some h) /\
        strings_of false h = map (fun s => upper (slice 0 7 s)) a /\
        get_alpha y = get_alpha self).
Proof.
  split.
  - exact hexcols_colors.
  - exact hexcols_to_sRGB_to_hex.
Qed.

(** X23.  [isValidInt] on the text of an integer of at most three digits
    (with or without a minus sign) is the range test: it returns whether
    the number is neither below [from_] nor above [to].  With the default
    range from -999 to 999 every such text is valid.  A text that the
    pattern does not match is not valid, whatever the range; the empty
    text and a lone minus sign are valid, whatever the range; and a lone
    newline passes the pattern and makes [float] raise [ValueError]. *)
Theorem isValidInt_is_the_range_test_on_integers_of_three_digits :
  (forall neg n from_ to,
      (n < 1000)%nat ->
      Slider.isValidInt (int_text neg n) from_ to
      = Ok (negb (((if neg then - of_Z (Z.of_nat n) else of_Z (Z.of_nat n)) <? from_)
                  || gtb (if neg then - of_Z (Z.of_nat n) else of_Z (Z.of_nat n)) to)))
  /\ (forall neg n, (n < 1000)%nat -> Slider.isValidInt (int_text neg n) (-999) 999 = Ok true)
  /\ (forall x from_ to,
      x <> EmptyString -> Slider.matches_int x = false ->
      Slider.isValidInt x from_ to = Ok false)
  /\ (forall from_ to,
      Slider.isValidInt "" from_ to = Ok true /\
      Slider.isValidInt "-" from_ to = Ok true /\
      Slider.isValidInt (String newline "") from_ to
      = Raise (ValueError "could not convert string to float")).
Proof.
  split; [|split; [|split]].
  - intros neg n from_ to. exact (isValidInt_int_text neg n from_ to).
  - exact isValidInt_default.
  - exact isValidInt_rejects.
  - intros from_ to. repeat split.
Qed.

(* ================================================================== *)
(** * The exceptions of [to], the fix-up, conversions that never fail *)
(* ================================================================== *)

(** ** What [to] raises *)

Lemma clean_bind {A B : Type} (c : result A) (k : A -> result B) :
  clean c -> (forall a, clean (k a)) -> clean (rbind c k).
Proof. intros Hc Hk. destruct c as [a|e]; [apply Hk | exact Hc]. Qed.

Lemma clean_mapM {A B : Type} (f : A -> result B) (l : list A) :
  (forall a, clean (f a)) -> clean (mapM f l).
Proof.
  intros Hf. induction l as [|x l IH]; [exact I|]. cbn [mapM].
  apply clean_bind; [apply Hf|]. intros y. apply clean_bind; [exact IH|]. intros ys. exact I.
Qed.

Lemma clean_check (lengths : list nat) : clean (_check_input_arrays_ lengths).
Proof.
  unfold _check_input_arrays_. destruct lengths; [exact I|]. destruct (forallb _ _); reflexivity.
Qed.

Ltac clean_step :=
  first [ exact I
        | reflexivity
        | apply clean_check
        | apply clean_bind; [|intros]
        | apply clean_mapM; intros
        | match goal with
          | |- clean (match ?x with _ => _ end) => destruct x
          | |- clean (let '(_, _) := ?x in _) => destruct x
          end ].

Section Clean.
Context {libm : Libm}.

Lemma clean_while_gt_360 (fuel : nat) : forall val, clean (while_gt_360 fuel val).
Proof.
  induction fuel as [|fuel IH]; intros val; cbn [while_gt_360]; [reflexivity|].
  destruct (gtb val 360); [apply IH | exact I].
Qed.

Lemma clean_while_lt_0 (fuel : nat) : forall val, clean (while_lt_0 fuel val).
Proof.
  induction fuel as [|fuel IH]; intros val; cbn [while_lt_0]; [reflexivity|].
  destruct (val <? 0); [apply IH | exact I].
Qed.

Lemma clean_wrap_hue (fuel : nat) (val : float) : clean (wrap_hue fuel val).
Proof.
  unfold wrap_hue. repeat clean_step; first [apply clean_while_gt_360 | apply clean_while_lt_0].
Qed.

Ltac clean_fun := intros; repeat clean_step.

Lemma clean_int16_from (s : string) : forall acc, clean (int16_from acc s).
Proof.
  induction s as [|c s IH]; intros acc; cbn [int16_from]; [exact I|].
  destruct (hex_digit_value c); [apply IH | reflexivity].
Qed.

Lemma clean_int16 (s : string) : clean (int16 s).
Proof. unfold int16. destruct s; [reflexivity | apply clean_int16_from]. Qed.

Lemma clean_gtrans u g : clean (gtrans u g).
Proof. unfold gtrans. clean_fun. Qed.

Lemma clean_ftrans u g : clean (ftrans u g).
Proof. unfold ftrans. clean_fun. Qed.

Lemma clean_sRGB_to_RGB R G B g : clean (sRGB_to_RGB R G B g).
Proof. unfold sRGB_to_RGB. repeat first [apply clean_ftrans | clean_step]. Qed.

Lemma clean_RGB_to_sRGB R G B g : clean (RGB_to_sRGB R G B g).
Proof. unfold RGB_to_sRGB. repeat first [apply clean_gtrans | clean_step]. Qed.

Lemma clean_white_truth w : clean (white_truth w).
Proof. unfold white_truth. clean_fun. Qed.

Lemma clean_white_expand n w : clean (white_expand n w).
Proof. unfold white_expand. clean_fun. Qed.

Lemma clean_get_white n XN YN ZN : clean (_get_white_ n XN YN ZN).
Proof.
  unfold _get_white_.
  repeat first [apply clean_white_truth | apply clean_white_expand | clean_step].
Qed.

Lemma clean_RGB_to_XYZ R G B XN YN ZN : clean (RGB_to_XYZ R G B XN YN ZN).
Proof. unfold RGB_to_XYZ. repeat first [apply clean_get_white | clean_step]. Qed.

Lemma clean_XYZ_to_RGB R G B XN YN ZN : clean (XYZ_to_RGB R G B XN YN ZN).
Proof. unfold XYZ_to_RGB. repeat first [apply clean_get_white | clean_step]. Qed.

Lemma clean_LAB_to_XYZ R G B XN YN ZN : clean (LAB_to_XYZ R G B XN YN ZN).
Proof. unfold LAB_to_XYZ. repeat first [apply clean_get_white | clean_step]. Qed.

Lemma clean_XYZ_to_LAB R G B XN YN ZN : clean (XYZ_to_LAB R G B XN YN ZN).
Proof. unfold XYZ_to_LAB. repeat first [apply clean_get_white | clean_step]. Qed.

Lemma clean_LAB_to_polarLAB fuel L A B : clean (LAB_to_polarLAB fuel L A B).
Proof. unfold LAB_to_polarLAB. repeat first [apply clean_wrap_hue | clean_step]. Qed.

Lemma clean_polarLAB_to_LAB L A B : clean (polarLAB_to_LAB L A B).
Proof. unfold polarLAB_to_LAB. clean_fun. Qed.

Lemma clean_LUV_to_polarLUV fuel L A B : clean (LUV_to_polarLUV fuel L A B).
Proof. unfold LUV_to_polarLUV. repeat first [apply clean_wrap_hue | clean_step]. Qed.

Lemma clean_polarLUV_to_LUV L A B : clean (polarLUV_to_LUV L A B).
Proof. unfold polarLUV_to_LUV. clean_fun. Qed.

Lemma clean_sRGB_to_HSV L A B : clean (sRGB_to_HSV L A B).
Proof. unfold sRGB_to_HSV. clean_fun. Qed.

Lemma clean_HSV_to_sRGB L A B : clean (HSV_to_sRGB L A B).
Proof. unfold HSV_to_sRGB, HSV_getrgb. clean_fun. Qed.

Lemma clean_sRGB_to_HLS L A B : clean (sRGB_to_HLS L A B).
Proof. unfold sRGB_to_HLS, gethls. clean_fun. Qed.

Lemma clean_HLS_to_sRGB L A B : clean (HLS_to_sRGB L A B).
Proof. unfold HLS_to_sRGB. clean_fun. Qed.

Lemma clean_XYZ_to_uv L A B : clean (XYZ_to_uv L A B).
Proof. unfold XYZ_to_uv. clean_fun. Qed.

Lemma clean_XYZ_to_uv_white X Y Z : clean (XYZ_to_uv_white X Y Z).
Proof. unfold XYZ_to_uv_white. repeat first [apply clean_XYZ_to_uv | clean_step]. Qed.

Lemma clean_XYZ_to_LUV R G B XN YN ZN : clean (XYZ_to_LUV R G B XN YN ZN).
Proof.
  unfold XYZ_to_LUV.
  repeat first [apply clean_get_white | apply clean_XYZ_to_uv_white
               | apply clean_XYZ_to_uv | clean_step].
Qed.

Lemma clean_LUV_to_XYZ R G B XN YN ZN : clean (LUV_to_XYZ R G B XN YN ZN).
Proof.
  unfold LUV_to_XYZ.
  repeat first [apply clean_get_white | apply clean_XYZ_to_uv_white
               | apply clean_XYZ_to_uv | clean_step].
Qed.

Lemma clean_sRGB_to_hex R G B f : clean (sRGB_to_hex R G B f).
Proof. unfold sRGB_to_hex. clean_fun. Qed.

Lemma clean_hex_to_sRGB h : clean (hex_to_sRGB h).
Proof. unfold hex_to_sRGB, hex_getrgb. repeat first [apply clean_int16 | clean_step]. Qed.

Lemma clean_get self k : clean (get self k).
Proof. unfold get. clean_fun. Qed.

Lemma clean_as_float64 v : clean (as_float64 v).
Proof. unfold as_float64. clean_fun. Qed.

Lemma clean_call3 {T : Type} self k1 k2 k3 (f : arr -> arr -> arr -> result T) :
  (forall a b c, clean (f a b c)) -> clean (call3 self k1 k2 k3 f).
Proof.
  intros Hf. unfold call3.
  repeat first [apply clean_get | apply clean_as_float64 | apply Hf | clean_step].
Qed.

Lemma clean_hex_slices self : clean (hex_slices self).
Proof. unfold hex_slices. repeat first [apply clean_get | clean_step]. Qed.

Lemma routing_raised (self x : colorobject) (t : string) (e : exn) :
  routing e = false -> raised_by_to self t e x.
Proof. intros H. destruct e; first [exact I | discriminate H]. Qed.

Lemma become_err (c : cls) (data : colorobject -> result dict) (self x : colorobject)
  (e : exn) :
  become c data self = (Some e, x) -> x = self /\ data self = Raise e.
Proof.
  unfold become. destruct (data self) as [d|e']; [discriminate|].
  intros H. injection H as <- <-. split; reflexivity.
Qed.

Lemma become_raises (c : cls) (data : colorobject -> result dict) (self x : colorobject)
  (t : string) (e : exn) :
  clean (data self) -> become c data self = (Some e, x) -> raised_by_to self t e x.
Proof.
  intros Hc H. apply become_err in H as [-> H]. rewrite H in Hc.
  apply routing_raised. exact Hc.
Qed.

Lemma path_raises (fuel : nat) :
  (forall t fixup self e x,
      to fuel t fixup self = (Some e, x) -> raised_by_to self t e x) ->
  forall via fixup self e x,
    _transform_via_path_ (to fuel) via fixup self = (Some e, x) ->
    path_ok (__class__ self) via = true -> routing e = false.
Proof.
  intros IH via. induction via as [|v via IHv]; intros fixup self e x H Hp.
  - discriminate H.
  - cbn [_transform_via_path_] in H. cbn [path_ok] in Hp.
    apply andb_prop in Hp as [Hp Hc]. apply andb_prop in Hp as [Ha Hn].
    apply negb_true_iff in Hn.
    unfold andthen in H. destruct (to fuel v fixup self) as [[e'|] y] eqn:E.
    + injection H as <- <-. apply IH in E.
      destruct e'; try reflexivity; cbn [raised_by_to] in E.
      * destruct E as (_ & _ & _ & E). congruence.
      * contradiction.
      * destruct E as (_ & _ & _ & E). congruence.
    + apply to_target_class in E. rewrite E in Hc. exact (IHv _ _ _ _ H Hc).
Qed.

End Clean.

Ltac clean_data :=
  repeat first
    [ apply clean_call3; intros
    | apply clean_hex_slices | apply clean_hex_to_sRGB | apply clean_sRGB_to_hex
    | apply clean_sRGB_to_RGB | apply clean_RGB_to_sRGB | apply clean_RGB_to_XYZ
    | apply clean_XYZ_to_RGB | apply clean_XYZ_to_LUV | apply clean_LUV_to_XYZ
    | apply clean_XYZ_to_LAB | apply clean_LAB_to_XYZ | apply clean_LAB_to_polarLAB
    | apply clean_polarLAB_to_LAB | apply clean_LUV_to_polarLUV
    | apply clean_polarLUV_to_LUV | apply clean_sRGB_to_HSV | apply clean_HSV_to_sRGB
    | apply clean_sRGB_to_HLS | apply clean_HLS_to_sRGB
    | clean_step ].

Section Raises.
Context {libm : Libm}.

Lemma andthen_allowed (t : string) (m : meth) (self : colorobject) :
  in_list t ALLOWED = true -> andthen (_check_if_allowed_ t) m self = m self.
Proof. intros H. unfold andthen, _check_if_allowed_. rewrite H. reflexivity. Qed.

Lemma to_raises (fuel : nat) :
  forall t fixup self e x,
    to fuel t fixup self = (Some e, x) -> raised_by_to self t e x.
Proof.
  induction fuel as [|fuel IH]; intros t fixup self e x H.
  - cbn [to] in H. injection H as <- <-. exact I.
  - destruct (in_list t ALLOWED) eqn:Ea.
    2: { rewrite (to_unknown _ _ _ _ Ea) in H. injection H as <- <-.
         cbn [raised_by_to]. repeat split. exact Ea. }
    apply in_list_In in Ea. unfold ALLOWED in Ea. cbn [In] in Ea.
    rewrite to_S in H.
    repeat (destruct Ea as [<- | Ea]); try contradiction;
      destruct (__class__ self) eqn:Ec;
      first [ progress unfold polarLUV_to in H | progress unfold CIELUV_to in H
            | progress unfold CIEXYZ_to in H | progress unfold CIELAB_to in H
            | progress unfold polarLAB_to in H | progress unfold RGB_to in H
            | progress unfold sRGB_to in H | progress unfold HSV_to in H
            | progress unfold HLS_to in H | progress unfold hexcols_to in H ];
      rewrite andthen_allowed in H by reflexivity;
      cbv beta in H; rewrite ?Ec in H;
      cbn -[to become _transform_via_path_ call3 dict3 white hex_slices get_alpha
        hex_to_sRGB sRGB_to_hex sRGB_to_RGB RGB_to_sRGB RGB_to_XYZ XYZ_to_RGB
        XYZ_to_LUV LUV_to_XYZ XYZ_to_LAB LAB_to_XYZ LAB_to_polarLAB polarLAB_to_LAB
        LUV_to_polarLUV polarLUV_to_LUV sRGB_to_HSV HSV_to_sRGB sRGB_to_HLS
        HLS_to_sRGB] in H;
      first [ discriminate H
            | eapply become_raises; [|exact H];
              cbv beta; unfold white; cbv beta iota; clean_data
            | apply routing_raised;
              apply (path_raises fuel IH) in H; [exact H | rewrite Ec; reflexivity]
            | unfold _ambiguous in H; injection H as <- <-;
              cbn [raised_by_to]; rewrite Ec; repeat split ].
Qed.

End Raises.

(** X24.  The exceptions [to] raises about the route.  It never raises
    the cannot-convert exception: the last branch of every [to] method is
    out of reach.  When it raises the unknown-transformation or the
    ambiguous-conversion exception, the call itself raised it, not a hop of
    a path: the object is as it was, the exception names its class and the
    target, and the target is outside [ALLOWED], or the pair is one the
    class calls ambiguous. *)
Theorem to_raises_no_cannot_convert_and_routes_fail_at_once {libm : Libm}
  (fuel : nat) (t : string) (fixup : bool) (self x : colorobject) (e : exn) :
  to fuel t fixup self = (Some e, x) ->
  (forall a b, e <> CannotConvert a b) /\
  (routing e = true ->
   x = self /\
   (e = UnknownTransformation (__name__ (__class__ self)) t /\ in_list t ALLOWED = false
    \/ e = AmbiguousConversion (__name__ (__class__ self)) t /\
       ambiguous_pair (__class__ self) t = true)).
Proof.
  intros H. apply to_raises in H. destruct e; cbn [raised_by_to routing] in *;
    try (split; [discriminate | discriminate]).
  - destruct H as (-> & -> & -> & H). split; [discriminate|]. intros _.
    split; [reflexivity|]. left. split; [reflexivity | exact H].
  - contradiction.
  - destruct H as (-> & -> & -> & H). split; [discriminate|]. intros _.
    split; [reflexivity|]. right. split; [reflexivity | exact H].
Qed.

(** The theorem at an HSV object asked for CIELAB. *)
Lemma to_raises_no_cannot_convert_and_routes_fail_at_once_witness :
  (forall a b, AmbiguousConversion "HSV" "CIELAB" <> CannotConvert a b) /\
  (routing (AmbiguousConversion "HSV" "CIELAB") = true ->
   new_object HSV [("H", Some (Float64 [120])); ("S", Some (Float64 [0.5]));
                   ("V", Some (Float64 [0.5]))]
   = new_object HSV [("H", Some (Float64 [120])); ("S", Some (Float64 [0.5]));
                     ("V", Some (Float64 [0.5]))] /\
   (AmbiguousConversion "HSV" "CIELAB" = UnknownTransformation "HSV" "CIELAB" /\
    in_list "CIELAB" ALLOWED = false
    \/ AmbiguousConversion "HSV" "CIELAB" = AmbiguousConversion "HSV" "CIELAB" /\
       ambiguous_pair HSV "CIELAB" = true)).
Proof.
  apply (@to_raises_no_cannot_convert_and_routes_fail_at_once leading_terms 1 "CIELAB" true
           (new_object HSV [("H", Some (Float64 [120])); ("S", Some (Float64 [0.5]));
                            ("V", Some (Float64 [0.5]))])).
  reflexivity.
Defined.

(** ** The fix-up *)

Lemma rgbfixup1_cases (x : float) :
  is_finite x = true ->
  rgbfixup1 x = if x <=? 0 then 0 else if 1 <=? x then 1 else x.
Proof.
  intros Hf. unfold rgbfixup1, np_maximum, np_minimum. rewrite Hf.
  replace (is_nan 1) with false by reflexivity.
  replace (is_nan 0) with false by reflexivity.
  rewrite !orb_false_r.
  destruct (1 <=? x) eqn:E1.
  - replace (1 <=? 0) with false by reflexivity.
    destruct (x <=? 0) eqn:E0; [|reflexivity]. exfalso.
    rewrite leb_spec in E0, E1. rewrite Prim2SF_zero in E0.
    replace (Prim2SF 1) with (S754_finite false 4503599627370496 (-52)) in E1 by reflexivity.
    destruct (Prim2SF x) as [s|s| |s m e]; try discriminate.
    + destruct s; discriminate.
    + destruct s; discriminate.
  - destruct (x <=? 0); reflexivity.
Qed.

Lemma fixed_byte_spec (x : float) :
  is_finite x = true ->
  format_02X (astype_int (rgbfixup1 x * 255 + 0.5)) = fixed_byte x.
Proof.
  intros Hf. rewrite (rgbfixup1_cases x Hf). unfold fixed_byte.
  destruct (x <=? 0); [vm_compute; reflexivity|].
  destruct (1 <=? x); [vm_compute; reflexivity | reflexivity].
Qed.

Section FixUp.
Context {libm : Libm}.

Lemma sRGB_to_hex_fixed (R G B : arr) (h : ndarray) (i : nat) (r g b : float) :
  sRGB_to_hex R G B true = Ok h ->
  nth_error R i = Some r -> nth_error G i = Some g -> nth_error B i = Some b ->
  is_finite r = true -> is_finite g = true -> is_finite b = true ->
  nth_error (strings_of false h) i
  = Some (String "#" (fixed_byte r ++ fixed_byte g ++ fixed_byte b)).
Proof.
  unfold sRGB_to_hex.
  destruct (negb _); [discriminate|]. intros H. injection H as <-.
  intros Hr Hg Hb Fr Fg Fb. rewrite asarray_items. unfold map3.
  rewrite !nth_error_map.
  rewrite (nth_error_zip3 _ _ _ i (rgbfixup1 r) (rgbfixup1 g) (rgbfixup1 b))
    by (rewrite nth_error_map, ?Hr, ?Hg, ?Hb; reflexivity).
  cbn [option_map fst snd].
  rewrite !(fixed_finite true), Fr, Fg, Fb. cbn [andb].
  unfold gethex1. rewrite !fixed_byte_spec by assumption. reflexivity.
Qed.

End FixUp.

(** X25.  [sRGB_to_hex] with [fixup]: a color with three finite channels
    gets the hex color whose digits are 00 for a channel at or below 0, FF
    for a channel at or above 1, and those of [int(255 x + 0.5)] for a
    channel [x] between them. *)
Theorem fixup_clamps_the_channels_to_00_and_FF {libm : Libm}
  (R G B : arr) (h : ndarray) (i : nat) (r g b : float) :
  sRGB_to_hex R G B true = Ok h ->
  nth_error R i = Some r -> nth_error G i = Some g -> nth_error B i = Some b ->
  is_finite r = true -> is_finite g = true -> is_finite b = true ->
  nth_error (strings_of false h) i
  = Some (String "#" (fixed_byte r ++ fixed_byte g ++ fixed_byte b)).
Proof. exact (sRGB_to_hex_fixed R G B h i r g b). Qed.

(** The theorem at the second color of [sRGB_to_hex([0.5, 1.5], [0.5, -0.2],
    [0.5, 0.25], fixup = True)]. *)
Lemma fixup_clamps_the_channels_to_00_and_FF_witness :
  nth_error (@strings_of leading_terms false (Unicode 7 ["#808080"; "#FF0040"])) 1
  = Some "#FF0040".
Proof.
  apply (@fixup_clamps_the_channels_to_00_and_FF leading_terms
           [0.5; 1.5] [0.5; -0.2] [0.5; 0.25] _ 1%nat 1.5 (-0.2) 0.25);
    vm_compute; reflexivity.
Defined.

(** ** Conversions that never fail *)

Section Total.
Context {libm : Libm}.

Lemma sRGB_to_RGB_total (R G B : arr) (g : float) (n : nat) :
  len R = n -> len G = n -> len B = n ->
  exists r, sRGB_to_RGB R G B (GammaFloat g) = Ok r /\ lens3 r n.
Proof.
  intros HR HG HB. unfold sRGB_to_RGB.
  pose proof (len_recycle_float g (len R)) as Hg.
  set (gamma := recycle_gamma (GammaFloat g) (len R)) in *.
  rewrite check_all_equal by (repeat constructor; congruence).
  cbn [rbind]. rewrite HR in Hg.
  destruct (ftrans_total R gamma n HR Hg) as (R' & -> & HR').
  destruct (ftrans_total G gamma n HG Hg) as (G' & -> & HG').
  destruct (ftrans_total B gamma n HB Hg) as (B' & -> & HB').
  eexists. split; [reflexivity|]. lens'.
Qed.

Lemma RGB_to_XYZ_total (R G B : arr) (XN YN ZN : float) (n : nat) :
  len R = n -> len G = n -> len B = n ->
  exists r, RGB_to_XYZ R G B (WFloat XN) (WFloat YN) (WFloat ZN) = Ok r /\ lens3 r n.
Proof.
  intros HR HG HB.
  destruct (RGB_to_XYZ R G B (WFloat XN) (WFloat YN) (WFloat ZN)) as [r|e] eqn:E.
  - exists r. split; [reflexivity|]. exact (RGB_to_XYZ_len R G B XN YN ZN r n E HR HG HB).
  - exfalso. revert E. unfold RGB_to_XYZ. rewrite get_white_floats. cbn [rbind seq_values].
    rewrite check_all_equal by (repeat constructor; congruence). discriminate.
Qed.

Lemma XYZ_to_LUV_total (X Y Z : arr) (XN YN ZN : float) (n : nat) :
  len X = n -> len Y = n -> len Z = n ->
  exists r, XYZ_to_LUV X Y Z (WFloat XN) (WFloat YN) (WFloat ZN) = Ok r /\ lens3 r n.
Proof.
  intros HX HY HZ.
  destruct (XYZ_to_LUV X Y Z (WFloat XN) (WFloat YN) (WFloat ZN)) as [r|e] eqn:E.
  - exists r. split; [reflexivity|]. exact (XYZ_to_LUV_len X Y Z XN YN ZN r n E HX HY HZ).
  - exfalso. revert E. unfold XYZ_to_LUV. rewrite get_white_floats. cbn [rbind seq_values].
    rewrite check_all_equal by (repeat constructor; congruence). cbn [rbind].
    destruct (XYZ_to_uv_total X Y Z n HX HY HZ) as (u & v & -> & _). cbn [rbind].
    rewrite HX, uv_white_arrays.
    destruct (XYZ_to_uv_total (np_repeat (if truthy XN then XN else XN_default) n)
                (np_repeat (if truthy YN then YN else YN_default) n)
                (np_repeat (if truthy ZN then ZN else ZN_default) n) n) as (uN & vN & -> & _);
      try apply len_repeat.
    cbn [rbind]. discriminate.
Qed.

Lemma XYZ_to_LAB_total (X Y Z : arr) (XN YN ZN : float) (n : nat) :
  len X = n -> len Y = n -> len Z = n ->
  exists r, XYZ_to_LAB X Y Z (WFloat XN) (WFloat YN) (WFloat ZN) = Ok r /\ lens3 r n.
Proof.
  intros HX HY HZ.
  destruct (XYZ_to_LAB X Y Z (WFloat XN) (WFloat YN) (WFloat ZN)) as [r|e] eqn:E.
  - exists r. split; [reflexivity|]. exact (XYZ_to_LAB_len X Y Z XN YN ZN r n E HX HY HZ).
  - exfalso. revert E. unfold XYZ_to_LAB. rewrite get_white_floats. cbn [rbind seq_values].
    rewrite check_all_equal by (repeat constructor; congruence). cbn [rbind].
    discriminate.
Qed.

End Total.

(** Into the method of the class of [self], in the goal, for an allowed
    target. *)
Ltac into_method Ec :=
  rewrite to_S, Ec;
  first [ progress unfold polarLUV_to | progress unfold CIELUV_to
        | progress unfold CIEXYZ_to | progress unfold CIELAB_to
        | progress unfold polarLAB_to | progress unfold RGB_to
        | progress unfold sRGB_to | progress unfold HSV_to
        | progress unfold HLS_to | progress unfold hexcols_to ];
  rewrite andthen_allowed by reflexivity; cbv beta; rewrite ?Ec;
  cbn -[to become _transform_via_path_ call3 dict3 white hex_slices get_alpha
        hex_to_sRGB sRGB_to_hex sRGB_to_RGB RGB_to_sRGB RGB_to_XYZ XYZ_to_RGB
        XYZ_to_LUV LUV_to_XYZ XYZ_to_LAB LAB_to_XYZ LAB_to_polarLAB polarLAB_to_LAB
        LUV_to_polarLUV polarLUV_to_LUV sRGB_to_HSV HSV_to_sRGB sRGB_to_HLS
        HLS_to_sRGB].

Ltac one_hop Ec Hs F Tot :=
  into_method Ec;
  eapply become_total with (f := F);
  [ exact Hs | intros; apply Tot; assumption | reflexivity | reflexivity .. ].

Ltac by_hop L :=
  let x := fresh "x" in
  let Hx := fresh "Hx" in
  let Hc := fresh "Hc" in
  let H3 := fresh "H3" in
  destruct L as (x & Hx & Hc & H3);
  exists x; split; [exact Hx|]; unfold has_channels; rewrite Hc;
  split; [reflexivity | exact H3].

Section Hops.
Context {libm : Libm}.

Lemma hop_CIEXYZ_CIELUV (fuel : nat) (fixup : bool) (self : colorobject) (n : nat) :
  __class__ self = CIEXYZ -> has3 self "X" "Y" "Z" n ->
  exists x, to (S fuel) "CIELUV" fixup self = (None, x) /\
            __class__ x = CIELUV /\ has3 x "L" "U" "V" n.
Proof.
  intros Ec Hs.
  one_hop Ec Hs (fun X Y Z => XYZ_to_LUV X Y Z (WFloat (WHITEX self)) (WFloat (WHITEY self))
                                (WFloat (WHITEZ self))) XYZ_to_LUV_total.
Qed.

Lemma hop_CIEXYZ_CIELAB (fuel : nat) (fixup : bool) (self : colorobject) (n : nat) :
  __class__ self = CIEXYZ -> has3 self "X" "Y" "Z" n ->
  exists x, to (S fuel) "CIELAB" fixup self = (None, x) /\
            __class__ x = CIELAB /\ has3 x "L" "A" "B" n.
Proof.
  intros Ec Hs.
  one_hop Ec Hs (fun X Y Z => XYZ_to_LAB X Y Z (WFloat (WHITEX self)) (WFloat (WHITEY self))
                                (WFloat (WHITEZ self))) XYZ_to_LAB_total.
Qed.

Lemma hop_RGB_CIEXYZ (fuel : nat) (fixup : bool) (self : colorobject) (n : nat) :
  __class__ self = RGB -> has3 self "R" "G" "B" n ->
  exists x, to (S fuel) "CIEXYZ" fixup self = (None, x) /\
            __class__ x = CIEXYZ /\ has3 x "X" "Y" "Z" n.
Proof.
  intros Ec Hs.
  one_hop Ec Hs (fun R G B => RGB_to_XYZ R G B (WFloat (WHITEX self)) (WFloat (WHITEY self))
                                (WFloat (WHITEZ self))) RGB_to_XYZ_total.
Qed.

Lemma hop_sRGB_RGB (fuel : nat) (fixup : bool) (self : colorobject) (n : nat) :
  __class__ self = sRGB -> has3 self "R" "G" "B" n ->
  exists x, to (S fuel) "RGB" fixup self = (None, x) /\
            __class__ x = RGB /\ has3 x "R" "G" "B" n.
Proof.
  intros Ec Hs.
  one_hop Ec Hs (fun R G B => sRGB_to_RGB R G B (GammaFloat (GAMMA self))) sRGB_to_RGB_total.
Qed.

Lemma direct_total (fuel : nat) (fixup : bool) (self : colorobject) (n : nat) (t : string) :
  has_channels self n -> direct (__class__ self) t = true ->
  exists x, to (S fuel) t fixup self = (None, x) /\
            target_class t = Some (__class__ x) /\ has_channels x n.
Proof.
  unfold has_channels at 1. destruct (__class__ self) eqn:Ec; intros Hs Hd;
    try contradiction; cbn [direct] in Hd; apply in_list_In in Hd; cbn [In] in Hd;
    repeat (destruct Hd as [<- | Hd]); try contradiction.
  all: first
    [ by_hop (hop_CIEXYZ_CIELUV fuel fixup self n Ec Hs)
    | by_hop (hop_CIEXYZ_CIELAB fuel fixup self n Ec Hs)
    | by_hop (hop_CIEXYZ_RGB fuel fixup self n Ec Hs)
    | by_hop (hop_CIELUV_CIEXYZ fuel fixup self n Ec Hs)
    | by_hop (hop_CIELAB_CIEXYZ fuel fixup self n Ec Hs)
    | by_hop (hop_polarLUV_CIELUV fuel fixup self n Ec Hs)
    | by_hop (hop_polarLAB_CIELAB fuel fixup self n Ec Hs)
    | by_hop (hop_RGB_sRGB fuel fixup self n Ec Hs)
    | by_hop (hop_RGB_CIEXYZ fuel fixup self n Ec Hs)
    | by_hop (hop_sRGB_RGB fuel fixup self n Ec Hs)
    | by_hop (hop_HLS_sRGB fuel fixup self n Ec Hs) ].
Qed.

End Hops.

Section Paths.
Context {libm : Libm}.

Lemma path_total (fuel : nat) (fixup : bool) (n : nat) (via : list string) :
  forall self,
    has_channels self n -> path_direct (__class__ self) via = true ->
    exists x, _transform_via_path_ (to (S fuel)) via fixup self = (None, x) /\
              has_channels x n.
Proof.
  induction via as [|v via IH]; intros self Hs Hp.
  - exists self. split; [reflexivity | exact Hs].
  - cbn [path_direct] in Hp. apply andb_prop in Hp as [Hd Hp].
    destruct (direct_total fuel fixup self n v Hs Hd) as (y & Hy & Hc & Hy3).
    rewrite Hc in Hp. destruct (IH y Hy3 Hp) as (x & Hx & Hx3).
    exists x. split; [|exact Hx3]. cbn [_transform_via_path_].
    exact (andthen_intro _ _ _ _ _ Hy Hx).
Qed.

Lemma to_plain_total (fuel : nat) (t : string) (fixup : bool) (self : colorobject) (n : nat) :
  has_channels self n ->
  in_list t ["CIEXYZ"; "CIELUV"; "CIELAB"; "RGB"; "sRGB"] = true ->
  ambiguous_pair (__class__ self) t = false ->
  exists x, to (S (S (S fuel))) t fixup self = (None, x) /\ has_channels x n.
Proof.
  intros Hs Ht Ha. apply in_list_In in Ht. cbn [In] in Ht.
  pose proof Hs as Hs'. unfold has_channels in Hs'.
  repeat (destruct Ht as [<- | Ht]); try contradiction;
    destruct (__class__ self) eqn:Ec; try contradiction; try discriminate Ha;
    first [ exists self; split; [|exact Hs];
            apply to_own_space; rewrite Ec; reflexivity
          | match goal with
            | |- exists x, to _ ?t _ _ = _ /\ _ =>
                destruct (direct_total (S (S fuel)) fixup self n t Hs
                            ltac:(rewrite Ec; reflexivity)) as (x & Hx & _ & H3);
                exists x; split; assumption
            end
          | into_method Ec; apply path_total; [exact Hs | rewrite Ec; reflexivity]
          | idtac ].
  (* polarLUV to sRGB: the last hop of the path is a path itself *)
  destruct (hop_polarLUV_CIELUV (S fuel) fixup self n Ec Hs') as (y1 & Hy1 & E1 & S1).
  destruct (hop_CIELUV_CIEXYZ (S fuel) fixup y1 n E1 S1) as (y2 & Hy2 & E2 & S2).
  destruct (hop_CIEXYZ_sRGB fuel fixup y2 n E2 S2) as (y3 & Hy3 & E3 & S3).
  exists y3. split; [|unfold has_channels; rewrite E3; exact S3].
  into_method Ec. cbn [_transform_via_path_].
  repeat (eapply andthen_intro; [eassumption|]). reflexivity.
Qed.

End Paths.

(** X26.  An object that holds its three channels with [n] values each
    (any class but HSV and hexcols) converts to CIEXYZ, CIELUV, CIELAB, RGB
    and sRGB without an exception, whatever the values are and unless the
    pair is an ambiguous one (HLS to a CIE space); three levels of calls
    are enough, and the result holds three channels of [n] values again. *)
Theorem to_a_space_without_hue_never_fails {libm : Libm}
  (fuel : nat) (t : string) (fixup : bool) (self : colorobject) (n : nat) :
  has_channels self n ->
  in_list t ["CIEXYZ"; "CIELUV"; "CIELAB"; "RGB"; "sRGB"] = true ->
  ambiguous_pair (__class__ self) t = false ->
  exists x, to (S (S (S fuel))) t fixup self = (None, x) /\ has_channels x n.
Proof. exact (to_plain_total fuel t fixup self n). Qed.

(** The theorem at a polarLUV object of one color, converted to sRGB. *)
Lemma to_a_space_without_hue_never_fails_witness :
  exists x,
    @to leading_terms 3 "sRGB" true
      (new_object polarLUV [("H", Some (Float64 [120])); ("C", Some (Float64 [50]));
                            ("L", Some (Float64 [70]))])
    = (None, x) /\ has_channels x 1.
Proof.
  apply (@to_a_space_without_hue_never_fails leading_terms 0 "sRGB" true
           (new_object polarLUV [("H", Some (Float64 [120])); ("C", Some (Float64 [50]));
                                 ("L", Some (Float64 [70]))]) 1).
  - exists [70], [50], [120]. repeat split.
  - reflexivity.
  - reflexivity.
Defined.

(* ================================================================== *)
(** * The strings of [colors] *)
(* ================================================================== *)

Section ColorsItems.
Context {libm : Libm}.

Lemma call3_inv {T : Type} (self : colorobject) (k1 k2 k3 : string)
  (f : arr -> arr -> arr -> result T) (r : T) :
  call3 self k1 k2 k3 f = Ok r ->
  exists a1 a2 a3,
    get self k1 = Ok (Some (Float64 a1)) /\ get self k2 = Ok (Some (Float64 a2)) /\
    get self k3 = Ok (Some (Float64 a3)) /\ f a1 a2 a3 = Ok r.
Proof.
  unfold call3.
  destruct (get self k1) as [v1|]; [|discriminate].
  destruct (get self k2) as [v2|]; [|discriminate].
  destruct (get self k3) as [v3|]; [|discriminate]. cbn [rbind].
  destruct v1 as [[a1|]|]; try discriminate.
  destruct v2 as [[a2|]|]; try discriminate.
  destruct v3 as [[a3|]|]; try discriminate. cbn [rbind as_float64].
  intros H. exists a1, a2, a3. repeat split. exact H.
Qed.

(** The hop from sRGB to hex: the array [sRGB_to_hex] makes of the three
    channels. *)
Lemma hex_hop_of_sRGB (fuel : nat) (fixup : bool) (self x : colorobject) :
  __class__ self = sRGB ->
  to fuel "hex" fixup self = (None, x) ->
  exists R G B hex_,
    get self "R" = Ok (Some (Float64 R)) /\ get self "G" = Ok (Some (Float64 G)) /\
    get self "B" = Ok (Some (Float64 B)) /\
    sRGB_to_hex R G B fixup = Ok hex_ /\ get x "hex_" = Ok (Some hex_).
Proof.
  intros Ec H. destruct fuel as [|fuel]; [discriminate H|].
  rewrite to_S, Ec in H. unfold sRGB_to in H.
  rewrite andthen_allowed in H by reflexivity. cbv beta in H. rewrite Ec in H.
  cbn -[become call3 get_alpha sRGB_to_hex] in H.
  apply become_ok in H as [_ Hd].
  destruct (call3 self "R" "G" "B" (fun R G B => sRGB_to_hex R G B fixup)) as [hex_|] eqn:E;
    [|discriminate Hd].
  cbn [rbind] in Hd. injection Hd as Hd.
  apply call3_inv in E as (R & G & B & G1 & G2 & G3 & E).
  exists R, G, B, hex_. repeat split; try assumption.
  unfold get. rewrite <- Hd. reflexivity.
Qed.

(** The conversions RGB, HSV and HLS make to sRGB themselves do not depend
    on the fuel. *)
Lemma direct_sRGB_fuel (f1 f2 : nat) (fixup : bool) (self : colorobject) :
  __class__ self = RGB \/ __class__ self = HSV \/ __class__ self = HLS ->
  to (S f1) "sRGB" fixup self = to (S f2) "sRGB" fixup self.
Proof.
  intros [Ec|[Ec|Ec]]; rewrite !to_S, Ec;
    first [ progress unfold RGB_to | progress unfold HSV_to | progress unfold HLS_to ];
    rewrite !andthen_allowed by reflexivity; cbv beta; rewrite Ec; reflexivity.
Qed.

(** On the way to hex every object passes sRGB: [to("hex")] of an object
    that is not a hexcols object leaves the hex array [sRGB_to_hex] makes of
    the channels that [to("sRGB")] leaves. *)
Lemma to_hex_through_sRGB (fuel : nat) (fixup : bool) (self x : colorobject) :
  __class__ self <> hexcols ->
  to fuel "hex" fixup self = (None, x) ->
  exists y R G B hex_,
    to fuel "sRGB" fixup self = (None, y) /\
    get y "R" = Ok (Some (Float64 R)) /\ get y "G" = Ok (Some (Float64 G)) /\
    get y "B" = Ok (Some (Float64 B)) /\
    sRGB_to_hex R G B fixup = Ok hex_ /\ get x "hex_" = Ok (Some hex_).
Proof.
  intros Hc H. destruct fuel as [|fuel]; [discriminate H|].
  destruct (__class__ self) eqn:Ec; try (exfalso; apply Hc; reflexivity).
  all: try (
    pose proof H as H0;
    rewrite to_S, Ec in H;
    first [ progress unfold polarLUV_to in H | progress unfold CIELUV_to in H
          | progress unfold CIEXYZ_to in H | progress unfold CIELAB_to in H
          | progress unfold polarLAB_to in H | progress unfold RGB_to in H
          | progress unfold HSV_to in H | progress unfold HLS_to in H ];
    rewrite andthen_allowed in H by reflexivity; cbv beta in H; rewrite ?Ec in H;
    cbn -[to become _transform_via_path_] in H; hops H).
  all: try match goal with
    | Hs : to ?f "sRGB" _ ?y = (None, ?z), Hh : to ?f "hex" _ ?z = (None, _) |- _ =>
        pose proof (to_target_class _ _ _ _ _ Hs) as Ez;
        cbn in Ez; injection Ez as Ez; symmetry in Ez;
        destruct (hex_hop_of_sRGB f _ z _ Ez Hh) as (R & G & B & hex_ & G1 & G2 & G3 & E & Gx);
        exists z, R, G, B, hex_; repeat split; try assumption
    end.
  all: try (rewrite to_S, Ec;
    first [ progress unfold polarLUV_to | progress unfold CIELUV_to
          | progress unfold CIEXYZ_to | progress unfold CIELAB_to
          | progress unfold polarLAB_to ];
    rewrite andthen_allowed by reflexivity; cbv beta; rewrite ?Ec;
    cbn -[to become _transform_via_path_];
    repeat (eapply andthen_intro; [eassumption|]); reflexivity).
  all: try match goal with
    | Hs : to ?f "sRGB" _ ?s = (None, ?z) |- to (S ?f) "sRGB" _ ?s = (None, ?z) =>
        destruct f as [|f']; [discriminate Hs|];
        rewrite (direct_sRGB_fuel (S f') f' _ s) by (rewrite Ec; auto);
        exact Hs
    end.
  (* sRGB *)
  destruct (hex_hop_of_sRGB (S fuel) fixup self x Ec H) as (R & G & B & hex_ & G1 & G2 & G3 & E & Gx).
  exists self, R, G, B, hex_. repeat split; try assumption.
  apply to_own_space. rewrite Ec. reflexivity.
Qed.

Lemma colors_items (fuel : nat) (self : colorobject) (fixup : bool) (l : list string) :
  __class__ self <> hexcols ->
  colors fuel self fixup false = Ok l ->
  exists y R G B,
    to fuel "sRGB" fixup self = (None, y) /\
    get y "R" = Ok (Some (Float64 R)) /\ get y "G" = Ok (Some (Float64 G)) /\
    get y "B" = Ok (Some (Float64 B)) /\
    len l = len R /\
    forall i r g b,
      nth_error R i = Some r -> nth_error G i = Some g -> nth_error B i = Some b ->
      alpha_below_one self i = false ->
      exists s, nth_error l i = Some s /\
                if gets_hex fixup r g b then is_hex7 s = true else s = "nan".
Proof.
  intros Hc. unfold colors.
  destruct (to fuel "hex" fixup self) as [[e|] x] eqn:Et; [discriminate|].
  apply to_hex_through_sRGB in Et as (y & R & G & B & hex_ & Hy & G1 & G2 & G3 & E & Gx);
    [|exact Hc].
  rewrite Gx. cbn [rbind].
  apply sRGB_to_hex_item in E as [Hlen Hitem].
  destruct (hasalpha x).
  - destruct (append_alpha self _ hex_) as [c|] eqn:Ea; [|discriminate]. cbn [rbind].
    intros H. injection H as <-.
    apply append_alpha_keeps in Ea as [Hl Hk].
    exists y, R, G, B.
    split; [exact Hy|]. split; [exact G1|]. split; [exact G2|]. split; [exact G3|].
    split; [rewrite <- Hlen; exact Hl|].
    intros i r g b Hr Hg Hb Hi.
    change (exists s, nth_error (strings_of false c) i = Some s /\
                      if gets_hex fixup r g b then is_hex7 s = true else s = "nan").
    rewrite (Hk i Hi). exact (Hitem i r g b Hr Hg Hb).
  - cbn [rbind]. intros H. injection H as <-.
    exists y, R, G, B.
    split; [exact Hy|]. split; [exact G1|]. split; [exact G2|]. split; [exact G3|].
    split; [exact Hlen|].
    intros i r g b Hr Hg Hb _. exact (Hitem i r g b Hr Hg Hb).
Qed.

End ColorsItems.

(** C9, as the code has it.  [colors(fixup, rev = True)] is the list of
    [colors(fixup)] reversed.  For an object that is not a hexcols object,
    [colors(fixup)] has one string for each color, and the string of a
    color whose alpha is absent or not below 1.0 is decided by the sRGB
    coordinates of the color, those [to("sRGB")] leaves: a 7-character hex
    color when they are valid (finite with [fixup], between 0 and 1
    without), and [nan] when they are not.  For an object with [n] values in
    each channel (of any class but hexcols and HSV) and no alpha below 1.0,
    [colors] returns; the objects the constructors of these classes make
    without alpha are such objects. *)
Theorem colors_gives_hex_colors_or_nan {libm : Libm} :
  (forall fuel self fixup l,
      colors fuel self fixup false = Ok l ->
      colors fuel self fixup true = Ok (List.rev l))
  /\ (forall fuel self fixup l,
      __class__ self <> hexcols ->
      colors fuel self fixup false = Ok l ->
      exists y R G B,
        to fuel "sRGB" fixup self = (None, y) /\
        get y "R" = Ok (Some (Float64 R)) /\ get y "G" = Ok (Some (Float64 G)) /\
        get y "B" = Ok (Some (Float64 B)) /\
        len l = len R /\
        forall i r g b,
          nth_error R i = Some r -> nth_error G i = Some g -> nth_error B i = Some b ->
          alpha_below_one self i = false ->
          exists s, nth_error l i = Some s /\
                    if gets_hex fixup r g b then is_hex7 s = true else s = "nan")
  /\ (forall fuel self fixup n,
      has_channels self n -> no_alpha_below_one self n ->
      exists l, colors (S (S (S fuel))) self fixup false = Ok l /\ len l = n)
  /\ (forall fuel o fixup,
      constructed_without_alpha o ->
      exists n l, has_channels o n /\
                  colors (S (S (S fuel))) o fixup false = Ok l /\ len l = n).
Proof.
  split; [|split; [|split]].
  - exact colors_rev.
  - exact colors_items.
  - exact colors_total.
  - intros fuel o fixup Ho.
    destruct (constructed_has_channels o Ho) as (n & Hch & Ha).
    destruct (colors_total fuel o fixup n Hch Ha) as (l & Hl & Hn).
    exists n, l. repeat split; assumption.
Qed.

(** The theorem at [sRGB([0.5, 1.5, 0.2], [0.5, 0.5, 1], [0.5, 0.5, 0])]
    and [fixup = False]: three strings, the second of them [nan]. *)
Lemma colors_gives_hex_colors_or_nan_witness :
  exists y R G B,
    @to leading_terms 1 "sRGB" false
      (new_object sRGB [("R", Some (Float64 [0.5; 1.5; 0.2]));
                        ("G", Some (Float64 [0.5; 0.5; 1]));
                        ("B", Some (Float64 [0.5; 0.5; 0]))]) = (None, y) /\
    get y "R" = Ok (Some (Float64 R)) /\ get y "G" = Ok (Some (Float64 G)) /\
    get y "B" = Ok (Some (Float64 B)) /\
    len ["#808080"; "nan"; "#33FF00"] = len R /\
    forall i r g b,
      nth_error R i = Some r -> nth_error G i = Some g -> nth_error B i = Some b ->
      alpha_below_one
        (new_object sRGB [("R", Some (Float64 [0.5; 1.5; 0.2]));
                          ("G", Some (Float64 [0.5; 0.5; 1]));
                          ("B", Some (Float64 [0.5; 0.5; 0]))]) i = false ->
      exists s, nth_error ["#808080"; "nan"; "#33FF00"] i = Some s /\
                if gets_hex false r g b then is_hex7 s = true else s = "nan".
Proof.
  apply (proj1 (proj2 (@colors_gives_hex_colors_or_nan leading_terms)) 1%nat
           (new_object sRGB [("R", Some (Float64 [0.5; 1.5; 0.2]));
                             ("G", Some (Float64 [0.5; 0.5; 1]));
                             ("B", Some (Float64 [0.5; 0.5; 0]))]) false).
  - discriminate.
  - vm_compute. reflexivity.
Defined.

(** C9 as stated fails.  [CIEXYZ(0, 50, 0)] has no alpha and lies outside
    the sRGB gamut: [colors(fixup = False)] is [["nan"]], a string of three
    characters where the claim has a hex color of seven. *)
Lemma colors_gives_nan_for_a_color_outside_the_gamut :
  exists o,
    CIEXYZ__init__ (PyNumber 0) (PyNumber 50) (PyNumber 0) PyNone = Ok o /\
    hasalpha o = false /\
    forall libm : Libm, @colors libm 3 o false false = Ok ["nan"].
Proof.
  eexists. split; [reflexivity|]. split; [reflexivity|]. intros libm. vm_compute. reflexivity.
Qed.

(** The alpha suffix of [colors] is lost: [sRGB(0.5, 0.5, 0.5, alpha =
    0.5)] has an alpha below 1.0, and [colors()] is [["#808080"]].  The
    loop appends the suffix to an item of the array of [sRGB_to_hex], whose
    items are 7 characters wide, and the array cuts it off again. *)
Lemma colors_loses_the_alpha_suffix :
  exists o,
    sRGB__init__ (PyNumber 0.5) (PyNumber 0.5) (PyNumber 0.5) (PyNumber 0.5) None = Ok o /\
    alpha_below_one o 0 = true /\
    forall libm : Libm, @colors libm 3 o true false = Ok ["#808080"].
Proof.
  eexists. split; [reflexivity|]. split; [reflexivity|]. intros libm. vm_compute. reflexivity.
Qed.
